(* ===== verification/_CoqProject ===== *)
-Q . S2P
Prelude.v
Threads.v
GoStrings.v
GoNet.v
GoURL.v
GoBase64.v
GoPath.v
Runtime.v
RuntimeExample.v
GoJson.v
IdpState.v
IdpUtil.v
IdpRegistry.v
IdpMetadata.v
IdpClientAuth.v
IdpJwt.v
IdpSessions.v
IdpAuthorize.v
IdpToken.v
IdpDiscovery.v
IdpInvariant.v
IdpFlow.v
IdpServer.v
IdpThreads.v
IdpConcurrent.v
IdpLive.v
IdpExample.v
BffSession.v
BffManager.v
BffTable.v
BffHandler.v
BffMiddleware.v
BffServer.v
BffGateway.v
BffConfig.v
