(* ===== verification/Prelude.v ===== *)
(** * A verification of the OIDC identity provider and its browser gateway

    The repository holds two programs.  The identity provider ([idp-auth-server/],
    "IdP") is an OpenID provider for demonstrations: authorization code flow with
    PKCE, dynamic client registration, client ID metadata documents fetched from the
    client's own site, private_key_jwt client authentication, userinfo and
    discovery.  The browser gateway ([bff/], "BFF") logs a browser in at such a
    provider, keeps the tokens in a session behind a cookie, and forwards API
    requests with the session's token.  This library models both, from the helper
    functions up to runs of the whole servers, and proves what they promise.

    ** How Go is read

    Handlers are functions in the state monad [Eff] of this file: a computation
    takes a world and gives a result and a world.  [wp m Q w] says that running [m]
    from [w] ends in a result and world satisfying [Q]; since the computations are
    total functions it is total correctness.  [steps R m] says that [m] only moves
    the world along the relation [R]: the frame rule by which a property of every
    elementary effect becomes one of every handler.  A [World] (Runtime) is the
    program's shared state, how often each outside source was consulted, and the
    addresses connected to.  A request handler is one function from a request to a
    computation of a response (IdP) or of what it wrote to its response writer and
    whether it panicked (BFF); errors are values.

    The language and its standard library are modelled: strings (byte strings) in
    GoStrings, IP addresses in GoNet, URLs and queries in GoURL, base64 in GoBase64,
    clean paths and their segments in GoPath, JSON into structs in GoJson, requests,
    headers and cookies in Runtime, the response writer with its informational
    responses in BffHandler, ReverseProxy in BffServer, ServeMux in IdpServer (over
    literal patterns and a catch-all) and in BffServer (with methods and subtrees).  Integers are [Z]; where 64 bits matter ([time.Duration] products) the
    wrap-around is written out ([wrap64]).  A range over a Go map visits its entries
    in an arbitrary order ([range_perm], the order of the n-th range of the run).

    What is not under [src/] is an argument: the class [Runtime] (the clock, UUIDs,
    random bytes, the network, hashes, golang-jwt, go-jose, the JSON text syntax),
    [BffRuntime] (AES-GCM, the Redis server), [GatewayLib] (the HTTP client),
    [OIDCLib] (go-oidc and oauth2).  What the code relies on of them are the classes
    [RuntimeLaws] (a range visits each entry once, UUIDs do not repeat, the clock
    does not go back), [JwtLaws] (a token that parses was signed under a key the key
    function offered) and [BffLaws] (decryption undoes encryption, JSON and Redis
    give back what they were given).  RuntimeExample and BffManager give instances
    that compute, so every law holds of something and runs can be evaluated.

    ** The identity provider ([idp-auth-server/])

    - IdpState: the records and maps of [server] in [main.go] ([sv_authContext],
      [sv_codeMeta], [sv_sessions], [sv_clients], [sv_clientIDMetadata],
      [sv_privateKeyJWTJTIs]) and [Config], the fields set once by [newServer].
    - IdpUtil: the leaf functions of [main.go].  Redirect addresses read back as
      meant; public subjects are the users' own and pairwise ones collide only with
      the HMAC.
    - IdpRegistry: [register], [normalizeRegistration], [registerClientLocked],
      [clientsPage].  What is accepted, exactly; what a registration creates; that
      observed traffic never widens what a client registered itself.
    - IdpMetadata: [clientid_metadata.go], with the guard [checkFetchAddress] in
      GoNet.  Documents are the client's own; cache lifetimes are bounded; the guard
      is a set of address ranges.
    - IdpClientAuth: [private_key_jwt.go] and [authenticateClient].  Who is let
      through, the keys an assertion may be verified with, the replay cache.
    - IdpJwt: [issueToken], [decodeJWT], [extractAccessToken].
    - IdpAuthorize: [authorize], [login], [approve], [logout], [endsession].
    - IdpToken: [token] in its parts ([redeem], client authentication,
      [issue_tokens]), [userinfo], [avatar].
    - IdpDiscovery: [jwks], [openidConfiguration], [index], [styleCSS].
    - IdpSessions, IdpInvariant: the invariant [world_ok] of sessions, registrations
      and codes, preserved by every handler; lookups that range over the session map
      do not depend on its order.
    - IdpFlow: what the flow promises: where [authorize] redirects, what [approve]
      grants, what [token] requires and that it honours a good code, what [userinfo]
      releases.
    - IdpServer: [newServer], [newMux] (unclean paths are redirected to clean ones, as
      ServeMux does), [withCORS], runs over any sequence of requests
      ([reachable], [run]), and the theorems about runs: the invariant, codes redeemed
      at most once, assertions not replayed, only guarded addresses connected to.
    - IdpThreads, IdpConcurrent (over Threads): requests served at the same time.
      Every handler is cut where another request may come in between: at its
      critical sections of [s.mu] and its effects outside.  A session read under the
      lock shares its slice of client sessions and their claim maps with the server,
      so a read of them after [Unlock] gives an arbitrary value.  A pool of threads
      steps through all interleavings; the sequential runs above are among them
      ([runs_are_interleavings]); in all of them a code is redeemed at most once, an
      assertion is accepted at most once and only guarded addresses are connected to;
      a login can be approved twice ([approval_not_exclusive]).
    - IdpLive: from the login page to the tokens as one theorem.
    - IdpExample: an evaluated run of the whole flow, and the instances of the
      theorems at that run.

    ** The browser gateway ([bff/])

    - BffSession: [internal/session]: the session and its JSON, the memory, Redis and
      cookie stores, the manager.  The contract of a store is the class [StoreSpec]
      (with [RevocableStore] for stores that can forget); the three stores are
      instances, and the theorems about manager and gateway are proved from it.
    - BffManager: a session created is read back, from each of the three stores;
      lifetimes; what a failed [Rotate] loses.  BffTable: [MemoryStore] refines an abstract table
      of expiring entries, by a simulation over arbitrary call sequences.
    - BffHandler: the response writer, [state_claims.go] and [auth.go].
    - BffMiddleware: [handler/middleware.go], [middleware/recovery.go] and
      [logging.go], the stack of [router.go], and what it lets through.
    - BffServer: [proxy.go], the route table, [server.NewBFF]; the paths the API proxy
      sends to, and what an informational response of a proxied server does to the
      answer's fields.
    - BffGateway: the gateway as a whole: what is sent to the servers behind it and on
      whose behalf, the headers the first response to a request carries, login states
      used once.
    - BffConfig: [internal/config], [oidc.go], [oidc_runtime.go] and [run] of
      [cmd/bff/main.go]: what start-up accepts, its bounded wait for the provider, and
      that what it serves is the gateway of the other theorems.

    ** Bounds and fuel

    Recursions are structural.  The two with fuel are [big.Int.Bytes] (IdpDiscovery),
    whose fuel is the bit length, proved enough by [be_bytes_value]; and the retry
    loop (BffConfig), whose fuel is the source's own [maxAttempts].

    ** Not modelled

    Logging and what only feeds it ([logRequest], [readBody], [withLogging],
    [logAuthFailure]); the text of HTML pages ([renderTemplate] gets the data of the
    page, the type [page]) and of the pretty-printed registration on /clients;
    [main], flags, [ListenAndServe], [loadTemplates] beyond success or failure;
    [Hijack] and [Flush] of [response_writer.go]; trailers of proxied answers; an API
    prefix with braces, which ServeMux would read as a wildcard ([NewBFF] gives
    [None] for it, as for a prefix on which registering panics); request contexts and timeouts (a
    fetch that times out is one that fails).  The gateway's requests are served one
    after another; the provider's are interleaved at their critical sections, but a
    data race is no more than an arbitrary value read: that Go may abort a program
    that writes a map while another goroutine reads it is not modelled.  The parsing
    of a request's head into method, path, header, cookies and form is the library's;
    a request is given as those parts. *)

From stdpp Require Export base gmap strings list fin_maps numbers sorting.
From stdpp Require Import options.

Declare Scope oidc_scope.
Delimit Scope oidc_scope with oidc.
#[global] Open Scope stdpp_scope.

(** The lemmas that automate the common cases live in this database. *)
Create HintDb oidc.
Create Rewrite HintDb oidc_str.

(** ** The state monad of the handlers

    A Go handler reads and writes the state it shares with the others; the
    translation passes that state explicitly. *)

Definition Eff (W A : Type) : Type := W → A * W.

#[global] Instance eff_ret W : MRet (Eff W) := λ A x w, (x, w).
#[global] Instance eff_bind W : MBind (Eff W) :=
  λ A B f m w, let '(x, w') := m w in f x w'.
#[global] Instance eff_fmap W : FMap (Eff W) :=
  λ A B f m w, let '(x, w') := m w in (f x, w').

Definition reads {W A} (f : W → A) : Eff W A := λ w, (f w, w).
Definition writes {W} (f : W → W) : Eff W unit := λ w, (tt, f w).

(** [wp m Q w]: running [m] from [w] ends in a result and a state of [Q].
    The computations are total, so this is total correctness. *)
Definition wp {W A} (m : Eff W A) (Q : A → W → Prop) (w : W) : Prop :=
  Q (m w).1 (m w).2.

Section wp.
Context {W : Type}.
Implicit Types (w : W).

Lemma wp_ret {A} (x : A) Q w : wp (mret x) Q w ↔ Q x w.
Proof. done. Qed.

Lemma wp_bind {A B} (m : Eff W A) (f : A → Eff W B) Q w :
  wp (m ≫= f) Q w ↔ wp m (λ x, wp (f x) Q) w.
Proof. unfold wp, mbind, eff_bind. by destruct (m w). Qed.

Lemma wp_reads {A} (f : W → A) Q w : wp (reads f) Q w ↔ Q (f w) w.
Proof. done. Qed.

Lemma wp_writes (f : W → W) Q w : wp (writes f) Q w ↔ Q tt (f w).
Proof. done. Qed.

Lemma wp_mono {A} (m : Eff W A) (Q Q' : A → W → Prop) w :
  wp m Q w → (∀ x w', Q x w' → Q' x w') → wp m Q' w.
Proof. unfold wp. auto. Qed.

Lemma wp_and {A} (m : Eff W A) (Q Q' : A → W → Prop) w :
  wp m Q w → wp m Q' w → wp m (λ x w', Q x w' ∧ Q' x w') w.
Proof. unfold wp. auto. Qed.

Lemma wp_intro {A} (m : Eff W A) (Q : A → W → Prop) w x w' :
  m w = (x, w') → wp m Q w → Q x w'.
Proof. unfold wp. by intros ->. Qed.
End wp.

(** [preserves I m]: [m] keeps the invariant [I], whatever it returns. *)
Definition preserves {W A} (I : W → Prop) (m : Eff W A) : Prop :=
  ∀ w, I w → wp m (λ _, I) w.

Section preserves.
Context {W : Type} (I : W → Prop).

Lemma preserves_ret {A} (x : A) : preserves I (mret x).
Proof. by intros w. Qed.

Lemma preserves_bind {A B} (m : Eff W A) (f : A → Eff W B) :
  preserves I m → (∀ x, preserves I (f x)) → preserves I (m ≫= f).
Proof.
  intros Hm Hf w Hw. apply wp_bind. eapply wp_mono; [by apply Hm|].
  intros x w' Hw'. by apply Hf.
Qed.

Lemma preserves_reads {A} (f : W → A) : preserves I (reads f).
Proof. by intros w. Qed.

Lemma preserves_writes (f : W → W) :
  (∀ w, I w → I (f w)) → preserves I (writes f).
Proof. by intros Hf w Hw; apply Hf. Qed.
End preserves.

#[export] Hint Resolve preserves_ret preserves_bind preserves_reads : oidc.

(** [steps R m]: running [m] moves the state along [R]. *)
Definition steps {W A} (R : W → W → Prop) (m : Eff W A) : Prop := ∀ w, R w (m w).2.

Section steps.
Context {W : Type} (R : W → W → Prop) `{!PreOrder R}.

Lemma steps_ret {A} (x : A) : steps R (mret x).
Proof using Type*. intros w. apply reflexivity. Qed.

Lemma steps_bind {A B} (m : Eff W A) (f : A → Eff W B) :
  steps R m → (∀ x, steps R (f x)) → steps R (m ≫= f).
Proof using Type*.
  intros Hm Hf w. unfold mbind, eff_bind. specialize (Hm w).
  destruct (m w) as [x w1]. by etrans; [|apply Hf].
Qed.

Lemma steps_reads {A} (f : W → A) : steps R (reads f).
Proof using Type*. intros w. apply reflexivity. Qed.

Lemma steps_writes (f : W → W) : (∀ w, R w (f w)) → steps R (writes f).
Proof. intros Hf w. apply Hf. Qed.
End steps.

Lemma steps_mono {W A} (R R' : W → W → Prop) (m : Eff W A) :
  steps R m → (∀ w w', R w w' → R' w w') → steps R' m.
Proof. intros Hm HR w. apply HR, Hm. Qed.

(** A step relation bounds what [wp] says of the state. *)
Lemma wp_steps_and {W A} (R : W → W → Prop) (m : Eff W A) (Q : A → W → Prop) w :
  steps R m → wp m Q w → wp m (λ x w', Q x w' ∧ R w w') w.
Proof. intros HR HQ. split; [done|apply HR]. Qed.

(** ** Booleans as the propositions they decide *)

Lemma bool_iff (b : bool) (P : Prop) : (b = true ↔ P) → if b then P else ¬ P.
Proof. destruct b; intuition congruence. Qed.

(** ** Lists *)

Lemma filter_all {A} (f : A → bool) l :
  Forall (λ x, f x = true) l → List.filter f l = l.
Proof. induction 1 as [|x l Hx Hl IH]; simpl; [done|]. by rewrite Hx, IH. Qed.

(** ** Proof automation *)

(** One step of case analysis on what the goal or a hypothesis matches on. *)
Ltac case_step :=
  match goal with
  | |- context [match ?x with _ => _ end] =>
      lazymatch x with
      | context [match _ with _ => _ end] => fail
      | _ => let E := fresh "E" in destruct x eqn:E
      end
  end.

Ltac case_goal := repeat (case_step; simplify_eq/=; try done).

Ltac case_hyp_step H :=
  match type of H with
  | context [match ?x with _ => _ end] =>
      lazymatch x with
      | context [match _ with _ => _ end] => fail
      | _ => let E := fresh "E" in destruct x eqn:E
      end
  end.

Ltac case_hyp H := repeat (case_hyp_step H; simplify_eq/=; try done).

(** Symbolic execution of a handler inside [wp]. *)
Ltac wp_steps :=
  repeat first
    [ rewrite wp_bind | rewrite wp_ret | rewrite wp_reads | rewrite wp_writes
    | progress simpl ].
