(* ===== verification/Threads.v ===== *)
(** * Handlers that run at the same time

    net/http serves every request in its own goroutine.  A thread is what such a
    goroutine does, cut at the points where another may come in between: critical
    sections (what runs between [Lock] and [Unlock], in one step), effects on the
    outside, and reads of memory that no lock protects, whose value the model
    leaves open.  A pool is the requests in flight over one shared world; its
    steps are the server's interleavings.  [alone] is the run of a thread nobody
    interrupts, [twp] what a thread guarantees whoever interrupts it. *)

From S2P Require Import Prelude.
From stdpp Require Import relations options.

Inductive thread (W A : Type) : Type :=
  | Done (x : A)
  | Atomic {X : Type} (m : Eff W X) (k : X → thread W A)
  | Racy {X : Type} (k : X → thread W A).
Arguments Done {W A} x.
Arguments Atomic {W A X} m k.
Arguments Racy {W A X} k.

Fixpoint thread_bind {W A B} (f : A → thread W B) (t : thread W A) : thread W B :=
  match t with
  | Done x => f x
  | Atomic m k => Atomic m (λ x, thread_bind f (k x))
  | Racy k => Racy (λ x, thread_bind f (k x))
  end.

#[global] Instance thread_ret W : MRet (thread W) := λ A x, Done x.
#[global] Instance thread_mbind W : MBind (thread W) := λ A B f t, thread_bind f t.

(** A critical section; an effect that touches nothing shared; a read of
    unprotected memory. *)
Definition locked {W A} (m : Eff W A) : thread W A := Atomic m Done.
Definition unlocked {W A} (m : Eff W A) : thread W A := Atomic m Done.
Definition racy {W} (A : Type) : thread W A := Racy Done.

(** ** A thread nobody interrupts *)

Inductive alone {W A} : thread W A → W → A → W → Prop :=
  | alone_done x w : alone (Done x) w x w
  | alone_atomic X (m : Eff W X) k w x w' :
      alone (k (m w).1) (m w).2 x w' → alone (Atomic m k) w x w'
  | alone_racy X (k : X → thread W A) y w x w' : alone (k y) w x w' → alone (Racy k) w x w'.

(** [t] without interruption may do what [m] does. *)
Definition runs {W A} (t : thread W A) (m : Eff W A) : Prop :=
  ∀ w, alone t w (m w).1 (m w).2.

Section alone.
Context {W : Type}.
Implicit Types (w : W).

Lemma alone_bind {A B} (t : thread W A) (f : A → thread W B) w x w1 y w2 :
  alone t w x w1 → alone (f x) w1 y w2 → alone (t ≫= f) w y w2.
Proof. intros Ht Hf. induction Ht; simpl; [done|econstructor; by apply IHHt..]. Qed.

Lemma runs_ret {A} (x : A) : runs (mret x) (mret x : Eff W A).
Proof. intros w. apply alone_done. Qed.

Lemma runs_locked {A} (m : Eff W A) : runs (locked m) m.
Proof. intros w. apply alone_atomic, alone_done. Qed.

Lemma runs_unlocked {A} (m : Eff W A) : runs (unlocked m) m.
Proof. apply runs_locked. Qed.

Lemma runs_bind {A B} (t : thread W A) (m : Eff W A) (f : A → thread W B) (g : A → Eff W B) :
  runs t m → (∀ x, runs (f x) (g x)) → runs (t ≫= f) (m ≫= g).
Proof.
  intros Ht Hf w. unfold mbind, eff_bind. specialize (Ht w). destruct (m w) as [x w1].
  eapply alone_bind; [exact Ht|apply Hf].
Qed.

(** A critical section and the rest, where the source's value is one sequence. *)
Lemma runs_assoc {A B C} (t : thread W C) (m : Eff W A) (f : A → Eff W B) (g : B → Eff W C) :
  runs t ((m ≫= f) ≫= g) ↔ runs t (m ≫= λ x, f x ≫= g).
Proof.
  assert (∀ w, ((m ≫= f) ≫= g) w = (m ≫= λ x, f x ≫= g) w) as E
    by (intros w; unfold mbind, eff_bind; by destruct (m w)).
  split; intros H w; specialize (H w); by rewrite ?E in *.
Qed.

(** The unprotected read gives the value [y]. *)
Lemma runs_racy {X A} (y : X) (f : X → thread W A) (m : Eff W A) :
  runs (f y) m → runs (racy X ≫= f) m.
Proof. intros H w. apply alone_racy with y, H. Qed.
End alone.

(** ** What a thread guarantees

    [twp R g t Φ]: from the ghost state [g], every step [t] takes by itself, in
    whatever world the others leave, is allowed by [R], which moves the ghost
    state; and [t] ends with a result and a ghost state of [Φ]. *)
Fixpoint twp {W G A} (R : G → W → W → G → Prop) (g : G) (t : thread W A)
    (Φ : A → G → Prop) : Prop :=
  match t with
  | Done x => Φ x g
  | Atomic m k => ∀ w, ∃ g', R g w (m w).2 g' ∧ twp R g' (k (m w).1) Φ
  | Racy k => ∀ x, twp R g (k x) Φ
  end.

Section twp.
Context {W G : Type} (R : G → W → W → G → Prop).
Implicit Types (w : W) (g : G).

Lemma twp_mono {A} (Φ Ψ : A → G → Prop) g t :
  twp R g t Φ → (∀ x g, Φ x g → Ψ x g) → twp R g t Ψ.
Proof.
  intros Ht HΦ. revert g Ht. induction t as [x|X m k IH|X k IH]; simpl; intros g Ht.
  - by apply HΦ.
  - intros w. destruct (Ht w) as (g' & HR & Hk). exists g'. auto.
  - intros x. auto.
Qed.

Lemma twp_bind {A B} (t : thread W A) (f : A → thread W B) g Φ :
  twp R g t (λ x g', twp R g' (f x) Φ) → twp R g (t ≫= f) Φ.
Proof.
  revert g. induction t as [x|X m k IH|X k IH]; simpl; intros g Ht; [done|..].
  - intros w. destruct (Ht w) as (g' & HR & Hk). exists g'. split; [done|]. by apply IH.
  - intros x. by apply IH.
Qed.

(** Steps along [K] keep the ghost state [g0]. *)
Context (K : W → W → Prop) (g0 : G) (HK : ∀ w w', K w w' → R g0 w w' g0).

Definition keeps {A} (t : thread W A) : Prop := twp R g0 t (λ _ g, g = g0).

Lemma keeps_ret {A} (x : A) : keeps (mret x).
Proof. done. Qed.

Lemma keeps_bind {A B} (t : thread W A) (f : A → thread W B) :
  keeps t → (∀ x, keeps (f x)) → keeps (t ≫= f).
Proof. intros Ht Hf. apply twp_bind. eapply twp_mono; [exact Ht|]. intros x g ->. apply Hf. Qed.

Lemma keeps_locked {A} (m : Eff W A) : steps K m → keeps (locked m).
Proof using HK. intros Hm w. exists g0. split; [apply HK, Hm|done]. Qed.

Lemma keeps_unlocked {A} (m : Eff W A) : steps K m → keeps (unlocked m).
Proof using HK. apply keeps_locked. Qed.

Lemma keeps_racy X : keeps (racy X).
Proof. by intros x. Qed.
End twp.

(** ** Requests in flight *)

Section pool.
Context {W Req Resp : Type} (serve : Req → thread W Resp).
Implicit Types (w : W).

Abbreviation pool := (list (Req * thread W Resp)).

(** A request arrives; one in flight goes through its next critical section or
    effect; or it reads unprotected memory. *)
Inductive pool_step : pool * W → pool * W → Prop :=
  | step_accept r ts w : pool_step (ts, w) (ts ++ [(r, serve r)], w)
  | step_section i r X (m : Eff W X) k ts w :
      ts !! i = Some (r, Atomic m k) →
      pool_step (ts, w) (<[i := (r, k (m w).1)]> ts, (m w).2)
  | step_race i r X (k : X → thread W Resp) x ts w :
      ts !! i = Some (r, Racy k) → pool_step (ts, w) (<[i := (r, k x)]> ts, w).

Abbreviation pool_steps := (rtc pool_step).

(** A request in flight may finish without interruption. *)
Lemma pool_alone i r t w x w' ts :
  ts !! i = Some (r, t) → alone t w x w' →
  pool_steps (ts, w) (<[i := (r, Done x)]> ts, w').
Proof.
  intros Hi Ht. revert ts Hi. induction Ht as [x w|X m k w x w' _ IH|X k y w x w' _ IH]; intros ts Hi.
  - by rewrite list_insert_id.
  - eapply rtc_l; [by eapply step_section|]. specialize (IH (<[i:=(r, k (m w).1)]> ts)).
    rewrite list_insert_insert_eq in IH. apply IH, list_lookup_insert_eq.
    by eapply lookup_lt_Some.
  - eapply rtc_l; [by eapply step_race with (x := y)|]. specialize (IH (<[i:=(r, k y)]> ts)).
    rewrite list_insert_insert_eq in IH. apply IH, list_lookup_insert_eq.
    by eapply lookup_lt_Some.
Qed.

(** The same of a request between others. *)
Lemma list_insert_middle {A} (l1 l2 : list A) x y :
  <[length l1 := y]> (l1 ++ x :: l2) = l1 ++ y :: l2.
Proof. by rewrite insert_app_r_alt, Nat.sub_diag. Qed.

Lemma section_middle l1 r X (m : Eff W X) k l2 w :
  pool_step (l1 ++ (r, Atomic m k) :: l2, w) (l1 ++ (r, k (m w).1) :: l2, (m w).2).
Proof.
  pose proof (step_section (length l1) r X m k (l1 ++ (r, Atomic m k) :: l2) w
    (list_lookup_middle _ _ _ _ eq_refl)) as H.
  by rewrite list_insert_middle in H.
Qed.

Lemma alone_middle l1 r t l2 w x w' :
  alone t w x w' → pool_steps (l1 ++ (r, t) :: l2, w) (l1 ++ (r, Done x) :: l2, w').
Proof.
  intros Ht. pose proof (pool_alone (length l1) r t w x w' (l1 ++ (r, t) :: l2)
    (list_lookup_middle _ _ _ _ eq_refl) Ht) as H.
  by rewrite list_insert_middle in H.
Qed.

(** What every thread keeps, the pool keeps. *)
Section relation.
Context (K : W → W → Prop) `{!PreOrder K}.

Definition moves {A} (t : thread W A) : Prop :=
  keeps (λ (_ : unit) w w' _, K w w') tt t.

Context (Hserve : ∀ r, moves (serve r)).

Definition pool_moves (ts : pool) : Prop := Forall (λ rt, moves rt.2) ts.

Lemma pool_steps_moves c c' :
  pool_steps c c' → pool_moves c.1 → pool_moves c'.1 ∧ K c.2 c'.2.
Proof using All.
  assert (∀ ts i r t, pool_moves ts → moves t → pool_moves (<[i := (r, t)]> ts)) as Hins
    by (intros; by apply Forall_insert).
  induction 1 as [|? ? ? Hs _ IH]; intros Hc; [done|].
  destruct Hs as [r ts w|i r X m k ts w Hi|i r X k x ts w Hi]; simpl in *.
  - apply IH. apply Forall_app. split; [done|]. constructor; [apply Hserve|constructor].
  - pose proof (proj1 (Forall_lookup _ _) Hc _ _ Hi w) as ([] & HK & Hk).
    destruct IH as [? ?]; [by apply Hins|]. split; [done|]. by etrans.
  - pose proof (proj1 (Forall_lookup _ _) Hc _ _ Hi x) as Hk. apply IH. by apply Hins.
Qed.
End relation.
End pool.
