(* ===== verification/GoStrings.v ===== *)
(** * The part of Go's [strings] and [strconv] packages the program uses

    Strings are byte strings.  Whitespace is Unicode whitespace in its UTF-8
    encoding, as [strings.Fields] and [strings.TrimSpace] have it; case mapping
    and [EqualFold] are the ASCII ones (every comparison the program folds is
    with an ASCII word whose letters have no non-ASCII fold partner, or is
    the library's ASCII comparison). *)

From S2P Require Import Prelude.
From Stdlib Require Import Ascii.
From stdpp Require Import options.

(** ** Bytes and prefixes *)

Definition byte_of (c : ascii) : N := N_of_ascii c.

Fixpoint has_prefix (p s : string) : bool :=
  match p, s with
  | EmptyString, _ => true
  | String _ _, EmptyString => false
  | String a p', String b s' => bool_decide (a = b) && has_prefix p' s'
  end.

Fixpoint rev_append (s acc : string) : string :=
  match s with
  | EmptyString => acc
  | String c s' => rev_append s' (String c acc)
  end.

Definition srev (s : string) : string := rev_append s EmptyString.

Definition has_suffix (p s : string) : bool := has_prefix (srev p) (srev s).

Fixpoint drop_prefix (p s : string) : option string :=
  match p, s with
  | EmptyString, _ => Some s
  | String _ _, EmptyString => None
  | String a p', String b s' => if decide (a = b) then drop_prefix p' s' else None
  end.

(** [strings.TrimPrefix] and [strings.TrimSuffix]. *)
Definition trim_prefix (p s : string) : string := default s (drop_prefix p s).
Definition trim_suffix (p s : string) : string :=
  match drop_prefix (srev p) (srev s) with Some r => srev r | None => s end.

(** [strings.Contains] for a one-byte needle, [strings.Cut] and
    [strings.Split] at a byte, [strings.LastIndex] as a cut at the last one. *)
Fixpoint contains_char (c : ascii) (s : string) : bool :=
  match s with
  | EmptyString => false
  | String a s' => bool_decide (a = c) || contains_char c s'
  end.

Fixpoint cut (c : ascii) (s : string) : string * string * bool :=
  match s with
  | EmptyString => (EmptyString, EmptyString, false)
  | String a s' =>
      if decide (a = c) then (EmptyString, s', true)
      else let '(l, r, f) := cut c s' in (String a l, r, f)
  end.

Fixpoint split_on (c : ascii) (s : string) : list string :=
  match s with
  | EmptyString => [EmptyString]
  | String a s' =>
      if decide (a = c) then EmptyString :: split_on c s'
      else match split_on c s' with
           | [] => [String a EmptyString]
           | p :: ps => String a p :: ps
           end
  end.

Definition cut_last (c : ascii) (s : string) : option (string * string) :=
  let '(l, r, f) := cut c (srev s) in
  if f : bool then Some (srev r, srev l) else None.

Definition count_char (c : ascii) (s : string) : nat :=
  pred (length (split_on c s)).

(** [strings.TrimRight] and [strings.Trim] for a one-byte cutset. *)
Fixpoint trim_left_char (c : ascii) (s : string) : string :=
  match s with
  | EmptyString => EmptyString
  | String a s' => if decide (a = c) then trim_left_char c s' else s
  end.
Definition trim_right_char (c : ascii) (s : string) : string :=
  srev (trim_left_char c (srev s)).
Definition trim_char (c : ascii) (s : string) : string :=
  trim_right_char c (trim_left_char c s).

Fixpoint join (sep : string) (l : list string) : string :=
  match l with
  | [] => EmptyString
  | [x] => x
  | x :: l' => x +:+ sep +:+ join sep l'
  end.

(** ** Case *)

Definition lower_byte (c : ascii) : ascii :=
  let n := byte_of c in
  if ((65 <=? n) && (n <=? 90))%N then ascii_of_N (n + 32) else c.
Definition upper_byte (c : ascii) : ascii :=
  let n := byte_of c in
  if ((97 <=? n) && (n <=? 122))%N then ascii_of_N (n - 32) else c.

Fixpoint smap (f : ascii → ascii) (s : string) : string :=
  match s with
  | EmptyString => EmptyString
  | String c s' => String (f c) (smap f s')
  end.

Definition ascii_lower : string → string := smap lower_byte.
Definition ascii_upper : string → string := smap upper_byte.

Definition equal_fold (a b : string) : bool :=
  bool_decide (ascii_lower a = ascii_lower b).

Fixpoint is_ascii_string (s : string) : bool :=
  match s with
  | EmptyString => true
  | String c s' => (byte_of c <? 128)%N && is_ascii_string s'
  end.

(** ** Whitespace *)

Definition space1 (a : ascii) : bool := Ascii.is_space a.

(** U+0085 and U+00A0. *)
Definition space2 (a b : ascii) : bool :=
  (byte_of a =? 194)%N && ((byte_of b =? 133)%N || (byte_of b =? 160)%N).

(** U+1680, U+2000..U+200A, U+2028, U+2029, U+202F, U+205F and U+3000. *)
Definition space3 (a b c : ascii) : bool :=
  let '(x, y, z) := (byte_of a, byte_of b, byte_of c) in
  ((x =? 225) && (y =? 154) && (z =? 128))%N
  || ((x =? 226) && (y =? 128)
      && (((128 <=? z) && (z <=? 138)) || (z =? 168) || (z =? 169) || (z =? 175)))%N
  || ((x =? 226) && (y =? 129) && (z =? 159))%N
  || ((x =? 227) && (y =? 128) && (z =? 128))%N.

(** Does a whitespace rune start here? *)
Definition space_at (s : string) : bool :=
  match s with
  | String a (String b (String c _)) => space1 a || space2 a b || space3 a b c
  | String a (String b EmptyString) => space1 a || space2 a b
  | String a EmptyString => space1 a
  | EmptyString => false
  end.

(** A string as whitespace runes and other bytes. *)
Fixpoint units (s : string) : list (bool * string) :=
  match s with
  | EmptyString => []
  | String a s1 =>
      if space1 a then (true, String a EmptyString) :: units s1
      else match s1 with
           | EmptyString => (false, String a EmptyString) :: units s1
           | String b s2 =>
               if space2 a b then
                 (true, String a (String b EmptyString)) :: units s2
               else match s2 with
                    | EmptyString => (false, String a EmptyString) :: units s1
                    | String c s3 =>
                        if space3 a b c then
                          (true, String a (String b (String c EmptyString))) :: units s3
                        else (false, String a EmptyString) :: units s1
                    end
           end
  end.

Definition flatten (us : list (bool * string)) : string :=
  foldr (λ u acc, u.2 +:+ acc) EmptyString us.

Fixpoint drop_spaces (us : list (bool * string)) : list (bool * string) :=
  match us with
  | (true, _) :: us' => drop_spaces us'
  | _ => us
  end.

(** [strings.TrimSpace]. *)
Definition trim_space (s : string) : string :=
  flatten (reverse (drop_spaces (reverse (drop_spaces (units s))))).

(** [strings.Fields]. *)
Definition flush (cur : string) : list string :=
  if decide (cur = EmptyString) then [] else [cur].

Fixpoint group (cur : string) (us : list (bool * string)) : list string :=
  match us with
  | [] => flush cur
  | (true, _) :: us' => flush cur ++ group EmptyString us'
  | (false, t) :: us' => group (cur +:+ t) us'
  end.

Definition fields (s : string) : list string := group EmptyString (units s).

(** A word: not empty, and no whitespace rune starts in it. *)
Fixpoint no_space (s : string) : bool :=
  match s with
  | EmptyString => true
  | String _ s' => negb (space_at s) && no_space s'
  end.

Definition is_word (s : string) : bool :=
  bool_decide (s ≠ EmptyString) && no_space s.

(** ** [strconv] *)

Definition digit_of (c : ascii) : option Z :=
  let n := byte_of c in
  if ((48 <=? n) && (n <=? 57))%N then Some (Z.of_N n - 48)%Z else None.

Fixpoint digits (acc : Z) (s : string) : option Z :=
  match s with
  | EmptyString => Some acc
  | String c s' => d ← digit_of c; digits (acc * 10 + d)%Z s'
  end.

Definition int_min : Z := (- 2 ^ 63)%Z.
Definition int_max : Z := (2 ^ 63 - 1)%Z.
Definition in_int64 (z : Z) : bool := (int_min <=? z)%Z && (z <=? int_max)%Z.

(** Two's complement wrap-around of a 64-bit [int] or [int64]. *)
Definition wrap64 (z : Z) : Z := ((z + 2 ^ 63) mod 2 ^ 64 - 2 ^ 63)%Z.

(** [strconv.Atoi]: an optional sign, then decimal digits, in range. *)
Definition atoi (s : string) : option Z :=
  let '(neg, body) := match s with
                      | String "-" r => (true, r)
                      | String "+" r => (false, r)
                      | _ => (false, s)
                      end in
  match body with
  | EmptyString => None
  | _ => n ← digits 0 body;
         let v := if neg : bool then (- n)%Z else n in
         if in_int64 v then Some v else None
  end.

Definition true_words : list string := ["1"; "t"; "T"; "TRUE"; "true"; "True"].
Definition false_words : list string := ["0"; "f"; "F"; "FALSE"; "false"; "False"].

Definition parse_bool (s : string) : option bool :=
  if decide (s ∈ true_words) then Some true
  else if decide (s ∈ false_words) then Some false
  else None.

(** ** Facts about strings *)

Lemma sapp_nil_l (s : string) : EmptyString +:+ s = s.
Proof. done. Qed.

Lemma sapp_cons c (a b : string) : String c a +:+ b = String c (a +:+ b).
Proof. done. Qed.

Lemma sapp_nil_r (s : string) : s +:+ EmptyString = s.
Proof. induction s as [|c s IH]; [done|]. by rewrite sapp_cons, IH. Qed.

Lemma sapp_assoc (a b c : string) : (a +:+ b) +:+ c = a +:+ b +:+ c.
Proof. induction a as [|x a IH]; [done|]. by rewrite !sapp_cons, IH. Qed.

Lemma sapp_inj_l (a b c : string) : a +:+ b = a +:+ c → b = c.
Proof. induction a as [|x a IH]; [done|]. rewrite !sapp_cons. intros [=]. auto. Qed.

Lemma sapp_eq_nil (a b : string) : a +:+ b = EmptyString → a = EmptyString ∧ b = EmptyString.
Proof. by destruct a. Qed.

Lemma slength_app (a b : string) :
  String.length (a +:+ b) = (String.length a + String.length b)%nat.
Proof. induction a as [|c a IH]; [done|]. rewrite ?sapp_cons; simpl. by rewrite IH. Qed.

#[export] Hint Rewrite sapp_nil_l sapp_nil_r sapp_cons sapp_assoc : oidc_str.

Lemma has_prefix_spec p s : has_prefix p s = true ↔ ∃ r, s = p +:+ r.
Proof.
  revert s. induction p as [|a p IH]; intros s; simpl; [naive_solver|].
  destruct s as [|b s]; [naive_solver|].
  rewrite andb_true_iff, bool_decide_eq_true, IH. split.
  - intros [-> [r ->]]. by exists r.
  - intros [r [= -> ->]]. eauto.
Qed.

Lemma drop_prefix_spec p s r : drop_prefix p s = Some r ↔ s = p +:+ r.
Proof.
  revert s. induction p as [|a p IH]; intros s; simpl.
  { split; [by intros [= ->]|by intros ->]. }
  destruct s as [|b s]; [naive_solver|].
  case_decide as Hab; [subst|].
  - rewrite IH, sapp_cons. naive_solver.
  - rewrite sapp_cons. naive_solver.
Qed.

Lemma rev_append_spec s acc : rev_append s acc = srev s +:+ acc.
Proof.
  unfold srev. revert acc.
  induction s as [|c s IH]; intros acc; simpl; [done|].
  by rewrite IH, (IH (String c EmptyString)), sapp_assoc.
Qed.

Lemma srev_cons c s : srev (String c s) = srev s +:+ String c EmptyString.
Proof. exact (rev_append_spec s (String c EmptyString)). Qed.

Lemma srev_app a b : srev (a +:+ b) = srev b +:+ srev a.
Proof.
  induction a as [|c a IH]; simpl; [by rewrite sapp_nil_r|].
  by rewrite sapp_cons, !srev_cons, IH, sapp_assoc.
Qed.

Lemma srev_involutive s : srev (srev s) = s.
Proof. induction s as [|c s IH]; [done|]. by rewrite srev_cons, srev_app, IH. Qed.

Lemma has_suffix_spec p s : has_suffix p s = true ↔ ∃ r, s = r +:+ p.
Proof.
  unfold has_suffix. rewrite has_prefix_spec. split; intros [r Hr].
  - exists (srev r). by rewrite <-(srev_involutive s), Hr, srev_app, srev_involutive.
  - exists (srev r). by rewrite Hr, srev_app.
Qed.

Lemma cut_spec c s l r f :
  cut c s = (l, r, f) →
  contains_char c l = false ∧
  (if f then s = l +:+ String c r else s = l ∧ r = EmptyString).
Proof.
  revert l r f. induction s as [|a s IH]; intros l r f; simpl; [by intros [= <- <- <-]|].
  case_decide as Ha; [by intros [= <- <- <-]; subst|].
  destruct (cut c s) as [[l' r'] f']. intros [= <- <- <-].
  destruct (IH _ _ _ eq_refl) as [Hl Hs]. split.
  - simpl. by rewrite Hl, bool_decide_eq_false_2.
  - destruct f'; [by rewrite Hs|by destruct Hs as [-> ->]].
Qed.

Lemma cut_app c l r :
  contains_char c l = false → cut c (l +:+ String c r) = (l, r, true).
Proof.
  induction l as [|a l IH]; simpl; [by rewrite decide_True|].
  rewrite orb_false_iff, bool_decide_eq_false. intros [Ha Hl].
  rewrite ?sapp_cons; simpl. by rewrite decide_False, IH.
Qed.

Lemma cut_none c s : contains_char c s = false → cut c s = (s, EmptyString, false).
Proof.
  induction s as [|a s IH]; simpl; [done|].
  rewrite orb_false_iff, bool_decide_eq_false. intros [Ha Hs].
  by rewrite decide_False, IH.
Qed.

Lemma contains_char_app c a b :
  contains_char c (a +:+ b) = contains_char c a || contains_char c b.
Proof.
  induction a as [|x a IH]; simpl; [done|].
  rewrite ?sapp_cons; simpl; by rewrite IH, orb_assoc.
Qed.

Lemma split_on_cons c s1 s2 :
  contains_char c s1 = false →
  split_on c (s1 +:+ String c s2) = s1 :: split_on c s2.
Proof.
  induction s1 as [|a s1 IH]; simpl; [by rewrite decide_True|].
  rewrite orb_false_iff, bool_decide_eq_false. intros [Ha Hs].
  rewrite ?sapp_cons; simpl. by rewrite decide_False, IH.
Qed.

Lemma split_on_none c s : contains_char c s = false → split_on c s = [s].
Proof.
  induction s as [|a s IH]; simpl; [done|].
  rewrite orb_false_iff, bool_decide_eq_false. intros [Ha Hs].
  by rewrite decide_False, IH.
Qed.

(** [strings.Split] undoes [strings.Join] at the same byte. *)
Lemma split_on_join c l :
  Forall (λ x, contains_char c x = false) l → l ≠ [] →
  split_on c (join (String c EmptyString) l) = l.
Proof.
  intros Hl Hne. induction Hl as [|x l Hx Hl IH]; [done|].
  destruct l as [|y l]; [by apply split_on_none|].
  change (split_on c (x +:+ String c (join (String c EmptyString) (y :: l))) = x :: y :: l).
  rewrite split_on_cons by done. by rewrite IH.
Qed.

(** *** Whitespace *)

Lemma units_cons a s :
  space_at (String a s) = false →
  units (String a s) = (false, String a EmptyString) :: units s.
Proof.
  destruct s as [|b [|c s]]; simpl; [by intros ->|..].
  - rewrite orb_false_iff. by intros [-> ->].
  - rewrite !orb_false_iff. by intros [[-> ->] ->].
Qed.

(** Whether a rune starts somewhere depends on the bytes that follow only
    through the rune itself, and a space byte never continues one. *)
Lemma space_at_prefix a s t :
  space_at (String a (s +:+ t)) = false → space_at (String a s) = false.
Proof.
  destruct s as [|b [|c s]]; rewrite ?sapp_cons, ?sapp_nil_l; [|..].
  - destruct t as [|b [|c t]]; simpl; rewrite ?orb_false_iff; tauto.
  - destruct t as [|c t]; simpl; rewrite ?orb_false_iff; tauto.
  - simpl. rewrite ?orb_false_iff. tauto.
Qed.

Lemma space_at_app_space a s t :
  space_at (String a s) = false → space_at (String a (s +:+ String " " t)) = false.
Proof.
  destruct s as [|b [|c s]]; rewrite ?sapp_cons, ?sapp_nil_l; [..|].
  - simpl. intros H. destruct t as [|c t]; rewrite H; simpl.
    + unfold space2. simpl. by rewrite andb_false_r.
    + unfold space2, space3. simpl. by rewrite !andb_false_r.
  - simpl. rewrite orb_false_iff. intros [-> ->]. simpl. unfold space3. simpl.
    by rewrite !andb_false_r.
  - done.
Qed.

Lemma no_space_prefix a b : no_space (a +:+ b) = true → no_space a = true.
Proof.
  induction a as [|c a IH]; [done|]. rewrite sapp_cons. simpl no_space.
  rewrite !andb_true_iff, !negb_true_iff.
  intros [H1 H2]. split; [by eapply space_at_prefix|auto].
Qed.

Lemma units_no_space w s :
  no_space w = true →
  units (w +:+ String " " s) =
  units w ++ (true, String " " EmptyString) :: units s.
Proof.
  induction w as [|a w IH]; [done|]. simpl no_space. rewrite sapp_cons.
  rewrite andb_true_iff, negb_true_iff. intros [H1 H2].
  rewrite units_cons by (by apply space_at_app_space).
  rewrite units_cons by done. by rewrite IH.
Qed.

Lemma group_no_space w cur us :
  no_space w = true → group cur (units w ++ us) = group (cur +:+ w) us.
Proof.
  revert cur. induction w as [|a w IH]; intros cur; simpl no_space.
  { by rewrite sapp_nil_r. }
  rewrite andb_true_iff, negb_true_iff. intros [H1 H2].
  rewrite units_cons by done. simpl. rewrite IH by done.
  by rewrite sapp_assoc.
Qed.

Lemma is_word_spec w : is_word w = true ↔ w ≠ EmptyString ∧ no_space w = true.
Proof. unfold is_word. by rewrite andb_true_iff, bool_decide_eq_true. Qed.

Lemma fields_word w : is_word w = true → fields w = [w].
Proof.
  rewrite is_word_spec. intros [Hne Hw]. unfold fields.
  rewrite <-(app_nil_r (units w)), group_no_space by done. simpl.
  unfold flush. by rewrite decide_False.
Qed.

Lemma fields_word_space w s :
  is_word w = true → fields (w +:+ String " " s) = w :: fields s.
Proof.
  rewrite is_word_spec. intros [Hne Hw]. unfold fields.
  rewrite units_no_space, group_no_space by done. simpl.
  unfold flush. by rewrite decide_False.
Qed.

(** [strings.Fields] undoes [strings.Join] with a space on words. *)
Lemma fields_join l :
  Forall (λ w, is_word w = true) l → fields (join " " l) = l.
Proof.
  induction 1 as [|w l Hw Hl IH]; [done|].
  destruct l as [|v l]; [by apply fields_word|].
  change (fields (w +:+ String " " (join " " (v :: l))) = w :: v :: l).
  by rewrite fields_word_space, IH.
Qed.

(** No rune starts in [cur] when [s] follows it. *)
Fixpoint clean (cur s : string) : bool :=
  match cur with
  | EmptyString => true
  | String a c => negb (space_at (String a (c +:+ s))) && clean c s
  end.

Lemma clean_no_space cur s : clean cur s = true → no_space cur = true.
Proof.
  induction cur as [|a c IH]; simpl; [done|].
  rewrite !andb_true_iff, !negb_true_iff. intros [H1 H2].
  split; [by eapply space_at_prefix|auto].
Qed.

Lemma clean_snoc cur a s :
  clean cur (String a s) = true → space_at (String a s) = false →
  clean (cur +:+ String a EmptyString) s = true.
Proof.
  intros H1 H2. induction cur as [|b c IH]; simpl in *.
  { rewrite ?sapp_nil_l. simpl. rewrite ?sapp_nil_l. by rewrite H2. }
  rewrite ?sapp_cons; simpl. rewrite sapp_assoc, ?sapp_cons, sapp_nil_l.
  apply andb_true_iff in H1 as [-> H1]. by rewrite IH.
Qed.

Lemma flush_words cur s :
  clean cur s = true → Forall (λ w, is_word w = true) (flush cur).
Proof.
  intros H. unfold flush. case_decide as Hc; constructor; [|done].
  apply is_word_spec. eauto using clean_no_space.
Qed.

Lemma units_cases s :
  s = EmptyString ∨
  (∃ a s', s = String a s' ∧ space_at s = false ∧
           units s = (false, String a EmptyString) :: units s') ∨
  (∃ t s', units s = (true, t) :: units s' ∧ String.length s' < String.length s).
Proof.
  destruct s as [|a s]; [by left|right].
  destruct (space_at (String a s)) eqn:Hs.
  - right. destruct s as [|b [|c s]]; simpl in Hs.
    + exists (String a EmptyString), EmptyString. simpl. rewrite Hs. (split; [done|simpl; lia]).
    + destruct (space1 a) eqn:H1.
      * exists (String a EmptyString), (String b EmptyString). simpl. rewrite H1. (split; [done|simpl; lia]).
      * simpl in Hs. eexists _, EmptyString. simpl. rewrite H1, Hs. (split; [done|simpl; lia]).
    + destruct (space1 a) eqn:H1; [|destruct (space2 a b) eqn:H2].
      * exists (String a EmptyString), (String b (String c s)). simpl. rewrite H1. (split; [done|simpl; lia]).
      * eexists _, (String c s). simpl. rewrite H1, H2. (split; [done|simpl; lia]).
      * simpl in Hs. eexists _, s. simpl. rewrite H1, H2, Hs. (split; [done|simpl; lia]).
  - left. exists a, s. auto using units_cons.
Qed.

Lemma group_words s cur :
  clean cur s = true → Forall (λ w, is_word w = true) (group cur (units s)).
Proof.
  remember (String.length s) as n eqn:Hn. revert s cur Hn.
  induction (lt_wf n) as [n _ IH]. intros s cur -> Hc.
  destruct (units_cases s) as [->|[(a & s' & -> & Hs & ->)|(t & s' & -> & Hlen)]].
  - simpl. by eapply flush_words.
  - simpl. eapply IH; [|done|by apply clean_snoc]. simpl. lia.
  - simpl. apply Forall_app. split; [by eapply flush_words|].
    by eapply IH.
Qed.

Lemma fields_words s : Forall (λ w, is_word w = true) (fields s).
Proof. by apply group_words. Qed.

Lemma flatten_app us vs : flatten (us ++ vs) = flatten us +:+ flatten vs.
Proof.
  induction us as [|u us IH]; [done|]. simpl. by rewrite IH, sapp_assoc.
Qed.

Lemma fields_nil : fields EmptyString = [].
Proof. done. Qed.

(** *** Printable words *)

Definition visible (c : ascii) : bool := (33 <=? byte_of c)%N && (byte_of c <? 127)%N.

Fixpoint all_visible (s : string) : bool :=
  match s with
  | EmptyString => true
  | String c s' => visible c && all_visible s'
  end.

Lemma visible_space_at c s : visible c = true → space_at (String c s) = false.
Proof.
  unfold visible, space_at, space1, space2, space3, Ascii.is_space. intros [H1 H2]%andb_prop.
  apply N.leb_le in H1. apply N.ltb_lt in H2.
  assert (∀ n, (byte_of c =? n)%N = false ∨ n = byte_of c) as Hc.
  { intros n. destruct (N.eqb_spec (byte_of c) n); auto. }
  destruct (Hc 194%N) as [->|]; [|lia]. destruct (Hc 225%N) as [->|]; [|lia].
  destruct (Hc 226%N) as [->|]; [|lia]. destruct (Hc 227%N) as [->|]; [|lia]. simpl.
  assert (match c with
          | "009"%char | "010"%char | "011"%char | "012"%char | "013"%char | " "%char => true
          | _ => false end = false) as ->; [|by destruct s as [|a [|b s]]].
  unfold byte_of in *. destruct c as [[] [] [] [] [] [] [] []]; done || (exfalso; revert H1 H2; by vm_compute).
Qed.

Lemma visible_no_space s : all_visible s = true → no_space s = true.
Proof.
  induction s as [|c s IH]; [done|]. cbn [all_visible no_space].
  intros [Hc Hs]%andb_prop. by rewrite visible_space_at, IH.
Qed.

Lemma all_visible_app a b : all_visible (a +:+ b) = all_visible a && all_visible b.
Proof.
  induction a as [|c a IH]; [done|]. rewrite sapp_cons. cbn [all_visible]. by rewrite IH, andb_assoc.
Qed.

Lemma drop_spaces_dark us : Forall (λ u : bool * string, u.1 = false) us → drop_spaces us = us.
Proof. destruct 1 as [|[[] t] us]; simpl in *; done. Qed.

Lemma units_dark s :
  no_space s = true → Forall (λ u : bool * string, u.1 = false) (units s) ∧ flatten (units s) = s.
Proof.
  induction s as [|c s IH]; [done|]. cbn [no_space]. intros [Hc Hs]%andb_prop.
  rewrite units_cons by (by apply negb_true_iff). destruct (IH Hs) as [IH1 IH2].
  split; [by constructor|]. unfold flatten in *. simpl. by rewrite IH2.
Qed.

Lemma trim_space_word s : no_space s = true → trim_space s = s.
Proof.
  intros [Hd Hf]%units_dark. unfold trim_space.
  rewrite !drop_spaces_dark by (done || (rewrite ?drop_spaces_dark by done; by rewrite Forall_reverse)).
  by rewrite reverse_involutive.
Qed.
