(* ===== verification/GoNet.v ===== *)
(** * IP addresses and the SSRF guard of [clientid_metadata.go]

    First the part of Go's [net] package the guard uses: an [net.IP] is its
    bytes (4 or 16 of them, [None] for the nil address), with the predicates,
    [ParseIP] and [ParseCIDR] as the library has them.  Then the guard itself,
    [checkFetchAddress] with its [ssrfBlockedCIDRs], and its characterisation
    by address ranges. *)

From S2P Require Import Prelude GoStrings.
From Stdlib Require Import Ascii.
From stdpp Require Import options.
Local Open Scope Z_scope.

(** ** [net.IP] *)

Abbreviation IP := (list Z).

Definition v4prefix : IP := [0;0;0;0;0;0;0;0;0;0;255;255].
Definition ip4 (a b c d : Z) : IP := [a; b; c; d].
Definition ip4in6 (a b c d : Z) : IP := v4prefix ++ [a; b; c; d].
Definition ipv6zero : IP := replicate 16 0.
Definition ipv6loopback : IP := replicate 15 0 ++ [1].

Definition To4 (ip : IP) : option IP :=
  if decide (length ip = 4%nat) then Some ip
  else if decide (length ip = 16%nat ∧ take 12 ip = v4prefix) then Some (drop 12 ip)
  else None.

(** [IP.Equal] identifies an IPv4 address with its IPv6-mapped form. *)
Definition ip_equal (x y : IP) : bool :=
  if decide (length x = length y) then bool_decide (x = y)
  else if decide (length x = 4%nat ∧ length y = 16%nat) then
    bool_decide (take 12 y = v4prefix ∧ drop 12 y = x)
  else if decide (length x = 16%nat ∧ length y = 4%nat) then
    bool_decide (take 12 x = v4prefix ∧ drop 12 x = y)
  else false.

Definition byte_at (ip : IP) (i : nat) : Z := default 0 (ip !! i).

Definition IsUnspecified (ip : IP) : bool :=
  ip_equal ip (ip4in6 0 0 0 0) || ip_equal ip ipv6zero.

Definition IsLoopback (ip : IP) : bool :=
  match To4 ip with
  | Some q => byte_at q 0 =? 127
  | None => ip_equal ip ipv6loopback
  end.

Definition is16 (ip : IP) : bool := bool_decide (length ip = 16%nat).

Definition IsPrivate (ip : IP) : bool :=
  match To4 ip with
  | Some q =>
      (byte_at q 0 =? 10)
      || ((byte_at q 0 =? 172) && (Z.land (byte_at q 1) 240 =? 16))
      || ((byte_at q 0 =? 192) && (byte_at q 1 =? 168))
  | None => is16 ip && (Z.land (byte_at ip 0) 254 =? 252)
  end.

Definition IsMulticast (ip : IP) : bool :=
  match To4 ip with
  | Some q => Z.land (byte_at q 0) 240 =? 224
  | None => is16 ip && (byte_at ip 0 =? 255)
  end.

Definition IsInterfaceLocalMulticast (ip : IP) : bool :=
  is16 ip && (byte_at ip 0 =? 255) && (Z.land (byte_at ip 1) 15 =? 1).

Definition IsLinkLocalMulticast (ip : IP) : bool :=
  match To4 ip with
  | Some q => (byte_at q 0 =? 224) && (byte_at q 1 =? 0) && (byte_at q 2 =? 0)
  | None => is16 ip && (byte_at ip 0 =? 255) && (Z.land (byte_at ip 1) 15 =? 2)
  end.

Definition IsLinkLocalUnicast (ip : IP) : bool :=
  match To4 ip with
  | Some q => (byte_at q 0 =? 169) && (byte_at q 1 =? 254)
  | None => is16 ip && (byte_at ip 0 =? 254) && (Z.land (byte_at ip 1) 192 =? 128)
  end.

(** ** [net.ParseIP] *)

Definition dec_octet (s : string) : option Z :=
  if decide (s = EmptyString) then None
  else n ← digits 0 s;
       (* no leading zero, at most 255 *)
       if has_prefix "0" s && negb (bool_decide (s = "0")) then None
       else if n <=? 255 then Some n else None.

Definition parse_ipv4 (s : string) : option IP :=
  match split_on "." s with
  | [a; b; c; d] =>
      a ← dec_octet a; b ← dec_octet b; c ← dec_octet c; d ← dec_octet d;
      Some [a; b; c; d]
  | _ => None
  end.

Definition hex_digit (c : ascii) : option Z :=
  let n := Z.of_N (byte_of c) in
  if (48 <=? n) && (n <=? 57) then Some (n - 48)
  else if (97 <=? n) && (n <=? 102) then Some (n - 87)
  else if (65 <=? n) && (n <=? 70) then Some (n - 55)
  else None.

Fixpoint hex_value (acc : Z) (s : string) : option Z :=
  match s with
  | EmptyString => Some acc
  | String c s' => d ← hex_digit c; hex_value (acc * 16 + d) s'
  end.

Definition hex_group (s : string) : option IP :=
  if decide (s = EmptyString ∨ (4 < String.length s)%nat) then None
  else v ← hex_value 0 s; Some [v / 256; v mod 256].

(** The groups of one side of an IPv6 address, an IPv4 tail allowed at its end. *)
Fixpoint groups (l : list string) : option IP :=
  match l with
  | [] => Some []
  | [g] => if contains_char "." g then parse_ipv4 g else hex_group g
  | g :: l' => a ← hex_group g; b ← groups l'; Some (a ++ b)
  end.

Definition side (s : string) : option IP :=
  if decide (s = EmptyString) then Some [] else groups (split_on ":" s).

(** Cut at the first ["::"]. *)
Fixpoint cut_ellipsis (s : string) : option (string * string) :=
  match s with
  | String ":" (String ":" r) => Some (EmptyString, r)
  | String c r => '(a, b) ← cut_ellipsis r; Some (String c a, b)
  | EmptyString => None
  end.

Definition parse_ipv6 (s : string) : option IP :=
  match cut_ellipsis s with
  | None => ip ← groups (split_on ":" s);
            if decide (length ip = 16%nat) then Some ip else None
  | Some (l, r) =>
      (* the left side has no IPv4 tail *)
      if contains_char "." l then None
      else a ← side l; b ← side r;
           let n := (length a + length b)%nat in
           if decide (n ≤ 14)%nat then Some (a ++ replicate (16 - n)%nat 0 ++ b)
           else None
  end.

(** [ParseIP] returns the 16-byte form of either. *)
Definition ParseIP (s : string) : option IP :=
  if contains_char ":" s then parse_ipv6 s
  else q ← parse_ipv4 s; Some (v4prefix ++ q).

(** ** [net.IPNet] *)

Record IPNet := { net_ip : IP; net_mask : IP }.

Definition mask_byte (ones : Z) : Z := 256 - 2 ^ (8 - Z.max 0 (Z.min 8 ones)).

Definition CIDRMask (ones : Z) (len : nat) : IP :=
  (λ i, mask_byte (ones - 8 * Z.of_nat i)) <$> seq 0 len.

Definition ParseCIDR (s : string) : option IPNet :=
  match cut "/" s with
  | (addr, bits, true) =>
      ip ← (if contains_char ":" addr then parse_ipv6 addr else parse_ipv4 addr);
      n ← (if decide (bits = EmptyString) then None else digits 0 bits);
      if n <=? 8 * Z.of_nat (length ip) then
        let m := CIDRMask n (length ip) in
        Some {| net_ip := zip_with Z.land ip m; net_mask := m |}
      else None
  | _ => None
  end.

Definition net_Contains (n : IPNet) (ip : IP) : bool :=
  let x := default ip (To4 ip) in
  if decide (length x = length (net_ip n)) then
    bool_decide (zip_with Z.land (net_ip n) (net_mask n) = zip_with Z.land x (net_mask n))
  else false.

(** [net.SplitHostPort] *)
Definition no_bracket (s : string) : bool :=
  negb (contains_char "[" s) && negb (contains_char "]" s).

Definition SplitHostPort (hostport : string) : option (string * string) :=
  match hostport with
  | String "[" r =>
      match cut "]" r with
      | (host, String ":" port, true) =>
          if negb (contains_char ":" port) && no_bracket port && negb (contains_char "[" host)
          then Some (host, port) else None
      | _ => None
      end
  | _ =>
      match cut_last ":" hostport with
      | Some (host, port) =>
          if negb (contains_char ":" host) && no_bracket hostport
          then Some (host, port) else None
      | None => None
      end
  end.

(** ** [mustParseCIDRs], [ssrfBlockedCIDRs] and [checkFetchAddress] *)

(** [None] is the panic on a CIDR that does not parse. *)
Definition mustParseCIDRs (cidrs : list string) : option (list IPNet) :=
  mapM ParseCIDR cidrs.

Definition ssrfBlockedCIDR_strings : list string :=
  [ "100.64.0.0/10"; "192.0.0.0/24"; "192.0.2.0/24"; "198.18.0.0/15";
    "198.51.100.0/24"; "203.0.113.0/24"; "240.0.0.0/4"; "255.255.255.255/32";
    "::/128"; "100::/64"; "2001:db8::/32" ].

Definition ssrfBlockedCIDRs : list IPNet :=
  Eval vm_compute in default [] (mustParseCIDRs ssrfBlockedCIDR_strings).

Inductive fetch_refusal := RefuseNotIP | RefuseLoopback | RefuseSpecialUse | RefuseBlocked.

Definition special_use (ip : IP) : bool :=
  IsUnspecified ip || IsPrivate ip || IsLinkLocalUnicast ip || IsLinkLocalMulticast ip
  || IsInterfaceLocalMulticast ip || IsMulticast ip.

Definition checkFetchAddress (ip : option IP) (allowLoopback : bool) : option fetch_refusal :=
  match ip with
  | None => Some RefuseNotIP
  | Some ip =>
      if IsLoopback ip then
        if allowLoopback then None else Some RefuseLoopback
      else if special_use ip then Some RefuseSpecialUse
      else if existsb (λ n, net_Contains n ip) ssrfBlockedCIDRs then Some RefuseBlocked
      else None
  end.

(** The initialisation does not panic. *)
Lemma ssrfBlockedCIDRs_parsed :
  mustParseCIDRs ssrfBlockedCIDR_strings = Some ssrfBlockedCIDRs.
Proof. vm_compute. done. Qed.

(** ** The guard as address ranges *)

Definition is_byte (z : Z) : Prop := 0 <= z < 256.

Lemma byte_enum (P : Z → bool) a :
  forallb P (seqZ 0 256) = true → is_byte a → P a = true.
Proof.
  intros HP Ha. apply (proj1 (forallb_forall _ _) HP).
  apply list_elem_of_In, elem_of_seqZ. unfold is_byte in Ha. lia.
Qed.

(** Masking a byte rounds it down to a multiple of a power of two. *)
Ltac solve_byte_mask :=
  intros; apply Z.eqb_eq;
  match goal with
  | |- (Z.land ?a ?m =? ?r) = true =>
      let P := eval pattern a in (Z.land a m =? r) in
      match P with ?f _ => apply (byte_enum f); [by vm_compute|done] end
  end.

Lemma byte_mask_255 a : is_byte a → Z.land a 255 = a.
Proof. solve_byte_mask. Qed.
Lemma byte_mask_254 a : is_byte a → Z.land a 254 = a - a mod 2.
Proof. solve_byte_mask. Qed.
Lemma byte_mask_240 a : is_byte a → Z.land a 240 = a - a mod 16.
Proof. solve_byte_mask. Qed.
Lemma byte_mask_192 a : is_byte a → Z.land a 192 = a - a mod 64.
Proof. solve_byte_mask. Qed.

(** Linear facts about a remainder, for [lia]. *)
Ltac mod_lia :=
  unfold is_byte in *;
  repeat match goal with
  | |- context [?a mod ?m] =>
      pose proof (Z.mod_pos_bound a m ltac:(lia));
      pose proof (Z.div_mod a m ltac:(lia));
      generalize dependent (a mod m); intros
  end; lia.

(** The comparisons [IPNet.Contains] makes, byte by byte. *)
Lemma mask_full x a : is_byte x → is_byte a → Z.land x 255 = Z.land a 255 ↔ a = x.
Proof. intros. rewrite !byte_mask_255 by done. split; congruence. Qed.
Lemma mask_zero x a : Z.land x 0 = Z.land a 0 ↔ True.
Proof. by rewrite !Z.land_0_r. Qed.
Lemma mask_192 a : is_byte a → Z.land 64 192 = Z.land a 192 ↔ 64 <= a <= 127.
Proof.
  intros. rewrite (byte_mask_192 a) by done. change (Z.land 64 192) with 64.
  mod_lia.
Qed.
Lemma mask_254 a : is_byte a → Z.land 18 254 = Z.land a 254 ↔ 18 <= a <= 19.
Proof.
  intros. rewrite (byte_mask_254 a) by done. change (Z.land 18 254) with 18.
  mod_lia.
Qed.
Lemma mask_172 b : is_byte b → Z.land b 240 = 16 ↔ 16 <= b <= 31.
Proof. intros. rewrite byte_mask_240 by done. mod_lia. Qed.
Lemma mask_224 a : is_byte a → Z.land a 240 = 224 ↔ 224 <= a <= 239.
Proof. intros. rewrite byte_mask_240 by done. mod_lia. Qed.
Lemma mask_240 a : is_byte a → Z.land 240 240 = Z.land a 240 ↔ 240 <= a.
Proof.
  intros. rewrite (byte_mask_240 a) by done. change (Z.land 240 240) with 240.
  mod_lia.
Qed.

(** A dotted quad as a number, and the inclusive ranges the guard refuses:
    each is named in the source, by a [net.IP] predicate or a CIDR. *)
Definition v4_value (a b c d : Z) : Z := ((a * 256 + b) * 256 + c) * 256 + d.

Definition loopback_v4 : Z * Z := (v4_value 127 0 0 0, v4_value 127 255 255 255).

Definition refused_v4 : list (Z * Z) :=
  [ (v4_value 0 0 0 0, v4_value 0 0 0 0);
    (v4_value 10 0 0 0, v4_value 10 255 255 255);
    (v4_value 100 64 0 0, v4_value 100 127 255 255);
    (v4_value 169 254 0 0, v4_value 169 254 255 255);
    (v4_value 172 16 0 0, v4_value 172 31 255 255);
    (v4_value 192 0 0 0, v4_value 192 0 0 255);
    (v4_value 192 0 2 0, v4_value 192 0 2 255);
    (v4_value 192 168 0 0, v4_value 192 168 255 255);
    (v4_value 198 18 0 0, v4_value 198 19 255 255);
    (v4_value 198 51 100 0, v4_value 198 51 100 255);
    (v4_value 203 0 113 0, v4_value 203 0 113 255);
    (v4_value 224 0 0 0, v4_value 239 255 255 255);
    (v4_value 240 0 0 0, v4_value 255 255 255 255) ].

Definition in_range (v : Z) (r : Z * Z) : Prop := r.1 <= v <= r.2.

Lemma ip_equal_same x y : length x = length y → ip_equal x y = true ↔ x = y.
Proof. intros H. unfold ip_equal. by rewrite decide_True, bool_decide_eq_true. Qed.

Lemma To4_mapped q : length q = 4%nat → To4 (v4prefix ++ q) = Some q.
Proof.
  destruct q as [|a [|b [|c [|d [|]]]]]; done.
Qed.

Lemma byte_at_0 x l : byte_at (x :: l) 0 = x.
Proof. done. Qed.
Lemma byte_at_S x l i : byte_at (x :: l) (S i) = byte_at l i.
Proof. done. Qed.

Section v4.
Context (a b c d : Z) (Ha : is_byte a) (Hb : is_byte b) (Hc : is_byte c) (Hd : is_byte d).
Let ip := ip4in6 a b c d.
Set Default Proof Using "Type Ha Hb Hc Hd".

Lemma v4_To4 : To4 ip = Some [a; b; c; d].
Proof. by apply To4_mapped. Qed.

Lemma v4_IsLoopback : IsLoopback ip = true ↔ in_range (v4_value a b c d) loopback_v4.
Proof.
  unfold IsLoopback, in_range, loopback_v4, v4_value, is_byte in *. rewrite v4_To4.
  rewrite byte_at_0, Z.eqb_eq. cbn [fst snd]. lia.
Qed.

Lemma v4_IsUnspecified : IsUnspecified ip = true ↔ (a = 0 ∧ b = 0 ∧ c = 0 ∧ d = 0).
Proof.
  unfold IsUnspecified. rewrite orb_true_iff, !ip_equal_same by done. split.
  - intros [[=]|[=]]; auto.
  - intros (-> & -> & -> & ->). by left.
Qed.

Lemma v4_special_use :
  special_use ip = true ↔
    (a = 0 ∧ b = 0 ∧ c = 0 ∧ d = 0) ∨ 10 <= a <= 10 ∨ (a = 172 ∧ 16 <= b <= 31) ∨
    (a = 192 ∧ 168 <= b <= 168) ∨ (a = 169 ∧ 254 <= b <= 254) ∨ 224 <= a <= 239.
Proof.
  unfold special_use, IsPrivate, IsMulticast, IsLinkLocalMulticast, IsLinkLocalUnicast,
    IsInterfaceLocalMulticast. rewrite v4_To4, !byte_at_S, !byte_at_0.
  rewrite !orb_true_iff, !andb_true_iff, !Z.eqb_eq, v4_IsUnspecified.
  rewrite mask_172, mask_224 by done.
  change (byte_at ip 0) with 0. change (byte_at ip 1) with 0.
  generalize (is16 ip) as six; clear ip. intros six.
  split; intros H; destruct_or! H; destruct_and? H; lia.
Qed.

Lemma v4_Contains n0 n1 n2 n3 m0 m1 m2 m3 :
  net_Contains {| net_ip := [n0; n1; n2; n3]; net_mask := [m0; m1; m2; m3] |} ip = true ↔
  Z.land n0 m0 = Z.land a m0 ∧ Z.land n1 m1 = Z.land b m1 ∧
  Z.land n2 m2 = Z.land c m2 ∧ Z.land n3 m3 = Z.land d m3.
Proof.
  unfold net_Contains. rewrite v4_To4. simpl. rewrite bool_decide_eq_true.
  split; [by intros [= -> -> -> ->]|by intros (-> & -> & -> & ->)].
Qed.

Lemma v4_not_Contains n m : length n = 16%nat →
  net_Contains {| net_ip := n; net_mask := m |} ip = false.
Proof.
  intros Hn. unfold net_Contains. rewrite v4_To4. simpl. by rewrite decide_False by lia.
Qed.

Lemma v4_blocked :
  existsb (λ n, net_Contains n ip) ssrfBlockedCIDRs = true ↔
    (a = 100 ∧ 64 <= b <= 127) ∨ (a = 192 ∧ b = 0 ∧ c = 0) ∨
    (a = 192 ∧ b = 0 ∧ c = 2) ∨ (a = 198 ∧ 18 <= b <= 19) ∨
    (a = 198 ∧ b = 51 ∧ c = 100) ∨ (a = 203 ∧ b = 0 ∧ c = 113) ∨
    240 <= a <= 255.
Proof.
  unfold ssrfBlockedCIDRs. cbn [existsb].
  rewrite !orb_true_iff, !v4_Contains, !v4_not_Contains by done.
  rewrite !mask_full, !mask_zero, mask_192, mask_254, mask_240 by (done || unfold is_byte; lia).
  clear ip. unfold is_byte in *.
  split; intros H; destruct_or! H; destruct_and? H; subst; lia.
Qed.
End v4.
Set Default Proof Using "Type".

(** The guard's answer in terms of the three classifications. *)
Lemma checkFetchAddress_none ip allow :
  checkFetchAddress (Some ip) allow = None ↔
  (IsLoopback ip = true ∧ allow = true) ∨
  (¬ IsLoopback ip = true ∧ ¬ special_use ip = true ∧
   ¬ existsb (λ n, net_Contains n ip) ssrfBlockedCIDRs = true).
Proof.
  unfold checkFetchAddress.
  destruct (IsLoopback ip), allow, (special_use ip), (existsb _ _); intuition congruence.
Qed.

(** An address block is a range of numbers. *)
Section blocks.
Context (a b c d : Z) (Ha : is_byte a) (Hb : is_byte b) (Hc : is_byte c) (Hd : is_byte d).
Let v := v4_value a b c d.
Set Default Proof Using "Type Ha Hb Hc Hd".
Ltac solve_block :=
  unfold in_range, v, v4_value, is_byte in *; cbn [fst snd]; lia.

Lemma block_8 p p' :
  in_range v (v4_value p 0 0 0, v4_value p' 255 255 255) ↔ p <= a <= p'.
Proof. solve_block. Qed.
Lemma block_16 p q q' : is_byte q → is_byte q' →
  in_range v (v4_value p q 0 0, v4_value p q' 255 255) ↔ a = p ∧ q <= b <= q'.
Proof. intros. solve_block. Qed.
Lemma block_24 p q r : is_byte q → is_byte r →
  in_range v (v4_value p q r 0, v4_value p q r 255) ↔ a = p ∧ b = q ∧ c = r.
Proof. intros. solve_block. Qed.
Lemma block_0 : in_range v (v4_value 0 0 0 0, v4_value 0 0 0 0) ↔
  a = 0 ∧ b = 0 ∧ c = 0 ∧ d = 0.
Proof. solve_block. Qed.
End blocks.
Set Default Proof Using "Type".

(** C17: The guard on an IPv4 address (in the 16-byte form [net.ParseIP] gives) is a set
    of ranges: the address passes exactly when it lies in none of the thirteen blocks,
    and outside loopback unless loopback is allowed. *)
Lemma checkFetchAddress_ranges a b c d allow :
  is_byte a → is_byte b → is_byte c → is_byte d →
  checkFetchAddress (Some (ip4in6 a b c d)) allow = None ↔
  (allow = false → ¬ in_range (v4_value a b c d) loopback_v4) ∧
  Forall (λ r, ¬ in_range (v4_value a b c d) r) refused_v4.
Proof.
  intros Ha Hb Hc Hd. rewrite checkFetchAddress_none.
  rewrite (v4_IsLoopback a b c d Ha Hb Hc Hd), (v4_special_use a b c d Ha Hb Hc Hd),
    (v4_blocked a b c d Ha Hb Hc Hd).
  unfold refused_v4, loopback_v4. rewrite !Forall_cons, Forall_nil.
  rewrite (block_0 a b c d Ha Hb Hc Hd), !(block_8 a b c d Ha Hb Hc Hd).
  rewrite !(λ p q q', block_16 a b c d Ha Hb Hc Hd p q q'),
    !(λ p q r, block_24 a b c d Ha Hb Hc Hd p q r) by (unfold is_byte; lia).
  split.
  - intros [[Hl ->]|(Hl & Hs & Hb')]; [|tauto].
    split; [done|]. assert (a = 127) as -> by lia. repeat split; lia.
  - intros [Hl Hr]. destruct (decide (127 <= a <= 127)) as [H127|]; [|tauto].
    left. split; [done|]. destruct allow; [done|]. by destruct Hl.
Qed.
