(* ===== verification/GoURL.v ===== *)
(** * The part of Go's [net/url] the program uses

    [Parse], [URL.EscapedPath], [URL.String], [URL.Query], [Values.Set] and
    [Values.Encode], as in the Go 1.24 the module file names, with the facts
    the program's URL building rests on: escaping a query component and
    unescaping it again is the identity, and parsing an encoded query gives
    back its values. *)

From S2P Require Import Prelude GoStrings GoNet.
From Stdlib Require Import Ascii.
From stdpp Require Import options.

(** ** Escaping *)

Inductive encoding :=
  | encodePath | encodeHost | encodeZone | encodeUserPassword
  | encodeQueryComponent | encodeFragment.

#[global] Instance encoding_eq_dec : EqDecision encoding.
Proof. solve_decision. Defined.

Fixpoint chars (s : string) : list ascii :=
  match s with EmptyString => [] | String c s' => c :: chars s' end.

Definition is_alnum (c : ascii) : bool :=
  let n := byte_of c in
  (((48 <=? n) && (n <=? 57)) || ((65 <=? n) && (n <=? 90))
   || ((97 <=? n) && (n <=? 122)))%N.

Definition quote_char : ascii := "034".

Definition host_chars : list ascii := quote_char :: chars "!$&'()*+,;=:[]<>".
Definition unreserved_marks : list ascii := chars "-_.~".
Definition reserved_chars : list ascii := chars "$&+,/:;=?@".

Definition shouldEscape (c : ascii) (mode : encoding) : bool :=
  if is_alnum c then false
  else if bool_decide ((mode = encodeHost ∨ mode = encodeZone) ∧ c ∈ host_chars) then false
  else if bool_decide (c ∈ unreserved_marks) then false
  else if bool_decide (c ∈ reserved_chars) then
    match mode with
    | encodePath => bool_decide (c = "?"%char)
    | encodeUserPassword => bool_decide (c ∈ chars "@/?:")
    | encodeFragment => false
    | _ => true
    end
  else if bool_decide (mode = encodeFragment ∧ c ∈ chars "!()*") then false
  else true.

Definition hex_upper (n : Z) : ascii :=
  ascii_of_N (Z.to_N (if decide (n < 10)%Z then n + 48 else n + 55)).

Definition pct (c : ascii) : string :=
  let n := Z.of_N (byte_of c) in
  String "%" (String (hex_upper (n / 16)) (String (hex_upper (n mod 16)) EmptyString)).

Definition escape_char (mode : encoding) (c : ascii) : string :=
  if bool_decide (c = " "%char ∧ mode = encodeQueryComponent) then "+"
  else if shouldEscape c mode then pct c
  else String c EmptyString.

Fixpoint escape (mode : encoding) (s : string) : string :=
  match s with
  | EmptyString => EmptyString
  | String c s' => escape_char mode c +:+ escape mode s'
  end.

(** May the byte [a b] (in hexadecimal) be percent-encoded in this mode? *)
Definition pct_allowed (mode : encoding) (a b : ascii) (hi lo : Z) : bool :=
  let is25 := bool_decide (a = "2"%char ∧ b = "5"%char) in
  match mode with
  | encodeHost => negb (hi <? 8)%Z || is25
  | encodeZone =>
      let v := ascii_of_N (Z.to_N (hi * 16 + lo)) in
      is25 || bool_decide (v = " "%char) || negb (shouldEscape v encodeHost)
  | _ => true
  end.

Definition plain_allowed (mode : encoding) (c : ascii) : bool :=
  match mode with
  | encodeHost | encodeZone => negb ((byte_of c <? 128)%N && shouldEscape c mode)
  | _ => true
  end.

Fixpoint unescape (mode : encoding) (s : string) : option string :=
  match s with
  | EmptyString => Some EmptyString
  | String c s1 =>
      if decide (c = "%"%char) then
        match s1 with
        | String a (String b r) =>
            hi ← hex_digit a; lo ← hex_digit b;
            if pct_allowed mode a b hi lo then
              t ← unescape mode r;
              Some (String (ascii_of_N (Z.to_N (hi * 16 + lo))) t)
            else None
        | _ => None
        end
      else if decide (c = "+"%char ∧ mode = encodeQueryComponent) then
        t ← unescape mode s1; Some (String " " t)
      else if plain_allowed mode c then t ← unescape mode s1; Some (String c t)
      else None
  end.

Abbreviation QueryEscape := (escape encodeQueryComponent).
Abbreviation QueryUnescape := (unescape encodeQueryComponent).

(** ** [Parse] *)

Record URL := {
  u_scheme : string;
  u_opaque : string;
  u_user : option (string * option string);
  u_host : string;
  u_path : string;
  u_rawpath : string;
  u_omithost : bool;
  u_forcequery : bool;
  u_rawquery : string;
  u_fragment : string;
  u_rawfragment : string
}.

Definition empty_url : URL :=
  {| u_scheme := ""; u_opaque := ""; u_user := None; u_host := ""; u_path := "";
     u_rawpath := ""; u_omithost := false; u_forcequery := false;
     u_rawquery := ""; u_fragment := ""; u_rawfragment := "" |}.

Definition is_ctl (c : ascii) : bool :=
  ((byte_of c <? 32) || (byte_of c =? 127))%N.

Definition is_letter (c : ascii) : bool :=
  let n := byte_of c in
  (((65 <=? n) && (n <=? 90)) || ((97 <=? n) && (n <=? 122)))%N.

(** [getScheme]: [None] for "missing protocol scheme". *)
Fixpoint get_scheme (first : bool) (acc rest whole : string) : option (string * string) :=
  match rest with
  | EmptyString => Some (EmptyString, whole)
  | String c r =>
      if is_letter c then get_scheme false (acc +:+ String c "") r whole
      else if is_alnum c || bool_decide (c ∈ chars "+-.") then
        if first then Some (EmptyString, whole)
        else get_scheme false (acc +:+ String c "") r whole
      else if decide (c = ":"%char) then if first then None else Some (acc, r)
      else Some (EmptyString, whole)
  end.

Definition validOptionalPort (port : string) : bool :=
  match port with
  | EmptyString => true
  | String ":" r => forallb (λ c, bool_decide (is_Some (digit_of c))) (chars r)
  | _ => false
  end.

(** The substring before the first ["%25"], and from it on. *)
Fixpoint cut_zone (s : string) : option (string * string) :=
  if has_prefix "%25" s then Some (EmptyString, s)
  else match s with
       | EmptyString => None
       | String c r => '(a, b) ← cut_zone r; Some (String c a, b)
       end.

Definition parseHost (host : string) : option string :=
  if has_prefix "[" host then
    '(inner, port) ← cut_last "]" host;
    if validOptionalPort port then
      match cut_zone inner with
      | Some (h1, h2) =>
          a ← unescape encodeHost h1; b ← unescape encodeZone h2;
          c ← unescape encodeHost (String "]" port);
          Some (a +:+ b +:+ c)
      | None => unescape encodeHost host
      end
    else None
  else match cut_last ":" host with
       | Some (_, port) =>
           if validOptionalPort (String ":" port) then unescape encodeHost host else None
       | None => unescape encodeHost host
       end.

Definition validUserinfo (s : string) : bool :=
  forallb (λ c, is_alnum c || bool_decide (c ∈ chars "-._:~!$&'()*+,;=%@")) (chars s).

Definition parseUser (userinfo : string) : option (string * option string) :=
  if validUserinfo userinfo then
    match cut ":" userinfo with
    | (name, pw, true) =>
        n ← unescape encodeUserPassword name; p ← unescape encodeUserPassword pw;
        Some (n, Some p)
    | (name, _, false) => n ← unescape encodeUserPassword name; Some (n, None)
    end
  else None.

Definition parseAuthority (authority : string) : option (option (string * option string) * string) :=
  match cut_last "@" authority with
  | None => h ← parseHost authority; Some (None, h)
  | Some (userinfo, hostport) =>
      h ← parseHost hostport; u ← parseUser userinfo; Some (Some u, h)
  end.

Definition with_path (u : URL) (p : string) : option URL :=
  path ← unescape encodePath p;
  Some {| u_scheme := u_scheme u; u_opaque := u_opaque u; u_user := u_user u;
          u_host := u_host u; u_path := path;
          u_rawpath := if decide (p = escape encodePath path) then EmptyString else p;
          u_omithost := u_omithost u; u_forcequery := u_forcequery u;
          u_rawquery := u_rawquery u; u_fragment := u_fragment u;
          u_rawfragment := u_rawfragment u |}.

(** The authority and path of what follows the scheme, the query cut off. *)
Definition parse_hier (u : URL) (rest : string) : option URL :=
  if has_prefix "//" rest &&
     (bool_decide (u_scheme u ≠ EmptyString) || negb (has_prefix "///" rest)) then
    let authority_path := default EmptyString (drop_prefix "//" rest) in
    let '(authority, path, slash) := cut "/" authority_path in
    '(user, host) ← parseAuthority authority;
    with_path {| u_scheme := u_scheme u; u_opaque := ""; u_user := user; u_host := host;
                 u_path := ""; u_rawpath := ""; u_omithost := false;
                 u_forcequery := u_forcequery u; u_rawquery := u_rawquery u;
                 u_fragment := ""; u_rawfragment := "" |}
              (if slash then String "/" path else EmptyString)
  else
    with_path {| u_scheme := u_scheme u; u_opaque := ""; u_user := None; u_host := "";
                 u_path := ""; u_rawpath := "";
                 u_omithost := bool_decide (u_scheme u ≠ EmptyString) && has_prefix "/" rest;
                 u_forcequery := u_forcequery u; u_rawquery := u_rawquery u;
                 u_fragment := ""; u_rawfragment := "" |} rest.

Definition with_query (u : URL) (q : string) : URL :=
  {| u_scheme := u_scheme u; u_opaque := u_opaque u; u_user := u_user u;
     u_host := u_host u; u_path := u_path u; u_rawpath := u_rawpath u;
     u_omithost := u_omithost u; u_forcequery := u_forcequery u;
     u_rawquery := q; u_fragment := u_fragment u; u_rawfragment := u_rawfragment u |}.

Definition with_paths (path rawpath : string) (u : URL) : URL :=
  {| u_scheme := u_scheme u; u_opaque := u_opaque u; u_user := u_user u; u_host := u_host u;
     u_path := path; u_rawpath := rawpath; u_omithost := u_omithost u;
     u_forcequery := u_forcequery u; u_rawquery := u_rawquery u; u_fragment := u_fragment u;
     u_rawfragment := u_rawfragment u |}.

Definition parse_nofrag (raw : string) : option URL :=
  if existsb is_ctl (chars raw) then None
  else if decide (raw = "*") then
    Some {| u_scheme := ""; u_opaque := ""; u_user := None; u_host := ""; u_path := "*";
            u_rawpath := ""; u_omithost := false; u_forcequery := false;
            u_rawquery := ""; u_fragment := ""; u_rawfragment := "" |}
  else
    '(scheme0, rest0) ← get_scheme true EmptyString raw raw;
    let scheme := ascii_lower scheme0 in
    let force := has_suffix "?" rest0 && bool_decide (count_char "?" rest0 = 1%nat) in
    let '(rest, query) :=
      if force then (trim_suffix "?" rest0, EmptyString)
      else let '(a, b, _) := cut "?" rest0 in (a, b) in
    let u := {| u_scheme := scheme; u_opaque := ""; u_user := None; u_host := "";
                u_path := ""; u_rawpath := ""; u_omithost := false;
                u_forcequery := force; u_rawquery := query;
                u_fragment := ""; u_rawfragment := "" |} in
    if has_prefix "/" rest then parse_hier u rest
    else if decide (scheme ≠ EmptyString) then
      Some {| u_scheme := scheme; u_opaque := rest; u_user := None; u_host := "";
              u_path := ""; u_rawpath := ""; u_omithost := false;
              u_forcequery := force; u_rawquery := query;
              u_fragment := ""; u_rawfragment := "" |}
    else let '(segment, _, _) := cut "/" rest in
         if contains_char ":" segment then None else parse_hier u rest.

Definition url_Parse (raw : string) : option URL :=
  let '(u, frag, _) := cut "#" raw in
  url ← parse_nofrag u;
  if decide (frag = EmptyString) then Some url
  else f ← unescape encodeFragment frag;
       Some {| u_scheme := u_scheme url; u_opaque := u_opaque url; u_user := u_user url;
               u_host := u_host url; u_path := u_path url; u_rawpath := u_rawpath url;
               u_omithost := u_omithost url; u_forcequery := u_forcequery url;
               u_rawquery := u_rawquery url; u_fragment := f;
               u_rawfragment :=
                 if decide (frag = escape encodeFragment f) then EmptyString else frag |}.

(** ** [EscapedPath], [IsAbs], [Hostname] and [String] *)

Definition validEncoded (s : string) (mode : encoding) : bool :=
  forallb (λ c, bool_decide (c ∈ chars "!$&'()*+,;=:@[]%") || negb (shouldEscape c mode))
          (chars s).

Definition escaped (raw plain : string) (mode : encoding) : string :=
  if bool_decide (raw ≠ EmptyString ∧ unescape mode raw = Some plain) && validEncoded raw mode
  then raw else escape mode plain.

Definition EscapedPath (u : URL) : string :=
  if bool_decide (u_rawpath u = EmptyString ∧ u_path u = "*") then "*"
  else escaped (u_rawpath u) (u_path u) encodePath.

Definition EscapedFragment (u : URL) : string :=
  escaped (u_rawfragment u) (u_fragment u) encodeFragment.

Definition IsAbs (u : URL) : bool := bool_decide (u_scheme u ≠ EmptyString).

Definition Hostname (u : URL) : string :=
  let host := match cut_last ":" (u_host u) with
              | Some (h, port) =>
                  if validOptionalPort (String ":" port) then h else u_host u
              | None => u_host u
              end in
  if has_prefix "[" host && has_suffix "]" host
  then trim_suffix "]" (trim_prefix "[" host) else host.

Definition user_string (ui : string * option string) : string :=
  escape encodeUserPassword ui.1 +:+
  match ui.2 with
  | Some pw => ":" +:+ escape encodeUserPassword pw
  | None => EmptyString
  end.

(** What [String] writes before the path. *)
Definition authority_string (u : URL) : string :=
  if bool_decide (u_scheme u ≠ EmptyString ∨ u_host u ≠ EmptyString ∨ is_Some (u_user u)) then
    if bool_decide (u_omithost u = true ∧ u_host u = EmptyString ∧ u_user u = None) then EmptyString
    else
      (if bool_decide (u_host u ≠ EmptyString ∨ u_path u ≠ EmptyString ∨ is_Some (u_user u))
       then "//" else EmptyString) +:+
      match u_user u with Some ui => user_string ui +:+ "@" | None => EmptyString end +:+
      escape encodeHost (u_host u)
  else EmptyString.

Definition scheme_string (u : URL) : string :=
  if decide (u_scheme u = EmptyString) then EmptyString else u_scheme u +:+ ":".

Definition path_string (before : string) (u : URL) : string :=
  let path := EscapedPath u in
  let slash := if bool_decide (path ≠ EmptyString ∧ u_host u ≠ EmptyString)
                  && negb (has_prefix "/" path) then "/" else EmptyString in
  let '(segment, _, _) := cut "/" path in
  let dot := if bool_decide (before +:+ slash = EmptyString) && contains_char ":" segment
             then "./" else EmptyString in
  slash +:+ dot +:+ path.

(** Everything up to the query. *)
Definition url_before_query (u : URL) : string :=
  if decide (u_opaque u ≠ EmptyString) then scheme_string u +:+ u_opaque u
  else let before := scheme_string u +:+ authority_string u in
       before +:+ path_string before u.

Definition url_after_query (u : URL) : string :=
  if decide (u_fragment u = EmptyString) then EmptyString
  else "#" +:+ EscapedFragment u.

Definition url_String (u : URL) : string :=
  url_before_query u +:+
  (if u_forcequery u || bool_decide (u_rawquery u ≠ EmptyString)
   then "?" +:+ u_rawquery u else EmptyString) +:+
  url_after_query u.

(** ** [Values] *)

Abbreviation Values := (gmap string (list string)).

Definition values_add (k v : string) (m : Values) : Values :=
  <[k := default [] (m !! k) ++ [v]]> m.

(** One [&]-separated piece of a query; a piece that does not parse is skipped. *)
Definition parse_piece (m : Values) (piece : string) : Values :=
  if contains_char ";" piece || bool_decide (piece = EmptyString) then m
  else let '(k, v, _) := cut "=" piece in
       match QueryUnescape k, QueryUnescape v with
       | Some k, Some v => values_add k v m
       | _, _ => m
       end.

Definition parseQuery (q : string) : Values :=
  foldl parse_piece ∅ (split_on "&" q).

Definition Query (u : URL) : Values := parseQuery (u_rawquery u).

Definition encode_pair (kv : string * string) : string :=
  QueryEscape kv.1 +:+ "=" +:+ QueryEscape kv.2.

(** The pairs in the order of [Encode]: keys sorted, the values of a key in order. *)
Definition sorted_keys (m : Values) : list string := merge_sort String.le (map_to_list m).*1.

Definition value_pairs (m : Values) : list (string * string) :=
  k ← sorted_keys m; (λ v, (k, v)) <$> default [] (m !! k).

Definition Encode (m : Values) : string := join "&" (encode_pair <$> value_pairs m).

Definition values_set (k v : string) (m : Values) : Values := <[k := [v]]> m.
Definition values_get (k : string) (m : Values) : string :=
  default EmptyString (m !! k ≫= head).

(** ** Facts about queries *)

Lemma unescape_escape_char c t :
  QueryUnescape (escape_char encodeQueryComponent c +:+ t) =
  (s ← QueryUnescape t; Some (String c s)).
Proof. destruct c as [[] [] [] [] [] [] [] []]; reflexivity. Qed.

(** Escaping a query component loses nothing. *)
Lemma unescape_escape s : QueryUnescape (QueryEscape s) = Some s.
Proof.
  induction s as [|c s IH]; [done|].
  change (QueryEscape (String c s)) with
    (escape_char encodeQueryComponent c +:+ QueryEscape s).
  by rewrite unescape_escape_char, IH.
Qed.

(** The separators of a query never survive escaping. *)
Lemma escape_no_separator d s :
  d ∈ chars "&=;" → contains_char d (QueryEscape s) = false.
Proof.
  intros Hd. induction s as [|c s IH]; [done|].
  change (QueryEscape (String c s)) with
    (escape_char encodeQueryComponent c +:+ QueryEscape s).
  rewrite contains_char_app, IH, orb_false_r.
  repeat (apply elem_of_cons in Hd as [->|Hd]);
    [destruct c as [[] [] [] [] [] [] [] []]; reflexivity..|].
  by apply elem_of_nil in Hd.
Qed.

Lemma parse_encode_pair m kv : parse_piece m (encode_pair kv) = values_add kv.1 kv.2 m.
Proof.
  destruct kv as [k v]. unfold parse_piece, encode_pair. simpl.
  rewrite !contains_char_app, !escape_no_separator by (repeat constructor).
  change (contains_char ";" "=") with false. cbn [orb].
  rewrite bool_decide_eq_false_2 by (intros [_ [[=] _]%sapp_eq_nil]%sapp_eq_nil).
  change (QueryEscape k +:+ "=" +:+ QueryEscape v)
    with (QueryEscape k +:+ String "=" (QueryEscape v)).
  rewrite cut_app by (apply escape_no_separator; repeat constructor).
  by rewrite !unescape_escape.
Qed.

Lemma encode_pair_no_amp kv : contains_char "&" (encode_pair kv) = false.
Proof.
  destruct kv as [k v]. unfold encode_pair. simpl.
  by rewrite !contains_char_app, !escape_no_separator by (repeat constructor).
Qed.

(** Parsing an encoded list of pairs adds them one by one. *)
Lemma parseQuery_pairs l :
  parseQuery (join "&" (encode_pair <$> l)) = foldl (λ m kv, values_add kv.1 kv.2 m) ∅ l.
Proof.
  unfold parseQuery. destruct (decide (l = [])) as [->|Hl]; [done|].
  rewrite split_on_join.
  - generalize (∅ : Values). clear Hl. induction l as [|kv l IH]; intros acc; [done|].
    simpl. by rewrite parse_encode_pair, IH.
  - apply Forall_fmap, Forall_true. intros kv. apply encode_pair_no_amp.
  - by destruct l.
Qed.

Lemma values_add_all k vs acc :
  vs ≠ [] →
  foldl (λ m kv, values_add kv.1 kv.2 m) acc ((λ v, (k, v)) <$> vs) =
  <[k := default [] (acc !! k) ++ vs]> acc.
Proof.
  revert acc. induction vs as [|v vs IH]; intros acc; [done|]. intros _. simpl.
  destruct (decide (vs = [])) as [->|Hne]; [done|]. rewrite IH by done.
  unfold values_add. rewrite lookup_insert_eq, insert_insert_eq. simpl.
  by rewrite <-app_assoc.
Qed.

(** No key of the map carries an empty list of values. *)
Definition values_ok (m : Values) : Prop := map_Forall (λ _ vs, vs ≠ []) m.

Lemma values_add_keys m ks acc :
  values_ok m → NoDup ks → (∀ k, k ∈ ks → is_Some (m !! k)) → (∀ k, k ∈ ks → acc !! k = None) →
  ∀ j, foldl (λ m kv, values_add kv.1 kv.2 m) acc
         (k ← ks; (λ v, (k, v)) <$> default [] (m !! k)) !! j
       = if decide (j ∈ ks) then m !! j else acc !! j.
Proof.
  intros Hok Hnd. revert acc. induction Hnd as [|k ks Hk Hnd IH]; intros acc Hsome Hnone j.
  { by rewrite decide_False by apply not_elem_of_nil. }
  rewrite bind_cons, foldl_app.
  destruct (Hsome k) as [vs Hvs]; [by left|].
  assert (vs ≠ []) as Hne by (by eapply Hok).
  rewrite Hvs. simpl. rewrite values_add_all, (Hnone k) by (done || by left). simpl.
  rewrite IH.
  - destruct (decide (j = k)) as [->|Hj].
    + rewrite decide_False, decide_True, lookup_insert_eq by (done || by left). done.
    + rewrite lookup_insert_ne by done.
      destruct (decide (j ∈ ks)); [rewrite decide_True by (by right)
        |rewrite decide_False by (rewrite elem_of_cons; tauto)]; done.
  - intros; apply Hsome; by right.
  - intros k' Hk'. rewrite lookup_insert_ne by (by intros ->). apply Hnone. by right.
Qed.

Lemma sorted_keys_perm m : sorted_keys m ≡ₚ (map_to_list m).*1.
Proof. apply merge_sort_Permutation. Qed.

Lemma elem_of_sorted_keys m k : k ∈ sorted_keys m ↔ is_Some (m !! k).
Proof.
  rewrite sorted_keys_perm, list_elem_of_fmap. split.
  - intros [[k' v] [-> H%elem_of_map_to_list]]. eauto.
  - intros [v H%elem_of_map_to_list]. by exists (k, v).
Qed.

(** [Values.Encode] and [ParseQuery] are inverse. *)
Lemma parse_Encode m : values_ok m → parseQuery (Encode m) = m.
Proof.
  intros Hok. unfold Encode. rewrite parseQuery_pairs. apply map_eq. intros j.
  unfold value_pairs. rewrite values_add_keys.
  - case_decide as Hj; [done|]. rewrite elem_of_sorted_keys in Hj.
    rewrite lookup_empty. by destruct (m !! j) eqn:E; [destruct Hj; eauto|].
  - done.
  - rewrite sorted_keys_perm. apply NoDup_fst_map_to_list.
  - intros k. apply elem_of_sorted_keys.
  - intros. apply lookup_empty.
Qed.

Lemma values_ok_empty : values_ok ∅.
Proof. apply map_Forall_empty. Qed.

Lemma values_ok_add k v m : values_ok m → values_ok (values_add k v m).
Proof.
  intros Hm. apply map_Forall_insert_2; [|done]. by destruct (default [] (m !! k)).
Qed.

Lemma values_ok_set k v m : values_ok m → values_ok (values_set k v m).
Proof. intros Hm. by apply map_Forall_insert_2. Qed.

Lemma values_ok_parse q : values_ok (parseQuery q).
Proof.
  unfold parseQuery. generalize (split_on "&" q) as l, values_ok_empty. generalize (∅ : Values).
  intros acc l. revert acc. induction l as [|p l IH]; intros acc Hacc; [done|]. simpl.
  apply IH. unfold parse_piece. repeat case_match; try done. by apply values_ok_add.
Qed.

#[export] Hint Resolve values_ok_empty values_ok_add values_ok_set values_ok_parse : oidc.

Lemma values_get_set k v m : values_get k (values_set k v m) = v.
Proof. unfold values_get, values_set. by rewrite lookup_insert_eq. Qed.

Lemma values_get_set_ne k k' v m : k ≠ k' → values_get k (values_set k' v m) = values_get k m.
Proof. intros. unfold values_get, values_set. by rewrite lookup_insert_ne. Qed.
