(* ===== verification/GoBase64.v ===== *)
(** * Go's [encoding/base64]: [RawURLEncoding] and the decoder of [StdEncoding]

    The decoder skips carriage returns and newlines and ignores trailing bits,
    as the library's non-strict encodings do.  The fact the session stores rest
    on is that decoding undoes encoding. *)

From S2P Require Import Prelude GoStrings GoNet GoURL.
From Stdlib Require Import Ascii.
From stdpp Require Import options.
Local Open Scope N_scope.

Definition std_alphabet : list ascii :=
  chars "ABCDEFGHIJKLMNOPQRSTUVWXYZabcdefghijklmnopqrstuvwxyz0123456789+/".
Definition url_alphabet : list ascii :=
  chars "ABCDEFGHIJKLMNOPQRSTUVWXYZabcdefghijklmnopqrstuvwxyz0123456789-_".

Definition sextet_char (alpha : list ascii) (n : N) : ascii :=
  default "A"%char (alpha !! N.to_nat n).

Definition char_sextet (alpha : list ascii) (c : ascii) : option N :=
  '(i, _) ← list_find (λ d, d = c) alpha; Some (N.of_nat i).

Definition bytes_of (s : string) : list N := byte_of <$> chars s.

Fixpoint string_of_bytes (l : list N) : string :=
  match l with [] => EmptyString | n :: l' => String (ascii_of_N n) (string_of_bytes l') end.

Fixpoint string_of_chars (l : list ascii) : string :=
  match l with [] => EmptyString | c :: l' => String c (string_of_chars l') end.

(** Eight-bit groups to six-bit groups and back, the last group short. *)
Fixpoint to_sextets (l : list N) : list N :=
  match l with
  | a :: b :: c :: r =>
      a / 4 :: (a mod 4) * 16 + b / 16 :: (b mod 16) * 4 + c / 64 :: c mod 64 :: to_sextets r
  | [a; b] => [a / 4; (a mod 4) * 16 + b / 16; (b mod 16) * 4]
  | [a] => [a / 4; (a mod 4) * 16]
  | [] => []
  end.

Fixpoint of_sextets (l : list N) : option (list N) :=
  match l with
  | a :: b :: c :: d :: r =>
      bs ← of_sextets r;
      Some (a * 4 + b / 16 :: (b mod 16) * 16 + c / 4 :: (c mod 4) * 64 + d :: bs)
  | [a; b; c] => Some [a * 4 + b / 16; (b mod 16) * 16 + c / 4]
  | [a; b] => Some [a * 4 + b / 16]
  | [_] => None
  | [] => Some []
  end.

Definition raw_url_encode (s : string) : string :=
  string_of_chars (sextet_char url_alphabet <$> to_sextets (bytes_of s)).

Definition is_newline (c : ascii) : bool := bool_decide (c = "010"%char ∨ c = "013"%char).

Definition strip_newlines (s : string) : list ascii :=
  List.filter (λ c, negb (is_newline c)) (chars s).

Definition decode_chars (alpha : list ascii) (cs : list ascii) : option string :=
  vs ← mapM (char_sextet alpha) cs; bs ← of_sextets vs; Some (string_of_bytes bs).

Definition raw_url_decode (s : string) : option string :=
  decode_chars url_alphabet (strip_newlines s).

Definition std_decode (s : string) : option string :=
  let cs := strip_newlines s in
  if decide (Nat.modulo (length cs) 4 = 0%nat) then
    match reverse cs with
    | "="%char :: "="%char :: r => decode_chars std_alphabet (reverse r)
    | "="%char :: r => decode_chars std_alphabet (reverse r)
    | _ => decode_chars std_alphabet cs
    end
  else None.

(** ** Decoding undoes encoding *)

Lemma string_of_bytes_of s : string_of_bytes (bytes_of s) = s.
Proof.
  induction s as [|c s IH]; [done|]. simpl. unfold byte_of. rewrite ascii_N_embedding.
  f_equal. exact IH.
Qed.

Lemma chars_string_of_chars l : chars (string_of_chars l) = l.
Proof. induction l as [|c l IH]; [done|]. simpl. by rewrite IH. Qed.

Lemma bytes_of_bound s : Forall (λ n, n < 256) (bytes_of s).
Proof.
  unfold bytes_of. apply Forall_fmap, Forall_true. intros c. apply N_ascii_bounded.
Qed.

Lemma sextet_enum (P : N → bool) n :
  forallb P (N.of_nat <$> seq 0 64) = true → n < 64 → P n = true.
Proof.
  intros HP Hn. apply (proj1 (forallb_forall _ _) HP), list_elem_of_In, list_elem_of_fmap.
  exists (N.to_nat n). split; [lia|]. apply elem_of_seq. lia.
Qed.

Lemma char_sextet_char n : n < 64 → char_sextet url_alphabet (sextet_char url_alphabet n) = Some n.
Proof.
  intros Hn. apply (bool_decide_eq_true_1 (char_sextet url_alphabet (sextet_char url_alphabet n) = Some n)).
  revert Hn.
  apply (sextet_enum (λ n, bool_decide (char_sextet url_alphabet (sextet_char url_alphabet n) = Some n)) n).
  by vm_compute.
Qed.

Lemma sextet_char_no_newline n : n < 64 → is_newline (sextet_char url_alphabet n) = false.
Proof.
  intros Hn. apply negb_true_iff. revert Hn.
  apply (sextet_enum (λ n, negb (is_newline (sextet_char url_alphabet n))) n).
  by vm_compute.
Qed.

(** Induction three elements at a time. *)
Lemma list_ind3 {A} (P : list A → Prop) :
  P [] → (∀ a, P [a]) → (∀ a b, P [a; b]) →
  (∀ a b c l, P l → P (a :: b :: c :: l)) → ∀ l, P l.
Proof.
  intros H0 H1 H2 H3. fix IH 1.
  intros [|a [|b [|c l]]]; [exact H0|apply H1|apply H2|apply H3, IH].
Qed.

Ltac div_mod_facts :=
  repeat match goal with
  | |- context [?a / ?m] =>
      let q := fresh "q" in let r := fresh "r" in
      pose proof (N.div_mod a m ltac:(lia)); pose proof (N.mod_lt a m ltac:(lia));
      set (q := a / m) in *; set (r := a mod m) in *; clearbody q r
  | |- context [?a mod ?m] =>
      let q := fresh "q" in let r := fresh "r" in
      pose proof (N.div_mod a m ltac:(lia)); pose proof (N.mod_lt a m ltac:(lia));
      set (q := a / m) in *; set (r := a mod m) in *; clearbody q r
  end.

Lemma to_sextets_bound l : Forall (λ n, n < 256) l → Forall (λ n, n < 64) (to_sextets l).
Proof.
  induction l as [|a|a b|a b c l IH] using list_ind3; simpl;
    rewrite ?Forall_cons; intros; destruct_and?; repeat constructor;
    try (by apply IH); div_mod_facts; lia.
Qed.

Lemma split_div a m r : 0 < m → r < m → (a * m + r) / m = a.
Proof. intros. rewrite N.div_add_l by lia. rewrite (N.div_small r m) by lia. lia. Qed.
Lemma split_mod a m r : 0 < m → r < m → (a * m + r) mod m = r.
Proof. intros. rewrite N.add_comm, N.Div0.mod_add. by apply N.mod_small. Qed.
Lemma div_bound a m k : 0 < m → a < m * k → a / m < k.
Proof. intros. by apply N.Div0.div_lt_upper_bound. Qed.
Lemma of_to_sextets l : Forall (λ n, n < 256) l → of_sextets (to_sextets l) = Some l.
Proof.
  assert (∀ a m, a / m * m + a mod m = a) as Hdm.
  { intros a m. rewrite N.mul_comm. symmetry. apply N.Div0.div_mod. }
  induction l as [|a|a b|a b c l IH] using list_ind3; intros Hl; [done|..];
    rewrite ?Forall_cons in Hl; destruct_and? Hl; cbn [to_sextets of_sextets].
  - rewrite N.div_mul by done. by rewrite Hdm.
  - rewrite split_div, split_mod by (lia || apply div_bound; lia).
    rewrite N.div_mul by done. by rewrite !Hdm.
  - rewrite IH by done. cbn [mbind option_bind].
    assert (b / 16 < 16) by (apply div_bound; lia).
    assert (c / 64 < 4) by (apply div_bound; lia).
    rewrite !split_div, !split_mod by lia. by rewrite !Hdm.
Qed.

(** [base64.RawURLEncoding]: decoding an encoded string gives it back. *)
Lemma raw_url_decode_encode s : raw_url_decode (raw_url_encode s) = Some s.
Proof.
  unfold raw_url_decode, raw_url_encode, strip_newlines. rewrite chars_string_of_chars.
  pose proof (to_sextets_bound _ (bytes_of_bound s)) as Hb.
  assert (List.filter (λ c, negb (is_newline c)) (sextet_char url_alphabet <$> to_sextets (bytes_of s))
          = sextet_char url_alphabet <$> to_sextets (bytes_of s)) as ->.
  { apply filter_all, Forall_fmap. eapply Forall_impl; [exact Hb|]. intros n Hn. simpl.
    by rewrite sextet_char_no_newline. }
  unfold decode_chars.
  assert (mapM (char_sextet url_alphabet) (sextet_char url_alphabet <$> to_sextets (bytes_of s))
          = Some (to_sextets (bytes_of s))) as ->.
  { apply mapM_Some. apply Forall2_fmap_l, Forall_Forall2_diag.
    eapply Forall_impl; [exact Hb|]. intros n. apply char_sextet_char. }
  cbn [mbind option_bind]. rewrite of_to_sextets by apply bytes_of_bound.
  cbn [mbind option_bind]. by rewrite string_of_bytes_of.
Qed.

(** Encoded text has no dot, so it can be cut off at one. *)
Lemma raw_url_encode_no_dot s : contains_char "." (raw_url_encode s) = false.
Proof.
  unfold raw_url_encode.
  assert (Forall (λ n, n < 64) (to_sextets (bytes_of s))) as Hb
    by apply to_sextets_bound, bytes_of_bound.
  induction Hb as [|n l Hn _ IH]; [done|].
  change (bool_decide (sextet_char url_alphabet n = "."%char) ||
          contains_char "." (string_of_chars (sextet_char url_alphabet <$> l)) = false).
  rewrite IH, orb_false_r. apply negb_true_iff. revert Hn.
  apply (sextet_enum (λ n, negb (bool_decide (sextet_char url_alphabet n = "."%char))) n).
  by vm_compute.
Qed.

(** ... and only printable characters. *)
Lemma raw_url_encode_visible s : all_visible (raw_url_encode s) = true.
Proof.
  unfold raw_url_encode.
  assert (Forall (λ n, n < 64) (to_sextets (bytes_of s))) as Hb
    by apply to_sextets_bound, bytes_of_bound.
  induction Hb as [|n l Hn _ IH]; [done|].
  change (visible (sextet_char url_alphabet n) &&
          all_visible (string_of_chars (sextet_char url_alphabet <$> l)) = true).
  rewrite IH, andb_true_r. revert Hn.
  apply (sextet_enum (λ n, visible (sextet_char url_alphabet n)) n). by vm_compute.
Qed.

Lemma raw_url_encode_nonempty s : s ≠ EmptyString → raw_url_encode s ≠ EmptyString.
Proof.
  intros Hs E. apply Hs. pose proof (raw_url_decode_encode s) as Hd. rewrite E in Hd.
  by injection Hd.
Qed.
