(* ===== verification/GoPath.v ===== *)
(** * Go's [path.Clean] and [path.Join], and the segments of a path

    A path is worked on as its list of elements.  Used by the router, which
    redirects to clean paths, and by the API proxy, which rewrites paths. *)

From S2P Require Import Prelude GoStrings GoNet GoURL.
From Stdlib Require Import Ascii.
From stdpp Require Import options.

(** One element more on the reversed list of elements kept so far. *)
Definition clean_step (rooted : bool) (kept : list string) (e : string) : list string :=
  if decide (e = "" ∨ e = ".") then kept
  else if decide (e = "..") then
    match kept with
    | [] => if rooted then [] else [".."]
    | k :: rest => if decide (k = "..") then ".." :: kept else rest
    end
  else e :: kept.

Definition clean_elements (rooted : bool) (es : list string) : list string :=
  reverse (foldl (clean_step rooted) [] es).

Definition path_Clean (p : string) : string :=
  if decide (p = "") then "."
  else let rooted := has_prefix "/" p in
       let body := join "/" (clean_elements rooted (split_on "/" p)) in
       if rooted then "/" +:+ body
       else if decide (body = "") then "." else body.

Definition path_Join (a b : string) : string :=
  if decide (a = "" ∧ b = "") then ""
  else if decide (a = "") then path_Clean b
  else path_Clean (a +:+ "/" +:+ b).

(** [cleanPath] of net/http: cleaning keeps a final slash. *)
Definition cleanPath (p : string) : string :=
  if decide (p = "") then "/"
  else let p := if has_prefix "/" p then p else "/" +:+ p in
       let np := path_Clean p in
       if has_suffix "/" p && bool_decide (np ≠ "/") then np +:+ "/" else np.

(** ** [http.ServeMux]: segments *)

(** A segment with its escapes undone, where they can be. *)
Definition unescape_segment (s : string) : string := default s (unescape encodePath s).

(** The segments of a path, after its leading slash. *)
Definition segments (path : string) : list string :=
  match path with
  | EmptyString => []
  | String _ rest => unescape_segment <$> split_on "/" rest
  end.

(** ** Facts *)

(** An element that stays where it is. *)
Definition plain_element (e : string) : Prop := e ≠ "" ∧ e ≠ "." ∧ e ≠ "..".

Lemma clean_step_plain rooted kept e : plain_element e → clean_step rooted kept e = e :: kept.
Proof.
  intros (H1 & H2 & H3). unfold clean_step. by rewrite decide_False, decide_False by naive_solver.
Qed.

Lemma foldl_plain rooted kept es :
  Forall plain_element es → foldl (clean_step rooted) kept es = reverse es ++ kept.
Proof.
  intros Hes. revert kept. induction Hes as [|e es He Hes IH]; intros kept; simpl; [done|].
  rewrite clean_step_plain, IH by done. by rewrite reverse_cons, <-app_assoc.
Qed.

(** Elements that are no [..] never remove what precedes them. *)
Lemma foldl_no_dotdot rooted kept es :
  Forall (λ e, e ≠ "..") es →
  foldl (clean_step rooted) kept es = reverse (filter (λ e, e ≠ "" ∧ e ≠ ".") es) ++ kept.
Proof.
  intros Hes. revert kept. induction Hes as [|e es He Hes IH]; intros kept; [done|].
  cbn [foldl]. rewrite IH. unfold clean_step at 1. rewrite filter_cons.
  destruct (decide (e = "" ∨ e = ".")) as [Hd|Hd].
  - rewrite decide_False by naive_solver. done.
  - rewrite decide_False by done. rewrite decide_True by naive_solver.
    by rewrite reverse_cons, <-app_assoc.
Qed.

Lemma clean_elements_app rooted es fs :
  Forall plain_element es → Forall (λ e, e ≠ "..") fs →
  clean_elements rooted (es ++ fs) = es ++ filter (λ e, e ≠ "" ∧ e ≠ ".") fs.
Proof.
  intros He Hf. unfold clean_elements.
  rewrite foldl_app, (foldl_plain _ _ es), foldl_no_dotdot by done.
  by rewrite app_nil_r, reverse_app, !reverse_involutive.
Qed.

Lemma split_on_app c a b :
  split_on c (a +:+ String c b) = split_on c a ++ split_on c b.
Proof.
  induction a as [|x a IH]; [simpl; by rewrite decide_True|].
  rewrite sapp_cons. cbn [split_on]. destruct (decide (x = c)); [by rewrite IH|].
  rewrite IH. destruct (split_on c a) as [|p ps] eqn:E; [|done].
  exfalso. clear -E. destruct a as [|y a]; simpl in E; [done|]. repeat case_match; done.
Qed.

Lemma join_app sep xs ys : xs ≠ [] → ys ≠ [] → join sep (xs ++ ys) = join sep xs +:+ sep +:+ join sep ys.
Proof.
  intros Hx Hy. induction xs as [|x xs IH]; [done|]. destruct xs as [|x' xs].
  - simpl. by destruct ys.
  - change (x +:+ sep +:+ join sep ((x' :: xs) ++ ys) = (x +:+ sep +:+ join sep (x' :: xs)) +:+ sep +:+ join sep ys).
    rewrite IH by done. by rewrite !sapp_assoc.
Qed.

(** A prefix of plain elements: "/api", "/v1/api". *)
Definition clean_prefix (p : string) : Prop :=
  ∃ es, es ≠ [] ∧ Forall plain_element es ∧ Forall (λ e, contains_char "/" e = false) es ∧
        p = "/" +:+ join "/" es.

(** [path.Join] below a clean prefix stays below it, as long as what is joined
    has no [..] element. *)
Lemma path_Join_below p s :
  clean_prefix p → Forall (λ e, e ≠ "..") (split_on "/" s) →
  path_Join p s = p ∨ ∃ t, path_Join p s = p +:+ "/" +:+ t.
Proof.
  intros (es & Hne & Hes & Hslash & ->) Hs. unfold path_Join.
  rewrite !decide_False by naive_solver. unfold path_Clean. rewrite decide_False by done.
  assert (has_prefix "/" (("/" +:+ join "/" es) +:+ "/" +:+ s) = true) as ->.
  { apply has_prefix_spec. exists (join "/" es +:+ "/" +:+ s). by rewrite sapp_assoc. }
  assert (split_on "/" (("/" +:+ join "/" es) +:+ "/" +:+ s) = "" :: es ++ split_on "/" s) as ->.
  { change ("" :: split_on "/" (join "/" es +:+ String "/" s) = "" :: es ++ split_on "/" s).
    f_equal. rewrite split_on_app. f_equal. by apply split_on_join. }
  change (clean_elements true ("" :: es ++ split_on "/" s))
    with (clean_elements true (es ++ split_on "/" s)).
  rewrite clean_elements_app by done. set (fs := filter _ _).
  destruct fs as [|f fs]; [left; by rewrite app_nil_r|right].
  exists (join "/" (f :: fs)). by rewrite join_app, sapp_assoc.
Qed.

(** ** Escaped paths *)

Lemma unescape_path_char c t :
  unescape encodePath (escape_char encodePath c +:+ t) =
  (s ← unescape encodePath t; Some (String c s)).
Proof. destruct c as [[] [] [] [] [] [] [] []]; reflexivity. Qed.

Lemma unescape_escape_path s : unescape encodePath (escape encodePath s) = Some s.
Proof.
  induction s as [|c s IH]; [done|].
  change (escape encodePath (String c s)) with (escape_char encodePath c +:+ escape encodePath s).
  by rewrite unescape_path_char, IH.
Qed.

(** What a URL shows of its path is the path, escaped. *)
Lemma unescape_EscapedPath u : unescape encodePath (EscapedPath u) = Some (u_path u).
Proof.
  unfold EscapedPath, escaped. case_bool_decide as Hstar.
  { by destruct Hstar as [_ ->]. }
  destruct (bool_decide _ && _) eqn:E; [|apply unescape_escape_path].
  apply andb_prop in E as [E _]. by apply bool_decide_eq_true in E as [_ E].
Qed.

Lemma join_split c s : join (String c EmptyString) (split_on c s) = s.
Proof.
  induction s as [|a s IH]; [done|]. cbn [split_on].
  destruct (split_on c s) as [|p ps] eqn:E.
  { exfalso. clear -E. destruct s as [|b s]; simpl in E; [done|]. repeat case_match; done. }
  destruct (decide (a = c)) as [->|].
  - change (EmptyString +:+ String c EmptyString +:+ join (String c EmptyString) (p :: ps) = String c s).
    by rewrite IH.
  - rewrite <-IH. by destruct ps.
Qed.

Lemma split_on_nonempty c s : split_on c s ≠ [].
Proof. destruct s as [|b s]; simpl; [done|]. repeat case_match; done. Qed.

(** An escape never reaches over a slash. *)
Lemma unescape_slash a b t :
  unescape encodePath (a +:+ String "/" b) = Some t →
  ∃ ta tb, unescape encodePath a = Some ta ∧ unescape encodePath b = Some tb ∧ t = ta +:+ String "/" tb.
Proof.
  revert t. induction a as [a IH] using (induction_ltof1 _ String.length); intros t.
  assert (∀ a' t', String.length a' < String.length a →
    unescape encodePath (a' +:+ String "/" b) = Some t' → ∃ ta tb, unescape encodePath a' = Some ta ∧
      unescape encodePath b = Some tb ∧ t' = ta +:+ String "/" tb) as IH' by (intros ???; by apply IH).
  clear IH. destruct a as [|c a]; [|rewrite sapp_cons].
  - rewrite sapp_nil_l. simpl. destruct (unescape encodePath b) as [tb|]; [|done].
    intros [= <-]. by exists EmptyString, tb.
  - cbn [unescape]. destruct (decide (c = "%"%char)) as [->|Hc].
    + destruct a as [|x [|y a]]; rewrite ?sapp_cons, ?sapp_nil_l.
      * destruct b as [|y b]; done.
      * simpl. by destruct (hex_digit x).
      * destruct (hex_digit x) as [hi|]; [|done]. destruct (hex_digit y) as [lo|]; [|done].
        cbn [mbind option_bind pct_allowed].
        destruct (unescape encodePath (a +:+ String "/" b)) as [t'|] eqn:E; [|done].
        intros [= <-]. destruct (IH' a t') as (ta & tb & -> & -> & ->); [simpl; lia|done|].
        by eexists _, tb.
    + rewrite decide_False by naive_solver. rewrite decide_False by naive_solver. cbn [plain_allowed].
      destruct (unescape encodePath (a +:+ String "/" b)) as [t'|] eqn:E; [|done].
      intros [= <-]. destruct (IH' a t') as (ta & tb & -> & -> & ->); [simpl; lia|done|].
      by eexists _, tb.
Qed.

Lemma unescape_plain s : contains_char "%" s = false → unescape encodePath s = Some s.
Proof.
  induction s as [|c s IH]; [done|]. cbn [contains_char]. intros [Hc Hs]%orb_false_iff.
  apply bool_decide_eq_false in Hc. cbn [unescape]. rewrite !decide_False by naive_solver.
  cbn [plain_allowed]. by rewrite IH.
Qed.

(** Unescaping a path is unescaping its elements. *)
Lemma unescape_elements s t :
  unescape encodePath s = Some t →
  t = join "/" ((λ e, default e (unescape encodePath e)) <$> split_on "/" s).
Proof.
  intros Ht. rewrite <-(join_split "/" s) in Ht. revert t Ht.
  induction (split_on "/" s) as [|e [|e' es] IH]; intros t.
  - by intros [= <-].
  - simpl. by intros ->.
  - intros Ht. change (join "/" (e :: e' :: es)) with (e +:+ String "/" (join "/" (e' :: es))) in Ht.
    apply unescape_slash in Ht as (ta & tb & Ha & Hb & ->). rewrite (IH tb Hb).
    rewrite !fmap_cons, Ha. done.
Qed.

Lemma cut_slash c s : contains_char c s = true → ∃ a b, s = a +:+ String c b.
Proof.
  induction s as [|x s IH]; [done|]. cbn [contains_char]. intros [Hx|Hs]%orb_true_iff.
  - apply bool_decide_eq_true in Hx as ->. by exists EmptyString, s.
  - destruct (IH Hs) as (a & b & ->). by exists (String x a), b.
Qed.

(** A path of one plain element, escaped somehow, is clean, and has that element
    for its one segment. *)
Lemma one_segment e name :
  has_prefix "/" e = true → unescape encodePath e = Some ("/" +:+ name) →
  contains_char "/" name = false → plain_element name →
  cleanPath e = e ∧ segments e = [name].
Proof.
  intros [e' ->]%has_prefix_spec Hun Hslash (Hne & Hdot & Hdots).
  change ("/" +:+ e') with (EmptyString +:+ String "/" e') in Hun.
  apply unescape_slash in Hun as (ta & name' & [= <-] & Hun & Hn).
  change (String "/" name = String "/" name') in Hn. injection Hn as <-.
  assert (contains_char "/" e' = false) as He'.
  { destruct (contains_char "/" e') eqn:E; [|done]. exfalso. apply cut_slash in E as (a & b & ->).
    apply unescape_slash in Hun as (ta & tb & _ & _ & ->).
    rewrite contains_char_app in Hslash. apply orb_false_iff in Hslash as [_ Hslash]. by simpl in Hslash. }
  assert (plain_element e') as (H1 & H2 & H3).
  { unfold plain_element. split_and!; intros ->; simpl in Hun; injection Hun as Hun; subst name; done. }
  split.
  - unfold cleanPath. rewrite decide_False by done. change (has_prefix "/" ("/" +:+ e')) with true.
    cbv zeta iota. assert (path_Clean ("/" +:+ e') = "/" +:+ e') as ->.
    { unfold path_Clean. rewrite decide_False by done. change (has_prefix "/" ("/" +:+ e')) with true.
      cbv zeta iota. change (split_on "/" ("/" +:+ e')) with ("" :: split_on "/" e').
      rewrite split_on_none by done. unfold clean_elements. cbn [foldl].
      change (clean_step true [] "") with (@nil string).
      by rewrite clean_step_plain by (by split_and!). }
    assert (has_suffix "/" ("/" +:+ e') = false) as ->; [|done].
    destruct (has_suffix "/" ("/" +:+ e')) eqn:E; [|done].
    apply has_suffix_spec in E as [q E]. exfalso. destruct q as [|c q].
    + change (String "/" e' = String "/" EmptyString) in E. by injection E as ->.
    + change (String "/" e' = String c (q +:+ "/")) in E. injection E as _ ->. rewrite contains_char_app in He'. by apply orb_false_iff in He' as [_ He'].
  - change (segments ("/" +:+ e')) with (unescape_segment <$> split_on "/" e').
    rewrite split_on_none by done. simpl. unfold unescape_segment. by rewrite Hun.
Qed.
