(* ===== verification/Runtime.v ===== *)
(** * What the handlers run on: values, the outside world, requests, responses

    Values of Go's [any] and JSON documents; the class [Runtime] of everything
    the program takes from outside its own source (clock, random source, UUIDs,
    network, JWT and JOSE libraries, cryptography, the text syntax of JSON,
    Unicode tables); the world a handler runs in; and HTTP requests and
    responses as [net/http] hands them to a handler. *)

From S2P Require Import Prelude GoStrings GoNet GoURL GoBase64.
From Stdlib Require Import Ascii.
From stdpp Require Import options.
Local Open Scope Z_scope.

(** ** Values *)

(** A JSON document; a number is its literal, an object keeps its members in
    order and with repetitions, as the text has them. *)
Inductive json :=
  | JNull
  | JBool (b : bool)
  | JNum (lit : string)
  | JStr (s : string)
  | JArr (l : list json)
  | JObj (members : list (string * json)).

(** The dynamic values stored in a claim set: what decoding JSON into [any]
    gives, and the [int64] and [[]string] the program stores itself. *)
Inductive goval :=
  | VJ (j : json)
  | VInt (z : Z)
  | VStrs (l : list string).

Abbreviation VStr s := (VJ (JStr s)).
Abbreviation VBool b := (VJ (JBool b)).

(** [map[string]any]; a nil map is [None] where the program can tell. *)
Abbreviation Claims := (gmap string goval).

(** [v, _ := claims[name].(string)]. *)
Definition claim_string (c : Claims) (name : string) : string :=
  match c !! name with Some (VStr s) => s | _ => EmptyString end.

(** The Go map of a JSON object: a repeated member's last value wins. *)
Definition object_map (members : list (string * json)) : Claims :=
  foldl (λ m kv, <[kv.1 := VJ kv.2]> m) ∅ members.

(** ** Time, in nanoseconds *)

Definition second : Z := 1000000000.
Definition minute : Z := 60 * second.
Definition hour : Z := 60 * minute.

(** [t.Unix()]. *)
Definition unix (t : Z) : Z := t / second.

(** ** The world outside the source *)

(** Keys: an RSA public key is its modulus and exponent, an elliptic-curve one
    its encoding; a private key comes with its public half. *)
Inductive PubKey :=
  | RSAPublic (n e : Z)
  | ECDSAPublic (encoding : string)
  | OtherKey.
Record PrivKey := { pk_public : PubKey; pk_secret : string }.

(** A JSON web key; [jwk_key] is the type of [key.Public().Key]. *)
Record JWK := { jwk_kid : string; jwk_use : string; jwk_alg : string; jwk_key : PubKey }.

(** What the JWT library shows a key function of a token, and the keys it
    accepts. *)
Record jwt_Token := { jt_alg : string; jt_is_rsa : bool; jt_kid : string }.

Record parser_options := {
  po_methods : option (list string);
  po_exp_required : bool;
  po_leeway : Z
}.

Record http_response := {
  hr_status : Z;
  hr_header : gmap string string;
  hr_body : string
}.

Class Runtime := {
  (** the language: a map is ranged over in any order *)
  range_perm : nat → ∀ {A}, list A → list A;
  (** [time.Now], [uuid.NewString], [crypto/rand.Read] *)
  time_now : nat → Z;
  uuid_new : nat → string;
  rand_read : nat → nat → option string;
  (** the network: the addresses dialled for a URL, and the peer's response *)
  net_addresses : nat → string → list string;
  net_response : nat → string → option http_response;
  (** cryptography *)
  sha256 : string → string;
  hmac_sha256 : string → string → string;
  (** golang-jwt: [SignedString] with RS256, and [Parse] *)
  jwt_sign : PrivKey → Claims → option string;
  jwt_parse : parser_options → Z → string → (jwt_Token → option (list PubKey)) → option Claims;
  jwt_GetExpirationTime : Claims → option Z;
  (** go-jose: decoding a JWK set, and [JSONWebKeySet.Key] *)
  jose_unmarshal : json → option (list JWK);
  jose_Key : list JWK → string → list JWK;
  (** encoding/json's text syntax, and the integer part of a number's float64 *)
  json_unmarshal : string → option json;
  json_decode_first : string → option json;
  json_marshal_indent : Claims → option string;
  json_float_int : string → Z;
  (** Unicode case mapping of strings that are not ASCII *)
  unicode_upper : string → string;
  unicode_lower : string → string;
  (** [fmt]'s [%q] of a string *)
  go_quote : string → string;
  (** [t.Format(time.RFC3339)] of a Unix time *)
  format_rfc3339 : Z → string;
  (** [mime.ParseMediaType], the media type only *)
  parse_media_type : string → option string
}.

(** What the program relies on of it. *)
Class RuntimeLaws `{Runtime} := {
  range_perm_perm : ∀ n A (l : list A), range_perm n l ≡ₚ l;
  uuid_inj : ∀ i j, uuid_new i = uuid_new j → i = j;
  uuid_nonempty : ∀ i, uuid_new i ≠ EmptyString;
  time_monotone : ∀ i j, (i ≤ j)%nat → time_now i <= time_now j
}.

(** [jwt_signed key tok c]: the token text carries the claims [c] under a valid
    signature of [key].  The library accepts a token only so. *)
Class JwtLaws `{Runtime} := {
  jose_Key_elem : ∀ ks kid k, k ∈ jose_Key ks kid ↔ k ∈ ks ∧ jwk_kid k = kid;
  jwt_signed : PubKey → string → Claims → Prop;
  jwt_parse_sound : ∀ o now tok keyfunc c,
    jwt_parse o now tok keyfunc = Some c →
    ∃ t ks k, keyfunc t = Some ks ∧ k ∈ ks ∧ jwt_signed k tok c ∧
              match po_methods o with Some ms => jt_alg t ∈ ms | None => True end
}.

(** ** The world a handler runs in *)

(** The shared state, how many times each source outside was consulted, and
    the addresses connected to so far (the latest first). *)
Record World (S : Type) := mkWorld {
  w_st : S;
  w_clock : nat;
  w_uuid : nat;
  w_rand : nat;
  w_range : nat;
  w_net : nat;
  w_dials : list string
}.
Arguments mkWorld {S}.
Arguments w_st {S}.
Arguments w_clock {S}.
Arguments w_uuid {S}.
Arguments w_rand {S}.
Arguments w_range {S}.
Arguments w_net {S}.
Arguments w_dials {S}.

Definition initial_world {S} (s : S) : World S := mkWorld s 0 0 0 0 0 [].

Section effects.
Context `{Runtime} {S : Type}.
Implicit Types (w : World S).

Definition set_st (s : S) w : World S :=
  mkWorld s (w_clock w) (w_uuid w) (w_rand w) (w_range w) (w_net w) (w_dials w).

Definition get_st {A} (f : S → A) : Eff (World S) A := reads (λ w, f (w_st w)).
Definition mod_st (f : S → S) : Eff (World S) unit := writes (λ w, set_st (f (w_st w)) w).

Definition tNow : Eff (World S) Z := λ w,
  (time_now (w_clock w),
   mkWorld (w_st w) (Datatypes.S (w_clock w)) (w_uuid w) (w_rand w) (w_range w) (w_net w) (w_dials w)).

Definition newUUID : Eff (World S) string := λ w,
  (uuid_new (w_uuid w),
   mkWorld (w_st w) (w_clock w) (Datatypes.S (w_uuid w)) (w_rand w) (w_range w) (w_net w) (w_dials w)).

Definition randRead (n : nat) : Eff (World S) (option string) := λ w,
  (rand_read (w_rand w) n,
   mkWorld (w_st w) (w_clock w) (w_uuid w) (Datatypes.S (w_rand w)) (w_range w) (w_net w) (w_dials w)).

(** [for k, v := range m] *)
Definition rangeMap {V} (m : gmap string V) : Eff (World S) (list (string * V)) := λ w,
  (range_perm (w_range w) (map_to_list m),
   mkWorld (w_st w) (w_clock w) (w_uuid w) (w_rand w) (Datatypes.S (w_range w)) (w_net w) (w_dials w)).

(** One HTTP exchange through a dialer whose [Control] function is [control]:
    the addresses are tried in order, [control] refusing before a connection is
    made, and the connection made is recorded. *)
Definition httpDo (control : string → bool) (url : string)
    : Eff (World S) (option http_response) := λ w,
  let after dials :=
    mkWorld (w_st w) (w_clock w) (w_uuid w) (w_rand w) (w_range w) (Datatypes.S (w_net w)) dials in
  match list_find (λ a, control a = true) (net_addresses (w_net w) url) with
  | Some (_, a) => (net_response (w_net w) url, after (a :: w_dials w))
  | None => (None, after (w_dials w))
  end.
End effects.

Section effect_facts.
Context `{Runtime} {S : Type}.
Implicit Types (w : World S).

Lemma wp_get_st {A} (f : S → A) Q w : wp (get_st f) Q w ↔ Q (f (w_st w)) w.
Proof. done. Qed.

Lemma wp_mod_st (f : S → S) Q w : wp (mod_st f) Q w ↔ Q tt (set_st (f (w_st w)) w).
Proof. done. Qed.

(** The effects that read the outside leave the shared state alone, the clock
    and the number of UUIDs drawn never decrease, and the addresses connected to
    meanwhile satisfy [P]. *)
Definition outside_step (P : string → Prop) w w' : Prop :=
  w_st w' = w_st w ∧ (w_uuid w ≤ w_uuid w')%nat ∧ (w_clock w ≤ w_clock w')%nat ∧
  ∃ l, w_dials w' = l ++ w_dials w ∧ Forall P l.

Definition outside (P : string → Prop) {A} (m : Eff (World S) A) : Prop :=
  steps (outside_step P) m.

#[export] Instance outside_step_preorder P : PreOrder (outside_step P).
Proof.
  split; [intros w; split_and!; [done..|by exists []]|].
  intros a b c (E1 & U1 & C1 & l1 & D1 & P1) (E2 & U2 & C2 & l2 & D2 & P2).
  split_and!; [congruence|lia..|]. exists (l2 ++ l1).
  rewrite D2, D1, app_assoc, Forall_app. done.
Qed.

Lemma outside_step_counters P w w' :
  w_st w' = w_st w → w_dials w' = w_dials w → (w_uuid w ≤ w_uuid w')%nat →
  (w_clock w ≤ w_clock w')%nat → outside_step P w w'.
Proof. intros. split_and!; [done..|]. by exists []. Qed.

Lemma wp_outside {P A} (m : Eff (World S) A) Q w :
  outside P m →
  (∀ x w', w_st w' = w_st w → (w_uuid w ≤ w_uuid w')%nat → Q x w') → wp m Q w.
Proof. intros Hm HQ. destruct (Hm w) as (?&?&?). by apply HQ. Qed.

Context (P : string → Prop).

Lemma outside_ret {A} (x : A) : outside P (mret x).
Proof. apply steps_ret, _. Qed.

Lemma outside_bind {A B} (m : Eff (World S) A) (f : A → Eff (World S) B) :
  outside P m → (∀ x, outside P (f x)) → outside P (m ≫= f).
Proof. apply steps_bind, _. Qed.

Lemma outside_get_st {A} (f : S → A) : outside P (get_st f).
Proof. apply steps_reads, _. Qed.
Lemma outside_tNow : outside P tNow.
Proof. intros w. apply outside_step_counters; simpl; done || lia. Qed.
Lemma outside_randRead n : outside P (randRead n).
Proof. intros w. by apply outside_step_counters. Qed.
Lemma outside_rangeMap {V} (m : gmap string V) : outside P (rangeMap m).
Proof. intros w. by apply outside_step_counters. Qed.
Lemma outside_newUUID : outside P newUUID.
Proof. intros w. apply outside_step_counters; simpl; done || lia. Qed.

Lemma outside_httpDo c u : (∀ a, c a = true → P a) → outside P (httpDo c u).
Proof.
  intros Hc w. unfold httpDo. destruct (list_find _ _) as [[i a]|] eqn:E; simpl.
  - apply list_find_Some in E as (_ & Ha & _). split_and!; [done..|].
    exists [a]. split; [done|]. constructor; auto.
  - by apply outside_step_counters.
Qed.

Lemma wp_newUUID Q w :
  wp newUUID Q w ↔
  Q (uuid_new (w_uuid w))
    (mkWorld (w_st w) (w_clock w) (Datatypes.S (w_uuid w)) (w_rand w) (w_range w) (w_net w) (w_dials w)).
Proof. done. Qed.

(** A range visits the entries of the map, each once. *)
Lemma wp_rangeMap `{!RuntimeLaws} {V} (m : gmap string V) Q w :
  (∀ l w', l ≡ₚ map_to_list m → w_st w' = w_st w → w_uuid w' = w_uuid w → Q l w') →
  wp (rangeMap m) Q w.
Proof. intros HQ. apply HQ; [apply range_perm_perm|done..]. Qed.
End effect_facts.

#[export] Hint Resolve outside_ret outside_bind outside_get_st outside_tNow outside_randRead
  outside_rangeMap outside_newUUID : oidc.

(** ** Requests and responses *)

Record Request := {
  r_method : string;
  r_path : string;                        (* r.URL.Path *)
  r_rawpath : string;                     (* r.URL.RawPath *)
  r_rawquery : string;                    (* r.URL.RawQuery *)
  r_host : string;
  r_remote : string;                      (* r.RemoteAddr *)
  r_form : Values;                        (* r.Form after ParseForm *)
  r_header : gmap string (list string);
  r_cookies : list (string * string);
  r_body : string
}.

(** [r.URL.Query()]. *)
Definition r_query (r : Request) : Values := parseQuery (r_rawquery r).

Definition form_get (r : Request) (k : string) : string := values_get k (r_form r).
Definition form_has (r : Request) (k : string) : bool := bool_decide (is_Some (r_form r !! k)).

(** [r.Header.Get]. *)
Definition header_get (r : Request) (k : string) : string :=
  default EmptyString (r_header r !! k ≫= head).

(** [r.Cookie]: the first cookie of that name. *)
Definition cookie_get (r : Request) (k : string) : option string :=
  '(_, (_, v)) ← list_find (λ c, c.1 = k) (r_cookies r); Some v.

(** [r.BasicAuth]. *)
Definition parseBasicAuth (auth : string) : option (string * string) :=
  if equal_fold (String.substring 0 6 auth) "Basic " && (6 <=? Z.of_nat (String.length auth)) then
    c ← std_decode (String.substring 6 (String.length auth - 6) auth);
    let '(user, pw, ok) := cut ":" c in
    if ok : bool then Some (user, pw) else None
  else None.

Definition BasicAuth (r : Request) : option (string * string) :=
  let auth := header_get r "Authorization" in
  if decide (auth = EmptyString) then None else parseBasicAuth auth.

(** The form [url.Values] a request with these fields parses to. *)
Definition form_of (l : list (string * string)) : Values :=
  foldl (λ m kv, values_add kv.1 kv.2 m) ∅ l.

Record Cookie := {
  ck_name : string;
  ck_value : string;
  ck_http_only : bool;
  ck_secure : bool;
  ck_max_age : Z      (* 0: no Max-Age attribute; negative: delete now *)
}.
