(* ===== verification/RuntimeExample.v ===== *)
(** * A concrete outside world

    An instance of [Runtime] that computes, built from tables: which texts
    decode to which JSON, which tokens carry which claims under which key, and
    which URLs resolve and answer how.  It satisfies the laws, and the
    development's concrete runs are evaluated on it. *)

From S2P Require Import Prelude GoStrings GoNet GoURL GoBase64 Runtime.
From Stdlib Require Import Ascii.
From stdpp Require Import options.
Local Open Scope Z_scope.

(** A token of the table: what its header says, the key that signed it, its
    claims and the instant it expires. *)
Record table_token := {
  tt_header : jwt_Token;
  tt_key : PubKey;
  tt_claims : Claims;
  tt_exp : Z
}.

Record Tables := {
  tb_json : list (string * json);
  tb_tokens : list (string * table_token);
  tb_keys : list (json * list JWK);
  tb_net : list (string * (list string * http_response));
  tb_rand : nat → bool     (* does the n-th read of the random source succeed? *)
}.

Definition no_tables : Tables := {| tb_json := []; tb_tokens := []; tb_keys := []; tb_net := [];
  tb_rand := λ _, true |}.

Definition assoc {V} (l : list (string * V)) (k : string) : option V :=
  snd <$> List.find (λ kv, String.eqb kv.1 k) l.

Fixpoint tally (n : nat) : string :=
  match n with O => EmptyString | S n => "i" +:+ tally n end.

Lemma tally_inj i j : tally i = tally j → i = j.
Proof. revert j. induction i as [|i IH]; intros [|j]; simpl; intros [=]; auto. Qed.

(** The first [k] bytes of [s], made up with padding. *)
Fixpoint fit (k : nat) (s : string) : string :=
  match k, s with
  | O, _ => EmptyString
  | S k, EmptyString => String "." (fit k EmptyString)
  | S k, String c s => String c (fit k s)
  end.

Lemma fit_length k s : String.length (fit k s) = k.
Proof. revert s. induction k as [|k IH]; intros [|c s]; simpl; by rewrite ?IH. Qed.

(** A text syntax for objects whose members are strings. *)
Fixpoint pos_text (p : positive) : string :=
  match p with
  | xH => EmptyString
  | xO p => String "0" (pos_text p)
  | xI p => String "1" (pos_text p)
  end.

Fixpoint text_pos (s : string) : option positive :=
  match s with
  | EmptyString => Some xH
  | String c s => p ← text_pos s;
                  if decide (c = "0"%char) then Some (xO p)
                  else if decide (c = "1"%char) then Some (xI p) else None
  end.

Lemma text_pos_text p : text_pos (pos_text p) = Some p.
Proof. induction p as [p IH|p IH|]; simpl; by rewrite ?IH. Qed.

Definition string_fields (ms : list (string * string)) : list (string * json) :=
  (λ kv, (kv.1, JStr kv.2)) <$> ms.
Definition string_members (ms : list (string * string)) : json := JObj (string_fields ms).

Definition member_string (kv : string * json) : option (string * string) :=
  match kv.2 with JStr s => Some (kv.1, s) | _ => None end.

Lemma mapM_member_string ms : mapM member_string (string_fields ms) = Some ms.
Proof. induction ms as [|[k v] ms IH]; [done|]. cbn. unfold string_fields in IH. by rewrite IH. Qed.

Definition object_text (j : json) : string :=
  match j with
  | JObj ms => match mapM member_string ms with
               | Some l => pos_text (encode l)
               | None => "?"
               end
  | _ => "?"
  end.

Definition text_object (s : string) : option json :=
  p ← text_pos s; string_members <$> decode p.

Lemma text_object_text ms : text_object (object_text (string_members ms)) = Some (string_members ms).
Proof.
  unfold object_text, text_object, string_members. cbv beta iota.
  rewrite mapM_member_string.
  rewrite text_pos_text. cbn [mbind option_bind]. by rewrite decode_encode.
Qed.

Definition json_eqb_str (a b : json) : bool :=
  match a, b with
  | JStr s, JStr s' => String.eqb s s'
  | _, _ => false
  end.

Definition pubkey_eqb (a b : PubKey) : bool :=
  match a, b with
  | RSAPublic n e, RSAPublic n' e' => (n =? n') && (e =? e')
  | ECDSAPublic s, ECDSAPublic s' => String.eqb s s'
  | OtherKey, OtherKey => true
  | _, _ => false
  end.

Lemma pubkey_eqb_eq a b : pubkey_eqb a b = true → a = b.
Proof.
  destruct a, b; simpl; try done.
  - intros [?%Z.eqb_eq ?%Z.eqb_eq]%andb_prop. by subst.
  - by intros ->%String.eqb_eq.
Qed.

Section tables.
Variable t : Tables.

Definition table_parse (o : parser_options) (now : Z) (tok : string)
    (keyfunc : jwt_Token → option (list PubKey)) : option Claims :=
  e ← assoc (tb_tokens t) tok;
  ks ← keyfunc (tt_header e);
  if existsb (pubkey_eqb (tt_key e)) ks &&
     (now <? tt_exp e + po_leeway o) &&
     match po_methods o with
     | Some ms => existsb (String.eqb (jt_alg (tt_header e))) ms
     | None => true
     end
  then Some (tt_claims e) else None.

#[local] Instance table_runtime : Runtime := {|
  range_perm := λ _ _ l, l;
  time_now := λ n, Z.of_nat n * second;
  uuid_new := λ n, "u" +:+ tally n;
  rand_read := λ n k, if tb_rand t n then Some (fit k ("r" +:+ tally n)) else None;
  net_addresses := λ _ u, default [] (fst <$> assoc (tb_net t) u);
  net_response := λ _ u, snd <$> assoc (tb_net t) u;
  sha256 := fit 32;
  hmac_sha256 := λ k s, s;
  jwt_sign := λ _ _, Some "signed";
  jwt_parse := table_parse;
  jwt_GetExpirationTime := λ c,
    match c !! "exp" with Some (VInt z) => Some (z * second) | _ => None end;
  jose_unmarshal := λ j, snd <$> List.find (λ kv, json_eqb_str kv.1 j) (tb_keys t);
  jose_Key := λ ks kid, List.filter (λ k, String.eqb (jwk_kid k) kid) ks;
  json_unmarshal := λ s,
    match text_object s with Some j => Some j | None => assoc (tb_json t) s end;
  json_decode_first := assoc (tb_json t);
  json_marshal_indent := λ _, Some "{}";
  json_float_int := λ s, default 0 (atoi s);
  unicode_upper := ascii_upper;
  unicode_lower := ascii_lower;
  go_quote := λ s, s;
  format_rfc3339 := λ _, "1970-01-01T00:00:00Z";
  parse_media_type := λ s, if decide (s = EmptyString) then None else Some s
|}.

Lemma table_laws : RuntimeLaws.
Proof.
  split; simpl.
  - done.
  - by intros i j [= ?%tally_inj].
  - done.
  - intros i j Hij. unfold second. lia.
Qed.

Lemma table_jwt_laws : JwtLaws.
Proof.
  refine {| jwt_signed := λ k tok c,
              ∃ e, assoc (tb_tokens t) tok = Some e ∧ tt_key e = k ∧ tt_claims e = c |}.
  - intros ks kid k. cbn. by rewrite !list_elem_of_In, filter_In, String.eqb_eq.
  - intros o now tok keyfunc c. cbn. unfold table_parse.
    destruct (assoc (tb_tokens t) tok) as [e|] eqn:He; [simpl|done].
    destruct (keyfunc (tt_header e)) as [ks|] eqn:Hk; [simpl|done].
    intros Hc. case_match eqn:Hb; [|done]. injection Hc as <-.
    apply andb_prop in Hb as [[Hb1 _]%andb_prop Hb2].
    apply existsb_exists in Hb1 as (k & Hin & <-%pubkey_eqb_eq).
    exists (tt_header e), ks, (tt_key e). split_and!; [done|by apply list_elem_of_In|eauto|].
    destruct (po_methods o); [|done].
    apply existsb_exists in Hb2 as (m & Hm & <-%String.eqb_eq). by apply list_elem_of_In.
Qed.
End tables.
