(* ===== verification/GoJson.v ===== *)
(** * Decoding JSON into structs

    What [encoding/json] does with an object decoded into a Go struct, for the
    field types the program uses: a member is matched to a field by its exact
    tag, else by its folded name; null leaves a field as it is (and empties a
    slice or pointer); a value of the wrong type is an error; and a repeated
    member is decoded again, over the earlier value. *)

From S2P Require Import Prelude GoStrings GoNet GoURL GoBase64 Runtime.
From Stdlib Require Import Ascii.
From stdpp Require Import options.
Local Open Scope Z_scope.

(** Go folds a name to upper case, with the two letters that fold into ASCII. *)
Fixpoint fold_name (s : string) : string :=
  match s with
  | String "197" (String "191" r) => String "S" (fold_name r)
  | String "226" (String "132" (String "170" r)) => String "K" (fold_name r)
  | String c r => String (upper_byte c) (fold_name r)
  | EmptyString => EmptyString
  end.

(** The field, by its tag, that a member is decoded into. *)
Definition tag_of (tags : list string) (key : string) : option string :=
  if decide (key ∈ tags) then Some key
  else '(_, t) ← list_find (λ t, fold_name t = fold_name key) tags; Some t.

(** The values a tag receives, in order. *)
Definition values_for (tags : list string) (tag : string) (members : list (string * json))
    : list json :=
  (filter (λ kv, tag_of tags kv.1 = Some tag) members).*2.

Definition foldM {A B} (f : A → B → option A) (a : A) (l : list B) : option A :=
  foldl (λ acc b, a ← acc; f a b) (Some a) l.

Definition into_string (old : string) (v : json) : option string :=
  match v with JNull => Some old | JStr s => Some s | _ => None end.

Definition into_int64 (old : Z) (v : json) : option Z :=
  match v with JNull => Some old | JNum lit => atoi lit | _ => None end.

Definition into_int64_ptr (old : option Z) (v : json) : option (option Z) :=
  match v with JNull => Some None | JNum lit => Some <$> atoi lit | _ => None end.

Definition into_strings (old : list string) (v : json) : option (list string) :=
  match v with
  | JNull => Some []
  | JArr items => mapM id (imap (λ i v, into_string (default EmptyString (old !! i)) v) items)
  | _ => None
  end.

(** [json.RawMessage] keeps the value, null included. *)
Definition into_raw (old : option json) (v : json) : option (option json) := Some (Some v).
