(* ===== verification/IdpState.v ===== *)
(** * The identity provider's data: records of [main.go] and [clientid_metadata.go]

    The Go structs as records, the mutable part of [server] (the six maps its
    mutex guards) and its configuration, and the constants that name methods.
    [json:"..."] tags matter only where a registration is decoded, in
    IdpRegistry. *)

From S2P Require Import Prelude GoStrings GoNet GoURL GoBase64 Runtime.
From stdpp Require Import options.
Local Open Scope Z_scope.

Definition sessionCookieName : string := "session".

Record clientSession := {
  cs_SessionID : string;
  cs_ClientID : string;
  cs_AdvertisedSub : string;
  cs_Scope : string;
  cs_RedirectURI : string;
  cs_CodeChallenge : string;
  cs_CodeChallengeMethod : string;
  cs_IDTokenClaims : option Claims;
  cs_AccessTokenClaims : option Claims;
  cs_RefreshTokenClaims : option Claims
}.

Record session := {
  s_Username : string;
  s_Sub : string;
  s_CookieID : string;
  s_ClientSessions : list clientSession
}.

Definition zero_session : session :=
  {| s_Username := ""; s_Sub := ""; s_CookieID := ""; s_ClientSessions := [] |}.

Record authContextEntry := {
  ac_Scope : string;
  ac_ClientID : string;
  ac_RedirectURI : string;
  ac_State : string;
  ac_Nonce : string;
  ac_CodeChallenge : string;
  ac_CodeChallengeMethod : string;
  ac_Username : string;
  ac_Sub : string
}.

Definition zero_authContext : authContextEntry :=
  {| ac_Scope := ""; ac_ClientID := ""; ac_RedirectURI := ""; ac_State := "";
     ac_Nonce := ""; ac_CodeChallenge := ""; ac_CodeChallengeMethod := "";
     ac_Username := ""; ac_Sub := "" |}.

Record codeMetadataEntry := {
  cm_CookieID : string;
  cm_ClientID : string;
  cm_Nonce : string
}.

Definition registrationMethodAutomatic : string := "automatic".
Definition registrationMethodDynamic : string := "dynamic".
Definition registrationMethodClientIDMetadataDocument : string := "client_id_metadata_document".

Record clientRegistration := {
  cr_ClientID : string;
  cr_ClientIDIssuedAt : Z;
  cr_ClientSecret : string;
  cr_ClientSecretExpiresAt : option Z;
  cr_RedirectURIs : list string;
  cr_TokenEndpointAuthMethod : string;
  cr_GrantTypes : list string;
  cr_ResponseTypes : list string;
  cr_Scope : string;
  cr_ClientName : string;
  cr_ClientURI : string;
  cr_LogoURI : string;
  cr_Contacts : list string;
  cr_TosURI : string;
  cr_PolicyURI : string;
  cr_Jwks : option json;
  cr_JwksURI : string;
  cr_SoftwareID : string;
  cr_SoftwareVersion : string;
  cr_RegistrationMethod : string
}.

Definition zero_registration : clientRegistration :=
  {| cr_ClientID := ""; cr_ClientIDIssuedAt := 0; cr_ClientSecret := "";
     cr_ClientSecretExpiresAt := None; cr_RedirectURIs := [];
     cr_TokenEndpointAuthMethod := ""; cr_GrantTypes := []; cr_ResponseTypes := [];
     cr_Scope := ""; cr_ClientName := ""; cr_ClientURI := ""; cr_LogoURI := "";
     cr_Contacts := []; cr_TosURI := ""; cr_PolicyURI := ""; cr_Jwks := None;
     cr_JwksURI := ""; cr_SoftwareID := ""; cr_SoftwareVersion := "";
     cr_RegistrationMethod := "" |}.

(** A registration with its identity fields, or its requested ones, replaced. *)
Definition reg_identity (reg : clientRegistration) (id : string) (issued : Z)
    (secret : string) (expires : option Z) (method : string) : clientRegistration :=
  {| cr_ClientID := id; cr_ClientIDIssuedAt := issued; cr_ClientSecret := secret;
     cr_ClientSecretExpiresAt := expires; cr_RedirectURIs := cr_RedirectURIs reg;
     cr_TokenEndpointAuthMethod := cr_TokenEndpointAuthMethod reg;
     cr_GrantTypes := cr_GrantTypes reg; cr_ResponseTypes := cr_ResponseTypes reg;
     cr_Scope := cr_Scope reg; cr_ClientName := cr_ClientName reg;
     cr_ClientURI := cr_ClientURI reg; cr_LogoURI := cr_LogoURI reg;
     cr_Contacts := cr_Contacts reg; cr_TosURI := cr_TosURI reg;
     cr_PolicyURI := cr_PolicyURI reg; cr_Jwks := cr_Jwks reg;
     cr_JwksURI := cr_JwksURI reg; cr_SoftwareID := cr_SoftwareID reg;
     cr_SoftwareVersion := cr_SoftwareVersion reg; cr_RegistrationMethod := method |}.

Definition reg_metadata (reg : clientRegistration) (uris : list string) (auth : string)
    (grants responses : list string) (scope : string) : clientRegistration :=
  {| cr_ClientID := cr_ClientID reg; cr_ClientIDIssuedAt := cr_ClientIDIssuedAt reg;
     cr_ClientSecret := cr_ClientSecret reg;
     cr_ClientSecretExpiresAt := cr_ClientSecretExpiresAt reg;
     cr_RedirectURIs := uris; cr_TokenEndpointAuthMethod := auth;
     cr_GrantTypes := grants; cr_ResponseTypes := responses; cr_Scope := scope;
     cr_ClientName := cr_ClientName reg; cr_ClientURI := cr_ClientURI reg;
     cr_LogoURI := cr_LogoURI reg; cr_Contacts := cr_Contacts reg;
     cr_TosURI := cr_TosURI reg; cr_PolicyURI := cr_PolicyURI reg;
     cr_Jwks := cr_Jwks reg; cr_JwksURI := cr_JwksURI reg;
     cr_SoftwareID := cr_SoftwareID reg; cr_SoftwareVersion := cr_SoftwareVersion reg;
     cr_RegistrationMethod := cr_RegistrationMethod reg |}.

Record clientIDMetadataEntry := {
  me_reg : clientRegistration;
  me_keys : option (list JWK);
  me_expiresAt : Z
}.

(** The state the mutex of [server] guards. *)
Record server := {
  sv_authContext : gmap string authContextEntry;
  sv_codeMeta : gmap string codeMetadataEntry;
  sv_sessions : gmap string session;
  sv_clients : gmap string clientRegistration;
  sv_clientIDMetadata : gmap string clientIDMetadataEntry;
  sv_privateKeyJWTJTIs : gmap string Z
}.

Definition empty_server : server :=
  {| sv_authContext := ∅; sv_codeMeta := ∅; sv_sessions := ∅; sv_clients := ∅;
     sv_clientIDMetadata := ∅; sv_privateKeyJWTJTIs := ∅ |}.

(** The fields of [server] set once by [newServer]. *)
Record Config := {
  externalURL : string;
  protectPictureURL : bool;
  extraAudiences : list string;
  emailDomain : string;
  accessTokenLifetime : Z;
  refreshTokenLifetime : Z;
  subjectType : string;
  pairwiseSalt : string;
  clientIDMetadataTTL : Z;
  clientIDMetadataTimeout : Z;
  allowLoopbackMetadataFetch : bool;
  templatesDir : string;
  privateKey : PrivKey
}.

Definition publicKey (cfg : Config) : PubKey := pk_public (privateKey cfg).

(** ** Updates of one map *)

Definition up_authContext (f : gmap string authContextEntry → gmap string authContextEntry) (s : server) : server :=
  {| sv_authContext := f (sv_authContext s); sv_codeMeta := sv_codeMeta s;
     sv_sessions := sv_sessions s; sv_clients := sv_clients s;
     sv_clientIDMetadata := sv_clientIDMetadata s; sv_privateKeyJWTJTIs := sv_privateKeyJWTJTIs s |}.
Definition up_codeMeta (f : gmap string codeMetadataEntry → gmap string codeMetadataEntry) (s : server) : server :=
  {| sv_authContext := sv_authContext s; sv_codeMeta := f (sv_codeMeta s);
     sv_sessions := sv_sessions s; sv_clients := sv_clients s;
     sv_clientIDMetadata := sv_clientIDMetadata s; sv_privateKeyJWTJTIs := sv_privateKeyJWTJTIs s |}.
Definition up_sessions (f : gmap string session → gmap string session) (s : server) : server :=
  {| sv_authContext := sv_authContext s; sv_codeMeta := sv_codeMeta s;
     sv_sessions := f (sv_sessions s); sv_clients := sv_clients s;
     sv_clientIDMetadata := sv_clientIDMetadata s; sv_privateKeyJWTJTIs := sv_privateKeyJWTJTIs s |}.
Definition up_clients (f : gmap string clientRegistration → gmap string clientRegistration) (s : server) : server :=
  {| sv_authContext := sv_authContext s; sv_codeMeta := sv_codeMeta s;
     sv_sessions := sv_sessions s; sv_clients := f (sv_clients s);
     sv_clientIDMetadata := sv_clientIDMetadata s; sv_privateKeyJWTJTIs := sv_privateKeyJWTJTIs s |}.
Definition up_metadata (f : gmap string clientIDMetadataEntry → gmap string clientIDMetadataEntry) (s : server) : server :=
  {| sv_authContext := sv_authContext s; sv_codeMeta := sv_codeMeta s;
     sv_sessions := sv_sessions s; sv_clients := sv_clients s;
     sv_clientIDMetadata := f (sv_clientIDMetadata s); sv_privateKeyJWTJTIs := sv_privateKeyJWTJTIs s |}.
Definition up_jtis (f : gmap string Z → gmap string Z) (s : server) : server :=
  {| sv_authContext := sv_authContext s; sv_codeMeta := sv_codeMeta s;
     sv_sessions := sv_sessions s; sv_clients := sv_clients s;
     sv_clientIDMetadata := sv_clientIDMetadata s; sv_privateKeyJWTJTIs := f (sv_privateKeyJWTJTIs s) |}.

Lemma up_clients_same f s : f (sv_clients s) = sv_clients s → up_clients f s = s.
Proof. intros Hf. destruct s. unfold up_clients. simpl in *. by rewrite Hf. Qed.

(** ** Responses of the provider

    What a handler writes: the status, the headers it sets, the cookies and the
    body; a rendered template is its name and data. *)

Record clientSessionView := {
  cv_ClientID : string;
  cv_AdvertisedSub : string;
  cv_Scope : string;
  cv_IDTokenIssued : bool;
  cv_RefreshTokenIssued : bool;
  cv_IDTokenClaimsJSON : string;
  cv_AccessTokenClaimsJSON : string;
  cv_IDTokenExpiry : string;
  cv_AccessTokenExpiry : string;
  cv_RefreshTokenExpiry : string
}.

Record sessionView := {
  sv_CookieID : string;
  sv_Username : string;
  sv_Sub : string;
  sv_AvatarURL : string;
  sv_ClientViews : list clientSessionView
}.

Record clientRegistrationView := {
  rv_ClientID : string;
  rv_RegistrationMethod : string;
  rv_IssuedAt : string;
  rv_MetadataJSON : clientRegistration
}.

Inductive page :=
  | PIndex (sessions : list sessionView)
  | PClients (clients : list clientRegistrationView)
  | PAuthenticate (reqid : string)
  | PAuthorize (client scope reqid idClaims accessClaims err avatar : string)
  | PEndsession (sessionID subject redir : string)
  | PError (text : string).

Inductive body :=
  | BNone
  | BText (s : string)
  | BPage (p : page)
  | BClaims (c : Claims)                      (* a JSON object *)
  | BRegistration (reg : clientRegistration)  (* the registration as JSON *)
  | BRedirect (target : string)               (* http.Redirect's target *)
  | BFile (path : string).

Record Response := {
  rs_status : Z;
  rs_header : list (string * string);
  rs_cookies : list Cookie;
  rs_body : body
}.

Definition respond (status : Z) (b : body) : Response :=
  {| rs_status := status; rs_header := []; rs_cookies := []; rs_body := b |}.

Definition NotFound : Response := respond 404 (BText "404 page not found").
Definition render (p : page) : Response := respond 200 (BPage p).
Definition error_page (text : string) : Response := render (PError text).
Definition redirect (target : string) : Response := respond 303 (BRedirect target).

Definition is_get (r : Request) : bool := bool_decide (r_method r = "GET").
Definition is_post (r : Request) : bool := bool_decide (r_method r = "POST").
