(* ===== verification/IdpUtil.v ===== *)
(** * Helper functions of [main.go]

    The leaf functions the handlers share: string lists and scopes,
    environment readers, claim sets, subject identifiers, URLs and session
    lookups; each with the facts the handlers' theorems use. *)

From S2P Require Import Prelude GoStrings GoNet GoURL GoBase64 Runtime IdpState.
From Stdlib Require Import Ascii.
From stdpp Require Import options.
Local Open Scope Z_scope.

(** ** String lists and scopes *)

Fixpoint dedupe_from (seen : gset string) (l : list string) : list string :=
  match l with
  | [] => []
  | s :: l' =>
      if decide (s ∈ seen) then dedupe_from seen l'
      else s :: dedupe_from ({[s]} ∪ seen) l'
  end.

Definition dedupeStrings (l : list string) : list string := dedupe_from ∅ l.

Definition hasScope (scope target : string) : bool := bool_decide (target ∈ fields scope).

(** [strings.Join(dedupeStrings(append(strings.Fields(a), strings.Fields(b)...)), " ")] *)
Definition merge_scopes (a b : string) : string :=
  join " " (dedupeStrings (fields a ++ fields b)).

(** ** Environment readers; [env] is [os.Getenv] *)

Definition getenvDefault (env : string → string) (name def : string) : string :=
  let v := trim_space (env name) in if decide (v = EmptyString) then def else v.

Definition getenvDefaultInt (env : string → string) (name : string) (def : Z) : Z :=
  let v := trim_space (env name) in
  if decide (v = EmptyString) then def else default def (atoi v).

Definition getenvDefaultBool (env : string → string) (name : string) (def : bool) : bool :=
  let v := trim_space (env name) in
  if decide (v = EmptyString) then def else default def (parse_bool v).

Definition getenvCSV (env : string → string) (name : string) : list string :=
  let v := trim_space (env name) in
  if decide (v = EmptyString) then []
  else List.filter (λ p, negb (bool_decide (p = EmptyString))) (trim_space <$> split_on "," v).

(** ** Names, avatars, email *)

Section names.
Context `{Runtime} (cfg : Config).

(** [strings.ToUpper] and [strings.ToLower]: the ASCII path, or the Unicode one. *)
Definition ToUpper (s : string) : string :=
  if is_ascii_string s then ascii_upper s else unicode_upper s.
Definition ToLower (s : string) : string :=
  if is_ascii_string s then ascii_lower s else unicode_lower s.

Definition capitalize (s : string) : string :=
  match s with
  | EmptyString => s
  | String c r => ToUpper (String c EmptyString) +:+ ToLower r
  end.

Definition avatarIndex (username : string) : Z :=
  foldl (λ sum b, sum + Z.of_N b) 0 (bytes_of username) mod 8 + 1.

(** [fmt.Sprintf("%d", n)] for the one-digit index. *)
Definition digit_string (n : Z) : string :=
  String (ascii_of_N (Z.to_N (48 + n))) EmptyString.

Definition internalAvatarURL (username : string) : string :=
  externalURL cfg +:+ "/internal/avatars/" +:+ digit_string (avatarIndex username) +:+ ".svg".

Definition avatarURL (username : string) : string :=
  externalURL cfg +:+ "/avatars/" +:+ digit_string (avatarIndex username) +:+ ".svg".

Definition emailForUsername (username : string) : string :=
  username +:+ "@" +:+ emailDomain cfg.

(** ** Subject identifiers *)

Definition sectorIdentifier (redirectURI clientID : string) : string :=
  match url_Parse redirectURI with
  | Some u => if decide (u_host u = EmptyString) then clientID else u_host u
  | None => clientID
  end.

Definition NUL : ascii := "000".

Definition computeAdvertisedSub (sub sectorID : string) : string :=
  if decide (subjectType cfg = "pairwise") then
    raw_url_encode (hmac_sha256 (pairwiseSalt cfg) (sectorID +:+ String NUL sub))
  else sub.

(** ** Claim sets *)

Definition defaultAccessTokenClaims (ctx : authContextEntry) : Claims :=
  <["token_use" := VStr "access"]> (<["scope" := VStr (ac_Scope ctx)]> ∅).

Definition defaultIDTokenClaims (ctx : authContextEntry) : Claims :=
  let c0 : Claims :=
    <["sub" := VStr (computeAdvertisedSub (ac_Sub ctx)
                       (sectorIdentifier (ac_RedirectURI ctx) (ac_ClientID ctx)))]>
    (<["azp" := VStr (ac_ClientID ctx)]> ∅) in
  let c1 := if decide (ac_Nonce ctx = EmptyString) then c0
            else <["nonce" := VStr (ac_Nonce ctx)]> c0 in
  let c2 := if hasScope (ac_Scope ctx) "profile" then
              <["name" := VStr (capitalize (ac_Username ctx))]>
              (<["preferred_username" := VStr (ac_Username ctx)]>
              (<["picture" := VStr (avatarURL (ac_Username ctx))]> c1))
            else c1 in
  if bool_decide (ac_Username ctx ≠ EmptyString) && hasScope (ac_Scope ctx) "email" then
    <["email" := VStr (emailForUsername (ac_Username ctx))]>
    (<["email_verified" := VBool true]> c2)
  else c2.

(** A nil map is marshalled as an empty one. *)
Definition claimsToPrettyJSON (c : option Claims) : option string :=
  json_marshal_indent (default ∅ c).

(** Decoding into a map: an object fills it, null makes it nil. *)
Definition parseClaimsJSON (raw : string) : option (option Claims) :=
  match json_unmarshal raw with
  | Some (JObj members) => Some (Some (object_map members))
  | Some JNull => Some None
  | _ => None
  end.

Definition copyClaims (c : option Claims) : option Claims := c.

Definition audContains (c : Claims) (want : string) : bool :=
  match c !! "aud" with
  | Some (VStr s) => bool_decide (s = want)
  | Some (VJ (JArr items)) =>
      existsb (λ i, match i with JStr s => bool_decide (s = want) | _ => false end) items
  | _ => false
  end.

Definition intFromAny (v : goval) (def : Z) : Z :=
  match v with
  | VJ (JNum lit) => json_float_int lit
  | VInt z => z
  | _ => def
  end.

Definition formatExpiryClaim (c : option Claims) : string :=
  match c ≫= (.!! "exp") with
  | None => "not issued"
  | Some exp =>
      let e := intFromAny exp 0 in
      if decide (e <= 0) then "not issued" else format_rfc3339 e
  end.
End names.

(** ** URLs *)

(** The parameters are a Go map: each name once, set in any order. *)
Definition buildURL (base : string) (params : gmap string string) : string :=
  match url_Parse base with
  | None => base
  | Some u => url_String (with_query u (Encode (((λ v, [v]) <$> params) ∪ Query u)))
  end.

Definition params_of (l : list (string * string)) : gmap string string := list_to_map l.

(** ** Session lookups

    [getSessionBySubLocked] and its siblings range over the session map: the
    list is the order of this iteration. *)

Definition getSessionBySub (order : list (string * session)) (sub : string) : option session :=
  '(_, (_, s)) ← list_find (λ ks, s_Sub ks.2 = sub) order; Some s.

Definition getSessionByAdvertisedSub (order : list (string * session)) (sub : string) : string :=
  match list_find (λ ks, Exists (λ cs, cs_AdvertisedSub cs = sub) (s_ClientSessions ks.2)) order with
  | Some (_, (cookieID, _)) => cookieID
  | None => EmptyString
  end.

Fixpoint find_client_session (p : clientSession → bool) (l : list clientSession) : option clientSession :=
  match l with
  | [] => None
  | cs :: l' => if p cs then Some cs else find_client_session p l'
  end.

Fixpoint getSessionByClientSessionID_in (csID : string) (order : list (string * session))
    : option (string * session * clientSession) :=
  match order with
  | [] => None
  | (cookieID, sess) :: order' =>
      match find_client_session (λ cs, bool_decide (cs_SessionID cs = csID)) (s_ClientSessions sess) with
      | Some cs => Some (cookieID, sess, cs)
      | None => getSessionByClientSessionID_in csID order'
      end
  end.

Definition getSessionByClientSessionID (order : list (string * session)) (csID : string)
    : option (string * session * clientSession) :=
  if decide (csID = EmptyString) then None else getSessionByClientSessionID_in csID order.

Definition getClientSessionByID (sess : session) (clientID : string) : option clientSession :=
  find_client_session (λ cs, bool_decide (cs_ClientID cs = clientID)) (s_ClientSessions sess).

Fixpoint upsertClientSession (l : list clientSession) (cs : clientSession) : list clientSession :=
  match l with
  | [] => [cs]
  | c :: l' => if decide (cs_ClientID c = cs_ClientID cs) then cs :: l'
               else c :: upsertClientSession l' cs
  end.

(** The loops that update the first client session of a kind in place. *)
Fixpoint update_first (p : clientSession → bool) (f : clientSession → clientSession)
    (l : list clientSession) : list clientSession :=
  match l with
  | [] => []
  | c :: l' => if p c then f c :: l' else c :: update_first p f l'
  end.

Definition with_client_sessions (sess : session) (l : list clientSession) : session :=
  {| s_Username := s_Username sess; s_Sub := s_Sub sess; s_CookieID := s_CookieID sess;
     s_ClientSessions := l |}.

Definition cs_with_pkce (challenge method : string) (cs : clientSession) : clientSession :=
  {| cs_SessionID := cs_SessionID cs; cs_ClientID := cs_ClientID cs;
     cs_AdvertisedSub := cs_AdvertisedSub cs; cs_Scope := cs_Scope cs;
     cs_RedirectURI := cs_RedirectURI cs; cs_CodeChallenge := challenge;
     cs_CodeChallengeMethod := method; cs_IDTokenClaims := cs_IDTokenClaims cs;
     cs_AccessTokenClaims := cs_AccessTokenClaims cs;
     cs_RefreshTokenClaims := cs_RefreshTokenClaims cs |}.

Definition cs_with_redirect (uri : string) (cs : clientSession) : clientSession :=
  {| cs_SessionID := cs_SessionID cs; cs_ClientID := cs_ClientID cs;
     cs_AdvertisedSub := cs_AdvertisedSub cs; cs_Scope := cs_Scope cs;
     cs_RedirectURI := uri; cs_CodeChallenge := cs_CodeChallenge cs;
     cs_CodeChallengeMethod := cs_CodeChallengeMethod cs; cs_IDTokenClaims := cs_IDTokenClaims cs;
     cs_AccessTokenClaims := cs_AccessTokenClaims cs;
     cs_RefreshTokenClaims := cs_RefreshTokenClaims cs |}.

Definition updateClientSessionPKCE (sess : session) (clientID challenge method : string) : session :=
  with_client_sessions sess
    (update_first (λ cs, bool_decide (cs_ClientID cs = clientID)) (cs_with_pkce challenge method)
                  (s_ClientSessions sess)).

Definition updateClientSessionRedirectURI (sess : session) (clientID uri : string) : session :=
  with_client_sessions sess
    (update_first (λ cs, bool_decide (cs_ClientID cs = clientID)) (cs_with_redirect uri)
                  (s_ClientSessions sess)).

(** ** Facts: string lists *)

Lemma dedupe_from_elem seen l x : x ∈ dedupe_from seen l ↔ x ∈ l ∧ x ∉ seen.
Proof.
  revert seen. induction l as [|s l IH]; intros seen; simpl; [set_solver|].
  destruct (decide (s ∈ seen)); rewrite ?elem_of_cons, IH, ?elem_of_union, ?elem_of_singleton;
    destruct (decide (x = s)) as [->|]; tauto.
Qed.

Lemma dedupeStrings_elem l x : x ∈ dedupeStrings l ↔ x ∈ l.
Proof. unfold dedupeStrings. rewrite dedupe_from_elem. set_solver. Qed.

Lemma dedupe_from_NoDup seen l : NoDup (dedupe_from seen l).
Proof.
  revert seen. induction l as [|s l IH]; intros seen; simpl; [constructor|].
  case_decide; [done|]. constructor; [|done]. rewrite dedupe_from_elem. set_solver.
Qed.

Lemma dedupeStrings_NoDup l : NoDup (dedupeStrings l).
Proof. apply dedupe_from_NoDup. Qed.

Lemma dedupe_from_id seen l : NoDup l → (∀ x, x ∈ l → x ∉ seen) → dedupe_from seen l = l.
Proof.
  intros Hl. revert seen. induction Hl as [|s l Hs Hl IH]; intros seen Hseen; [done|]. simpl.
  rewrite decide_False by (apply Hseen; by left). f_equal. apply IH. set_solver.
Qed.

Lemma dedupeStrings_id l : NoDup l → dedupeStrings l = l.
Proof. intros. apply dedupe_from_id; [done|set_solver]. Qed.

Lemma dedupeStrings_nil l : dedupeStrings l = [] ↔ l = [].
Proof.
  split; [|by intros ->]. destruct l as [|x l]; [done|]. intros H.
  assert (x ∈ dedupeStrings (x :: l)) as Hx by (apply dedupeStrings_elem; by left).
  rewrite H in Hx. by apply elem_of_nil in Hx.
Qed.

Lemma Forall_dedupe (P : string → Prop) l : Forall P l → Forall P (dedupeStrings l).
Proof. rewrite !Forall_forall. intros H x. rewrite dedupeStrings_elem. apply H. Qed.

(** Splitting a normalised scope string gives back its scopes. *)
Lemma fields_join_dedupe l :
  Forall (λ w, is_word w = true) l → fields (join " " (dedupeStrings l)) = dedupeStrings l.
Proof. intros H. apply fields_join. by apply Forall_dedupe. Qed.

Lemma fields_merge_scopes a b :
  fields (merge_scopes a b) = dedupeStrings (fields a ++ fields b).
Proof. apply fields_join_dedupe, Forall_app. split; apply fields_words. Qed.

Lemma hasScope_true scope t : hasScope scope t = true ↔ t ∈ fields scope.
Proof. apply bool_decide_eq_true. Qed.

(** A merged scope grants exactly what either part grants. *)
Lemma hasScope_merge a b t : hasScope (merge_scopes a b) t = hasScope a t || hasScope b t.
Proof.
  apply eq_bool_prop_intro. rewrite !Is_true_true, orb_true_iff, !hasScope_true.
  by rewrite fields_merge_scopes, dedupeStrings_elem, elem_of_app.
Qed.

#[export] Hint Resolve dedupeStrings_NoDup fields_words : oidc.

(** ** Facts: client sessions *)

Lemma find_client_session_Some p l cs :
  find_client_session p l = Some cs → cs ∈ l ∧ p cs = true.
Proof.
  induction l as [|c l IH]; simpl; [done|]. destruct (p c) eqn:Hc.
  - intros [= ->]. split; [by left|done].
  - intros [? ?]%IH. split; [by right|done].
Qed.

Lemma find_client_session_None p l :
  find_client_session p l = None ↔ Forall (λ c, p c = false) l.
Proof.
  induction l as [|c l IH]; simpl; [by split|]. rewrite Forall_cons.
  destruct (p c); [naive_solver|]. rewrite IH. naive_solver.
Qed.

Lemma find_client_session_app_None p l c :
  find_client_session p (l ++ [c]) =
  match find_client_session p l with Some x => Some x | None => if p c then Some c else None end.
Proof. induction l as [|x l IH]; simpl; [by destruct (p c)|]. by destruct (p x). Qed.

Definition client_ids (l : list clientSession) : list string := cs_ClientID <$> l.

Lemma getClientSessionByID_None sess id :
  getClientSessionByID sess id = None → id ∉ client_ids (s_ClientSessions sess).
Proof.
  unfold client_ids. intros Hc (c & -> & Hin)%list_elem_of_fmap.
  apply find_client_session_None in Hc. rewrite Forall_forall in Hc.
  specialize (Hc _ Hin). simpl in Hc. by rewrite bool_decide_eq_false in Hc.
Qed.

Lemma upsert_ids l cs : client_ids (upsertClientSession l cs) =
  if decide (cs_ClientID cs ∈ client_ids l) then client_ids l else client_ids l ++ [cs_ClientID cs].
Proof.
  induction l as [|c l IH]; simpl.
  { done. }
  destruct (decide (cs_ClientID c = cs_ClientID cs)) as [Hc|Hc].
  - rewrite decide_True by (rewrite Hc; by left). simpl. by rewrite Hc.
  - change (client_ids (c :: upsertClientSession l cs))
      with (cs_ClientID c :: client_ids (upsertClientSession l cs)).
    rewrite IH. destruct (decide (cs_ClientID cs ∈ client_ids l)).
    + rewrite decide_True by (by right). done.
    + rewrite decide_False by (rewrite elem_of_cons; naive_solver). done.
Qed.

Lemma upsert_NoDup l cs :
  NoDup (client_ids l) → NoDup (client_ids (upsertClientSession l cs)).
Proof.
  intros H. rewrite upsert_ids. case_decide; [done|].
  apply NoDup_app. split_and!; [done|set_solver|apply NoDup_singleton].
Qed.

Lemma upsert_elem l cs c :
  c ∈ upsertClientSession l cs → c = cs ∨ (c ∈ l).
Proof.
  induction l as [|x l IH]; simpl; [set_solver|]. case_decide; [set_solver|].
  rewrite !elem_of_cons. intros [->|?]; [tauto|]. destruct (IH); tauto.
Qed.

Lemma upsert_lookup l cs :
  find_client_session (λ c, bool_decide (cs_ClientID c = cs_ClientID cs))
    (upsertClientSession l cs) = Some cs.
Proof.
  induction l as [|x l IH]; simpl; [by rewrite bool_decide_eq_true_2|].
  case_decide; simpl; [by rewrite bool_decide_eq_true_2|].
  by rewrite bool_decide_eq_false_2.
Qed.

Lemma update_first_ids p f l :
  (∀ c, cs_ClientID (f c) = cs_ClientID c) → client_ids (update_first p f l) = client_ids l.
Proof.
  intros Hf. induction l as [|c l IH]; [done|]. simpl.
  destruct (p c); [|change (cs_ClientID c :: client_ids (update_first p f l) =
                            cs_ClientID c :: client_ids l); by rewrite IH].
  unfold client_ids. simpl. by rewrite Hf.
Qed.

Lemma update_first_elem p f l c :
  c ∈ update_first p f l → c ∈ l ∨ (∃ c', c' ∈ l ∧ p c' = true ∧ c = f c').
Proof.
  induction l as [|x l IH]; simpl; [set_solver|]. destruct (p x) eqn:Hx; [set_solver|].
  rewrite !elem_of_cons. intros [->|H]; [tauto|].
  destruct (IH H) as [?|(c' & ? & ? & ->)]; [tauto|]. right. exists c'. set_solver.
Qed.

(** What updating the first client session of a client does to looking it up. *)
Lemma update_first_lookup f l id :
  (∀ c, cs_ClientID (f c) = cs_ClientID c) →
  find_client_session (λ c, bool_decide (cs_ClientID c = id))
    (update_first (λ c, bool_decide (cs_ClientID c = id)) f l) =
  f <$> find_client_session (λ c, bool_decide (cs_ClientID c = id)) l.
Proof.
  intros Hf. induction l as [|x l IH]; [done|]. simpl. case_bool_decide as Hx; simpl.
  - by rewrite bool_decide_eq_true_2 by (by rewrite Hf).
  - by rewrite bool_decide_eq_false_2.
Qed.

(** An entry met while ranging over a map is an entry of the map. *)
Lemma order_lookup {V} (order : list (string * V)) (m : gmap string V) k v :
  order ≡ₚ map_to_list m → (k, v) ∈ order → m !! k = Some v.
Proof. intros -> Hin. by apply elem_of_map_to_list. Qed.

Lemma getSessionBySub_Some order sub s :
  getSessionBySub order sub = Some s → ∃ k, (k, s) ∈ order ∧ s_Sub s = sub.
Proof.
  unfold getSessionBySub. intros H.
  destruct (list_find _ order) as [[i [k s']]|] eqn:E; [|done]. simplify_eq/=.
  apply list_find_Some in E as (Hi & Hs & _). exists k. split; [|done].
  by eapply list_elem_of_lookup_2.
Qed.

Lemma getSessionByAdvertisedSub_Some order sub k :
  getSessionByAdvertisedSub order sub = k → k ≠ EmptyString →
  ∃ s cs, (k, s) ∈ order ∧ cs ∈ s_ClientSessions s ∧ cs_AdvertisedSub cs = sub.
Proof.
  unfold getSessionByAdvertisedSub. intros H Hne.
  destruct (list_find _ order) as [[i [k' s]]|] eqn:E; simplify_eq/=.
  apply list_find_Some in E as (Hi & (cs & Hcs & Hsub)%Exists_exists & _).
  exists s, cs. split_and!; [by eapply list_elem_of_lookup_2|done..].
Qed.

Lemma getSessionByClientSessionID_Some order csID k s cs :
  getSessionByClientSessionID order csID = Some (k, s, cs) →
  (k, s) ∈ order ∧ cs ∈ s_ClientSessions s ∧ cs_SessionID cs = csID ∧ csID ≠ EmptyString.
Proof.
  unfold getSessionByClientSessionID. case_decide as Hne; [done|].
  induction order as [|[k' s'] order IH]; simpl; [done|].
  destruct (find_client_session _ _) as [c|] eqn:E.
  - intros [= <- <- <-]. apply find_client_session_Some in E as [Hin Hc].
    apply bool_decide_eq_true in Hc. split_and!; [by left|done..].
  - intros (? & ? & ? & ?)%IH. split_and!; [by right|done..].
Qed.

(** ** Facts: subject identifiers *)

Section subjects.
Context `{Runtime} (cfg : Config).

(** A sector without NUL can be told from the subject after the separator. *)
Lemma message_split sec sub sec' sub' :
  NUL ∉ chars sec → NUL ∉ chars sec' →
  sec +:+ String NUL sub = sec' +:+ String NUL sub' → sec = sec' ∧ sub = sub'.
Proof.
  revert sec'. induction sec as [|c sec IH]; intros [|c' sec'] Hn Hn' E; cbn in *; injection E.
  - by intros ->.
  - intros _ <-. destruct Hn'. by left.
  - intros _ ->. destruct Hn. by left.
  - apply not_elem_of_cons in Hn as [_ Hn], Hn' as [_ Hn'].
    intros E' ->. by apply IH in E' as [-> ->].
Qed.

(** C39: Subjects are the user's own or pairwise.  With public subjects every
    client is given the user's own identifier.  With pairwise ones they tell
    users and sectors apart: if two users, or one user at two sectors, without a
    NUL byte in the sectors, are given the same subject, then the messages signed
    for the two - the sector, a NUL byte, the user - differ and have the same
    HMAC under the salt. *)
Theorem pairwise_subjects_collide sub sec sub' sec' :
  NUL ∉ chars sec → NUL ∉ chars sec' →
  if decide (subjectType cfg = "pairwise") then
    computeAdvertisedSub cfg sub sec = computeAdvertisedSub cfg sub' sec' →
    sub = sub' ∧ sec = sec' ∨
    sec +:+ String NUL sub ≠ sec' +:+ String NUL sub' ∧
    hmac_sha256 (pairwiseSalt cfg) (sec +:+ String NUL sub) =
    hmac_sha256 (pairwiseSalt cfg) (sec' +:+ String NUL sub')
  else computeAdvertisedSub cfg sub sec = sub.
Proof.
  intros Hn Hn'. unfold computeAdvertisedSub. destruct (decide _); [|done].
  intros E. apply (f_equal raw_url_decode) in E. rewrite !raw_url_decode_encode in E.
  injection E as E.
  destruct (decide (sec +:+ String NUL sub = sec' +:+ String NUL sub')) as [Em|Em]; [|by right].
  left. by apply message_split in Em as [-> ->].
Qed.
End subjects.

(** ** Facts: URLs *)

(** C40: A redirect built by [buildURL] reads back as it was meant.  Parsing the query
    of the address gives exactly the parameters, whatever bytes their values hold, and
    the base address's own query for every other name: no value can add or change a
    parameter. *)
Lemma buildURL_query base params u :
  url_Parse base = Some u →
  ∃ q, buildURL base params = url_String (with_query u q) ∧
       parseQuery q = ((λ v, [v]) <$> params) ∪ Query u.
Proof.
  intros Hu. eexists. unfold buildURL. rewrite Hu. split; [done|].
  apply parse_Encode. apply map_Forall_union_2.
  - intros k vs. rewrite lookup_fmap. by destruct (params !! k); intros [= <-].
  - apply values_ok_parse.
Qed.
