(* ===== verification/IdpRegistry.v ===== *)
(** * The client registry of [main.go]

    Dynamic registration ([register], [normalizeRegistration] and what they
    call), automatic registration ([registerClientLocked]) and the listing page
    ([clientsPage]), with the theorems about them: what a registration is made
    of, what is refused, and that observed traffic never widens a registration
    the client made itself. *)

From S2P Require Import Prelude GoStrings GoNet GoURL GoBase64 Runtime GoJson IdpState IdpUtil.
From Stdlib Require Import Ascii.
From stdpp Require Import options.
Local Open Scope Z_scope.

(** ** Decoding a registration *)

Definition registration_tags : list string :=
  [ "client_id"; "client_id_issued_at"; "client_secret"; "client_secret_expires_at";
    "redirect_uris"; "token_endpoint_auth_method"; "grant_types"; "response_types"; "scope";
    "client_name"; "client_uri"; "logo_uri"; "contacts"; "tos_uri"; "policy_uri";
    "jwks"; "jwks_uri"; "software_id"; "software_version"; "registration_method" ].

Definition decode_members (ms : list (string * json)) : option clientRegistration :=
  let vals t := values_for registration_tags t ms in
  let str t := foldM into_string EmptyString (vals t) in
  let strs t := foldM into_strings [] (vals t) in
  id ← str "client_id"; issued ← foldM into_int64 0 (vals "client_id_issued_at");
  secret ← str "client_secret";
  expires ← foldM into_int64_ptr None (vals "client_secret_expires_at");
  uris ← strs "redirect_uris"; auth ← str "token_endpoint_auth_method";
  grants ← strs "grant_types"; responses ← strs "response_types"; scope ← str "scope";
  name ← str "client_name"; uri ← str "client_uri"; logo ← str "logo_uri";
  contacts ← strs "contacts"; tos ← str "tos_uri"; policy ← str "policy_uri";
  jwks ← foldM into_raw None (vals "jwks"); jwks_uri ← str "jwks_uri";
  sid ← str "software_id"; sver ← str "software_version"; method ← str "registration_method";
  Some {| cr_ClientID := id; cr_ClientIDIssuedAt := issued; cr_ClientSecret := secret;
          cr_ClientSecretExpiresAt := expires; cr_RedirectURIs := uris;
          cr_TokenEndpointAuthMethod := auth; cr_GrantTypes := grants;
          cr_ResponseTypes := responses; cr_Scope := scope; cr_ClientName := name;
          cr_ClientURI := uri; cr_LogoURI := logo; cr_Contacts := contacts;
          cr_TosURI := tos; cr_PolicyURI := policy; cr_Jwks := jwks; cr_JwksURI := jwks_uri;
          cr_SoftwareID := sid; cr_SoftwareVersion := sver; cr_RegistrationMethod := method |}.

Definition decode_registration (j : json) : option clientRegistration :=
  match j with
  | JObj ms => decode_members ms
  | JNull => Some zero_registration
  | _ => None
  end.

(** ** Validation *)

Definition supportedGrantTypes : list string := ["authorization_code"; "refresh_token"].
Definition supportedResponseTypes : list string := ["code"].
Definition supportedTokenEndpointAuthMethods : list string :=
  ["client_secret_basic"; "client_secret_post"; "none"].
Definition clientIDMetadataAuthMethods : list string := ["none"; "private_key_jwt"].
Definition supportedCodeChallengeMethods : list string := ["S256"; "plain"].
Definition advertisedTokenEndpointAuthMethods : list string :=
  supportedTokenEndpointAuthMethods ++ ["private_key_jwt"].

Record registrationError := { re_code : string; re_description : string }.

Section registry.
Context `{Runtime}.

(** [None]: the URI is acceptable; otherwise the error's text. *)
Definition validateRedirectURI (redirectURI : string) : option string :=
  let msg t := Some ("redirect_uri " +:+ go_quote redirectURI +:+ t) in
  match url_Parse redirectURI with
  | None => msg " is not a valid URI"
  | Some u =>
      if negb (IsAbs u) then msg " must be an absolute URI"
      else if bool_decide (u_fragment u ≠ EmptyString) || contains_char "#" redirectURI
      then msg " must not contain a fragment"
      else None
  end.

Definition first_unsupported (allowed l : list string) : option string :=
  snd <$> list_find (λ x, x ∉ allowed) l.

Fixpoint first_error (l : list string) : option string :=
  match l with
  | [] => None
  | u :: l' => match validateRedirectURI u with Some e => Some e | None => first_error l' end
  end.

Definition with_default (def : list string) (l : list string) : list string :=
  match l with [] => def | _ => l end.

Definition reg_error (code description : string) : registrationError + clientRegistration :=
  inl {| re_code := code; re_description := description |}.

Definition normalizeRegistration (reg : clientRegistration)
    (allowedAuthMethods : list string) (defaultAuthMethod : string)
    : registrationError + clientRegistration :=
  let grants := with_default ["authorization_code"] (cr_GrantTypes reg) in
  let responses := with_default ["code"] (cr_ResponseTypes reg) in
  let auth := if decide (cr_TokenEndpointAuthMethod reg = EmptyString)
              then defaultAuthMethod else cr_TokenEndpointAuthMethod reg in
  match first_unsupported supportedGrantTypes grants with
  | Some g => reg_error "invalid_client_metadata" ("unsupported grant_type " +:+ go_quote g)
  | None =>
  match first_unsupported supportedResponseTypes responses with
  | Some t => reg_error "invalid_client_metadata" ("unsupported response_type " +:+ go_quote t)
  | None =>
  if decide (auth ∉ allowedAuthMethods) then
    reg_error "invalid_client_metadata"
      ("unsupported token_endpoint_auth_method " +:+ go_quote auth)
  else if decide ("authorization_code" ∈ grants ∧ cr_RedirectURIs reg = []) then
    reg_error "invalid_redirect_uri" "redirect_uris is required for the authorization_code grant"
  else
  match first_error (cr_RedirectURIs reg) with
  | Some e => reg_error "invalid_redirect_uri" e
  | None =>
      inr (reg_metadata reg (dedupeStrings (cr_RedirectURIs reg)) auth
             (dedupeStrings grants) (dedupeStrings responses)
             (join " " (dedupeStrings (fields (cr_Scope reg)))))
  end end end.

Definition writeRegistrationError (code description : string) : Response :=
  {| rs_status := 400;
     rs_header := [("Content-Type", "application/json"); ("Cache-Control", "no-store")];
     rs_cookies := [];
     rs_body := BClaims (<["error" := VStr code]>
                        (<["error_description" := VStr description]> ∅)) |}.

Definition newClientSecret : Eff (World server) (option string) :=
  buf ← randRead 32; mret (raw_url_encode <$> buf).

(** The registration as stored and echoed. *)
Definition store_registration (reg : clientRegistration) : Eff (World server) Response :=
  mod_st (up_clients (<[cr_ClientID reg := reg]>));;
  mret {| rs_status := 201;
          rs_header := [("Content-Type", "application/json"); ("Cache-Control", "no-store");
                        ("Pragma", "no-cache")];
          rs_cookies := []; rs_body := BRegistration reg |}.

(** The server-controlled fields, the secret among them unless the client is public. *)
Definition issue_registration (reg : clientRegistration) : Eff (World server) Response :=
  id ← newUUID;
  now ← tNow;
  let reg := reg_identity reg id (unix now) (cr_ClientSecret reg)
               (cr_ClientSecretExpiresAt reg) registrationMethodDynamic in
  if decide (cr_TokenEndpointAuthMethod reg = "none") then store_registration reg
  else
    secret ← newClientSecret;
    match secret with
    | None =>
        mret (writeRegistrationError "invalid_client_metadata" "could not issue a client secret")
    | Some s =>
        store_registration (reg_identity reg id (unix now) s (Some 0) registrationMethodDynamic)
    end.

Definition register (r : Request) : Eff (World server) Response :=
  if negb (is_post r) then mret NotFound
  else match json_decode_first (r_body r) ≫= decode_registration with
       | None => mret (writeRegistrationError "invalid_client_metadata"
                         "request body must be a JSON object of client metadata")
       | Some reg =>
           match normalizeRegistration reg supportedTokenEndpointAuthMethods
                   "client_secret_basic" with
           | inl e => mret (writeRegistrationError (re_code e) (re_description e))
           | inr reg => issue_registration reg
           end
       end.

(** ** Automatic registration *)

(** What a request adds to a registration. *)
Definition merge_observed (reg : clientRegistration) (redirectURI scope : string)
    : clientRegistration :=
  reg_metadata reg
    (if decide (redirectURI = EmptyString) then cr_RedirectURIs reg
     else dedupeStrings (cr_RedirectURIs reg ++ [redirectURI]))
    (cr_TokenEndpointAuthMethod reg)
    (if hasScope scope "offline_access"
     then dedupeStrings (cr_GrantTypes reg ++ ["refresh_token"]) else cr_GrantTypes reg)
    (cr_ResponseTypes reg)
    (if decide (scope = EmptyString) then cr_Scope reg else merge_scopes (cr_Scope reg) scope).

Definition automatic_registration (clientID : string) (now : Z) : clientRegistration :=
  reg_metadata
    (reg_identity zero_registration clientID (unix now) "" None registrationMethodAutomatic)
    [] "none" ["authorization_code"] ["code"] "".

Definition registerClientLocked (clientID redirectURI scope : string)
    : Eff (World server) unit :=
  if decide (clientID = EmptyString) then mret tt
  else
    known ← get_st (λ s, sv_clients s !! clientID);
    match known with
    | Some reg =>
        if decide (cr_RegistrationMethod reg = registrationMethodAutomatic) then
          mod_st (up_clients (<[clientID := merge_observed reg redirectURI scope]>))
        else mret tt
    | None =>
        now ← tNow;
        mod_st (up_clients (<[clientID :=
                  merge_observed (automatic_registration clientID now) redirectURI scope]>))
    end.

(** ** The listing *)

Definition reg_le (a b : clientRegistration) : Prop :=
  cr_ClientIDIssuedAt a < cr_ClientIDIssuedAt b ∨
  (cr_ClientIDIssuedAt a = cr_ClientIDIssuedAt b ∧ String.le (cr_ClientID a) (cr_ClientID b)).

#[global] Instance reg_le_dec : RelDecision reg_le.
Proof. intros a b. unfold reg_le. apply _. Defined.

Definition client_view (reg : clientRegistration) : clientRegistrationView :=
  {| rv_ClientID := cr_ClientID reg;
     rv_RegistrationMethod := cr_RegistrationMethod reg;
     rv_IssuedAt := format_rfc3339 (cr_ClientIDIssuedAt reg);
     rv_MetadataJSON := reg |}.

Definition clientsPage (r : Request) : Eff (World server) Response :=
  if negb (is_get r) then mret NotFound
  else
    clients ← get_st sv_clients;
    regs ← rangeMap clients;
    mret (render (PClients (client_view <$> merge_sort reg_le (regs.*2)))).
End registry.

(** ** What a registration asserts *)

Section facts.
Context `{Runtime}.
Implicit Types (reg : clientRegistration) (w : World server).

(** The metadata [normalizeRegistration] lets through, for the allowed
    authentication methods. *)
Record metadata_ok (allowed : list string) (reg : clientRegistration) : Prop := {
  mo_grants : Forall (.∈ supportedGrantTypes) (cr_GrantTypes reg);
  mo_grants_ne : cr_GrantTypes reg ≠ [];
  mo_grants_nodup : NoDup (cr_GrantTypes reg);
  mo_responses : cr_ResponseTypes reg = ["code"];
  mo_auth : cr_TokenEndpointAuthMethod reg ∈ allowed;
  mo_uris : Forall (λ u, validateRedirectURI u = None) (cr_RedirectURIs reg);
  mo_uris_ne : "authorization_code" ∈ cr_GrantTypes reg → cr_RedirectURIs reg ≠ [];
  mo_uris_nodup : NoDup (cr_RedirectURIs reg);
  mo_scope : join " " (fields (cr_Scope reg)) = cr_Scope reg ∧ NoDup (fields (cr_Scope reg))
}.

(** What is required of the metadata as submitted. *)
Definition acceptable (allowed : list string) (def : string) reg : Prop :=
  Forall (.∈ supportedGrantTypes) (cr_GrantTypes reg) ∧
  Forall (.∈ supportedResponseTypes) (cr_ResponseTypes reg) ∧
  (if decide (cr_TokenEndpointAuthMethod reg = EmptyString) then def
   else cr_TokenEndpointAuthMethod reg) ∈ allowed ∧
  ((cr_GrantTypes reg = [] ∨ "authorization_code" ∈ cr_GrantTypes reg) →
     cr_RedirectURIs reg ≠ []) ∧
  Forall (λ u, validateRedirectURI u = None) (cr_RedirectURIs reg).

Lemma first_unsupported_None allowed l :
  first_unsupported allowed l = None ↔ Forall (.∈ allowed) l.
Proof.
  unfold first_unsupported. rewrite fmap_None, list_find_None.
  split; intros Hl; (eapply Forall_impl; [exact Hl|]); simpl; intros x.
  - apply dec_stable.
  - tauto.
Qed.

Lemma first_error_None l :
  first_error l = None ↔ Forall (λ u, validateRedirectURI u = None) l.
Proof.
  induction l as [|u l IH]; simpl; [by split|]. rewrite Forall_cons.
  destruct (validateRedirectURI u); [naive_solver|]. rewrite IH. naive_solver.
Qed.

Lemma with_default_elem def l x : x ∈ with_default def l ↔ (l = [] ∧ x ∈ def) ∨ x ∈ l.
Proof. destruct l as [|y l]; simpl; [set_solver|]. set_solver. Qed.

Lemma with_default_Forall (P : string → Prop) def l :
  Forall P def → Forall P (with_default def l) ↔ Forall P l.
Proof. destruct l; simpl; [by split|done]. Qed.

Lemma with_default_ne def l : def ≠ [] → with_default def l ≠ [].
Proof. by destruct l. Qed.

Lemma with_default_id def l : l ≠ [] → with_default def l = l.
Proof. by destruct l. Qed.

(** The result, on the one branch without an error. *)
Lemma normalize_inr reg allowed def reg' :
  normalizeRegistration reg allowed def = inr reg' ↔
  acceptable allowed def reg ∧
  reg' = reg_metadata reg (dedupeStrings (cr_RedirectURIs reg))
           (if decide (cr_TokenEndpointAuthMethod reg = EmptyString) then def
            else cr_TokenEndpointAuthMethod reg)
           (dedupeStrings (with_default ["authorization_code"] (cr_GrantTypes reg)))
           (dedupeStrings (with_default ["code"] (cr_ResponseTypes reg)))
           (join " " (dedupeStrings (fields (cr_Scope reg)))).
Proof.
  unfold normalizeRegistration, acceptable.
  rewrite <-(with_default_Forall (.∈ supportedGrantTypes) ["authorization_code"])
    by (repeat constructor).
  rewrite <-(with_default_Forall (.∈ supportedResponseTypes) ["code"]) by (repeat constructor).
  rewrite <-!first_unsupported_None, <-first_error_None.
  assert ((cr_GrantTypes reg = [] ∨ "authorization_code" ∈ cr_GrantTypes reg) ↔
          "authorization_code" ∈ with_default ["authorization_code"] (cr_GrantTypes reg)) as ->.
  { rewrite with_default_elem. set_solver. }
  unfold reg_error.
  set (auth := if decide (cr_TokenEndpointAuthMethod reg = EmptyString) then def
               else cr_TokenEndpointAuthMethod reg).
  destruct (first_unsupported supportedGrantTypes _); [naive_solver|].
  destruct (first_unsupported supportedResponseTypes _); [naive_solver|].
  destruct (decide (auth ∉ allowed)) as [Hauth|Hauth]; [naive_solver|]. apply dec_stable in Hauth.
  case_decide as Huri; [naive_solver|].
  destruct (first_error _); [naive_solver|].
  split; [intros [= <-]|by intros (_ & ->)]. split_and!; try done.
  intros Hin Hnil. by apply Huri.
Qed.

Lemma normalize_metadata_ok reg allowed def reg' :
  normalizeRegistration reg allowed def = inr reg' → metadata_ok allowed reg'.
Proof.
  intros [(Hg & Hr & Ha & Hn & Hu) ->]%normalize_inr. split; simpl.
  - apply Forall_dedupe, with_default_Forall; [repeat constructor|done].
  - rewrite dedupeStrings_nil. by apply with_default_ne.
  - apply dedupeStrings_NoDup.
  - apply (with_default_Forall _ ["code"]) in Hr; [|repeat constructor].
    assert (with_default ["code"] (cr_ResponseTypes reg) ≠ []) as Hne by (by apply with_default_ne).
    apply Forall_dedupe in Hr. rewrite <-dedupeStrings_nil in Hne.
    pose proof (dedupeStrings_NoDup (with_default ["code"] (cr_ResponseTypes reg))) as Hd.
    destruct (dedupeStrings _) as [|x [|y l]]; [done|..]; rewrite !Forall_cons in Hr;
      destruct_and! Hr; unfold supportedResponseTypes in *;
      repeat match goal with H : _ ∈ ["code"] |- _ => apply list_elem_of_singleton in H; subst end.
    + done.
    + exfalso. apply NoDup_cons in Hd as [Hx _]. apply Hx. by left.
  - done.
  - by apply Forall_dedupe.
  - rewrite dedupeStrings_elem, with_default_elem, dedupeStrings_nil. intros Hin. apply Hn.
    set_solver.
  - apply dedupeStrings_NoDup.
  - rewrite fields_join_dedupe by apply fields_words. split; [done|apply dedupeStrings_NoDup].
Qed.

(** Normalised metadata passes unchanged. *)
Lemma metadata_ok_normalize reg allowed def :
  metadata_ok allowed reg → cr_TokenEndpointAuthMethod reg ≠ EmptyString →
  normalizeRegistration reg allowed def = inr reg.
Proof.
  intros [Hg Hgn Hgd Hr Ha Hu Hun Hud [Hs1 Hs2]] Hne. apply normalize_inr. split.
  - split_and!; try done; [rewrite Hr; repeat constructor|by rewrite decide_False|].
    intros [?|?]; [done|by apply Hun].
  - rewrite decide_False, !with_default_id, !dedupeStrings_id by (done || by rewrite Hr; auto using NoDup_singleton).
    rewrite Hs1. by destruct reg.
Qed.

(** The error is one of the two codes of RFC 7591, and the metadata is as
    submitted when it is reported. *)
Lemma normalize_inl reg allowed def e :
  normalizeRegistration reg allowed def = inl e →
  re_code e ∈ ["invalid_client_metadata"; "invalid_redirect_uri"].
Proof.
  unfold normalizeRegistration, reg_error. intros Hn.
  case_hyp Hn; (by left) || (right; by left).
Qed.

(** ** Well-formed registrations *)

(** The entry of the client map under [id]: what holds of it depends on how
    the client came to be registered. *)
Record client_ok (id : string) reg : Prop := {
  co_id : cr_ClientID reg = id;
  co_automatic : cr_RegistrationMethod reg = registrationMethodAutomatic →
    cr_TokenEndpointAuthMethod reg = "none" ∧ cr_ClientSecret reg = "";
  co_dynamic : cr_RegistrationMethod reg = registrationMethodDynamic →
    metadata_ok supportedTokenEndpointAuthMethods reg;
  co_document : cr_RegistrationMethod reg = registrationMethodClientIDMetadataDocument →
    metadata_ok clientIDMetadataAuthMethods reg ∧ cr_ClientSecret reg = "" ∧
    (cr_TokenEndpointAuthMethod reg = "private_key_jwt" →
       is_Some (cr_Jwks reg) ∨ cr_JwksURI reg ≠ "");
  co_method : cr_RegistrationMethod reg ∈
    [registrationMethodAutomatic; registrationMethodDynamic;
     registrationMethodClientIDMetadataDocument]
}.

Definition clients_ok (m : gmap string clientRegistration) : Prop := map_Forall client_ok m.

Lemma clients_ok_insert m id reg :
  clients_ok m → client_ok id reg → clients_ok (<[id:=reg]> m).
Proof. intros Hm Hr. by apply map_Forall_insert_2. Qed.

Lemma metadata_ok_identity allowed reg id t sec e method :
  metadata_ok allowed reg → metadata_ok allowed (reg_identity reg id t sec e method).
Proof. by intros []; split. Qed.

Lemma client_ok_dynamic reg id t sec e :
  metadata_ok supportedTokenEndpointAuthMethods reg →
  client_ok id (reg_identity reg id t sec e registrationMethodDynamic).
Proof.
  intros Hm. split; [done|done| |done|by right; left].
  intros _. by apply metadata_ok_identity.
Qed.

Lemma client_ok_automatic reg id uri scope :
  client_ok id reg → cr_RegistrationMethod reg = registrationMethodAutomatic →
  client_ok id (merge_observed reg uri scope).
Proof.
  intros [Hid Ha _ _ _] Hm. split; simpl; rewrite ?Hm; [done|auto|done|done|by left].
Qed.

Lemma client_ok_automatic_new id now :
  client_ok id (automatic_registration id now).
Proof. split; simpl; [done|done|done|done|by left]. Qed.

(** ** The operations on the client map *)

(** What [registerClientLocked] leaves of an entry. *)
Definition registered (m : gmap string clientRegistration) (now : Z) (clientID uri scope : string)
    : gmap string clientRegistration :=
  if decide (clientID = EmptyString) then m
  else match m !! clientID with
       | Some reg =>
           if decide (cr_RegistrationMethod reg = registrationMethodAutomatic) then
             <[clientID := merge_observed reg uri scope]> m
           else m
       | None => <[clientID := merge_observed (automatic_registration clientID now) uri scope]> m
       end.

Lemma wp_registerClientLocked id uri scope (Q : unit → World server → Prop) w :
  (∀ now w', w_st w' = up_clients (λ m, registered m now id uri scope) (w_st w) →
     w_uuid w' = w_uuid w → Q tt w') →
  wp (registerClientLocked id uri scope) Q w.
Proof.
  intros HQ. unfold registerClientLocked, registered in *.
  destruct (decide (id = EmptyString)) as [Hid|Hid].
  { apply (HQ 0); [|done]. symmetry. by apply up_clients_same. }
  wp_steps. rewrite wp_get_st. destruct (sv_clients (w_st w) !! id) as [reg|] eqn:Hreg.
  - destruct (decide (cr_RegistrationMethod reg = registrationMethodAutomatic)) as [Hm|Hm].
    + apply (HQ 0); [|done]. simpl. unfold up_clients. by rewrite Hreg, decide_True.
    + apply (HQ 0); [|done]. symmetry. apply up_clients_same. simpl. by rewrite Hreg, decide_False.
  - wp_steps. eapply (HQ (time_now (w_clock w))); [|done]. simpl. unfold up_clients.
    by rewrite Hreg.
Qed.

Lemma registerClientLocked_state id uri scope w x w' :
  registerClientLocked id uri scope w = (x, w') →
  ∃ now, w_st w' = up_clients (λ m, registered m now id uri scope) (w_st w) ∧
         w_uuid w' = w_uuid w.
Proof.
  intros Hrun. apply (wp_intro (registerClientLocked id uri scope) (λ _ w',
    ∃ now, w_st w' = up_clients (λ m, registered m now id uri scope) (w_st w) ∧
           w_uuid w' = w_uuid w) w x); [done|].
  apply wp_registerClientLocked. eauto.
Qed.

Lemma registered_ok m now id uri scope :
  clients_ok m → clients_ok (registered m now id uri scope).
Proof.
  intros Hm. unfold registered. destruct (decide (id = EmptyString)); [done|].
  destruct (m !! id) as [reg|] eqn:Hreg.
  - destruct (decide (cr_RegistrationMethod reg = _)); [|done].
    apply clients_ok_insert; [done|]. apply client_ok_automatic; [|done]. by apply Hm.
  - apply clients_ok_insert; [done|].
    apply client_ok_automatic; [apply client_ok_automatic_new|done].
Qed.

(** The outcomes of a registration request. *)
Inductive register_outcome (r : Request) w : Response → server → Prop :=
  | ro_not_post : is_post r = false → register_outcome r w NotFound (w_st w)
  | ro_error code text :
      is_post r = true →
      code ∈ ["invalid_client_metadata"; "invalid_redirect_uri"] →
      register_outcome r w (writeRegistrationError code text) (w_st w)
  | ro_created sub norm reg resp :
      is_post r = true →
      json_decode_first (r_body r) ≫= decode_registration = Some sub →
      normalizeRegistration sub supportedTokenEndpointAuthMethods "client_secret_basic" = inr norm →
      reg = reg_identity norm (uuid_new (w_uuid w)) (cr_ClientIDIssuedAt reg) (cr_ClientSecret reg)
              (cr_ClientSecretExpiresAt reg) registrationMethodDynamic →
      (cr_TokenEndpointAuthMethod norm ≠ "none" →
         cr_ClientSecretExpiresAt reg = Some 0 ∧
         ∃ n buf, rand_read n 32 = Some buf ∧ cr_ClientSecret reg = raw_url_encode buf) →
      rs_status resp = 201 → rs_body resp = BRegistration reg →
      register_outcome r w resp (up_clients (<[cr_ClientID reg := reg]>) (w_st w)).

Lemma wp_register r w :
  wp (register r) (λ resp w', register_outcome r w resp (w_st w') ∧ (w_uuid w ≤ w_uuid w')%nat) w.
Proof.
  unfold register. destruct (is_post r) eqn:Hp; simpl; [|split; [by constructor|simpl; lia]].
  destruct (json_decode_first (r_body r) ≫= decode_registration) as [sub|] eqn:Hdec.
  2: { split; [|simpl; lia]. apply ro_error; [done|by left]. }
  destruct (normalizeRegistration _ _ _) as [e|norm] eqn:Hn.
  { split; [|simpl; lia]. apply ro_error; [done|]. by eapply normalize_inl. }
  unfold issue_registration. wp_steps. rewrite wp_newUUID. wp_steps.
  destruct (decide (cr_TokenEndpointAuthMethod norm = "none")) as [Hnone|Hauth].
  - split; [|simpl; lia]. unfold store_registration, set_st. simpl.
    eapply ro_created; simpl; eauto. by intros [].
  - unfold newClientSecret, wp, mbind, eff_bind, mret, eff_ret, randRead. simpl.
    destruct (rand_read (w_rand w) 32) as [buf|] eqn:Hr; simpl.
    + split; [|simpl; lia]. unfold store_registration, set_st. simpl.
      eapply ro_created; simpl; eauto.
    + split; [|simpl; lia]. apply ro_error; [done|by left].
Qed.
End facts.

(** ** What registration promises *)

Section promises.
Context `{Runtime}.
Implicit Types (reg : clientRegistration) (w : World server).

(** C23: [normalizeRegistration] accepts exactly the metadata whose grant types,
    response types, authentication method and redirect URIs it can honour; what it
    lets through is well formed and is left unchanged when normalised again, and a
    refusal carries one of the two error codes of RFC 7591. *)
Theorem normalizeRegistration_accepts_exactly reg allowed def :
  "" ∉ allowed →
  match normalizeRegistration reg allowed def with
  | inr reg' =>
      acceptable allowed def reg ∧ metadata_ok allowed reg' ∧
      normalizeRegistration reg' allowed def = inr reg'
  | inl e =>
      ¬ acceptable allowed def reg ∧
      re_code e ∈ ["invalid_client_metadata"; "invalid_redirect_uri"]
  end.
Proof.
  intros Hne. destruct (normalizeRegistration reg allowed def) as [e|reg'] eqn:Hn.
  - split; [|by eapply normalize_inl]. intros Ha.
    assert (normalizeRegistration reg allowed def = inr _) as Hi by (by apply normalize_inr).
    congruence.
  - pose proof (normalize_metadata_ok _ _ _ _ Hn) as Hok.
    split_and!; [by apply normalize_inr in Hn as []|done|].
    apply metadata_ok_normalize; [done|]. intros He. apply Hne. rewrite <-He. apply Hok.
Qed.

(** C22: A registration request that is not answered 201 leaves the server as it
    was.  A client registered by it has metadata this provider honours, the method
    "dynamic", an identifier drawn from the UUID source rather than from the
    request, and, unless it is public, a secret of 32 random bytes that never
    expires; nothing else of the server changes. *)
Theorem register_creates r w resp w' :
  register r w = (resp, w') →
  (rs_status resp ≠ 201 → w_st w' = w_st w) ∧
  (∀ reg, rs_body resp = BRegistration reg →
     rs_status resp = 201 ∧
     metadata_ok supportedTokenEndpointAuthMethods reg ∧
     cr_RegistrationMethod reg = registrationMethodDynamic ∧
     cr_ClientID reg = uuid_new (w_uuid w) ∧
     w_st w' = up_clients (<[cr_ClientID reg := reg]>) (w_st w) ∧
     (cr_TokenEndpointAuthMethod reg ≠ "none" →
        cr_ClientSecretExpiresAt reg = Some 0 ∧
        ∃ n buf, rand_read n 32 = Some buf ∧ raw_url_decode (cr_ClientSecret reg) = Some buf)).
Proof.
  intros Hr. destruct (wp_intro _ _ _ _ _ Hr (wp_register r w)) as [Ho _].
  destruct Ho as [Hp|code text Hp Hc|sub norm reg resp Hp Hdec Hn Hreg Hsec H201 Hb];
    [by split|by split|].
  split; [done|]. intros reg'. rewrite Hb. intros [= <-].
  pose proof (normalize_metadata_ok _ _ _ _ Hn) as Hok.
  split_and!; try done; try (by rewrite Hreg).
  - rewrite Hreg. by apply metadata_ok_identity.
  - intros Ha. rewrite Hreg in Ha. destruct (Hsec Ha) as (He & n & buf & Hbuf & Hs).
    split; [done|]. exists n, buf. split; [done|]. rewrite Hs. apply raw_url_decode_encode.
Qed.

(** C21: What a request observes of a client never widens a registration the client
    made itself (dynamically or by a metadata document).  For any other client id
    the entry afterwards grants a scope exactly when it did before or the request
    asks for it, and likewise for its redirect URIs; other clients are untouched. *)
Theorem registerClientLocked_records clientID uri scope w w' :
  clientID ≠ "" →
  registerClientLocked clientID uri scope w = (tt, w') →
  (∀ id, id ≠ clientID → sv_clients (w_st w') !! id = sv_clients (w_st w) !! id) ∧
  (∀ reg, sv_clients (w_st w) !! clientID = Some reg →
     cr_RegistrationMethod reg ≠ registrationMethodAutomatic → w_st w' = w_st w) ∧
  (let before := default (automatic_registration clientID 0) (sv_clients (w_st w) !! clientID) in
   cr_RegistrationMethod before = registrationMethodAutomatic →
   ∃ reg', sv_clients (w_st w') !! clientID = Some reg' ∧
     cr_RegistrationMethod reg' = registrationMethodAutomatic ∧
     (∀ t, hasScope (cr_Scope reg') t = hasScope (cr_Scope before) t || hasScope scope t) ∧
     (∀ u, u ∈ cr_RedirectURIs reg' ↔
           u ∈ cr_RedirectURIs before ∨ (u = uri ∧ uri ≠ ""))).
Proof.
  intros Hid (now & Hw1 & _)%registerClientLocked_state. rewrite Hw1. simpl.
  unfold registered. rewrite decide_False by done.
  assert (∀ before,
    cr_RegistrationMethod before = registrationMethodAutomatic →
    let reg' := merge_observed before uri scope in
     cr_RegistrationMethod reg' = registrationMethodAutomatic ∧
     (∀ t, hasScope (cr_Scope reg') t = hasScope (cr_Scope before) t || hasScope scope t) ∧
     (∀ u, u ∈ cr_RedirectURIs reg' ↔
           u ∈ cr_RedirectURIs before ∨ (u = uri ∧ uri ≠ ""))) as Hmerge.
  { intros b Hb. simpl. split_and!; [done|..].
    - intros t. destruct (decide (scope = "")) as [->|]; [by rewrite orb_comm|].
      apply hasScope_merge.
    - intros u. destruct (decide (uri = "")) as [->|]; [naive_solver|].
      rewrite dedupeStrings_elem, elem_of_app, list_elem_of_singleton. naive_solver. }
  destruct (sv_clients (w_st w) !! clientID) as [reg|] eqn:Hreg; simpl.
  - destruct (decide (cr_RegistrationMethod reg = _)) as [Hm|Hm].
    + split_and!; [by intros id Hne; rewrite lookup_insert_ne|naive_solver|].
      intros _. eexists. split; [by rewrite lookup_insert, decide_True|]. by apply Hmerge.
    + split_and!; [done| |done]. intros _ _ _. apply up_clients_same. simpl.
      by rewrite decide_False, Hreg, decide_False.
  - split_and!; [by intros id Hne; rewrite lookup_insert_ne|done|].
    intros _. eexists. split; [by rewrite lookup_insert, decide_True|]. by apply Hmerge.
Qed.

#[local] Instance reg_le_trans : Transitive reg_le.
Proof.
  intros a b c [?|[? Hab]] [?|[? Hbc]]; unfold reg_le; [lia..|].
  right. split; [lia|]. by etrans.
Qed.

#[local] Instance reg_le_total : Total reg_le.
Proof.
  intros a b. unfold reg_le.
  destruct (Z.lt_trichotomy (cr_ClientIDIssuedAt a) (cr_ClientIDIssuedAt b)) as [?|[E|?]];
    [by left; left| |by right; left].
  destruct (total String.le (cr_ClientID a) (cr_ClientID b)); [left|right]; right; auto.
Qed.

(** The client listing shows every registration once, oldest first with the
    identifier breaking ties, and is a function of the registrations alone: Go's
    unspecified map iteration order does not show through. *)
Theorem clientsPage_order_independent `{!RuntimeLaws} r w1 w2 :
  is_get r = true → clients_ok (sv_clients (w_st w1)) → w_st w1 = w_st w2 →
  (clientsPage r w1).1 = (clientsPage r w2).1 ∧
  ∃ regs, (clientsPage r w1).1 = render (PClients (client_view <$> regs)) ∧
    regs ≡ₚ (map_to_list (sv_clients (w_st w1))).*2 ∧ StronglySorted reg_le regs.
Proof.
  intros Hg Hok Hst. unfold clientsPage. rewrite Hg. simpl. rewrite <-Hst.
  set (m := sv_clients (w_st w1)) in *.
  assert (∀ n, merge_sort reg_le (range_perm n (map_to_list m)).*2 ≡ₚ (map_to_list m).*2) as Hp.
  { intros n. rewrite merge_sort_Permutation. by rewrite (range_perm_perm n). }
  split.
  - unfold mbind, eff_bind, rangeMap, mret, eff_ret. simpl. do 3 f_equal.
    apply (StronglySorted_unique_strong reg_le).
    + intros x1 x2 Hx1 Hx2 H12 H21.
      rewrite Hp in Hx1, Hx2. apply list_elem_of_fmap in Hx1 as ([k1 ?] & -> & H1%elem_of_map_to_list).
      apply list_elem_of_fmap in Hx2 as ([k2 ?] & -> & H2%elem_of_map_to_list). simpl in *.
      pose proof (co_id _ _ (Hok _ _ H1)). pose proof (co_id _ _ (Hok _ _ H2)).
      assert (k1 = k2) by (destruct H12 as [?|[??]], H21 as [?|[??]]; try lia; subst;
                           by apply (anti_symm String.le)).
      congruence.
    + apply StronglySorted_merge_sort; apply _.
    + apply StronglySorted_merge_sort; apply _.
    + by rewrite !Hp.
  - eexists. split; [done|]. split; [apply Hp|]. apply StronglySorted_merge_sort; apply _.
Qed.
End promises.
