(* ===== verification/IdpMetadata.v ===== *)
(** * Client ID metadata documents: [clientid_metadata.go]

    A client_id that is a URL is resolved by fetching the client's own metadata
    document.  The file models the recognition of such URLs, the SSRF-guarded
    fetch, the validation of the document and the cache with its lifetime. *)

From S2P Require Import Prelude GoStrings GoNet GoURL GoBase64 Runtime RuntimeExample IdpState.
From S2P Require Import IdpUtil IdpRegistry.
From Stdlib Require Import Ascii.
From stdpp Require Import options.
Local Open Scope Z_scope.

Definition clientIDMetadataMaxBytes : Z := 5120.
Definition clientIDMetadataMinTTL : Z := 60 * second.
Definition clientIDMetadataMaxTTL : Z := 24 * hour.
Definition clientIDMetadataDefaultTTL : Z := 900 * second.

(** ** Recognising a Client Identifier URL *)

Definition clientIDMetadataURL (clientID : string) : option URL :=
  u ← url_Parse clientID;
  if decide (u_scheme u ∉ ["https"; "http"]) then None
  else if decide (u_user u ≠ None) then None
  else if decide (u_host u = EmptyString) then None
  else if decide (u_path u = EmptyString ∨ u_path u = "/") then None
  else if existsb (λ seg, bool_decide (seg = "." ∨ seg = "..")) (split_on "/" (EscapedPath u)) then None
  else if bool_decide (u_fragment u ≠ EmptyString) || contains_char "#" clientID then None
  else Some u.

Definition isClientIDMetadataDocumentURL (clientID : string) : bool :=
  bool_decide (is_Some (clientIDMetadataURL clientID)).

Definition externalURLIsLoopback (url : string) : bool :=
  match url_Parse url with
  | None => false
  | Some u =>
      let hostname := Hostname u in
      if decide (hostname = "localhost") then true
      else match ParseIP hostname with Some ip => IsLoopback ip | None => false end
  end.

(** ** The guarded fetch *)

(** The dialer's [Control] function: whether a connection to [address] goes ahead. *)
Definition metadataDialControl (allowLoopback : bool) (address : string) : bool :=
  match SplitHostPort address with
  | None => false
  | Some (host, _) => bool_decide (checkFetchAddress (ParseIP host) allowLoopback = None)
  end.

Section metadata.
Context `{Runtime} (cfg : Config).
Abbreviation SWorld := (World server).

Definition fetchGuardedJSON (rawURL : string)
    : Eff SWorld (option (string * gmap string string)) :=
  if decide (url_Parse rawURL = None) then mret None
  else
    resp ← httpDo (metadataDialControl (allowLoopbackMetadataFetch cfg)) rawURL;
    mret (r ← resp;
          if decide (hr_status r ≠ 200) then None
          else
            mediaType ← parse_media_type (default EmptyString (hr_header r !! "Content-Type"));
            if bool_decide (mediaType ≠ "application/json") && negb (has_suffix "+json" mediaType)
            then None
            else
              let body := String.substring 0 (Z.to_nat (clientIDMetadataMaxBytes + 1)) (hr_body r) in
              if decide (Z.of_nat (String.length body) > clientIDMetadataMaxBytes) then None
              else Some (body, hr_header r)).

(** ** Cache lifetime *)

(** The usable [max-age] of one directive, in seconds. *)
Definition max_age (directive : string) : option Z :=
  let '(name, value, found) := cut "=" (trim_space directive) in
  if negb found || negb (equal_fold (trim_space name) "max-age") then None
  else match atoi (trim_char quote_char (trim_space value)) with
       | Some seconds => if decide (seconds <= 0) then None else Some seconds
       | None => None
       end.

Fixpoint first_max_age (directives : list string) : option Z :=
  match directives with
  | [] => None
  | d :: ds => match max_age d with Some n => Some n | None => first_max_age ds end
  end.

(** [time.Duration(n) * time.Second] wraps around. *)
Definition seconds_duration (n : Z) : Z := wrap64 (n * second).

Definition clientIDMetadataTTLFrom (cacheControl : string) : Z :=
  let fallback := if decide (clientIDMetadataTTL cfg <= 0) then clientIDMetadataDefaultTTL
                  else clientIDMetadataTTL cfg in
  match first_max_age (split_on "," cacheControl) with
  | Some n => Z.min (Z.max (seconds_duration n) clientIDMetadataMinTTL) clientIDMetadataMaxTTL
  | None => fallback
  end.

(** ** Validation *)

(** The raw object, and the typed registration, of a document. *)
Definition document_raw (body : string) : option Claims :=
  match json_unmarshal body with
  | Some (JObj ms) => Some (object_map ms)
  | Some JNull => Some ∅
  | _ => None
  end.

Definition validateClientIDMetadata (clientID body : string)
    : Eff SWorld (option clientRegistration) :=
  match document_raw body with
  | None => mret None
  | Some raw =>
      let documentClientID := claim_string raw "client_id" in
      if decide (documentClientID = EmptyString) then mret None
      else if decide (documentClientID ≠ clientID) then mret None
      else if decide (is_Some (raw !! "client_secret")) then mret None
      else if decide (is_Some (raw !! "client_secret_expires_at")) then mret None
      else match json_unmarshal body ≫= decode_registration with
      | None => mret None
      | Some reg =>
      match normalizeRegistration reg clientIDMetadataAuthMethods "none" with
      | inl _ => mret None
      | inr reg =>
          if decide (cr_TokenEndpointAuthMethod reg = "private_key_jwt" ∧
                     cr_Jwks reg = None ∧ cr_JwksURI reg = EmptyString) then mret None
          else
            now ← tNow;
            mret (Some (reg_identity reg clientID (unix now) EmptyString None
                          registrationMethodClientIDMetadataDocument))
      end end
  end.

Definition fetchClientIDMetadata (clientID : string)
    : Eff SWorld (option (clientRegistration * Z)) :=
  fetched ← fetchGuardedJSON clientID;
  match fetched with
  | None => mret None
  | Some (body, header) =>
      reg ← validateClientIDMetadata clientID body;
      mret (r ← reg;
            Some (r, clientIDMetadataTTLFrom (default EmptyString (header !! "Cache-Control"))))
  end.

(** ** The cache *)

Definition keep_issued_at (previous : option clientRegistration) (reg : clientRegistration)
    : clientRegistration :=
  match previous with
  | Some p =>
      if decide (cr_RegistrationMethod p = registrationMethodClientIDMetadataDocument ∧
                 cr_ClientIDIssuedAt p ≠ 0)
      then reg_identity reg (cr_ClientID reg) (cr_ClientIDIssuedAt p) (cr_ClientSecret reg)
             (cr_ClientSecretExpiresAt reg) (cr_RegistrationMethod reg)
      else reg
  | None => reg
  end.

Definition cached_live (entry : option clientIDMetadataEntry)
    : Eff SWorld (option clientIDMetadataEntry) :=
  match entry with
  | None => mret None
  | Some e => now ← tNow; mret (if decide (now < me_expiresAt e) then Some e else None)
  end.

Definition store_document (clientID : string) (reg : clientRegistration) (ttl : Z)
    : Eff SWorld clientRegistration :=
  previous ← get_st (λ s, sv_clients s !! clientID);
  let reg := keep_issued_at previous reg in
  now ← tNow;
  mod_st (up_metadata (<[clientID := {| me_reg := reg; me_keys := None;
                                        me_expiresAt := now + ttl |}]>));;
  mod_st (up_clients (<[clientID := reg]>));;
  mret reg.

Definition resolveClientIDMetadata (clientID : string) : Eff SWorld (option clientRegistration) :=
  entry ← get_st (λ s, sv_clientIDMetadata s !! clientID);
  live ← cached_live entry;
  match live with
  | Some e => mret (Some (me_reg e))
  | None =>
      fetched ← fetchClientIDMetadata clientID;
      match fetched with
      | None => mret None
      | Some (reg, ttl) => reg ← store_document clientID reg ttl; mret (Some reg)
      end
  end.
End metadata.

(** ** Facts *)

Section facts.
Context `{Runtime} (cfg : Config).
Implicit Types (w : World server).

(** Every address connected to has passed the guard. *)
Definition dial_ok (address : string) : Prop :=
  ∃ host port, SplitHostPort address = Some (host, port) ∧
    checkFetchAddress (ParseIP host) (allowLoopbackMetadataFetch cfg) = None.

Definition dials_ok w : Prop := Forall dial_ok (w_dials w).

Lemma metadataDialControl_true address :
  metadataDialControl (allowLoopbackMetadataFetch cfg) address = true → dial_ok address.
Proof.
  unfold metadataDialControl, dial_ok.
  destruct (SplitHostPort address) as [[host port]|] eqn:E; [|done].
  rewrite bool_decide_eq_true. eauto.
Qed.

(** What the fetch and the validation touch. *)
Lemma outside_fetchGuardedJSON url : outside dial_ok (fetchGuardedJSON cfg url).
Proof.
  unfold fetchGuardedJSON. destruct (decide _); [apply outside_ret|].
  apply outside_bind; [|intros; apply outside_ret].
  apply outside_httpDo, metadataDialControl_true.
Qed.

Lemma outside_validate P id body : outside P (validateClientIDMetadata id body).
Proof.
  unfold validateClientIDMetadata.
  repeat (case_match; [eauto with oidc..|]; try done); eauto with oidc.
  all: repeat case_match; eauto with oidc.
Qed.

Lemma outside_fetchClientIDMetadata id : outside dial_ok (fetchClientIDMetadata cfg id).
Proof.
  unfold fetchClientIDMetadata. apply outside_bind; [apply outside_fetchGuardedJSON|].
  intros [[body header]|]; [|apply outside_ret].
  apply outside_bind; [apply outside_validate|intros; apply outside_ret].
Qed.

Lemma outside_cached_live P e : outside P (cached_live e).
Proof. destruct e; simpl; eauto with oidc. Qed.

(** A document let through: it names the client itself, holds no secret, and
    becomes a well-formed registration. *)
Definition document_registration (id body : string) (reg : clientRegistration) : Prop :=
  (∃ raw, document_raw body = Some raw ∧ claim_string raw "client_id" = id ∧ id ≠ "" ∧
          raw !! "client_secret" = None) ∧
  metadata_ok clientIDMetadataAuthMethods reg ∧
  cr_ClientID reg = id ∧ cr_ClientSecret reg = "" ∧
  cr_RegistrationMethod reg = registrationMethodClientIDMetadataDocument ∧
  (cr_TokenEndpointAuthMethod reg = "private_key_jwt" →
     is_Some (cr_Jwks reg) ∨ cr_JwksURI reg ≠ "").

Lemma wp_validate id body w :
  wp (validateClientIDMetadata id body)
     (λ r _, ∀ reg, r = Some reg → document_registration id body reg) w.
Proof.
  unfold validateClientIDMetadata.
  destruct (document_raw body) as [raw|] eqn:Hraw; [|done].
  destruct (decide (claim_string raw "client_id" = "")) as [|Hne]; [done|].
  destruct (decide (claim_string raw "client_id" ≠ id)) as [|Hid]; [done|].
  destruct (decide (is_Some (raw !! "client_secret"))) as [|Hsec]; [done|].
  destruct (decide (is_Some (raw !! "client_secret_expires_at"))); [done|].
  destruct (json_unmarshal body ≫= decode_registration) as [sub|]; [|done].
  destruct (normalizeRegistration _ _ _) as [e|norm] eqn:Hn; [done|].
  destruct (decide (cr_TokenEndpointAuthMethod norm = _ ∧ _)) as [|Hkeys]; [done|].
  apply dec_stable in Hid. rewrite <-eq_None_not_Some in Hsec.
  intros reg [= <-]. split_and!; try done.
  - exists raw. split_and!; congruence.
  - apply metadata_ok_identity. by eapply normalize_metadata_ok.
  - simpl. intros Ha. destruct (cr_Jwks norm) eqn:Hj; [by left|].
    right. intros Hu. by apply Hkeys.
Qed.

(** ** The cache *)

(** [body] is what the network answered for [url], in full. *)
Definition fetched_from (url body : string) : Prop :=
  ∃ n r, net_response n url = Some r ∧ hr_status r = 200 ∧ hr_body r = body ∧
         Z.of_nat (String.length body) <= clientIDMetadataMaxBytes.

Lemma substring_whole s n m :
  String.length (String.substring 0 n s) = m → (m < n)%nat → String.substring 0 n s = s.
Proof.
  intros <-. revert n. induction s as [|c s IH]; intros [|n]; simpl; [done..|lia|].
  intros Hn. f_equal. apply IH. lia.
Qed.

Lemma wp_fetchGuardedJSON url w :
  wp (fetchGuardedJSON cfg url)
     (λ r _, ∀ body header, r = Some (body, header) → fetched_from url body) w.
Proof.
  unfold fetchGuardedJSON. destruct (decide (url_Parse url = None)); [done|].
  unfold wp, mbind, eff_bind, httpDo.
  destruct (list_find _ _) as [[i a]|]; [simpl|done].
  destruct (net_response (w_net w) url) as [r|] eqn:Hr; [|done].
  cbn -[String.substring Z.to_nat].
  destruct (decide (hr_status r ≠ 200)) as [|Hst]; [done|]. apply dec_stable in Hst.
  destruct (parse_media_type _) as [mt|]; [cbn -[String.substring Z.to_nat]|done].
  destruct (bool_decide _ && _); [done|].
  destruct (decide (Z.of_nat _ > _)) as [|Hlen]; [done|]. intros body header [= <- <-].
  assert (String.substring 0 (Z.to_nat (clientIDMetadataMaxBytes + 1)) (hr_body r) = hr_body r)
    as Hw.
  { eapply substring_whole; [done|]. unfold clientIDMetadataMaxBytes in *. lia. }
  rewrite Hw in *. exists (w_net w), r. split_and!; [done..|lia].
Qed.

(** The key set of a registration: inline, or what its jwks_uri serves. *)
Definition published (reg : clientRegistration) (keys : list JWK) : Prop :=
  ∃ j, jose_unmarshal j = Some keys ∧
    (cr_Jwks reg = Some j ∨
     cr_Jwks reg = None ∧
     ∃ body, fetched_from (cr_JwksURI reg) body ∧ json_unmarshal body = Some j).

Definition entry_ok (id : string) (e : clientIDMetadataEntry) : Prop :=
  client_ok id (me_reg e) ∧
  cr_RegistrationMethod (me_reg e) = registrationMethodClientIDMetadataDocument ∧
  ∀ keys, me_keys e = Some keys → published (me_reg e) keys.

Definition registry_ok (s : server) : Prop :=
  clients_ok (sv_clients s) ∧ map_Forall entry_ok (sv_clientIDMetadata s).

Lemma document_client_ok id body reg :
  document_registration id body reg → client_ok id reg.
Proof.
  intros (_ & Hm & Hid & Hs & Hmeth & Hk). split; rewrite ?Hmeth; try done.
  right. right. by left.
Qed.

Lemma document_keep_issued_at id body reg previous :
  document_registration id body reg → document_registration id body (keep_issued_at previous reg).
Proof.
  destruct previous as [p|]; simpl; [|done]. destruct (decide _); [|done].
  intros (Hd & Hm & Hid & Hs & Hmeth & Hk). split_and!; try done.
  by apply metadata_ok_identity.
Qed.

(** The state with a document's registration in the cache and the client map. *)
Definition with_document id reg expiry (s : server) : server :=
  up_clients (<[id := reg]>)
    (up_metadata (<[id := {| me_reg := reg; me_keys := None; me_expiresAt := expiry |}]>) s).

Inductive resolve_outcome id w : option clientRegistration → World server → Prop :=
  | rs_cached e n w' :
      sv_clientIDMetadata (w_st w) !! id = Some e → time_now n < me_expiresAt e →
      w_st w' = w_st w → w_net w' = w_net w →
      resolve_outcome id w (Some (me_reg e)) w'
  | rs_failed w' : w_st w' = w_st w → resolve_outcome id w None w'
  | rs_fetched body reg expiry w' :
      document_registration id body reg →
      w_st w' = with_document id reg expiry (w_st w) →
      resolve_outcome id w (Some reg) w'.

Lemma wp_fetchClientIDMetadata id w :
  wp (fetchClientIDMetadata cfg id)
     (λ r w', w_st w' = w_st w ∧ (w_uuid w ≤ w_uuid w')%nat ∧
              ∀ reg ttl, r = Some (reg, ttl) → ∃ body, document_registration id body reg) w.
Proof.
  unfold fetchClientIDMetadata. apply wp_bind.
  apply (wp_outside (P:=dial_ok)); [apply outside_fetchGuardedJSON|]. intros [[body header]|] w1 E1 L1; [|done].
  apply wp_bind. eapply wp_mono.
  { apply wp_and; [apply (wp_validate id body w1)|].
    apply (wp_outside (P:=dial_ok)); [apply outside_validate|]. intros x w2 E2 L2. exact (conj E2 L2). }
  intros r w2 [Hr [E2 L2]]. apply wp_ret. split_and!; [congruence|lia|].
  intros reg ttl. destruct r as [reg'|]; simpl; [|done]. intros [= <- <-]. eauto.
Qed.

Lemma wp_resolve id w :
  wp (resolveClientIDMetadata cfg id)
     (λ r w', resolve_outcome id w r w' ∧ (w_uuid w ≤ w_uuid w')%nat) w.
Proof.
  unfold resolveClientIDMetadata. apply wp_bind, wp_get_st, wp_bind.
  assert (∀ w1, w_st w1 = w_st w → w_uuid w1 = w_uuid w →
    wp (fetched ← fetchClientIDMetadata cfg id;
        match fetched with
        | None => mret None
        | Some (reg, ttl) => reg ← store_document id reg ttl; mret (Some reg)
        end) (λ r w', resolve_outcome id w r w' ∧ (w_uuid w ≤ w_uuid w')%nat) w1) as Hfetch.
  { intros w1 E1 U1. apply wp_bind. eapply wp_mono; [apply wp_fetchClientIDMetadata|].
    intros [[reg ttl]|] w2 (E2 & L2 & Hdoc).
    2: { apply wp_ret. split; [apply rs_failed; congruence|lia]. }
    destruct (Hdoc _ _ eq_refl) as [body Hbody]. unfold store_document. split; [|simpl; lia].
    eapply rs_fetched; [by eapply document_keep_issued_at|].
    unfold with_document, set_st. simpl. rewrite E2, E1. done. }
  destruct (sv_clientIDMetadata (w_st w) !! id) as [e|] eqn:He; simpl.
  - wp_steps. unfold wp at 1. simpl.
    destruct (decide (time_now (w_clock w) < me_expiresAt e)) as [Hlive|].
    + split; [|simpl; lia]. by eapply rs_cached.
    + by apply Hfetch.
  - by apply Hfetch.
Qed.

Lemma registry_ok_document id body reg expiry s :
  document_registration id body reg → registry_ok s →
  registry_ok (with_document id reg expiry s).
Proof.
  intros Hd [Hc Hm]. pose proof (document_client_ok _ _ _ Hd) as Hok. split; simpl.
  - by apply clients_ok_insert.
  - apply map_Forall_insert_2; [|done]. split_and!; [done| |done]. by destruct Hd as (_ & _ & _ & _ & ? & _).
Qed.
End facts.

(** ** Frames

    A relation between worlds that resolving a document moves along, because it
    only reads the outside and updates the two maps of the registry. *)

Class ServerFrame `{Runtime} (cfg : Config) (R : World server → World server → Prop) := {
  sf_preorder :: PreOrder R;
  sf_outside {A} (m : Eff (World server) A) : outside (dial_ok cfg) m → steps R m;
  sf_metadata f : steps R (mod_st (up_metadata f));
  sf_clients f : steps R (mod_st (up_clients f))
}.

Ltac frame_steps_with tac :=
  repeat first
    [ tac
    | apply steps_ret; apply _
    | apply steps_bind; [apply _| |intros ?]
    | apply sf_metadata
    | apply sf_clients
    | apply sf_outside; solve [eauto using outside_cached_live, outside_fetchGuardedJSON,
        outside_fetchClientIDMetadata with oidc]
    | case_match ].

Section frame.
Context `{Runtime} (cfg : Config) (R : World server → World server → Prop) `{!ServerFrame cfg R}.

Lemma steps_resolve id : steps R (resolveClientIDMetadata cfg id).
Proof using Type*.
  unfold resolveClientIDMetadata, store_document.
  frame_steps_with ltac:(apply sf_outside, outside_fetchClientIDMetadata).
Qed.

Lemma steps_registerClientLocked id uri scope : steps R (registerClientLocked id uri scope).
Proof using Type*. unfold registerClientLocked. frame_steps_with fail. Qed.

Lemma steps_register r : steps R (register r).
Proof using Type*.
  unfold register, issue_registration, newClientSecret, store_registration.
  frame_steps_with fail.
Qed.
End frame.

(** ** What metadata documents promise *)

Section promises.
Context `{Runtime} (cfg : Config).
Implicit Types (w : World server).

(** C20: Resolving a Client Identifier URL gives a registration whose client_id is
    that URL, byte for byte, which holds no secret, uses a method a document may
    declare and publishes keys when that method is private_key_jwt.  While a cached
    document is live it answers without any network exchange and changes nothing;
    a failed fetch or validation changes nothing either, so errors are not cached. *)
Theorem resolveClientIDMetadata_sound id w r w' :
  registry_ok (w_st w) → resolveClientIDMetadata cfg id w = (r, w') →
  registry_ok (w_st w') ∧
  (r = None → w_st w' = w_st w) ∧
  (∀ e, sv_clientIDMetadata (w_st w) !! id = Some e → time_now (w_clock w) < me_expiresAt e →
     r = Some (me_reg e) ∧ w_st w' = w_st w ∧ w_net w' = w_net w) ∧
  (∀ reg, r = Some reg →
     client_ok id reg ∧ cr_ClientSecret reg = "" ∧
     cr_TokenEndpointAuthMethod reg ∈ ["none"; "private_key_jwt"] ∧
     (cr_TokenEndpointAuthMethod reg = "private_key_jwt" →
        is_Some (cr_Jwks reg) ∨ cr_JwksURI reg ≠ "")).
Proof.
  intros Hok Hrun. pose proof (wp_intro _ _ _ _ _ Hrun (wp_resolve cfg id w)) as [Ho _].
  split; [|split; [|split]].
  - destruct Ho as [e n w' He Ht -> Hn|w' ->|body reg expiry w' Hd ->]; [done|done|].
    by eapply registry_ok_document.
  - destruct Ho; [done|done|done].
  - intros e He Hlive. unfold resolveClientIDMetadata in Hrun.
    unfold mbind, eff_bind, get_st, reads in Hrun. rewrite He in Hrun.
    cbn [cached_live] in Hrun. unfold mbind, eff_bind, tNow in Hrun.
    rewrite decide_True in Hrun by done. by injection Hrun as <- <-.
  - intros reg ->. destruct Hok as [Hc Hm].
    assert (client_ok id reg ∧
            cr_RegistrationMethod reg = registrationMethodClientIDMetadataDocument)
      as [Hr Hmeth].
    { inversion Ho as [e n w1 He| |body reg1 expiry w1 Hd]; subst; [by destruct (Hm _ _ He) as (? & ? & _)|].
      split; [by eapply document_client_ok|]. by destruct Hd as (_ & _ & _ & _ & ? & _). }
    destruct (co_document _ _ Hr Hmeth) as (Hdoc & Hs & Hk).
    split_and!; [done|done|apply Hdoc|done].
Qed.

(** C35: Whatever Cache-Control a document is served with, it is cached for a
    positive time; a usable max-age gives between one minute and one day, and
    exactly its value within these bounds as long as the nanoseconds fit 64 bits. *)
Theorem clientIDMetadataTTLFrom_bounds header :
  let ttl := clientIDMetadataTTLFrom cfg header in
  0 < ttl ∧
  match first_max_age (split_on "," header) with
  | None => ttl = clientIDMetadataTTL cfg ∨ ttl = 900 * second
  | Some n =>
      0 < n ∧ 60 * second <= ttl <= 24 * hour ∧
      (n * second <= int_max → ttl = Z.min (Z.max (n * second) (60 * second)) (24 * hour))
  end.
Proof.
  simpl. unfold clientIDMetadataTTLFrom, clientIDMetadataDefaultTTL, clientIDMetadataMinTTL,
    clientIDMetadataMaxTTL, hour, minute, second.
  destruct (first_max_age (split_on "," header)) as [n|] eqn:Hn.
  - assert (0 < n) as Hpos.
    { revert Hn. induction (split_on "," header) as [|d ds IH]; simpl; [done|].
      destruct (max_age d) as [k|] eqn:Hk; [|done]. intros [= ->]. revert Hk.
      unfold max_age. destruct (cut "=" (trim_space d)) as [[nm v] f].
      destruct (negb f || _); [done|]. destruct (atoi _) as [k|]; [|done].
      destruct (decide (k <= 0)); [done|]. intros [= ->]. lia. }
    split; [lia|]. split; [done|]. split; [lia|]. intros Hfit.
    unfold seconds_duration, wrap64, int_max, second in *.
    rewrite Z.mod_small by lia. do 2 f_equal. lia.
  - destruct (decide (clientIDMetadataTTL cfg <= 0)); split; lia.
Qed.
End promises.

(** A max-age beyond that range wraps around to the shortest lifetime. *)
Example clientIDMetadataTTLFrom_overflow `{Runtime} cfg :
  clientIDMetadataTTLFrom cfg "max-age=9223372037" = 60 * second.
Proof. reflexivity. Qed.
