(* ===== verification/IdpClientAuth.v ===== *)
(** * Client authentication at the token endpoint

    [private_key_jwt.go] (the client's key set, the keys that may verify an
    assertion, the assertion's claims and its single use) and the part of
    [main.go] that reads the presented credentials and checks them against the
    registration. *)

From S2P Require Import Prelude GoStrings GoNet GoURL GoBase64 Runtime RuntimeExample IdpState.
From S2P Require Import IdpUtil IdpRegistry IdpMetadata.
From Stdlib Require Import Ascii.
From stdpp Require Import options.
Local Open Scope Z_scope.

Definition privateKeyJWTAssertionType : string :=
  "urn:ietf:params:oauth:client-assertion-type:jwt-bearer".
Definition privateKeyJWTMaxLifetime : Z := 10 * minute.
Definition privateKeyJWTLeeway : Z := 60 * second.
Definition privateKeyJWTAlgorithms : list string :=
  ["RS256"; "RS384"; "RS512"; "PS256"; "PS384"; "PS512"; "ES256"; "ES384"; "ES512"].
Definition advertisedTokenEndpointAuthSigningAlgs : list string := ["RS256"; "ES256"].

Record clientCredentials := {
  cc_clientID : string;
  cc_secret : string;
  cc_method : string;
  cc_assertion : string
}.

Definition assertion_options : parser_options :=
  {| po_methods := Some privateKeyJWTAlgorithms; po_exp_required := true;
     po_leeway := privateKeyJWTLeeway |}.

(** [clientID + "\x00" + jti] *)
Definition jti_key (clientID jti : string) : string := clientID +:+ String NUL jti.

(** A key usable for the declared algorithm, and its public half. *)
Definition usable_key (alg : string) (k : JWK) : bool :=
  bool_decide (jwk_use k = EmptyString ∨ jwk_use k = "sig") &&
  bool_decide (jwk_alg k = EmptyString ∨ jwk_alg k = alg).

Definition asymmetric_key (k : JWK) : option PubKey :=
  match jwk_key k with
  | RSAPublic _ _ | ECDSAPublic _ => Some (jwk_key k)
  | OtherKey => None
  end.

Section client_auth.
Context `{Runtime} (cfg : Config).
Abbreviation SWorld := (World server).

Definition parseClientCredentials (r : Request) : clientCredentials :=
  if decide (form_get r "client_assertion_type" = privateKeyJWTAssertionType) then
    {| cc_clientID := form_get r "client_id"; cc_secret := EmptyString;
       cc_method := "private_key_jwt"; cc_assertion := form_get r "client_assertion" |}
  else match BasicAuth r with
  | Some (clientID, secret) =>
      {| cc_clientID := clientID; cc_secret := secret;
         cc_method := "client_secret_basic"; cc_assertion := EmptyString |}
  | None =>
      let secret := form_get r "client_secret" in
      {| cc_clientID := form_get r "client_id"; cc_secret := secret;
         cc_method := if decide (secret = EmptyString) then "none" else "client_secret_post";
         cc_assertion := EmptyString |}
  end.

(** ** The client's keys *)

Definition verificationKeys (keys : list JWK) (kid alg : string) : option (list PubKey) :=
  let candidates := if decide (kid = EmptyString) then keys else jose_Key keys kid in
  let out := omap asymmetric_key (List.filter (usable_key alg) candidates) in
  if decide (kid ≠ EmptyString ∧ candidates = []) then None
  else if decide (out = []) then None
  else Some out.

(** The cached key set of a live entry. *)
Definition cached_keys (entry : option clientIDMetadataEntry) : Eff SWorld (option (list JWK)) :=
  match entry with
  | Some {| me_keys := Some keys; me_expiresAt := expiry |} =>
      now ← tNow; mret (if decide (now < expiry) then Some keys else None)
  | _ => mret None
  end.

Definition raw_keys (reg : clientRegistration) : Eff SWorld (option json) :=
  match cr_Jwks reg with
  | Some j => mret (Some j)
  | None =>
      if decide (cr_JwksURI reg = EmptyString) then mret None
      else fetched ← fetchGuardedJSON cfg (cr_JwksURI reg);
           mret ('(body, _) ← fetched; json_unmarshal body)
  end.

Definition cache_keys (clientID : string) (keys : list JWK) : Eff SWorld unit :=
  entry ← get_st (λ s, sv_clientIDMetadata s !! clientID);
  live ← cached_live entry;
  match live with
  | Some e => mod_st (up_metadata (<[clientID := {| me_reg := me_reg e; me_keys := Some keys;
                                                    me_expiresAt := me_expiresAt e |}]>))
  | None => mret tt
  end.

Definition clientKeySet (clientID : string) (reg : clientRegistration)
    : Eff SWorld (option (list JWK)) :=
  entry ← get_st (λ s, sv_clientIDMetadata s !! clientID);
  cached ← cached_keys entry;
  match cached with
  | Some keys => mret (Some keys)
  | None =>
      raw ← raw_keys reg;
      match raw ≫= jose_unmarshal with
      | None | Some [] => mret None
      | Some keys => cache_keys clientID keys;; mret (Some keys)
      end
  end.

(** ** The assertion *)

(** Records older than [now] dropped, the [jti] refused if it is still there. *)
Definition consumePrivateKeyJWTJTI (clientID jti : string) (expiry : Z) : Eff SWorld bool :=
  let key := jti_key clientID jti in
  now ← tNow;
  mod_st (up_jtis (filter (λ kv, ¬ now > kv.2)));;
  seen ← get_st (λ s, sv_privateKeyJWTJTIs s !! key);
  match seen with
  | Some _ => mret false
  | None => mod_st (up_jtis (<[key := expiry + privateKeyJWTLeeway]>));; mret true
  end.

(** The checks on the claims that need no clock and no state. *)
Definition assertion_claims_ok (clientID : string) (c : Claims) : bool :=
  bool_decide (claim_string c "iss" = clientID) &&
  bool_decide (claim_string c "sub" = clientID) &&
  (audContains c (externalURL cfg +:+ "/token") || audContains c (externalURL cfg)).

Definition verifyPrivateKeyJWT (clientID : string) (reg : clientRegistration) (assertion : string)
    : Eff SWorld bool :=
  if decide (assertion = EmptyString) then mret false
  else
    keySet ← clientKeySet clientID reg;
    match keySet with
    | None => mret false
    | Some keys =>
        now ← tNow;
        match jwt_parse assertion_options now assertion
                (λ t, verificationKeys keys (jt_kid t) (jt_alg t)) with
        | None => mret false
        | Some claims =>
            if negb (assertion_claims_ok clientID claims) then mret false
            else match jwt_GetExpirationTime claims with
            | None => mret false
            | Some expiry =>
                now ← tNow;
                if decide (expiry > now + privateKeyJWTMaxLifetime) then mret false
                else
                  let jti := claim_string claims "jti" in
                  if decide (jti = EmptyString) then mret false
                  else consumePrivateKeyJWTJTI clientID jti expiry
            end
        end
    end.

(** ** Authentication of the client a grant belongs to *)

Definition check_credentials (clientID : string) (reg : clientRegistration)
    (creds : clientCredentials) : Eff SWorld bool :=
  if decide (cr_TokenEndpointAuthMethod reg = EmptyString ∨
             cr_TokenEndpointAuthMethod reg = "none") then mret true
  else if decide (cc_method creds ≠ cr_TokenEndpointAuthMethod reg) then mret false
  else if decide (cr_TokenEndpointAuthMethod reg = "private_key_jwt") then
    if decide (cc_clientID creds ≠ EmptyString ∧ cc_clientID creds ≠ clientID) then mret false
    else verifyPrivateKeyJWT clientID reg (cc_assertion creds)
  else if decide (cc_clientID creds ≠ clientID) then mret false
  else if decide (cr_ClientSecret reg = EmptyString) then mret false
  else mret (bool_decide (cc_secret creds = cr_ClientSecret reg)).

Definition authenticateClient (clientID : string) (creds : clientCredentials) : Eff SWorld bool :=
  known ← get_st (λ s, sv_clients s !! clientID);
  match known with
  | None => mret true
  | Some reg =>
      if decide (cr_RegistrationMethod reg = registrationMethodDynamic) then
        check_credentials clientID reg creds
      else if decide (cr_RegistrationMethod reg = registrationMethodClientIDMetadataDocument) then
        refreshed ← resolveClientIDMetadata cfg clientID;
        match refreshed with
        | Some reg => check_credentials clientID reg creds
        | None =>
            if decide (cr_TokenEndpointAuthMethod reg = "private_key_jwt") then mret false
            else check_credentials clientID reg creds
        end
      else mret true
  end.
End client_auth.

Definition writeOAuthError (status : Z) (code : string) : Response :=
  {| rs_status := status; rs_header := [("Content-Type", "application/json")];
     rs_cookies := []; rs_body := BClaims {["error" := VStr code]} |}.

Definition writeClientAuthError (method : string) : Response :=
  let e := writeOAuthError 401 "invalid_client" in
  if decide (method = "client_secret_basic") then
    {| rs_status := rs_status e;
       rs_header := ("WWW-Authenticate", "Basic realm=" +:+ String quote_char
                      ("token" +:+ String quote_char EmptyString)) :: rs_header e;
       rs_cookies := rs_cookies e; rs_body := rs_body e |}
  else e.

(** ** Facts: the client's keys *)

Section facts.
Context `{Runtime} (cfg : Config).
Implicit Types (w : World server) (s : server).

Lemma verificationKeys_Some keys kid alg out :
  verificationKeys keys kid alg = Some out →
  out ≠ [] ∧
  out = omap asymmetric_key
          (List.filter (usable_key alg) (if decide (kid = EmptyString) then keys else jose_Key keys kid)).
Proof.
  unfold verificationKeys. generalize (if decide (kid = EmptyString) then keys else jose_Key keys kid).
  intros cand. destruct (decide (kid ≠ EmptyString ∧ cand = [])); [done|].
  destruct (decide (omap _ _ = [])) as [|Hout]; [done|]. by intros [= <-].
Qed.

(** A published key that may verify an assertion. *)
Definition verifying_key (keys : list JWK) (kid alg : string) (k : PubKey) : Prop :=
  ∃ j, j ∈ keys ∧ (kid = EmptyString ∨ jwk_kid j = kid) ∧
       (jwk_use j = EmptyString ∨ jwk_use j = "sig") ∧
       (jwk_alg j = EmptyString ∨ jwk_alg j = alg) ∧
       jwk_key j = k ∧ k ≠ OtherKey.

Lemma candidates_elem `{!JwtLaws} keys kid j :
  j ∈ (if decide (kid = EmptyString) then keys else jose_Key keys kid) ↔
  j ∈ keys ∧ (kid = EmptyString ∨ jwk_kid j = kid).
Proof. destruct (decide (kid = EmptyString)); rewrite ?jose_Key_elem; tauto. Qed.

Lemma asymmetric_key_Some j k : asymmetric_key j = Some k ↔ jwk_key j = k ∧ k ≠ OtherKey.
Proof. unfold asymmetric_key. destruct (jwk_key j); naive_solver. Qed.

Lemma usable_elem `{!JwtLaws} keys kid alg k :
  k ∈ omap asymmetric_key (List.filter (usable_key alg)
        (if decide (kid = EmptyString) then keys else jose_Key keys kid)) ↔
  verifying_key keys kid alg k.
Proof.
  rewrite list_elem_of_omap. unfold verifying_key. split.
  - intros (j & [Hj [Hu Ha]%andb_prop]%list_elem_of_In%filter_In & Hk%asymmetric_key_Some).
    apply list_elem_of_In, candidates_elem in Hj as [Hj Hkid].
    apply bool_decide_eq_true_1 in Hu, Ha. exists j. tauto.
  - intros (j & Hj & Hkid & Hu & Ha & Hk). exists j. split; [|by apply asymmetric_key_Some].
    apply list_elem_of_In, filter_In. split; [by apply list_elem_of_In, candidates_elem|].
    apply andb_true_intro. by split; apply bool_decide_eq_true_2.
Qed.

Lemma outside_raw_keys reg : outside (dial_ok cfg) (raw_keys cfg reg).
Proof.
  unfold raw_keys. destruct (cr_Jwks reg); [apply outside_ret|].
  destruct (decide _); [apply outside_ret|].
  apply outside_bind; [apply outside_fetchGuardedJSON|]. intros. apply outside_ret.
Qed.

Lemma outside_cached_keys P e : outside P (cached_keys e).
Proof. unfold cached_keys. repeat case_match; eauto with oidc. Qed.

(** ** Facts: what an accepted credential proves *)

(** The cached document of [id], if any, is [reg]. *)
Definition cached_doc (id : string) (reg : clientRegistration) s : Prop :=
  ∀ e, sv_clientIDMetadata s !! id = Some e → me_reg e = reg.

Lemma wp_raw_keys reg w :
  wp (raw_keys cfg reg) (λ r _, ∀ j keys, r = Some j → jose_unmarshal j = Some keys →
                                published reg keys) w.
Proof.
  unfold raw_keys, published. destruct (cr_Jwks reg) as [j|].
  { apply wp_ret. intros ?? [= <-]. eauto. }
  destruct (decide (cr_JwksURI reg = EmptyString)); [by apply wp_ret|].
  apply wp_bind. eapply wp_mono; [apply wp_fetchGuardedJSON|].
  intros [[body header]|] w' Hf; apply wp_ret; simpl; [|done].
  specialize (Hf _ _ eq_refl). eauto 10.
Qed.

Lemma wp_cache_keys id reg keys w :
  registry_ok (w_st w) → cached_doc id reg (w_st w) → published reg keys →
  wp (cache_keys id keys) (λ _ w', registry_ok (w_st w')) w.
Proof.
  intros Hok Hdoc Hp. unfold cache_keys. apply wp_bind, wp_get_st, wp_bind.
  destruct (sv_clientIDMetadata (w_st w) !! id) as [e|] eqn:He; [simpl|done].
  unfold wp, mbind, eff_bind, tNow. simpl. destruct (decide _); [|done].
  destruct Hok as [Hc Hm]. split; simpl; [done|].
  apply map_Forall_insert_2; [|done]. destruct (Hm _ _ He) as (H1 & H2 & _).
  split_and!; [done|done|]. intros keys' [= <-]. simpl. by rewrite (Hdoc _ He).
Qed.

Lemma wp_clientKeySet id reg w :
  registry_ok (w_st w) → cached_doc id reg (w_st w) →
  wp (clientKeySet cfg id reg)
     (λ r w', registry_ok (w_st w') ∧ ∀ keys, r = Some keys → published reg keys) w.
Proof.
  intros Hok Hdoc. unfold clientKeySet. apply wp_bind, wp_get_st, wp_bind.
  eapply (wp_mono _ (λ r w', (w_st w' = w_st w) ∧ ∀ keys, r = Some keys → published reg keys)).
  { apply wp_and; [by apply (wp_outside (P:=dial_ok cfg)); [apply outside_cached_keys|]|].
    destruct (sv_clientIDMetadata (w_st w) !! id) as [[r [ks|] ex]|] eqn:He; simpl; try done.
    unfold wp, mbind, eff_bind, tNow. simpl. intros keys. destruct (decide _); [|done].
    intros [= <-]. destruct Hok as [_ Hm]. destruct (Hm _ _ He) as (_ & _ & Hk).
    rewrite <-(Hdoc _ He). by apply Hk. }
  intros [keys|] w1 [E1 Hk]; [apply wp_ret; split; [by rewrite E1|done]|].
  apply wp_bind. eapply wp_mono.
  { apply wp_and; [apply wp_raw_keys|].
    apply (wp_outside (P:=dial_ok cfg)); [apply outside_raw_keys|]. intros x w2 E2 _. exact E2. }
  intros raw w2 [Hraw E2].
  assert (registry_ok (w_st w2) ∧ cached_doc id reg (w_st w2)) as [Hok2 Hdoc2]
    by (by rewrite E2, E1).
  destruct raw as [j|]; [simpl|done]. destruct (jose_unmarshal j) as [keys|] eqn:Hj; [|done].
  specialize (Hraw _ _ eq_refl Hj). destruct keys as [|k keys]; [done|].
  apply wp_bind. eapply wp_mono; [by eapply wp_cache_keys|]. intros [] w3 Hok3.
  apply wp_ret. split; [done|]. by intros keys' [= <-].
Qed.

Lemma wp_consume id jti expiry w :
  registry_ok (w_st w) → wp (consumePrivateKeyJWTJTI id jti expiry) (λ _ w', registry_ok (w_st w')) w.
Proof.
  intros Hok. unfold consumePrivateKeyJWTJTI, wp, mbind, eff_bind, tNow, get_st, reads.
  cbn -[filter]. by destruct (filter _ _ !! _).
Qed.

(** An assertion of the client itself: signed under a key it published, for an
    allowed algorithm, issued by and about the client, addressed to this
    provider and carrying an identifier. *)
Definition accepted_assertion `{!JwtLaws} id reg assertion : Prop :=
  ∃ keys kid alg k c,
    published reg keys ∧ verifying_key keys kid alg k ∧ jwt_signed k assertion c ∧
    alg ∈ privateKeyJWTAlgorithms ∧ assertion_claims_ok cfg id c = true ∧
    claim_string c "jti" ≠ EmptyString.

Lemma wp_verify `{!JwtLaws} id reg assertion w :
  registry_ok (w_st w) → cached_doc id reg (w_st w) →
  wp (verifyPrivateKeyJWT cfg id reg assertion)
     (λ ok w', registry_ok (w_st w') ∧ (ok = true → accepted_assertion id reg assertion)) w.
Proof.
  intros Hok Hdoc. unfold verifyPrivateKeyJWT. destruct (decide (assertion = _)); [done|].
  apply wp_bind. eapply wp_mono; [by apply wp_clientKeySet|].
  intros [keys|] w1 [Hok1 Hk]; [|done]. specialize (Hk _ eq_refl).
  apply wp_bind. change (wp tNow ?Q w1) with (Q (time_now (w_clock w1)) (tNow w1).2). cbv beta.
  destruct (jwt_parse _ _ _ _) as [c|] eqn:Hc; [|done].
  apply jwt_parse_sound in Hc as (t & ks & k & Hks & Hin & Hsig & Halg).
  destruct (assertion_claims_ok cfg id c) eqn:Hclaims; simpl; [|done].
  destruct (jwt_GetExpirationTime c) as [expiry|]; [|done].
  apply wp_bind. apply (wp_outside (P:=dial_ok cfg)); [apply outside_tNow|]. intros now w2 E2 _.
  destruct (decide (expiry > _)); [by rewrite wp_ret, E2|].
  destruct (decide (claim_string c "jti" = EmptyString)); [by rewrite wp_ret, E2|].
  eapply wp_mono; [apply wp_consume; by rewrite E2|]. intros ok w3 Hok3. split; [done|]. intros _.
  apply verificationKeys_Some in Hks as [_ ->]. apply usable_elem in Hin.
  exists keys, (jt_kid t), (jt_alg t), k, c. by split_and!.
Qed.

Definition credentials_ok `{!JwtLaws} id reg (creds : clientCredentials) : Prop :=
  cr_TokenEndpointAuthMethod reg = EmptyString ∨ cr_TokenEndpointAuthMethod reg = "none" ∨
  cc_method creds = cr_TokenEndpointAuthMethod reg ∧
  (if decide (cr_TokenEndpointAuthMethod reg = "private_key_jwt")
   then accepted_assertion id reg (cc_assertion creds)
   else cc_clientID creds = id ∧ cc_secret creds = cr_ClientSecret reg ∧
        cr_ClientSecret reg ≠ EmptyString).

Lemma wp_check `{!JwtLaws} id reg creds w :
  registry_ok (w_st w) →
  (cr_TokenEndpointAuthMethod reg = "private_key_jwt" → cached_doc id reg (w_st w)) →
  wp (check_credentials cfg id reg creds)
     (λ ok w', registry_ok (w_st w') ∧ (ok = true → credentials_ok id reg creds)) w.
Proof.
  intros Hok Hdoc. unfold check_credentials, credentials_ok.
  destruct (decide (_ ∨ _)); [by rewrite wp_ret; tauto|].
  destruct (decide (cc_method creds ≠ _)) as [|Hm]; [by rewrite wp_ret|]. apply dec_stable in Hm.
  destruct (decide (cr_TokenEndpointAuthMethod reg = "private_key_jwt")) as [Hp|Hp].
  - destruct (decide (_ ∧ _)); [by rewrite wp_ret|].
    eapply wp_mono; [by apply wp_verify; auto|]. naive_solver.
  - destruct (decide (cc_clientID creds ≠ id)) as [|Hid]; [by rewrite wp_ret|].
    apply dec_stable in Hid. destruct (decide (cr_ClientSecret reg = _)); [by rewrite wp_ret|].
    rewrite wp_ret, bool_decide_eq_true. naive_solver.
Qed.

(** The registration authentication goes by: the document as it is now, or the
    stored one of a client without keys whose document cannot be read. *)
Definition current_registration id w reg reg' : Prop :=
  (resolveClientIDMetadata cfg id w).1 = Some reg' ∨
  ((resolveClientIDMetadata cfg id w).1 = None ∧ reg' = reg ∧
   cr_TokenEndpointAuthMethod reg ≠ "private_key_jwt").

Definition authenticated `{!JwtLaws} id creds w : Prop :=
  ∀ reg, sv_clients (w_st w) !! id = Some reg →
    (cr_RegistrationMethod reg = registrationMethodDynamic → credentials_ok id reg creds) ∧
    (cr_RegistrationMethod reg = registrationMethodClientIDMetadataDocument →
     ∃ reg', current_registration id w reg reg' ∧ credentials_ok id reg' creds).

Lemma resolve_cached_doc id w r w' :
  resolve_outcome id w r w' → ∀ reg, r = Some reg → cached_doc id reg (w_st w').
Proof.
  intros [e n w1 He _ -> _|w1 _|body reg0 expiry w1 _ ->] reg; [|done|]; intros [= <-] e'; simpl.
  - congruence.
  - rewrite lookup_insert_eq. by intros [= <-].
Qed.

Lemma resolve_registry_ok id w r w' :
  resolve_outcome id w r w' → registry_ok (w_st w) → registry_ok (w_st w').
Proof.
  intros [e n w1 _ _ -> _|w1 ->|body reg0 expiry w1 Hd ->]; [done|done|].
  by eapply registry_ok_document.
Qed.

Lemma wp_authenticateClient `{!JwtLaws} id creds w :
  registry_ok (w_st w) →
  wp (authenticateClient cfg id creds)
     (λ ok w', registry_ok (w_st w') ∧ (ok = true → authenticated id creds w)) w.
Proof.
  intros Hok. unfold authenticateClient, authenticated. apply wp_bind, wp_get_st.
  destruct (sv_clients (w_st w) !! id) as [reg|] eqn:Hreg; [|by apply wp_ret].
  pose proof (proj1 Hok _ _ Hreg) as Hreg_ok.
  destruct (decide (cr_RegistrationMethod reg = registrationMethodDynamic)) as [Hd|Hd].
  { eapply wp_mono; [apply wp_check; [done|]|].
    - intros Hp. pose proof (mo_auth _ _ (co_dynamic _ _ Hreg_ok Hd)) as Ha.
      rewrite Hp in Ha. unfold supportedTokenEndpointAuthMethods in Ha. set_solver.
    - intros ok w' [Hw' Hc]. split; [done|]. intros Ht reg' [= <-].
      split; [auto|]. by rewrite Hd. }
  destruct (decide (cr_RegistrationMethod reg = _)) as [Hm|Hm].
  2: { apply wp_ret. split; [done|]. intros _ reg' [= <-]. by split. }
  apply wp_bind. unfold wp at 1. destruct (wp_resolve cfg id w) as [Ho _].
  unfold current_registration.
  destruct (resolveClientIDMetadata cfg id w) as [r w1] eqn:Hres. simpl in *.
  pose proof (resolve_registry_ok _ _ _ _ Ho Hok) as Hok1.
  assert (∀ reg1, (r = Some reg1 ∨ r = None ∧ reg1 = reg ∧ cr_TokenEndpointAuthMethod reg ≠ "private_key_jwt") →
    wp (check_credentials cfg id reg1 creds) (λ ok w', registry_ok (w_st w') ∧
      (ok = true → ∀ reg0, Some reg = Some reg0 →
        (cr_RegistrationMethod reg0 = registrationMethodDynamic → credentials_ok id reg0 creds) ∧
        (cr_RegistrationMethod reg0 = registrationMethodClientIDMetadataDocument →
          ∃ reg', (r = Some reg' ∨ r = None ∧ reg' = reg0 ∧
                    cr_TokenEndpointAuthMethod reg0 ≠ "private_key_jwt") ∧
                  credentials_ok id reg' creds))) w1) as Hcheck.
  { intros reg1 Hr. eapply wp_mono; [apply wp_check; [done|]|].
    - intros Hp. destruct Hr as [->|(_ & -> & ?)]; [|done]. by eapply resolve_cached_doc.
    - intros ok w' [Hw' Hc]. split; [done|]. intros Ht reg0 [= <-]. split; [by rewrite Hm|eauto]. }
  destruct r as [reg1|]; [by apply Hcheck; left|].
  destruct (decide (cr_TokenEndpointAuthMethod reg = _)); [by apply wp_ret|].
  by apply Hcheck; right.
Qed.
End facts.

(** ** Frames of authentication *)

Section frame.
Context `{Runtime} (cfg : Config) (R : World server → World server → Prop) `{!ServerFrame cfg R}.

Lemma steps_clientKeySet id reg : steps R (clientKeySet cfg id reg).
Proof using Type*.
  unfold clientKeySet, cache_keys.
  frame_steps_with ltac:(apply sf_outside; solve [auto using outside_raw_keys, outside_cached_keys]).
Qed.

Context (Hconsume : ∀ id jti expiry, steps R (consumePrivateKeyJWTJTI id jti expiry)).

Lemma steps_verify id reg a : steps R (verifyPrivateKeyJWT cfg id reg a).
Proof using Type*.
  unfold verifyPrivateKeyJWT.
  frame_steps_with ltac:(first [apply steps_clientKeySet | apply Hconsume]).
Qed.

Lemma steps_check id reg creds : steps R (check_credentials cfg id reg creds).
Proof using Type*. unfold check_credentials. frame_steps_with ltac:(apply steps_verify). Qed.

Lemma steps_authenticateClient id creds : steps R (authenticateClient cfg id creds).
Proof using Type*.
  unfold authenticateClient.
  frame_steps_with ltac:(first [apply steps_check | apply steps_resolve; apply _]).
Qed.
End frame.

Section frames.
Context `{Runtime}.
Implicit Types (w : World server).

(** Authentication works on the client registry and the replay cache only. *)
Definition auth_step w w' : Prop :=
  sv_authContext (w_st w') = sv_authContext (w_st w) ∧
  sv_codeMeta (w_st w') = sv_codeMeta (w_st w) ∧
  sv_sessions (w_st w') = sv_sessions (w_st w) ∧
  (w_uuid w ≤ w_uuid w')%nat.

#[export] Instance auth_step_frame cfg : ServerFrame cfg auth_step.
Proof.
  split.
  - split; [done|]. intros a b c (A1&A2&A3&A4) (B1&B2&B3&B4).
    split_and!; [congruence..|lia].
  - intros A m Hm w. destruct (Hm w) as (E & L & _). unfold auth_step. by rewrite E.
  - done.
  - done.
Qed.

Lemma auth_step_consume id jti expiry : steps auth_step (consumePrivateKeyJWTJTI id jti expiry).
Proof.
  intros w. unfold consumePrivateKeyJWTJTI, mbind, eff_bind, tNow, get_st, reads.
  cbn -[filter]. by destruct (filter _ _ !! _).
Qed.

(** A record of the replay cache stays until its time has passed. *)
Definition jti_step w w' : Prop :=
  (w_clock w ≤ w_clock w')%nat ∧
  ∀ key e, sv_privateKeyJWTJTIs (w_st w) !! key = Some e → time_now (w_clock w') <= e →
           sv_privateKeyJWTJTIs (w_st w') !! key = Some e.

#[export] Instance jti_step_frame `{!RuntimeLaws} cfg : ServerFrame cfg jti_step.
Proof.
  split.
  - split; [split; [lia|done]|]. intros a b c [L1 H1] [L2 H2]. split; [lia|].
    intros key e He Ht. apply H2; [|done]. apply H1; [done|].
    etrans; [apply (time_monotone _ (w_clock c)); lia|done].
  - intros A m Hm w. destruct (Hm w) as (E & _ & L & _). split; [done|]. by rewrite E.
  - split; [simpl; lia|done].
  - split; [simpl; lia|done].
Qed.

Lemma jti_step_consume `{!RuntimeLaws} id jti expiry :
  steps jti_step (consumePrivateKeyJWTJTI id jti expiry).
Proof.
  intros w. unfold consumePrivateKeyJWTJTI, mbind, eff_bind, tNow, get_st, reads, mod_st, writes.
  cbn -[filter].
  assert (∀ key e, sv_privateKeyJWTJTIs (w_st w) !! key = Some e →
    time_now (S (w_clock w)) <= e →
    filter (λ kv : string * Z, ¬ time_now (w_clock w) > kv.2) (sv_privateKeyJWTJTIs (w_st w)) !! key = Some e)
    as Hkeep.
  { intros key e He Ht. apply map_lookup_filter_Some. split; [done|]. simpl.
    pose proof (time_monotone (w_clock w) (S (w_clock w))). lia. }
  destruct (filter _ _ !! jti_key id jti) eqn:Hseen; (split; [simpl; lia|]); intros key e He Ht;
    simpl in *; [by apply Hkeep|].
  rewrite lookup_insert_ne; [by apply Hkeep|]. intros <-. rewrite (Hkeep _ _ He Ht) in Hseen. done.
Qed.

Lemma consume_records id jti expiry w w' :
  consumePrivateKeyJWTJTI id jti expiry w = (true, w') →
  sv_privateKeyJWTJTIs (w_st w') !! jti_key id jti = Some (expiry + privateKeyJWTLeeway).
Proof.
  unfold consumePrivateKeyJWTJTI, mbind, eff_bind, tNow, get_st, reads, mod_st, writes.
  cbn -[filter]. destruct (filter _ _ !! jti_key id jti) eqn:Hseen; [done|].
  intros [= <-]. simpl. apply lookup_insert_eq.
Qed.

Lemma consume_refuses id jti expiry e w :
  sv_privateKeyJWTJTIs (w_st w) !! jti_key id jti = Some e → time_now (w_clock w) <= e →
  (consumePrivateKeyJWTJTI id jti expiry w).1 = false.
Proof.
  intros He Ht. unfold consumePrivateKeyJWTJTI, mbind, eff_bind, tNow, get_st, reads, mod_st, writes.
  cbn -[filter]. assert (filter (λ kv : string * Z, ¬ time_now (w_clock w) > kv.2)
    (sv_privateKeyJWTJTIs (w_st w)) !! jti_key id jti = Some e) as ->; [|done].
  apply map_lookup_filter_Some. simpl. split; [done|]. lia.
Qed.
End frames.

(** ** What client authentication promises *)

Section promises.
Context `{Runtime, !RuntimeLaws, !JwtLaws} (cfg : Config).
Implicit Types (w : World server).

(** C24: The keys an assertion may be verified with are exactly the client's
    published asymmetric keys that its own [use] and [alg] members allow for the
    declared algorithm and, when the header names a [kid], that carry it; without
    any such key verification fails rather than trying others. *)
Theorem verificationKeys_exact keys kid alg :
  match verificationKeys keys kid alg with
  | Some out => out ≠ [] ∧ ∀ k, k ∈ out ↔ verifying_key keys kid alg k
  | None => ¬ ∃ k, verifying_key keys kid alg k
  end.
Proof using Type*.
  destruct (verificationKeys keys kid alg) as [out|] eqn:Hv.
  - apply verificationKeys_Some in Hv as [Hne ->]. split; [done|]. apply usable_elem.
  - intros [k Hk%usable_elem]. revert Hv. unfold verificationKeys.
    generalize dependent (if decide (kid = EmptyString) then keys else jose_Key keys kid).
    intros cand Hk. destruct (decide (kid ≠ EmptyString ∧ cand = [])) as [[_ ->]|]; [set_solver|].
    destruct (decide (omap asymmetric_key (List.filter (usable_key alg) cand) = [])) as [E|];
      [rewrite E in Hk; set_solver|done].
Qed.

(** C5: A client that told the provider how it authenticates is never let through
    otherwise.  A dynamically registered confidential client must present its own
    identifier and its stored, non-empty secret by the method it registered.  A
    client of a metadata document is held to the document as it is now: with
    private_key_jwt it needs an assertion about itself, for this provider, signed
    under a key it publishes, and an unreachable document refuses it. *)
Theorem authenticateClient_sound id creds w w' :
  registry_ok (w_st w) → authenticateClient cfg id creds w = (true, w') →
  registry_ok (w_st w') ∧
  ∀ reg, sv_clients (w_st w) !! id = Some reg →
    (cr_RegistrationMethod reg = registrationMethodDynamic →
     cr_TokenEndpointAuthMethod reg ≠ "none" →
       cc_method creds = cr_TokenEndpointAuthMethod reg ∧ cc_clientID creds = id ∧
       cc_secret creds = cr_ClientSecret reg ∧ cr_ClientSecret reg ≠ "") ∧
    (cr_RegistrationMethod reg = registrationMethodClientIDMetadataDocument →
     ∃ reg', current_registration cfg id w reg reg' ∧
       (cr_TokenEndpointAuthMethod reg' = "private_key_jwt" →
          cc_method creds = "private_key_jwt" ∧ accepted_assertion cfg id reg' (cc_assertion creds))).
Proof using Type*.
  intros Hok Hrun.
  destruct (wp_intro _ _ _ _ _ Hrun (wp_authenticateClient cfg id creds w Hok)) as [Hok' Ha].
  split; [done|]. intros reg Hreg. destruct (Ha eq_refl _ Hreg) as [Hdyn Hdoc]. split.
  - intros Hm Hn. pose proof (mo_auth _ _ (co_dynamic _ _ (proj1 Hok _ _ Hreg) Hm)) as Hin.
    destruct (Hdyn Hm) as [He|[He|(Hmeth & Hc)]]; [rewrite He in Hin|done|].
    + unfold supportedTokenEndpointAuthMethods in Hin. set_solver.
    + destruct (decide (cr_TokenEndpointAuthMethod reg = "private_key_jwt")) as [He|]; [|tauto].
      rewrite He in Hin. unfold supportedTokenEndpointAuthMethods in Hin. set_solver.
  - intros Hm. destruct (Hdoc Hm) as (reg' & Hcur & [He|[He|(Hmeth & Hc)]]); exists reg';
      (split; [done|]); intros Hp; [congruence..|].
    rewrite decide_True in Hc by done. by rewrite <-Hp.
Qed.
End promises.
