(* ===== verification/IdpJwt.v ===== *)
(** * Tokens: signing, decoding and the bearer header

    [issueToken], [decodeJWT], [extractAccessToken] and [writeBearerError] of
    [main.go]: one RSA key signs ID, access and refresh tokens alike, so the
    claims tell them apart. *)

From S2P Require Import Prelude GoStrings GoNet GoURL GoBase64 Runtime RuntimeExample IdpState.
From S2P Require Import IdpUtil IdpRegistry IdpMetadata IdpClientAuth.
From stdpp Require Import options.
Local Open Scope Z_scope.

(** [jwt.Parse] without options. *)
Definition default_options : parser_options :=
  {| po_methods := None; po_exp_required := false; po_leeway := 0 |}.

Section jwt.
Context `{Runtime} (cfg : Config).
Abbreviation SWorld := (World server).

(** The claims of a token to sign, at time [now]. *)
Definition all_claims (subject : string) (audience : list string) (claims : Claims)
    (now expiry : Z) : Claims :=
  let withSub := match claims !! "sub" with
                 | Some _ => claims
                 | None => <["sub" := VStr subject]> claims
                 end in
  <["exp" := VInt (unix expiry)]> (<["iat" := VInt (unix now)]>
  (<["aud" := VStrs audience]> (<["iss" := VStr (externalURL cfg)]> withSub))).

(** The signed token, and its claims but [iat]. *)
Definition issueToken (subject : string) (audience : list string) (claims : Claims) (expiry : Z)
    : Eff SWorld (option (string * Claims)) :=
  now ← tNow;
  let all := all_claims subject audience claims now expiry in
  mret (signed ← jwt_sign (privateKey cfg) all; Some (signed, delete "iat" all)).

(** The key function: the provider's RSA key, for RSA tokens only. *)
Definition provider_key (t : jwt_Token) : option (list PubKey) :=
  if jt_is_rsa t then Some [publicKey cfg] else None.

Definition decodeJWT (token : string) : Eff SWorld (option Claims) :=
  now ← tNow; mret (jwt_parse default_options now token provider_key).

Definition extractAccessToken (r : Request) : Eff SWorld (option Claims) :=
  match fields (header_get r "Authorization") with
  | [scheme; token] =>
      if negb (equal_fold scheme "bearer") then mret None
      else
        claims ← decodeJWT token;
        mret (c ← claims;
              match c !! "token_use" with
              | Some (VStr use) => if decide (use = "access") then Some c else None
              | _ => None
              end)
  | _ => mret None
  end.

Definition writeBearerError (status : Z) (code : string) : Response :=
  let e := writeOAuthError status code in
  let q := String quote_char EmptyString in
  {| rs_status := rs_status e;
     rs_header := ("WWW-Authenticate",
       "Bearer realm=" +:+ q +:+ externalURL cfg +:+ q +:+ ", error=" +:+ q +:+ code +:+ q)
       :: rs_header e;
     rs_cookies := rs_cookies e; rs_body := rs_body e |}.
End jwt.

Section facts.
Context `{Runtime} (cfg : Config).
Implicit Types (w : World server).

Lemma outside_issueToken P sub aud c e : outside P (issueToken cfg sub aud c e).
Proof. unfold issueToken. eauto with oidc. Qed.

Lemma outside_decodeJWT P tok : outside P (decodeJWT cfg tok).
Proof. unfold decodeJWT. eauto with oidc. Qed.

Lemma outside_extractAccessToken P r : outside P (extractAccessToken cfg r).
Proof.
  unfold extractAccessToken. repeat case_match; try apply outside_ret.
  apply outside_bind; [apply outside_decodeJWT|intros; apply outside_ret].
Qed.

(** A decoded token was signed by this provider. *)
Lemma decodeJWT_signed `{!JwtLaws} tok w c w' :
  decodeJWT cfg tok w = (Some c, w') → jwt_signed (publicKey cfg) tok c.
Proof.
  unfold decodeJWT, mbind, eff_bind, tNow, mret, eff_ret. intros [= Hp _].
  apply jwt_parse_sound in Hp as (t & ks & k & Hks & Hk & Hsig & _).
  unfold provider_key in Hks. destruct (jt_is_rsa t); [|done]. injection Hks as <-.
  by apply list_elem_of_singleton in Hk as ->.
Qed.

(** C25: A token is signed over the claims it was asked for, with the issuer, the
    audience, the issue time and the expiry always this provider's own, whatever the
    edited claims say; the subject is the claims' own or else the advertised one; and
    the claims kept with the session are those signed, less the issue time. *)
Theorem issueToken_claims subject audience claims expiry w tok issued w' :
  issueToken cfg subject audience claims expiry w = (Some (tok, issued), w') →
  w_st w' = w_st w ∧
  ∃ all, jwt_sign (privateKey cfg) all = Some tok ∧ issued = delete "iat" all ∧
    all !! "iss" = Some (VStr (externalURL cfg)) ∧ all !! "aud" = Some (VStrs audience) ∧
    all !! "exp" = Some (VInt (unix expiry)) ∧
    all !! "iat" = Some (VInt (unix (time_now (w_clock w)))) ∧
    all !! "sub" = Some (default (VStr subject) (claims !! "sub")) ∧
    ∀ name, name ∉ ["iss"; "aud"; "exp"; "iat"; "sub"] → all !! name = claims !! name.
Proof.
  unfold issueToken, mbind, eff_bind, tNow, mret, eff_ret.
  destruct (jwt_sign _ _) as [tok'|] eqn:Hs; simpl; [|done]. intros [= -> <- <-].
  split; [done|]. eexists. split_and!; [exact Hs|done|..]; unfold all_claims.
  - by simplify_map_eq.
  - by simplify_map_eq.
  - by simplify_map_eq.
  - by simplify_map_eq.
  - rewrite !lookup_insert_ne by done. destruct (claims !! "sub") eqn:E; [done|].
    by rewrite lookup_insert_eq.
  - intros name Hn. rewrite !not_elem_of_cons in Hn. destruct Hn as (N1 & N2 & N3 & N4 & N5 & _).
    rewrite !lookup_insert_ne by congruence. destruct (claims !! "sub"); [done|].
    by rewrite lookup_insert_ne by congruence.
Qed.

End facts.

#[export] Hint Resolve outside_issueToken outside_decodeJWT outside_extractAccessToken : oidc.
