(* ===== verification/IdpSessions.v ===== *)
(** * The session invariant of the provider

    What holds of the session map whatever requests were served: a session is
    stored under its own cookie identifier, identifiers come from the UUID
    source, a client has one client session per session, a client session
    identifier names one client session of the whole map, and a subject has one
    session.  The last two make Go's unspecified map iteration order harmless in
    the lookups that range over the map. *)

From S2P Require Import Prelude GoStrings GoNet GoURL GoBase64 Runtime RuntimeExample IdpState.
From S2P Require Import IdpUtil IdpRegistry IdpMetadata.
From stdpp Require Import options.

(** What the invariant sees of a session. *)
Record shape := {
  sh_cookie : string;
  sh_sub : string;
  sh_ids : list (string * string)      (* client identifier, client session identifier *)
}.

Definition cs_ids (l : list clientSession) : list (string * string) :=
  (λ cs, (cs_ClientID cs, cs_SessionID cs)) <$> l.

Definition shape_of (s : session) : shape :=
  {| sh_cookie := s_CookieID s; sh_sub := s_Sub s; sh_ids := cs_ids (s_ClientSessions s) |}.

Section sessions.
Context `{Runtime, !RuntimeLaws}.

(** [id] is one of the first [n] UUIDs drawn. *)
Definition issued (n : nat) (id : string) : Prop := ∃ i, (i < n)%nat ∧ id = uuid_new i.

Lemma issued_mono n n' id : (n ≤ n')%nat → issued n id → issued n' id.
Proof. intros Hn (i & Hi & ->). exists i. split; [lia|done]. Qed.

Lemma issued_new n : issued (S n) (uuid_new n).
Proof. exists n. split; [lia|done]. Qed.

Lemma not_issued_new n : ¬ issued n (uuid_new n).
Proof using Type*. intros (i & Hi & E%uuid_inj). lia. Qed.

Lemma issued_nonempty n id : issued n id → id ≠ EmptyString.
Proof using Type*. intros (i & _ & ->). apply uuid_nonempty. Qed.

Record shapes_ok (n : nat) (m : gmap string shape) : Prop := {
  sho_cookie k s : m !! k = Some s → sh_cookie s = k ∧ issued n k;
  sho_clients k s : m !! k = Some s → NoDup (sh_ids s).*1;
  sho_csid k s c i : m !! k = Some s → (c, i) ∈ sh_ids s → issued n i;
  sho_unique k1 s1 c1 k2 s2 c2 i :
    m !! k1 = Some s1 → (c1, i) ∈ sh_ids s1 → m !! k2 = Some s2 → (c2, i) ∈ sh_ids s2 →
    k1 = k2 ∧ c1 = c2;
  sho_sub k1 s1 k2 s2 :
    m !! k1 = Some s1 → m !! k2 = Some s2 → sh_sub s1 = sh_sub s2 → k1 = k2
}.

Definition sessions_ok (n : nat) (m : gmap string session) : Prop := shapes_ok n (shape_of <$> m).

Lemma shapes_ok_mono n n' m : (n ≤ n')%nat → shapes_ok n m → shapes_ok n' m.
Proof.
  intros Hn [H1 H2 H3 H4 H5]. split; [|done| |done|done].
  - intros k s Hk. destruct (H1 _ _ Hk). eauto using issued_mono.
  - eauto using issued_mono.
Qed.

Lemma sessions_ok_empty n : sessions_ok n ∅.
Proof. unfold sessions_ok. rewrite fmap_empty. by split. Qed.

Lemma sessions_ok_mono n n' m : (n ≤ n')%nat → sessions_ok n m → sessions_ok n' m.
Proof. apply shapes_ok_mono. Qed.

Lemma sessions_ok_delete n m k : sessions_ok n m → sessions_ok n (delete k m).
Proof.
  unfold sessions_ok. rewrite fmap_delete. intros [H1 H2 H3 H4 H5].
  split; intros *; rewrite ?lookup_delete_Some; naive_solver.
Qed.

(** An update that keeps the identifiers of a session keeps the invariant. *)
Lemma sessions_ok_update n m k s s' :
  m !! k = Some s → shape_of s' = shape_of s → sessions_ok n m → sessions_ok n (<[k := s']> m).
Proof.
  unfold sessions_ok. intros Hk Hs Hok. rewrite fmap_insert, Hs, insert_id; [done|].
  by rewrite lookup_fmap, Hk.
Qed.

(** ** What the invariant gives of a stored session *)

Lemma cs_ids_elem l cs : cs ∈ l → (cs_ClientID cs, cs_SessionID cs) ∈ cs_ids l.
Proof. intros Hcs. apply list_elem_of_fmap. eauto. Qed.

Lemma cs_ids_fst l : (cs_ids l).*1 = client_ids l.
Proof. unfold cs_ids, client_ids. by rewrite <-list_fmap_compose. Qed.

Section lookup.
Context n (m : gmap string session) (Hok : sessions_ok n m).
Set Default Proof Using "Type*".

Lemma shape_lookup k s : m !! k = Some s → (shape_of <$> m) !! k = Some (shape_of s).
Proof. intros Hk. by rewrite lookup_fmap, Hk. Qed.

Lemma sessions_cookie k s : m !! k = Some s → s_CookieID s = k ∧ issued n k.
Proof. intros Hk. by apply (sho_cookie _ _ Hok _ _ (shape_lookup _ _ Hk)). Qed.

Lemma sessions_csid k s cs :
  m !! k = Some s → cs ∈ s_ClientSessions s → issued n (cs_SessionID cs).
Proof.
  intros Hk Hcs. eapply (sho_csid _ _ Hok _ _ _ _ (shape_lookup _ _ Hk)). by apply cs_ids_elem.
Qed.

Lemma sessions_csid_unique k1 s1 cs1 k2 s2 cs2 :
  m !! k1 = Some s1 → cs1 ∈ s_ClientSessions s1 →
  m !! k2 = Some s2 → cs2 ∈ s_ClientSessions s2 →
  cs_SessionID cs1 = cs_SessionID cs2 → k1 = k2 ∧ cs_ClientID cs1 = cs_ClientID cs2.
Proof.
  intros Hk1 Hc1 Hk2 Hc2 E.
  eapply (sho_unique _ _ Hok _ _ _ _ _ _ _ (shape_lookup _ _ Hk1) (cs_ids_elem _ _ Hc1)
            (shape_lookup _ _ Hk2)).
  rewrite E. by apply cs_ids_elem.
Qed.

Lemma sessions_clients k s : m !! k = Some s → NoDup (client_ids (s_ClientSessions s)).
Proof.
  intros Hk. pose proof (sho_clients _ _ Hok _ _ (shape_lookup _ _ Hk)) as Hn.
  simpl in Hn. by rewrite cs_ids_fst in Hn.
Qed.

Lemma sessions_sub k1 s1 k2 s2 :
  m !! k1 = Some s1 → m !! k2 = Some s2 → s_Sub s1 = s_Sub s2 → k1 = k2.
Proof.
  intros Hk1 Hk2 E.
  by apply (sho_sub _ _ Hok _ _ _ _ (shape_lookup _ _ Hk1) (shape_lookup _ _ Hk2)).
Qed.
End lookup.
Set Default Proof Using "Type".

(** ** The updates that add identifiers *)

(** A session whose identifiers are the old ones and one fresh client session. *)
Lemma shapes_ok_append n m k s c :
  shapes_ok n m → m !! k = Some s → c ∉ (sh_ids s).*1 →
  shapes_ok (S n) (<[k := {| sh_cookie := sh_cookie s; sh_sub := sh_sub s;
                            sh_ids := sh_ids s ++ [(c, uuid_new n)] |}]> m).
Proof using Type*.
  intros Hok Hk Hc. set (s' := {| sh_ids := _ |}).
  assert (∀ k1 s1 c1 i1, <[k := s']> m !! k1 = Some s1 → (c1, i1) ∈ sh_ids s1 →
    (∃ s0, m !! k1 = Some s0 ∧ (c1, i1) ∈ sh_ids s0) ∨
    (k1 = k ∧ c1 = c ∧ i1 = uuid_new n)) as Hcases.
  { intros k1 s1 c1 i1. destruct (decide (k = k1)) as [<-|Hne].
    - rewrite lookup_insert_eq. intros [= <-]. simpl. rewrite elem_of_app, list_elem_of_singleton.
      intros [Hin|[= -> ->]]; eauto.
    - rewrite lookup_insert_ne by done. eauto. }
  assert (∀ k1 s1, <[k := s']> m !! k1 = Some s1 →
    ∃ s0, m !! k1 = Some s0 ∧ sh_cookie s1 = sh_cookie s0 ∧ sh_sub s1 = sh_sub s0) as Hold.
  { intros k1 s1. destruct (decide (k = k1)) as [<-|Hne].
    - rewrite lookup_insert_eq. intros [= <-]. eauto.
    - rewrite lookup_insert_ne by done. eauto. }
  split.
  - intros k1 s1 (s0 & H1 & -> & _)%Hold. destruct (sho_cookie _ _ Hok _ _ H1). split; [done|].
    eapply issued_mono; [|done]. lia.
  - intros k1 s1. destruct (decide (k = k1)) as [<-|Hne].
    + rewrite lookup_insert_eq. intros [= <-]. simpl. rewrite fmap_app. apply NoDup_app.
      split_and!; [by apply (sho_clients _ _ Hok _ _ Hk)|set_solver|apply NoDup_singleton].
    + rewrite lookup_insert_ne by done. apply (sho_clients _ _ Hok).
  - intros k1 s1 c1 i1 H1 Hin.
    destruct (Hcases _ _ _ _ H1 Hin) as [(s0 & H0' & Hin0)|(_ & _ & ->)]; [|apply issued_new].
    eapply issued_mono; [|by eapply (sho_csid _ _ Hok)]. lia.
  - intros k1 s1 c1 k2 s2 c2 i H1 Hin1 H2 Hin2.
    destruct (Hcases _ _ _ _ H1 Hin1) as [(s1' & H1' & Hi1)|(-> & -> & ->)],
      (Hcases _ _ _ _ H2 Hin2) as [(s2' & H2' & Hi2)|(E2 & -> & E2')].
    + by eapply (sho_unique _ _ Hok).
    + subst. by destruct (not_issued_new n); eapply (sho_csid _ _ Hok).
    + by destruct (not_issued_new n); eapply (sho_csid _ _ Hok).
    + done.
  - intros k1 s1 k2 s2 (s1' & H1' & _ & ->)%Hold (s2' & H2' & _ & ->)%Hold.
    by apply (sho_sub _ _ Hok).
Qed.

(** A new session without client sessions, for a subject that has none. *)
Lemma shapes_ok_new n m sub :
  shapes_ok n m → (∀ k s, m !! k = Some s → sh_sub s ≠ sub) →
  shapes_ok (S n) (<[uuid_new n := {| sh_cookie := uuid_new n; sh_sub := sub; sh_ids := [] |}]> m).
Proof using Type*.
  intros Hok Hsub. pose proof (shapes_ok_mono n (S n) m ltac:(lia) Hok) as Hok'.
  split.
  - intros k s [[<- <-]|[_ Hk]]%lookup_insert_Some; [split; [done|apply issued_new]|].
    by apply (sho_cookie _ _ Hok').
  - intros k s [[<- <-]|[_ Hk]]%lookup_insert_Some; [constructor|]. by apply (sho_clients _ _ Hok' k).
  - intros k s c i [[<- <-]|[_ Hk]]%lookup_insert_Some; simpl; [set_solver|].
    by apply (sho_csid _ _ Hok' k).
  - intros k1 s1 c1 k2 s2 c2 i [[<- <-]|[_ H1]]%lookup_insert_Some Hin1
      [[<- <-]|[_ H2]]%lookup_insert_Some Hin2; simpl in *; try set_solver.
    by eapply (sho_unique _ _ Hok').
  - intros k1 s1 k2 s2 [[<- <-]|[_ H1]]%lookup_insert_Some
      [[<- <-]|[_ H2]]%lookup_insert_Some; simpl; [done|intros E; by destruct (Hsub k2 s2)|
      intros E; by destruct (Hsub k1 s1)|]. by eapply (sho_sub _ _ Hok').
Qed.
End sessions.

(** A client of a client list names one element. *)
Lemma client_ids_inj l cs1 cs2 :
  NoDup (client_ids l) → cs1 ∈ l → cs2 ∈ l → cs_ClientID cs1 = cs_ClientID cs2 → cs1 = cs2.
Proof.
  unfold client_ids. induction l as [|c l IH]; simpl; [set_solver|].
  intros [Hc Hn]%NoDup_cons. rewrite !elem_of_cons.
  assert (∀ x, x ∈ l → cs_ClientID x ≠ cs_ClientID c) as Hne.
  { intros x Hx E. apply Hc. rewrite <-E. by apply list_elem_of_fmap_2. }
  intros [->|H1] [->|H2] E; [done|by destruct (Hne cs2)|by destruct (Hne cs1)|by apply IH].
Qed.

Lemma cs_ids_cons c l : cs_ids (c :: l) = (cs_ClientID c, cs_SessionID c) :: cs_ids l.
Proof. done. Qed.

(** Updating client sessions in place keeps their identifiers. *)
Lemma cs_ids_update_first p f l :
  (∀ cs, cs_ClientID (f cs) = cs_ClientID cs ∧ cs_SessionID (f cs) = cs_SessionID cs) →
  cs_ids (update_first p f l) = cs_ids l.
Proof.
  intros Hf. induction l as [|c l IH]; [done|]. simpl. destruct (p c); rewrite !cs_ids_cons.
  - by destruct (Hf c) as [-> ->].
  - by rewrite IH.
Qed.

(** Replacing a client's session by one with the same identifiers, or adding
    one, at the end. *)
Lemma cs_ids_upsert_old l cs c :
  getClientSessionByID (with_client_sessions zero_session l) (cs_ClientID cs) = Some c →
  cs_SessionID c = cs_SessionID cs →
  cs_ids (upsertClientSession l cs) = cs_ids l.
Proof.
  unfold getClientSessionByID. simpl. intros Hc Hid. induction l as [|x l IH]; simpl in *; [done|].
  destruct (decide (cs_ClientID x = cs_ClientID cs)) as [E|E].
  - rewrite bool_decide_eq_true_2 in Hc by done. injection Hc as ->. rewrite !cs_ids_cons. congruence.
  - rewrite bool_decide_eq_false_2 in Hc by done. by rewrite !cs_ids_cons, IH.
Qed.

Lemma cs_ids_upsert_new l cs :
  cs_ClientID cs ∉ client_ids l →
  cs_ids (upsertClientSession l cs) = cs_ids l ++ [(cs_ClientID cs, cs_SessionID cs)].
Proof.
  induction l as [|x l IH]; simpl; [done|]. rewrite not_elem_of_cons. intros [Hx Hl].
  rewrite decide_False by done. by rewrite !cs_ids_cons, IH.
Qed.

(** ** Lookups that range over the sessions *)

Section orders.
Context `{HR : Runtime, HL : !RuntimeLaws}.
Set Default Proof Using "HL".

Lemma lookup_csid_complete n m order id k s cs :
  sessions_ok n m → order ≡ₚ map_to_list m → id ≠ EmptyString →
  m !! k = Some s → cs ∈ s_ClientSessions s → cs_SessionID cs = id →
  getSessionByClientSessionID order id = Some (k, s, cs).
Proof.
  intros Hok Ho Hid Hk Hcs Hcsid. unfold getSessionByClientSessionID. rewrite decide_False by done.
  assert (∀ k' s', (k', s') ∈ order → m !! k' = Some s') as Hsub.
  { intros k' s' Hin. by apply (order_lookup _ _ _ _ Ho). }
  assert ((k, s) ∈ order) as Hin by (rewrite Ho; by apply elem_of_map_to_list).
  clear Ho. induction order as [|[k' s'] order IH]; [by apply elem_of_nil in Hin|]. simpl.
  destruct (find_client_session _ (s_ClientSessions s')) as [c|] eqn:E.
  - pose proof (Hsub k' s' ltac:(by left)) as Hk'.
    apply find_client_session_Some in E as [Hc Hcid].
    apply bool_decide_eq_true in Hcid. rewrite <-Hcsid in Hcid.
    destruct (sessions_csid_unique _ _ Hok _ _ _ _ _ _ Hk' Hc Hk Hcs Hcid) as [-> Hcl].
    rewrite Hk in Hk'. injection Hk' as <-. do 2 f_equal.
    eapply client_ids_inj; [by eapply (sessions_clients _ _ Hok)|done..].
  - apply elem_of_cons in Hin as [[= <- <-]|Hin].
    + apply find_client_session_None in E. rewrite Forall_forall in E.
      specialize (E _ Hcs). by rewrite bool_decide_eq_true_2 in E.
    + apply IH; [|done]. intros k'' s'' H''. apply Hsub. by right.
Qed.

(** C34: Go ranges over the session map in an unspecified order, and three lookups
    return the first match.  On the sessions this server can hold the order does not
    matter where it decides who is served: a client session identifier and a subject
    each lead to the same session in every order. *)
Theorem session_lookups_order_independent n m order1 order2 id sub :
  sessions_ok n m → order1 ≡ₚ map_to_list m → order2 ≡ₚ map_to_list m →
  getSessionByClientSessionID order1 id = getSessionByClientSessionID order2 id ∧
  getSessionBySub order1 sub = getSessionBySub order2 sub.
Proof.
  intros Hok H1 H2.
  assert (∀ o o' x, o ≡ₚ map_to_list m → o' ≡ₚ map_to_list m →
    getSessionByClientSessionID o id = Some x → getSessionByClientSessionID o' id = Some x) as Hcs.
  { intros o o' [[k s] cs] Ho Ho' (Hin & Hcs & Hid & Hne)%getSessionByClientSessionID_Some.
    apply (lookup_csid_complete n m o' id k s cs Hok Ho' Hne
             (order_lookup _ _ _ _ Ho Hin) Hcs Hid). }
  assert (∀ o o' x, o ≡ₚ map_to_list m → o' ≡ₚ map_to_list m →
    getSessionBySub o sub = Some x → getSessionBySub o' sub = Some x) as Hsub.
  { intros o o' s Ho Ho' (k & Hin & Hs)%getSessionBySub_Some.
    pose proof (order_lookup _ _ _ _ Ho Hin) as Hk. unfold getSessionBySub.
    destruct (list_find _ o') as [[i [k' s']]|] eqn:E; simpl.
    - apply list_find_Some in E as (Hi & Hs' & _). apply list_elem_of_lookup_2 in Hi.
      pose proof (order_lookup _ _ _ _ Ho' Hi) as Hk'. simpl in Hs'.
      assert (k = k') as <- by (eapply (sessions_sub _ _ Hok); eauto; congruence). congruence.
    - apply list_find_None in E. rewrite Forall_forall in E.
      destruct (E (k, s)); [|done]. rewrite Ho'. by apply elem_of_map_to_list. }
  split.
  - destruct (getSessionByClientSessionID order1 id) as [x|] eqn:E1.
    + symmetry. by eapply (Hcs order1).
    + destruct (getSessionByClientSessionID order2 id) as [x|] eqn:E2; [|done].
      rewrite <-E1. by eapply (Hcs order2).
  - destruct (getSessionBySub order1 sub) as [x|] eqn:E1.
    + symmetry. by eapply (Hsub order1).
    + destruct (getSessionBySub order2 sub) as [x|] eqn:E2; [|done].
      rewrite <-E1. by eapply (Hsub order2).
Qed.
End orders.
