(* ===== verification/IdpAuthorize.v ===== *)
(** * The authorization endpoint and the interactive flow

    [authorize] with [resolveAuthorizeClient], [login], [approve],
    [issueCodeAndRedirect], and the ends of a session ([logout], [endsession],
    [endsessionApprove]) of [main.go]. *)

From S2P Require Import Prelude GoStrings GoNet GoURL GoBase64 Runtime RuntimeExample IdpState.
From S2P Require Import IdpUtil IdpRegistry IdpMetadata IdpClientAuth IdpJwt.
From stdpp Require Import options.
Local Open Scope Z_scope.

(** [renderAuthorizeError]: a page with status 400, never a redirect. *)
Definition renderAuthorizeError (text : string) : Response := respond 400 (BPage (PError text)).

(** The fields of an authorization request. *)
Record authorizeRequest := {
  ar_clientID : string;
  ar_scope : string;
  ar_redirectURI : string;
  ar_state : string;
  ar_nonce : string;
  ar_codeChallenge : string;
  ar_codeChallengeMethod : string
}.

Definition with_defaulted_method (challenge method : string) : string :=
  if decide (challenge ≠ EmptyString ∧ method = EmptyString) then "plain" else method.

Definition authorize_request (r : Request) : authorizeRequest :=
  {| ar_clientID := form_get r "client_id"; ar_scope := form_get r "scope";
     ar_redirectURI := form_get r "redirect_uri"; ar_state := form_get r "state";
     ar_nonce := form_get r "nonce"; ar_codeChallenge := form_get r "code_challenge";
     ar_codeChallengeMethod := with_defaulted_method (form_get r "code_challenge")
                                 (form_get r "code_challenge_method") |}.

Section authorize.
Context `{Runtime} (cfg : Config).
Abbreviation SWorld := (World server).

(** ** The client of an authorization request *)

Definition authorize_registration (ar : authorizeRequest)
    : Eff SWorld (option clientRegistration) :=
  if isClientIDMetadataDocumentURL (ar_clientID ar) then
    resolveClientIDMetadata cfg (ar_clientID ar)
  else
    registerClientLocked (ar_clientID ar) (ar_redirectURI ar) (ar_scope ar);;
    reg ← get_st (λ s, sv_clients s !! ar_clientID ar);
    mret (Some (default zero_registration reg)).

(** [None]: the request may continue; otherwise the error written. *)
Definition resolveAuthorizeClient (ar : authorizeRequest) : Eff SWorld (option Response) :=
  resolved ← authorize_registration ar;
  match resolved with
  | None => mret (Some (renderAuthorizeError "Could not resolve the client ID metadata document"))
  | Some reg =>
      if decide (cr_RegistrationMethod reg ∈
                   [registrationMethodClientIDMetadataDocument; registrationMethodDynamic] ∧
                 ar_redirectURI ar ∉ cr_RedirectURIs reg) then
        mret (Some (renderAuthorizeError
                      "The redirect_uri does not match this client's registration"))
      else if decide (cr_RegistrationMethod reg = registrationMethodClientIDMetadataDocument ∧
                      cr_TokenEndpointAuthMethod reg = "none" ∧
                      ar_codeChallenge ar = EmptyString) then
        mret (Some (renderAuthorizeError
                      "This client is registered as public and must use PKCE"))
      else mret None
  end.

(** ** Issuing a code *)

Definition session_cookie (id : string) : Cookie :=
  {| ck_name := sessionCookieName; ck_value := id; ck_http_only := true; ck_secure := false;
     ck_max_age := 0 |}.

Definition issueCodeAndRedirect (sess : session) (clientID state nonce : string)
    : Eff SWorld Response :=
  code ← newUUID;
  mod_st (up_codeMeta (<[code := {| cm_CookieID := s_CookieID sess; cm_ClientID := clientID;
                                    cm_Nonce := nonce |}]>));;
  match getClientSessionByID sess clientID with
  | None => mret (error_page "Unknown client session")
  | Some clientSess =>
      let url := buildURL (cs_RedirectURI clientSess)
                   (params_of [("code", code); ("state", state); ("iss", externalURL cfg)]) in
      mret {| rs_status := 303; rs_header := []; rs_cookies := [session_cookie (s_CookieID sess)];
              rs_body := BRedirect url |}
  end.

(** The session under [cookieID] brought up to date with the request. *)
Definition refresh_session (ar : authorizeRequest) (sess : session) : session :=
  updateClientSessionRedirectURI
    (updateClientSessionPKCE sess (ar_clientID ar) (ar_codeChallenge ar) (ar_codeChallengeMethod ar))
    (ar_clientID ar) (ar_redirectURI ar).

Definition continue_session (ar : authorizeRequest) (cookieID : string) (sess : session)
    : Eff SWorld Response :=
  let sess := refresh_session ar sess in
  mod_st (up_sessions (<[cookieID := sess]>));;
  issueCodeAndRedirect sess (ar_clientID ar) (ar_state ar) (ar_nonce ar).

(** ** The three exits of [authorize] *)

Definition login_required (ar : authorizeRequest) : Response :=
  redirect (buildURL (ar_redirectURI ar)
    (params_of [("error", "login_required"); ("state", ar_state ar); ("iss", externalURL cfg)])).

Definition silent_authorize (ar : authorizeRequest) (hint : string) : Eff SWorld Response :=
  claims ← decodeJWT cfg hint;
  match claims with
  | None => mret (login_required ar)
  | Some c =>
      sessions ← get_st sv_sessions;
      order ← rangeMap sessions;
      let id := getSessionByAdvertisedSub order (claim_string c "sub") in
      if decide (id = EmptyString) then mret (login_required ar)
      else continue_session ar id (default zero_session (sessions !! id))
  end.

Definition request_login (ar : authorizeRequest) (reqID : string) : Eff SWorld Response :=
  mod_st (up_authContext (<[reqID :=
    {| ac_Scope := ar_scope ar; ac_ClientID := ar_clientID ar;
       ac_RedirectURI := ar_redirectURI ar; ac_State := ar_state ar; ac_Nonce := ar_nonce ar;
       ac_CodeChallenge := ar_codeChallenge ar;
       ac_CodeChallengeMethod := ar_codeChallengeMethod ar;
       ac_Username := EmptyString; ac_Sub := EmptyString |}]>));;
  mret (render (PAuthenticate reqID)).

Definition authorize (r : Request) : Eff SWorld Response :=
  if negb (is_get r) && negb (is_post r) then mret NotFound
  else
    let ar := authorize_request r in
    if decide (ar_codeChallenge ar ≠ EmptyString ∧
               ar_codeChallengeMethod ar ∉ supportedCodeChallengeMethods)
    then mret (renderAuthorizeError "Unsupported code_challenge_method")
    else
      refused ← resolveAuthorizeClient ar;
      match refused with
      | Some e => mret e
      | None =>
          reqID ← newUUID;
          let sessionCookie := default EmptyString (cookie_get r sessionCookieName) in
          existing ← get_st (λ s, sv_sessions s !! sessionCookie);
          match existing with
          | Some sess => continue_session ar sessionCookie sess
          | None =>
              if decide (form_get r "prompt" = "none")
              then silent_authorize ar (form_get r "id_token_hint")
              else request_login ar reqID
          end
      end.

(** ** Login and approval *)

Definition with_user (username : string) (ctx : authContextEntry) : authContextEntry :=
  {| ac_Scope := ac_Scope ctx; ac_ClientID := ac_ClientID ctx;
     ac_RedirectURI := ac_RedirectURI ctx; ac_State := ac_State ctx; ac_Nonce := ac_Nonce ctx;
     ac_CodeChallenge := ac_CodeChallenge ctx;
     ac_CodeChallengeMethod := ac_CodeChallengeMethod ctx;
     ac_Username := username; ac_Sub := "internal|" +:+ username |}.

Definition serialization_error : Response := respond 500 (BText "claims serialization error").

Definition login (r : Request) : Eff SWorld Response :=
  if negb (is_post r) then mret NotFound
  else
    let reqID := form_get r "reqid" in
    let username := form_get r "username" in
    if decide (form_get r "password" ≠ "valid") then mret (error_page "Authentication error")
    else
      stored ← get_st (λ s, sv_authContext s !! reqID);
      let ctx := with_user username (default zero_authContext stored) in
      mod_st (up_authContext (<[reqID := ctx]>));;
      match claimsToPrettyJSON (Some (defaultIDTokenClaims cfg ctx)),
            claimsToPrettyJSON (Some (defaultAccessTokenClaims ctx)) with
      | Some idJSON, Some accessJSON =>
          mret (render (PAuthorize (ac_ClientID ctx) (ac_Scope ctx) reqID idJSON accessJSON
                          EmptyString (internalAvatarURL cfg username)))
      | _, _ => mret serialization_error
      end.

(** The session an approval goes to: the user's, or a new one. *)
Definition session_for (ctx : authContextEntry) : Eff SWorld session :=
  sessions ← get_st sv_sessions;
  order ← rangeMap sessions;
  match getSessionBySub order (ac_Sub ctx) with
  | Some sess => mret sess
  | None => id ← newUUID;
            mret {| s_Username := ac_Username ctx; s_Sub := ac_Sub ctx; s_CookieID := id;
                    s_ClientSessions := [] |}
  end.

Definition client_session_id (sess : session) (clientID : string) : Eff SWorld string :=
  let found := match getClientSessionByID sess clientID with
               | Some cs => cs_SessionID cs
               | None => EmptyString
               end in
  if decide (found = EmptyString) then newUUID else mret found.

Definition approved_session (ctx : authContextEntry) (csID : string)
    (idClaims accessClaims : option Claims) : clientSession :=
  {| cs_SessionID := csID; cs_ClientID := ac_ClientID ctx;
     cs_AdvertisedSub := computeAdvertisedSub cfg (ac_Sub ctx)
                           (sectorIdentifier (ac_RedirectURI ctx) (ac_ClientID ctx));
     cs_Scope := ac_Scope ctx; cs_RedirectURI := ac_RedirectURI ctx;
     cs_CodeChallenge := ac_CodeChallenge ctx;
     cs_CodeChallengeMethod := ac_CodeChallengeMethod ctx;
     cs_IDTokenClaims := idClaims; cs_AccessTokenClaims := accessClaims;
     cs_RefreshTokenClaims := None |}.

Definition grant (reqID : string) (ctx : authContextEntry) (idClaims accessClaims : option Claims)
    : Eff SWorld Response :=
  mod_st (up_authContext (delete reqID));;
  sess ← session_for ctx;
  csID ← client_session_id sess (ac_ClientID ctx);
  let sess := with_client_sessions sess
                (upsertClientSession (s_ClientSessions sess)
                   (approved_session ctx csID idClaims accessClaims)) in
  mod_st (up_sessions (<[s_CookieID sess := sess]>));;
  issueCodeAndRedirect sess (ac_ClientID ctx) (ac_State ctx) (ac_Nonce ctx).

Definition approve (r : Request) : Eff SWorld Response :=
  if negb (is_post r) then mret NotFound
  else
    let reqID := form_get r "reqid" in
    stored ← get_st (λ s, sv_authContext s !! reqID);
    match stored with
    | None => mret (error_page "Unknown request ID")
    | Some ctx =>
        if negb (form_has r "approve") then mret (error_page "Not approved")
        else
          let idJSON := form_get r "id_token_claims_json" in
          let accessJSON := form_get r "access_token_claims_json" in
          let again err := mret (render (PAuthorize (ac_ClientID ctx) (ac_Scope ctx) reqID
                                   idJSON accessJSON err (internalAvatarURL cfg (ac_Username ctx)))) in
          match parseClaimsJSON idJSON with
          | None => again "ID token claims must be valid JSON object"
          | Some idClaims =>
          match parseClaimsJSON accessJSON with
          | None => again "Access token claims must be valid JSON object"
          | Some accessClaims => grant reqID ctx idClaims accessClaims
          end end
    end.

(** ** Ending sessions *)

Definition logout (r : Request) : Eff SWorld Response :=
  if negb (is_post r) then mret NotFound
  else mod_st (up_sessions (delete (form_get r "cookieid")));;
       mret (redirect (externalURL cfg)).

Definition endsession (r : Request) : Eff SWorld Response :=
  if negb (is_get r) && negb (is_post r) then mret NotFound
  else
    claims ← decodeJWT cfg (form_get r "id_token_hint");
    match claims with
    | None => mret (error_page "ID token not for us")
    | Some c =>
        sessions ← get_st sv_sessions;
        order ← rangeMap sessions;
        let id := getSessionByAdvertisedSub order (claim_string c "sub") in
        if decide (id = EmptyString) then mret (error_page "Error logging out")
        else mret (render (PEndsession id (s_Username (default zero_session (sessions !! id)))
                             (form_get r "post_logout_redirect_uri")))
    end.

Definition endsessionApprove (r : Request) : Eff SWorld Response :=
  if negb (is_get r) && negb (is_post r) then mret NotFound
  else mod_st (up_sessions (delete (form_get r "sessionid")));;
       mret (redirect (form_get r "redirurl")).
End authorize.
