(* ===== verification/IdpToken.v ===== *)
(** * The token endpoint and the resources tokens open

    [token] of [main.go] in its three parts (what a grant establishes, client
    authentication, the issuing of tokens), and [userinfo] and [avatar], which an
    access token opens. *)

From S2P Require Import Prelude GoStrings GoNet GoURL GoBase64 GoPath Runtime RuntimeExample.
From S2P Require Import IdpState IdpUtil IdpRegistry IdpMetadata IdpClientAuth IdpJwt.
From S2P Require Import IdpSessions.
From Stdlib Require Import Ascii.
From stdpp Require Import options.
Local Open Scope Z_scope.

(** What a grant establishes, from the server's state alone. *)
Record grantResult := {
  g_advertisedSub : string;
  g_scope : string;
  g_clientID : string;
  g_cookieID : string;
  g_clientSessionID : string;
  g_idTokenClaims : Claims;
  g_accessClaims : Claims
}.

(** [idTokenOnlyClaims] and [claimScopes]. *)
Definition idTokenOnlyClaims : list string :=
  ["iss"; "aud"; "azp"; "exp"; "iat"; "nbf"; "jti"; "nonce"; "auth_time"; "at_hash"; "c_hash";
   "acr"; "amr"].

Definition claimScopes (name : string) : option string :=
  if decide (name ∈ ["name"; "preferred_username"; "picture"]) then Some "profile"
  else if decide (name ∈ ["email"; "email_verified"]) then Some "email"
  else None.

Section token.
Context `{Runtime} (cfg : Config).
Abbreviation SWorld := (World server).

(** ** The grants *)

Definition invalid_grant (status : Z) : Response := writeOAuthError status "invalid_grant".

Definition pkce_ok (challenge method verifier : string) : bool :=
  if decide (challenge = EmptyString) then true
  else if decide (method = "plain") then bool_decide (verifier = challenge)
  else if decide (method = "S256") then bool_decide (raw_url_encode (sha256 verifier) = challenge)
  else false.

(** [accessClaims["csid"] = id]: the map is the one stored in the session. *)
Definition set_csid (cs : clientSession) : clientSession :=
  {| cs_SessionID := cs_SessionID cs; cs_ClientID := cs_ClientID cs;
     cs_AdvertisedSub := cs_AdvertisedSub cs; cs_Scope := cs_Scope cs;
     cs_RedirectURI := cs_RedirectURI cs; cs_CodeChallenge := cs_CodeChallenge cs;
     cs_CodeChallengeMethod := cs_CodeChallengeMethod cs; cs_IDTokenClaims := cs_IDTokenClaims cs;
     cs_AccessTokenClaims := insert "csid" (VStr (cs_SessionID cs)) <$> cs_AccessTokenClaims cs;
     cs_RefreshTokenClaims := cs_RefreshTokenClaims cs |}.

Definition update_session (cookieID : string) (p : clientSession → bool)
    (f : clientSession → clientSession) (m : gmap string session) : gmap string session :=
  match m !! cookieID with
  | Some sess => <[cookieID := with_client_sessions sess (update_first p f (s_ClientSessions sess))]> m
  | None => m
  end.

(** The claims a client session's tokens are issued from. *)
Definition grant_of (cookieID : string) (sess : session) (cs : clientSession) (nonce : string)
    : grantResult :=
  {| g_advertisedSub := cs_AdvertisedSub cs; g_scope := cs_Scope cs;
     g_clientID := cs_ClientID cs; g_cookieID := cookieID;
     g_clientSessionID := cs_SessionID cs;
     g_idTokenClaims :=
       match cs_IDTokenClaims cs with
       | Some c => c
       | None => defaultIDTokenClaims cfg
           {| ac_Scope := cs_Scope cs; ac_ClientID := cs_ClientID cs;
              ac_RedirectURI := cs_RedirectURI cs; ac_State := ""; ac_Nonce := nonce;
              ac_CodeChallenge := ""; ac_CodeChallengeMethod := "";
              ac_Username := s_Username sess; ac_Sub := s_Sub sess |}
       end;
     g_accessClaims :=
       <["csid" := VStr (cs_SessionID cs)]>
         match cs_AccessTokenClaims cs with
         | Some c => c
         | None => defaultAccessTokenClaims
             {| ac_Scope := cs_Scope cs; ac_ClientID := ""; ac_RedirectURI := ""; ac_State := "";
                ac_Nonce := ""; ac_CodeChallenge := ""; ac_CodeChallengeMethod := "";
                ac_Username := ""; ac_Sub := "" |}
         end |}.

Definition redeem_code (r : Request) : Eff SWorld (Response + grantResult) :=
  let code := form_get r "code" in
  stored ← get_st (λ s, sv_codeMeta s !! code);
  match stored with
  | None => mret (inl (invalid_grant 403))
  | Some meta =>
      mod_st (up_codeMeta (delete code));;
      found ← get_st (λ s, sv_sessions s !! cm_CookieID meta);
      match found with
      | None => mret (inl (invalid_grant 403))
      | Some sess =>
          match getClientSessionByID sess (cm_ClientID meta) with
          | None => mret (inl (invalid_grant 403))
          | Some cs =>
              if negb (pkce_ok (cs_CodeChallenge cs) (cs_CodeChallengeMethod cs)
                         (form_get r "code_verifier"))
              then mret (inl (invalid_grant 403))
              else
                mod_st (up_sessions (update_session (cm_CookieID meta)
                          (λ c, bool_decide (cs_ClientID c = cm_ClientID meta)) set_csid));;
                mret (inr (grant_of (cm_CookieID meta) sess cs (cm_Nonce meta)))
          end
      end
  end.

Definition redeem_refresh (r : Request) : Eff SWorld (Response + grantResult) :=
  claims ← decodeJWT cfg (form_get r "refresh_token");
  match claims with
  | None => mret (inl (invalid_grant 401))
  | Some c =>
      sessions ← get_st sv_sessions;
      order ← rangeMap sessions;
      match getSessionByClientSessionID order (claim_string c "csid") with
      | None => mret (inl (invalid_grant 401))
      | Some (cookieID, sess, cs) =>
          mod_st (up_sessions (update_session cookieID
                    (λ x, bool_decide (cs_SessionID x = claim_string c "csid")) set_csid));;
          mret (inr (grant_of cookieID sess cs EmptyString))
      end
  end.

Definition redeem (r : Request) : Eff SWorld (Response + grantResult) :=
  let grantType := form_get r "grant_type" in
  if decide (grantType = "authorization_code") then redeem_code r
  else if decide (grantType = "refresh_token") then redeem_refresh r
  else mret (inl (writeOAuthError 400 "unsupported_grant_type")).

(** ** Issuing tokens *)

Definition access_audience : list string :=
  dedupeStrings ((externalURL cfg +:+ "/userinfo") :: extraAudiences cfg).

Definition refresh_claims (g : grantResult) : Claims :=
  <["token_use" := VStr "refresh"]> (<["csid" := VStr (g_clientSessionID g)]> ∅).

(** [if cond then issue ... ]: [None] on a signing error. *)
Definition issue_if (cond : bool) (subject : string) (audience : list string) (claims : Claims)
    (lifetime : Z) : Eff SWorld (option (option (string * Claims))) :=
  if cond then
    now ← tNow;
    issued ← issueToken cfg subject audience claims (now + lifetime);
    mret (Some <$> issued)
  else mret (Some None).

Definition token_error : Response := respond 500 (BText "token issue error").

(** The stored client session as last issued. *)
Definition as_issued (g : grantResult) (access : Claims) (refresh idToken : option Claims)
    (cs : clientSession) : clientSession :=
  {| cs_SessionID := cs_SessionID cs; cs_ClientID := cs_ClientID cs;
     cs_AdvertisedSub := g_advertisedSub g; cs_Scope := cs_Scope cs;
     cs_RedirectURI := cs_RedirectURI cs; cs_CodeChallenge := cs_CodeChallenge cs;
     cs_CodeChallengeMethod := cs_CodeChallengeMethod cs;
     cs_IDTokenClaims := match idToken with Some c => Some c | None => cs_IDTokenClaims cs end;
     cs_AccessTokenClaims := Some access; cs_RefreshTokenClaims := refresh |}.

Definition optional (name : string) (v : option string) (c : Claims) : Claims :=
  match v with Some s => <[name := VStr s]> c | None => c end.

Definition token_response (access : string) (refresh idToken : option string) : Response :=
  {| rs_status := 200; rs_header := [("Content-Type", "application/json")]; rs_cookies := [];
     rs_body := BClaims (optional "id_token" idToken (optional "refresh_token" refresh
       (<["access_token" := VStr access]> (<["expires_in" := VInt (accessTokenLifetime cfg)]>
       (<["token_type" := VStr "Bearer"]> ∅))))) |}.

Definition issue_tokens (g : grantResult) : Eff SWorld Response :=
  access ← issue_if true (g_advertisedSub g) access_audience (g_accessClaims g)
             (seconds_duration (accessTokenLifetime cfg));
  match access with
  | None | Some None => mret token_error
  | Some (Some (accessToken, issuedAccess)) =>
  refresh ← issue_if (hasScope (g_scope g) "offline_access") (g_advertisedSub g)
              [externalURL cfg +:+ "/token"] (refresh_claims g)
              (seconds_duration (refreshTokenLifetime cfg));
  match refresh with
  | None => mret token_error
  | Some refresh =>
  idToken ← issue_if (hasScope (g_scope g) "openid") (g_advertisedSub g) [g_clientID g]
              (g_idTokenClaims g) (60 * minute);
  match idToken with
  | None => mret token_error
  | Some idToken =>
      mod_st (up_sessions (update_session (g_cookieID g)
        (λ cs, bool_decide (cs_SessionID cs = g_clientSessionID g))
        (as_issued g issuedAccess (snd <$> refresh) (snd <$> idToken))));;
      mret (token_response accessToken (fst <$> refresh) (fst <$> idToken))
  end end end.

Definition token (r : Request) : Eff SWorld Response :=
  if negb (is_post r) then mret NotFound
  else
    let creds := parseClientCredentials r in
    granted ← redeem r;
    match granted with
    | inl e => mret e
    | inr g =>
        authenticated ← authenticateClient cfg (g_clientID g) creds;
        if negb authenticated then mret (writeClientAuthError (cc_method creds))
        else issue_tokens g
    end.

(** ** What an access token opens *)

Definition userinfo_visible (scope name : string) : bool :=
  bool_decide (name ∉ idTokenOnlyClaims) && bool_decide (name ≠ "sub") &&
  match claimScopes name with Some s => hasScope scope s | None => true end.

Definition derived_claims (scope username : string) : Claims :=
  let profile : Claims :=
    if bool_decide (username ≠ EmptyString) && hasScope scope "profile" then
      <["preferred_username" := VStr username]> (<["name" := VStr (capitalize username)]>
      (<["picture" := VStr (avatarURL cfg username)]> ∅))
    else ∅ in
  if bool_decide (username ≠ EmptyString) && hasScope scope "email" then
    <["email" := VStr (emailForUsername cfg username)]> (<["email_verified" := VBool true]> profile)
  else profile.

Definition userinfo_claims (scope sub : string) (found : option (string * session * clientSession))
    : Claims :=
  <["sub" := VStr sub]>
    match found with
    | Some (_, sess, cs) =>
        match copyClaims (cs_IDTokenClaims cs) with
        | Some issued => filter (λ nv, userinfo_visible scope nv.1 = true) issued
        | None => derived_claims scope (s_Username sess)
        end
    | None => derived_claims scope EmptyString
    end.

Definition userinfo (r : Request) : Eff SWorld Response :=
  if negb (is_get r) && negb (is_post r) then mret NotFound
  else
    claims ← extractAccessToken cfg r;
    match claims with
    | None => mret (writeBearerError cfg 401 "invalid_token")
    | Some c =>
        sessions ← get_st sv_sessions;
        order ← rangeMap sessions;
        let found := getSessionByClientSessionID order (claim_string c "csid") in
        mret {| rs_status := 200; rs_header := [("Content-Type", "application/json")];
                rs_cookies := [];
                rs_body := BClaims (userinfo_claims (claim_string c "scope")
                                      (claim_string c "sub") found) |}
    end.

(** [filepath.Base] *)
Definition path_base (p : string) : string :=
  if decide (p = EmptyString) then "."
  else match trim_right_char "/" p with
       | EmptyString => "/"
       | q => match cut_last "/" q with Some (_, b) => b | None => q end
       end.

Definition serve_avatar (r : Request) : Response :=
  {| rs_status := 200; rs_header := [("Content-Type", "image/svg+xml")]; rs_cookies := [];
     rs_body := BFile (path_Join (templatesDir cfg) ("avatars/" +:+ path_base (r_path r))) |}.

Definition avatar (r : Request) : Eff SWorld Response :=
  if negb (is_get r) then mret NotFound
  else if negb (protectPictureURL cfg) then mret (serve_avatar r)
  else
    claims ← extractAccessToken cfg r;
    match claims with
    | None => mret (writeBearerError cfg 401 "invalid_token")
    | Some c =>
        sessions ← get_st sv_sessions;
        order ← rangeMap sessions;
        match getSessionByClientSessionID order (claim_string c "csid") with
        | None => mret (writeBearerError cfg 401 "invalid_token")
        | Some (_, sess, _) =>
            if decide (path_base (r_path r) ≠ digit_string (avatarIndex (s_Username sess)) +:+ ".svg")
            then mret (writeBearerError cfg 403 "invalid_token")
            else mret (serve_avatar r)
        end
    end.

Definition internalAvatar (r : Request) : Eff SWorld Response :=
  mret (if negb (is_get r) then NotFound else serve_avatar r).
End token.
