(* ===== verification/IdpDiscovery.v ===== *)
(** * Published documents and pages

    [jwks], [openidConfiguration], [styleCSS] and the session page [index] of
    [main.go], with the byte strings of integers that JWKs carry. *)

From S2P Require Import Prelude GoStrings GoNet GoURL GoBase64 GoPath Runtime RuntimeExample.
From S2P Require Import IdpState IdpUtil IdpRegistry IdpMetadata IdpClientAuth.
From Stdlib Require Import Ascii.
From stdpp Require Import options.
Local Open Scope Z_scope.

(** [big.Int.Bytes]: big-endian, without leading zero bytes; the fuel is the
    bit length, and a step removes eight bits. *)
Fixpoint be_bytes (fuel : nat) (n : Z) (acc : string) : string :=
  match fuel with
  | O => acc
  | S fuel =>
      if n <=? 0 then acc
      else be_bytes fuel (n / 256) (String (ascii_of_N (Z.to_N (n mod 256))) acc)
  end.

Definition big_bytes (n : Z) : string := be_bytes (Z.to_nat (Z.log2 n + 1)) n EmptyString.

(** The integer of a big-endian byte string. *)
Definition be_value (acc : Z) (s : string) : Z :=
  foldl (λ v c, v * 256 + Z.of_N (N_of_ascii c)) acc (chars s).

Section discovery.
Context `{Runtime} (cfg : Config).
Abbreviation SWorld := (World server).

Definition json_response (c : Claims) : Response :=
  {| rs_status := 200; rs_header := [("Content-Type", "application/json")]; rs_cookies := [];
     rs_body := BClaims c |}.

(** The provider's key is RSA ([newServer] generates it). *)
Definition jwk_members (n e : Z) : list (string * json) :=
  [ ("kty", JStr "RSA"); ("kid", JStr "k0"); ("alg", JStr "RS256"); ("use", JStr "sig");
    ("n", JStr (raw_url_encode (big_bytes n))); ("e", JStr (raw_url_encode (big_bytes e))) ].

Definition jwks (r : Request) : Eff SWorld Response :=
  if negb (is_get r) then mret NotFound
  else mret (json_response
    match publicKey cfg with
    | RSAPublic n e => {["keys" := VJ (JArr [JObj (jwk_members n e)])]}
    | _ => ∅
    end).

Definition strings (l : list string) : goval := VStrs l.

Definition configuration : Claims :=
  list_to_map
    [ ("issuer", VStr (externalURL cfg));
      ("authorization_endpoint", VStr (externalURL cfg +:+ "/authorize"));
      ("token_endpoint", VStr (externalURL cfg +:+ "/token"));
      ("userinfo_endpoint", VStr (externalURL cfg +:+ "/userinfo"));
      ("jwks_uri", VStr (externalURL cfg +:+ "/.well-known/jwks.json"));
      ("end_session_endpoint", VStr (externalURL cfg +:+ "/endsession"));
      ("response_types_supported", strings ["code"]);
      ("subject_types_supported", strings [subjectType cfg]);
      ("id_token_signing_alg_values_supported", strings ["RS256"]);
      ("grant_types_supported", strings ["authorization_code"; "refresh_token"]);
      ("code_challenge_methods_supported", strings supportedCodeChallengeMethods);
      ("scopes_supported", strings ["openid"; "profile"; "email"; "offline_access"]);
      ("claims_supported", strings ["sub"; "name"; "picture"; "email"; "email_verified"]);
      ("registration_endpoint", VStr (externalURL cfg +:+ "/register"));
      ("token_endpoint_auth_methods_supported", strings advertisedTokenEndpointAuthMethods);
      ("token_endpoint_auth_signing_alg_values_supported",
         strings advertisedTokenEndpointAuthSigningAlgs);
      ("authorization_response_iss_parameter_supported", VBool true);
      ("client_id_metadata_document_supported", VBool true) ].

Definition openidConfiguration (r : Request) : Eff SWorld Response :=
  mret (if negb (is_get r) then NotFound else json_response configuration).

Definition styleCSS (r : Request) : Eff SWorld Response :=
  mret (if negb (is_get r) then NotFound
        else respond 200 (BFile (path_Join (templatesDir cfg) "style.css"))).

Definition client_session_view (cs : clientSession) : clientSessionView :=
  {| cv_ClientID := cs_ClientID cs; cv_AdvertisedSub := cs_AdvertisedSub cs;
     cv_Scope := cs_Scope cs;
     cv_IDTokenIssued := bool_decide (is_Some (cs_IDTokenClaims cs));
     cv_RefreshTokenIssued := bool_decide (is_Some (cs_RefreshTokenClaims cs));
     cv_IDTokenClaimsJSON := default "{}" (claimsToPrettyJSON (cs_IDTokenClaims cs));
     cv_AccessTokenClaimsJSON := default "{}" (claimsToPrettyJSON (cs_AccessTokenClaims cs));
     cv_IDTokenExpiry := formatExpiryClaim (cs_IDTokenClaims cs);
     cv_AccessTokenExpiry := formatExpiryClaim (cs_AccessTokenClaims cs);
     cv_RefreshTokenExpiry := formatExpiryClaim (cs_RefreshTokenClaims cs) |}.

Definition session_view (ks : string * session) : sessionView :=
  {| sv_CookieID := ks.1; sv_Username := s_Username ks.2; sv_Sub := s_Sub ks.2;
     sv_AvatarURL := internalAvatarURL cfg (s_Username ks.2);
     sv_ClientViews := client_session_view <$> s_ClientSessions ks.2 |}.

Definition index (r : Request) : Eff SWorld Response :=
  if negb (is_get r) || bool_decide (r_path r ≠ "/") then mret NotFound
  else
    sessions ← get_st sv_sessions;
    order ← rangeMap sessions;
    mret (render (PIndex (session_view <$> order))).
End discovery.

(** ** Facts *)

Lemma be_value_app v a b : be_value v (a +:+ b) = be_value (be_value v a) b.
Proof. revert v. induction a as [|c a IH]; intros v; [done|]. simpl. apply IH. Qed.

Lemma be_value_cons v c s : be_value v (String c s) = be_value (v * 256 + Z.of_N (N_of_ascii c)) s.
Proof. done. Qed.

(** Enough fuel: the bytes produced stand for the number, before the rest. *)
Lemma be_bytes_value fuel n acc :
  0 <= n < 2 ^ Z.of_nat fuel → be_value 0 (be_bytes fuel n acc) = be_value n acc.
Proof.
  revert n acc. induction fuel as [|fuel IH]; intros n acc Hn; simpl.
  - change (2 ^ Z.of_nat 0) with 1 in Hn. by replace n with 0 by lia.
  - destruct (n <=? 0) eqn:E; [apply Z.leb_le in E; by replace n with 0 by lia|].
    apply Z.leb_gt in E. rewrite IH.
    + rewrite be_value_cons, N_ascii_embedding by (pose proof (Z.mod_pos_bound n 256); lia).
      rewrite Z2N.id by (pose proof (Z.mod_pos_bound n 256); lia).
      f_equal. pose proof (Z.div_mod n 256). lia.
    + rewrite Nat2Z.inj_succ, Z.pow_succ_r in Hn by lia. split; [apply Z.div_pos; lia|].
      apply Z.div_lt_upper_bound; lia.
Qed.

Lemma big_bytes_value n : 0 <= n → be_value 0 (big_bytes n) = n.
Proof.
  intros Hn. unfold big_bytes. rewrite be_bytes_value; [done|]. split; [done|].
  rewrite Z2Nat.id by (pose proof (Z.log2_nonneg n); lia).
  destruct (decide (n = 0)) as [->|]; [done|]. apply Z.log2_spec. lia.
Qed.

Section promises.
Context `{Runtime} (cfg : Config).

(** C36: The published JWK set holds one key, and decoding its modulus and exponent
    gives back the RSA key tokens are signed and checked with. *)
Theorem jwks_publishes_the_key r w n e :
  is_get r = true → publicKey cfg = RSAPublic n e → 0 <= n → 0 <= e →
  ∃ members nb eb,
    rs_body (jwks cfg r w).1 = BClaims {["keys" := VJ (JArr [JObj members])]} ∧
    ("n", JStr nb) ∈ members ∧ ("e", JStr eb) ∈ members ∧ ("kty", JStr "RSA") ∈ members ∧
    be_value 0 <$> raw_url_decode nb = Some n ∧ be_value 0 <$> raw_url_decode eb = Some e.
Proof.
  intros Hg Hk Hn He. unfold jwks. rewrite Hg, Hk. simpl.
  exists (jwk_members n e), (raw_url_encode (big_bytes n)), (raw_url_encode (big_bytes e)).
  split; [done|]. rewrite !raw_url_decode_encode. simpl. rewrite !big_bytes_value by done.
  unfold jwk_members. split_and!; try done; set_solver.
Qed.
End promises.
