(* ===== verification/IdpInvariant.v ===== *)
(** * The provider's invariant, handler by handler

    [world_ok] collects what holds of the server between requests: the client
    registry, the sessions and the outstanding codes.  Each handler of
    IdpRegistry, IdpAuthorize, IdpToken and IdpDiscovery preserves it. *)

From S2P Require Import Prelude GoStrings GoNet GoURL GoBase64 Runtime RuntimeExample IdpState.
From S2P Require Import IdpUtil IdpRegistry IdpMetadata IdpClientAuth IdpJwt IdpSessions.
From S2P Require Import IdpAuthorize IdpToken IdpDiscovery.
From stdpp Require Import options.

Section readers.
Context `{HR : Runtime} (cfg : Config).

(** ** The handlers that only read *)

Lemma outside_userinfo P r : outside P (userinfo cfg r).
Proof.
  unfold userinfo. destruct (negb _ && negb _); [apply outside_ret|].
  apply outside_bind; [apply outside_extractAccessToken|]. intros [c|]; eauto with oidc.
Qed.

Lemma outside_avatar P r : outside P (avatar cfg r).
Proof.
  unfold avatar. destruct (negb _); [apply outside_ret|]. destruct (negb _); [apply outside_ret|].
  apply outside_bind; [apply outside_extractAccessToken|]. intros [c|]; [|apply outside_ret].
  apply outside_bind; [apply outside_get_st|]. intros s.
  apply outside_bind; [apply outside_rangeMap|]. intros o. repeat case_match; apply outside_ret.
Qed.

Lemma outside_endsession P r : outside P (endsession cfg r).
Proof.
  unfold endsession. destruct (negb _ && negb _); [apply outside_ret|].
  apply outside_bind; [apply outside_decodeJWT|]. intros [c|]; [|apply outside_ret].
  apply outside_bind; [apply outside_get_st|]. intros s.
  apply outside_bind; [apply outside_rangeMap|]. intros o. cbv zeta.
  case_match; apply outside_ret.
Qed.

Lemma outside_index P r : outside P (index cfg r).
Proof. unfold index. destruct (negb _ || _); eauto with oidc. Qed.

Lemma outside_clientsPage P r : outside P (clientsPage r).
Proof. unfold clientsPage. destruct (negb _); eauto with oidc. Qed.

Lemma outside_jwks P r : outside P (jwks cfg r).
Proof. unfold jwks. destruct (negb _); apply outside_ret. Qed.

Lemma outside_issue_if P c sub aud claims l : outside P (issue_if cfg c sub aud claims l).
Proof.
  unfold issue_if. destruct c; [|apply outside_ret].
  apply outside_bind; [apply outside_tNow|]. intros now.
  apply outside_bind; [apply outside_issueToken|]. intros. apply outside_ret.
Qed.
End readers.

Section invariant.
Context `{HR : Runtime, HL : !RuntimeLaws, HJ : !JwtLaws} (cfg : Config).
Implicit Types (w : World server).
Set Default Proof Using "All".

Record world_ok w : Prop := {
  wo_registry : registry_ok (w_st w);
  wo_sessions : sessions_ok (w_uuid w) (sv_sessions (w_st w));
  wo_codes c : is_Some (sv_codeMeta (w_st w) !! c) → issued (w_uuid w) c
}.

Lemma world_ok_same w w' :
  w_st w' = w_st w → (w_uuid w ≤ w_uuid w')%nat → world_ok w → world_ok w'.
Proof.
  intros E L [H1 H2 H3]. split; rewrite E; [done|by eapply sessions_ok_mono|].
  intros c Hc. eapply issued_mono; eauto.
Qed.

Lemma ok_outside {P A} (m : Eff (World server) A) : outside P m → preserves world_ok m.
Proof.
  intros Hm w Hw. apply (wp_outside (P:=P)); [done|]. intros x w' E L. by eapply world_ok_same.
Qed.

Lemma ok_ret {A} (x : A) : preserves world_ok (mret x).
Proof. apply preserves_ret. Qed.

Lemma ok_authContext f : preserves world_ok (mod_st (up_authContext f)).
Proof. intros w [H1 H2 H3]. by split. Qed.

Lemma ok_delete_session k : preserves world_ok (mod_st (up_sessions (delete k))).
Proof. intros w [H1 H2 H3]. split; [done|by apply sessions_ok_delete|done]. Qed.

Lemma ok_delete_code c : preserves world_ok (mod_st (up_codeMeta (delete c))).
Proof.
  intros w [H1 H2 H3]. split; [done|done|]. simpl. intros c' Hc. apply H3.
  destruct Hc as [m Hm]. apply lookup_delete_Some in Hm as [_ Hm]. eauto.
Qed.

(** A session replaced by one with the same identifiers. *)
Lemma ok_update_session k s s' w :
  sv_sessions (w_st w) !! k = Some s → shape_of s' = shape_of s →
  world_ok w → world_ok (set_st (up_sessions (<[k := s']>) (w_st w)) w).
Proof. intros Hk Hs [H1 H2 H3]. split; [done| |done]. by eapply sessions_ok_update. Qed.

(** ** The registry *)

Lemma ok_clients w f :
  world_ok w → clients_ok (f (sv_clients (w_st w))) →
  world_ok (set_st (up_clients f (w_st w)) w).
Proof. intros [[_ Hm] H2 H3] Hc. by split. Qed.

Lemma ok_registerClientLocked id uri scope :
  preserves world_ok (registerClientLocked id uri scope).
Proof.
  intros w [[Hc Hm] H2 H3]. apply wp_registerClientLocked. intros now w' E U.
  split; rewrite E, ?U; [|done|done]. split; [|done]. by apply registered_ok.
Qed.

Lemma ok_resolve id : preserves world_ok (resolveClientIDMetadata cfg id).
Proof.
  intros w [H1 H2 H3]. unfold wp. destruct (wp_resolve cfg id w) as [Ho L].
  pose proof (resolve_registry_ok _ _ _ _ Ho H1) as Hr.
  destruct (steps_resolve cfg auth_step id w) as (_ & Ec & Es & _).
  split; [done|rewrite Es; by eapply sessions_ok_mono|]. rewrite Ec.
  intros c Hcm. eapply issued_mono; eauto.
Qed.

Lemma ok_register r : preserves world_ok (register r).
Proof.
  intros w Hw. unfold wp. destruct (wp_register r w) as [Ho L].
  destruct (steps_register cfg auth_step r w) as (_ & Ec & Es & _).
  destruct Hw as [[Hc Hm] H2 H3].
  split; [|rewrite Es; by eapply sessions_ok_mono|rewrite Ec; eauto using issued_mono].
  inversion Ho as [? E|code text ? ? E|sub norm reg resp _ _ Hn Hreg _ _ _ E].
  - done.
  - done.
  - split; simpl; [|done]. apply clients_ok_insert; [done|]. rewrite Hreg. simpl.
    apply client_ok_dynamic. by eapply normalize_metadata_ok.
Qed.

(** ** Codes and sessions *)

Lemma ok_issueCodeAndRedirect sess id st n :
  preserves world_ok (issueCodeAndRedirect cfg sess id st n).
Proof.
  intros w Hw. unfold issueCodeAndRedirect. apply wp_bind, wp_newUUID, wp_bind, wp_mod_st.
  assert (∀ m, world_ok (set_st (up_codeMeta (<[uuid_new (w_uuid w) := m]>) (w_st w))
    (mkWorld (w_st w) (w_clock w) (S (w_uuid w)) (w_rand w) (w_range w) (w_net w) (w_dials w)))) as Hok.
  { intros m. destruct Hw as [H1 H2 H3]. split; simpl; [done|eapply sessions_ok_mono; [|done]; lia|].
    intros c [m' [[<- _]|[_ Hc]]%lookup_insert_Some]; [apply issued_new|].
    eapply issued_mono; [|by eauto]. lia. }
  destruct (getClientSessionByID sess id); apply Hok.
Qed.

Lemma shape_refresh_session ar sess : shape_of (refresh_session ar sess) = shape_of sess.
Proof.
  unfold refresh_session, updateClientSessionRedirectURI, updateClientSessionPKCE, shape_of. simpl.
  by rewrite !cs_ids_update_first.
Qed.

Lemma ok_continue_session ar k sess w :
  sv_sessions (w_st w) !! k = Some sess → world_ok w →
  wp (continue_session cfg ar k sess) (λ _, world_ok) w.
Proof.
  intros Hk Hw. unfold continue_session. apply wp_bind, wp_mod_st.
  apply ok_issueCodeAndRedirect. eapply ok_update_session; [done| |done].
  apply shape_refresh_session.
Qed.

(** Ranging over the sessions, with what the lookups then find. *)
Lemma ok_range_sessions {A} (f : list (string * session) → Eff (World server) A) w :
  world_ok w →
  (∀ order w', order ≡ₚ map_to_list (sv_sessions (w_st w)) → w_st w' = w_st w → world_ok w' →
     wp (f order) (λ _, world_ok) w') →
  wp (order ← rangeMap (sv_sessions (w_st w)); f order) (λ _, world_ok) w.
Proof.
  intros Hw Hf. apply wp_bind, wp_rangeMap. intros order w' Ho E U.
  apply Hf; [done|done|]. eapply world_ok_same; [done| |done]. by rewrite U.
Qed.

Lemma ok_silent_authorize ar hint : preserves world_ok (silent_authorize cfg ar hint).
Proof.
  apply (preserves_bind world_ok); [apply (ok_outside (P:=λ _, True)), outside_decodeJWT|].
  intros [c|]; [|apply ok_ret]. intros w Hw. apply wp_bind, wp_get_st.
  apply ok_range_sessions; [done|]. intros order w' Ho E Hw'. cbv zeta.
  remember (getSessionByAdvertisedSub order (claim_string c "sub")) as id eqn:Hid.
  destruct (decide (id = EmptyString)) as [|Hne]; [done|].
  destruct (getSessionByAdvertisedSub_Some order _ id (eq_sym Hid) Hne) as (s & cs & Hin & _ & _).
  pose proof (order_lookup _ _ _ _ Ho Hin) as Hs. rewrite Hs.
  apply ok_continue_session; [by rewrite E|done].
Qed.

Lemma ok_resolveAuthorizeClient ar : preserves world_ok (resolveAuthorizeClient cfg ar).
Proof.
  apply preserves_bind.
  - unfold authorize_registration. destruct (isClientIDMetadataDocumentURL _); [apply ok_resolve|].
    apply preserves_bind; [apply ok_registerClientLocked|]. intros [].
    apply preserves_bind; [apply preserves_reads|]. intros reg. apply ok_ret.
  - intros [reg|]; [|apply ok_ret]. repeat case_match; apply ok_ret.
Qed.

Lemma ok_authorize r : preserves world_ok (authorize cfg r).
Proof.
  unfold authorize. destruct (negb _ && negb _); [apply ok_ret|]. cbv zeta.
  destruct (decide (_ ∧ _)); [apply ok_ret|].
  apply preserves_bind; [apply ok_resolveAuthorizeClient|]. intros [e|]; [apply ok_ret|].
  apply preserves_bind; [apply (ok_outside (P:=λ _, True)), outside_newUUID|]. intros reqID.
  intros w Hw. apply wp_bind, wp_get_st.
  destruct (sv_sessions (w_st w) !! _) as [sess|] eqn:Hs; [by apply ok_continue_session|].
  destruct (decide _); [by apply ok_silent_authorize|].
  unfold request_login. apply wp_bind. eapply wp_mono; [by apply ok_authContext|]. done.
Qed.

Lemma ok_login r : preserves world_ok (login cfg r).
Proof.
  unfold login. destruct (negb _); [apply ok_ret|]. cbv zeta. destruct (decide _); [apply ok_ret|].
  apply preserves_bind; [apply preserves_reads|]. intros ctx.
  apply preserves_bind; [apply ok_authContext|]. intros []. repeat case_match; apply ok_ret.
Qed.

(** ** Approval *)

(** What [session_for] hands on: the user's session as stored, or a fresh one. *)
Lemma wp_session_for ctx w :
  world_ok w →
  wp (session_for ctx) (λ sess w',
    w_st w' = w_st w ∧
    sessions_ok (w_uuid w') (<[s_CookieID sess := sess]> (sv_sessions (w_st w))) ∧
    (w_uuid w ≤ w_uuid w')%nat ∧ s_Sub sess = ac_Sub ctx) w.
Proof.
  intros Hw. unfold session_for. apply wp_bind, wp_get_st, wp_bind, wp_rangeMap.
  intros order w' Ho E U. destruct Hw as [_ Hs _].
  destruct (getSessionBySub order (ac_Sub ctx)) as [sess|] eqn:Hsub.
  - apply getSessionBySub_Some in Hsub as (k & Hin & Hsub).
    pose proof (order_lookup _ _ _ _ Ho Hin) as Hk.
    destruct (sessions_cookie _ _ Hs _ _ Hk) as [Hc _]. apply wp_ret.
    split_and!; [done| |by rewrite U|done]. rewrite Hc, insert_id, U; done.
  - apply wp_bind, wp_newUUID, wp_ret. simpl. split_and!; [done| |lia|done].
    unfold sessions_ok. rewrite fmap_insert, U. apply shapes_ok_new; [done|].
    intros k s Hk. rewrite lookup_fmap in Hk.
    destruct (sv_sessions (w_st w) !! k) as [s'|] eqn:Hs'; [|done]. injection Hk as <-. simpl.
    intros E'. unfold getSessionBySub in Hsub.
    destruct (list_find _ order) as [[i [k' s'']]|] eqn:Hf; [done|].
    apply list_find_None in Hf. rewrite Forall_forall in Hf.
    apply (Hf (k, s')); [rewrite Ho; by apply elem_of_map_to_list|done].
Qed.

Lemma ok_grant reqID ctx idc acc : preserves world_ok (grant cfg reqID ctx idc acc).
Proof.
  apply (preserves_bind world_ok); [apply ok_authContext|]. intros [] w Hw. apply wp_bind.
  eapply wp_mono; [by apply wp_session_for|]. intros sess w1 (E1 & Hs & L1 & _). apply wp_bind.
  assert (sessions_ok (w_uuid w1) (<[s_CookieID sess := sess]> (sv_sessions (w_st w1)))) as Hs1
    by (by rewrite E1).
  assert (world_ok w1) as Hw1 by (by eapply world_ok_same).
  assert (∀ csID w2, w_st w2 = w_st w1 → (w_uuid w1 ≤ w_uuid w2)%nat →
    let sess' := with_client_sessions sess (upsertClientSession (s_ClientSessions sess)
                   (approved_session cfg ctx csID idc acc)) in
    sessions_ok (w_uuid w2) (<[s_CookieID sess := sess']> (sv_sessions (w_st w1))) →
    wp (mod_st (up_sessions (<[s_CookieID sess' := sess']>));;
        issueCodeAndRedirect cfg sess' (ac_ClientID ctx) (ac_State ctx) (ac_Nonce ctx))
       (λ _, world_ok) w2) as Hissue.
  { intros csID w2 E2 L2 sess' Hok. apply wp_bind, wp_mod_st, ok_issueCodeAndRedirect.
    assert (world_ok w2) as [H1 H2 H3] by (by eapply world_ok_same).
    split; simpl; [done| |done]. by rewrite E2. }
  pose proof (lookup_insert_eq (sv_sessions (w_st w1)) (s_CookieID sess) sess) as Hlk.
  unfold client_session_id.
  destruct (getClientSessionByID sess (ac_ClientID ctx)) as [c|] eqn:Hc.
  - pose proof Hc as Hc'. apply find_client_session_Some in Hc' as [Hin _].
    destruct (decide (cs_SessionID c = EmptyString)) as [He|Hne].
    { by destruct (issued_nonempty _ _ (sessions_csid _ _ Hs1 _ _ _ Hlk Hin)). }
    apply wp_ret, Hissue; [done|done|].
    rewrite <-(insert_insert_eq (sv_sessions (w_st w1)) (s_CookieID sess) _ sess).
    eapply sessions_ok_update; [done| |done]. unfold shape_of. simpl. f_equal.
    by eapply cs_ids_upsert_old.
  - rewrite decide_True by done. apply wp_newUUID, Hissue; [done|simpl; lia|]. simpl.
    rewrite <-(insert_insert_eq (sv_sessions (w_st w1)) (s_CookieID sess) _ sess).
    unfold sessions_ok. rewrite (fmap_insert _ _ (s_CookieID sess) (with_client_sessions _ _)).
    assert (shape_of (with_client_sessions sess (upsertClientSession (s_ClientSessions sess)
      (approved_session cfg ctx (uuid_new (w_uuid w1)) idc acc))) =
      {| sh_cookie := sh_cookie (shape_of sess); sh_sub := sh_sub (shape_of sess);
         sh_ids := sh_ids (shape_of sess) ++ [(ac_ClientID ctx, uuid_new (w_uuid w1))] |}) as ->.
    { unfold shape_of. simpl. f_equal. rewrite cs_ids_upsert_new; [done|].
      by apply getClientSessionByID_None. }
    apply shapes_ok_append; [done|by rewrite lookup_fmap, Hlk|].
    simpl. rewrite cs_ids_fst. by apply getClientSessionByID_None.
Qed.

Lemma ok_approve r : preserves world_ok (approve cfg r).
Proof.
  unfold approve. destruct (negb _); [apply ok_ret|]. cbv zeta.
  apply preserves_bind; [apply preserves_reads|]. intros [ctx|]; [|apply ok_ret].
  destruct (negb _); [apply ok_ret|].
  destruct (parseClaimsJSON _); [|apply ok_ret]. destruct (parseClaimsJSON _); [|apply ok_ret].
  apply ok_grant.
Qed.

(** ** Tokens *)

Lemma ok_update_first k p f w :
  (∀ cs, cs_ClientID (f cs) = cs_ClientID cs ∧ cs_SessionID (f cs) = cs_SessionID cs) →
  world_ok w → wp (mod_st (up_sessions (update_session k p f))) (λ _, world_ok) w.
Proof.
  intros Hf Hw. apply wp_mod_st. unfold update_session, up_sessions.
  destruct (sv_sessions (w_st w) !! k) as [s|] eqn:Hk.
  - eapply (ok_update_session k s); [done| |done]. unfold shape_of. simpl.
    by rewrite cs_ids_update_first.
  - by destruct Hw.
Qed.

Lemma ok_redeem r : preserves world_ok (redeem cfg r).
Proof.
  unfold redeem. destruct (decide _); [|destruct (decide _); [|apply ok_ret]].
  - unfold redeem_code. apply preserves_bind; [apply preserves_reads|].
    intros [m|]; [|apply ok_ret]. apply preserves_bind; [apply ok_delete_code|]. intros [].
    apply preserves_bind; [apply preserves_reads|]. intros [s|]; [|apply ok_ret].
    destruct (getClientSessionByID _ _); [|apply ok_ret]. destruct (negb _); [apply ok_ret|].
    apply preserves_bind; [intros w Hw; by apply ok_update_first|]. intros []. apply ok_ret.
  - unfold redeem_refresh.
    apply preserves_bind; [apply (ok_outside (P:=λ _, True)), outside_decodeJWT|].
    intros [c|]; [|apply ok_ret]. intros w Hw. apply wp_bind, wp_get_st, ok_range_sessions; [done|].
    intros order w' Ho E Hw'. destruct (getSessionByClientSessionID _ _) as [[[k s] cs]|]; [|done].
    apply wp_bind. eapply wp_mono; [by apply ok_update_first|]. done.
Qed.

Lemma ok_issue_tokens g : preserves world_ok (issue_tokens cfg g).
Proof.
  assert (∀ c sub aud claims l, preserves world_ok (issue_if cfg c sub aud claims l)) as Hissue.
  { intros. apply (ok_outside (P:=λ _, True)), outside_issue_if. }
  unfold issue_tokens. apply preserves_bind; [apply Hissue|].
  intros [[[at_ ac]|]|]; [|apply ok_ret..]. apply preserves_bind; [apply Hissue|].
  intros [rt|]; [|apply ok_ret]. apply preserves_bind; [apply Hissue|].
  intros [it|]; [|apply ok_ret].
  apply preserves_bind; [intros w Hw; by apply ok_update_first|]. intros []. apply ok_ret.
Qed.

Lemma ok_authenticateClient id creds : preserves world_ok (authenticateClient cfg id creds).
Proof.
  intros w Hw. unfold wp.
  destruct (wp_authenticateClient cfg id creds w (wo_registry _ Hw)) as [Hr _].
  destruct (steps_authenticateClient cfg auth_step auth_step_consume id creds w) as (_ & Ec & Es & L).
  destruct Hw as [_ H2 H3]. split; [done|rewrite Es; by eapply sessions_ok_mono|].
  rewrite Ec. intros c Hc. eapply issued_mono; eauto.
Qed.

Lemma ok_token r : preserves world_ok (token cfg r).
Proof.
  unfold token. destruct (negb _); [apply ok_ret|]. cbv zeta.
  apply preserves_bind; [apply ok_redeem|]. intros [e|g]; [apply ok_ret|].
  apply preserves_bind; [apply ok_authenticateClient|]. intros [|]; [|apply ok_ret].
  apply ok_issue_tokens.
Qed.

(** ** Ending sessions *)

Lemma ok_logout r : preserves world_ok (logout cfg r).
Proof.
  unfold logout. destruct (negb _); [apply ok_ret|].
  apply preserves_bind; [apply ok_delete_session|]. intros []. apply ok_ret.
Qed.

Lemma ok_endsessionApprove r : preserves world_ok (endsessionApprove r).
Proof.
  unfold endsessionApprove. destruct (negb _ && negb _); [apply ok_ret|].
  apply preserves_bind; [apply ok_delete_session|]. intros []. apply ok_ret.
Qed.
End invariant.
