(* ===== verification/IdpFlow.v ===== *)
(** * What the authorization code flow promises

    The theorems about [authorize], [approve], [token] and [userinfo] together:
    where a redirect may go, what a code stands for, what a token request must
    present and is owed, and what an access token opens. *)

From S2P Require Import Prelude GoStrings GoNet GoURL GoBase64 Runtime RuntimeExample IdpState.
From S2P Require Import IdpUtil IdpRegistry IdpMetadata IdpClientAuth IdpJwt IdpSessions.
From S2P Require Import IdpAuthorize IdpToken IdpInvariant.
From stdpp Require Import options.
Local Open Scope Z_scope.

Section authorize.
Context `{HR : Runtime} (cfg : Config).
Implicit Types (w : World server).

(** ** Issuing a code *)

(** The parameters of a successful authorization response. *)
Definition code_params (code state : string) : gmap string string :=
  params_of [("code", code); ("state", state); ("iss", externalURL cfg)].

(** With the client's session at hand the code is recorded and sent to it. *)
Lemma wp_issue_redirects sess id st n cs w :
  getClientSessionByID sess id = Some cs →
  wp (issueCodeAndRedirect cfg sess id st n)
     (λ resp w', rs_status resp = 303 ∧ rs_cookies resp = [session_cookie (s_CookieID sess)] ∧
        rs_body resp =
          BRedirect (buildURL (cs_RedirectURI cs) (code_params (uuid_new (w_uuid w)) st)) ∧
        w_uuid w' = S (w_uuid w) ∧
        w_st w' = up_codeMeta (<[uuid_new (w_uuid w) :=
          {| cm_CookieID := s_CookieID sess; cm_ClientID := id; cm_Nonce := n |}]>) (w_st w)) w.
Proof.
  intros Hcs. unfold issueCodeAndRedirect. apply wp_bind, wp_newUUID, wp_bind, wp_mod_st.
  rewrite Hcs. by apply wp_ret.
Qed.

Lemma wp_issue sess id st n w :
  wp (issueCodeAndRedirect cfg sess id st n)
     (λ resp w', ∀ t, rs_body resp = BRedirect t →
        ∃ cs, getClientSessionByID sess id = Some cs ∧
          t = buildURL (cs_RedirectURI cs) (code_params (uuid_new (w_uuid w)) st) ∧
          sv_codeMeta (w_st w') !! uuid_new (w_uuid w) =
            Some {| cm_CookieID := s_CookieID sess; cm_ClientID := id; cm_Nonce := n |}) w.
Proof.
  destruct (getClientSessionByID sess id) as [cs|] eqn:Hcs.
  - eapply wp_mono; [by apply wp_issue_redirects|].
    intros resp w' (_ & _ & Hb & _ & Est) t Ht. rewrite Hb in Ht. injection Ht as <-.
    exists cs. rewrite Est. simpl. by rewrite lookup_insert_eq.
  - unfold issueCodeAndRedirect. apply wp_bind, wp_newUUID, wp_bind, wp_mod_st. by rewrite Hcs.
Qed.

Lemma refresh_session_redirect ar sess cs :
  getClientSessionByID (refresh_session ar sess) (ar_clientID ar) = Some cs →
  cs_RedirectURI cs = ar_redirectURI ar.
Proof.
  unfold refresh_session, getClientSessionByID, updateClientSessionRedirectURI. simpl.
  rewrite update_first_lookup by done. destruct (find_client_session _ _); [|done].
  by intros [= <-].
Qed.

(** ** Where [authorize] redirects *)

Definition response_params (ar : authorizeRequest) (s : server) (params : gmap string string) : Prop :=
  params !! "iss" = Some (externalURL cfg) ∧ params !! "state" = Some (ar_state ar) ∧
  (params !! "error" = Some "login_required" ∨
   ∃ code m, params !! "code" = Some code ∧ sv_codeMeta s !! code = Some m ∧
             cm_ClientID m = ar_clientID ar).

Definition redirects_back (ar : authorizeRequest) (resp : Response) (s : server) : Prop :=
  ∀ t, rs_body resp = BRedirect t →
    ∃ params, t = buildURL (ar_redirectURI ar) params ∧ response_params ar s params.

Lemma login_required_back ar s : redirects_back ar (login_required cfg ar) s.
Proof. intros t [= <-]. eexists. split; [done|]. split_and!; [done..|by left]. Qed.

Lemma wp_continue_back ar k sess w :
  wp (continue_session cfg ar k sess) (λ resp w', redirects_back ar resp (w_st w')) w.
Proof.
  unfold continue_session. apply wp_bind, wp_mod_st. eapply wp_mono; [apply wp_issue|].
  intros resp w' Hr t Ht. destruct (Hr t Ht) as (cs & Hcs & -> & Hm).
  apply refresh_session_redirect in Hcs as ->. eexists. split; [done|].
  split_and!; [done|done|]. right. eexists _, _. split_and!; [done|exact Hm|done].
Qed.

Lemma wp_exits_back r ar w :
  wp (reqID ← newUUID;
      let sessionCookie := default EmptyString (cookie_get r sessionCookieName) in
      existing ← get_st (λ s, sv_sessions s !! sessionCookie);
      match existing with
      | Some sess => continue_session cfg ar sessionCookie sess
      | None => if decide (form_get r "prompt" = "none")
                then silent_authorize cfg ar (form_get r "id_token_hint")
                else request_login ar reqID
      end) (λ resp w', redirects_back ar resp (w_st w')) w.
Proof.
  apply wp_bind, wp_newUUID, wp_bind, wp_get_st.
  destruct (sv_sessions _ !! _) as [sess|]; [apply wp_continue_back|].
  destruct (decide _); [|done]. unfold silent_authorize. apply wp_bind.
  apply (wp_outside (P:=λ _, True)); [apply outside_decodeJWT|].
  intros [c|] w1 _ _; [|apply login_required_back]. apply wp_bind, wp_get_st, wp_bind.
  unfold wp at 1. cbv zeta. destruct (decide _); [apply login_required_back|].
  apply wp_continue_back.
Qed.

(** What the client registration demands of an authorization request. *)
Definition registration_allows (ar : authorizeRequest) w : Prop :=
  if isClientIDMetadataDocumentURL (ar_clientID ar) then
    ∃ reg, (resolveClientIDMetadata cfg (ar_clientID ar) w).1 = Some reg ∧
      ar_redirectURI ar ∈ cr_RedirectURIs reg ∧
      (cr_TokenEndpointAuthMethod reg = "none" → ar_codeChallenge ar ≠ EmptyString)
  else
    ∀ reg, sv_clients (w_st w) !! ar_clientID ar = Some reg →
      cr_RegistrationMethod reg = registrationMethodDynamic →
      ar_redirectURI ar ∈ cr_RedirectURIs reg.

Lemma registered_dynamic m now id uri scope reg :
  m !! id = Some reg → cr_RegistrationMethod reg = registrationMethodDynamic →
  registered m now id uri scope !! id = Some reg.
Proof.
  intros Hm Hd. unfold registered. destruct (decide (id = EmptyString)); [done|].
  by rewrite Hm, decide_False by (by rewrite Hd).
Qed.

Lemma resolve_method id w reg :
  registry_ok (w_st w) → (resolveClientIDMetadata cfg id w).1 = Some reg →
  cr_RegistrationMethod reg = registrationMethodClientIDMetadataDocument.
Proof.
  intros [_ Hm] Hr. destruct (wp_resolve cfg id w) as [Ho _].
  rewrite Hr in Ho. inversion Ho as [e n w1 He _ _ _ E| |body reg1 expiry w1 Hd _ E].
  - by destruct (Hm _ _ He) as (_ & ? & _).
  - by destruct Hd as (_ & _ & _ & _ & ? & _).
Qed.

Lemma wp_resolveAuthorizeClient ar w :
  registry_ok (w_st w) →
  wp (resolveAuthorizeClient cfg ar) (λ refused _, refused = None → registration_allows ar w) w.
Proof.
  intros Hok. unfold resolveAuthorizeClient, authorize_registration, registration_allows.
  apply wp_bind. destruct (isClientIDMetadataDocumentURL (ar_clientID ar)).
  - pose proof (resolve_method (ar_clientID ar) w) as Hmeth. unfold wp at 1.
    destruct (resolveClientIDMetadata cfg (ar_clientID ar) w) as [[reg|] w1]; [simpl in *|done].
    specialize (Hmeth reg Hok eq_refl).
    destruct (decide (_ ∧ ar_redirectURI ar ∉ _)) as [|Hin]; [done|].
    destruct (decide (_ ∧ _ ∧ _)) as [|Hpkce]; [done|]. intros _. exists reg.
    split_and!; [done| |by intros ? ?; apply Hpkce].
    apply dec_stable. intros Hnot. apply Hin. split; [rewrite Hmeth; by left|done].
  - apply wp_bind, wp_registerClientLocked. intros now w1 E _.
    apply wp_bind, wp_get_st, wp_ret. rewrite E. cbn [up_clients sv_clients].
    intros Hnone reg Hreg Hdyn. revert Hnone.
    rewrite (registered_dynamic _ _ _ _ _ _ Hreg Hdyn). simpl.
    destruct (decide (_ ∧ ar_redirectURI ar ∉ _)) as [|Hin]; [done|]. intros _.
    apply dec_stable. intros Hnot. apply Hin. split; [rewrite Hdyn; by right; left|done].
Qed.

(** C6: The authorization endpoint redirects only to the redirect_uri of the request
    itself, carrying the request's state, this provider as [iss] (RFC 9207) and
    either a code now on record for the client or the error login_required; and it
    redirects only if the client's registration allows it: a client registered
    dynamically or by a metadata document has asserted that redirect_uri, a public
    metadata client has sent a PKCE challenge, and a challenge uses a method the
    token endpoint implements. *)
Theorem authorize_redirects r w resp w' t :
  registry_ok (w_st w) → authorize cfg r w = (resp, w') → rs_body resp = BRedirect t →
  let ar := authorize_request r in
  registration_allows ar w ∧
  (ar_codeChallenge ar ≠ EmptyString → ar_codeChallengeMethod ar ∈ ["S256"; "plain"]) ∧
  ∃ params, t = buildURL (ar_redirectURI ar) params ∧ response_params ar (w_st w') params.
Proof.
  intros Hok Hrun Ht ar. revert Ht.
  apply (wp_intro (authorize cfg r) (λ resp w', rs_body resp = BRedirect t →
    registration_allows ar w ∧
    (ar_codeChallenge ar ≠ EmptyString → ar_codeChallengeMethod ar ∈ ["S256"; "plain"]) ∧
    ∃ params, t = buildURL (ar_redirectURI ar) params ∧
              response_params ar (w_st w') params) w resp w' Hrun).
  unfold authorize. destruct (negb _ && negb _); [done|]. cbv zeta. fold ar.
  destruct (decide (_ ∧ _)) as [|Hchal]; [done|]. apply wp_bind.
  pose proof (wp_resolveAuthorizeClient ar w Hok) as Hres. unfold wp at 1. unfold wp in Hres.
  destruct (resolveAuthorizeClient cfg ar w) as [[e|] w1] eqn:Hra; simpl in *.
  - intros He. exfalso. revert Hra He. clear.
    unfold resolveAuthorizeClient, mbind, eff_bind.
    destruct (authorize_registration cfg ar w) as [[reg|] w2]; [|by intros [= <- _]].
    destruct (decide _); [by intros [= <- _]|]. destruct (decide _); [by intros [= <- _]|done].
  - eapply wp_mono; [apply wp_exits_back|]. intros resp' w2 Hback Ht.
    split_and!; [by apply Hres| |by apply Hback].
    intros Hne. apply dec_stable. intros Hnot. by apply Hchal.
Qed.

(** ** What an approval grants *)

Lemma wp_session_for_sub ctx w :
  wp (session_for ctx) (λ sess w', s_Sub sess = ac_Sub ctx ∧ w_st w' = w_st w) w.
Proof.
  unfold session_for. apply wp_bind, wp_get_st, wp_bind. unfold wp at 1. simpl.
  destruct (getSessionBySub _ _) as [sess|] eqn:E; [|done].
  by apply getSessionBySub_Some in E as (k & _ & ?).
Qed.

Lemma wp_session_for_grows ctx w :
  wp (session_for ctx) (λ _ w', (w_uuid w ≤ w_uuid w')%nat) w.
Proof.
  unfold session_for. apply wp_bind, wp_get_st, wp_bind. unfold wp at 1. simpl.
  destruct (getSessionBySub _ _) as [sess|]; unfold wp; simpl; lia.
Qed.

(** What approving does: the pending request is gone, the user's session has the
    approved client session, and one more code is on record, drawn in between. *)
Definition granted (reqID : string) (ctx : authContextEntry) (idc acc : option Claims)
    w (resp : Response) w' : Prop :=
  ∃ i sess csID,
    let cs := approved_session cfg ctx csID idc acc in
    let meta := {| cm_CookieID := s_CookieID sess; cm_ClientID := ac_ClientID ctx;
                   cm_Nonce := ac_Nonce ctx |} in
    (w_uuid w ≤ i)%nat ∧ w_uuid w' = S i ∧
    rs_status resp = 303 ∧ rs_cookies resp = [session_cookie (s_CookieID sess)] ∧
    rs_body resp =
      BRedirect (buildURL (ac_RedirectURI ctx) (code_params (uuid_new i) (ac_State ctx))) ∧
    sv_authContext (w_st w') = delete reqID (sv_authContext (w_st w)) ∧
    sv_clients (w_st w') = sv_clients (w_st w) ∧
    sv_codeMeta (w_st w') = <[uuid_new i := meta]> (sv_codeMeta (w_st w)) ∧
    sv_sessions (w_st w') = <[s_CookieID sess := sess]> (sv_sessions (w_st w)) ∧
    s_Sub sess = ac_Sub ctx ∧ getClientSessionByID sess (ac_ClientID ctx) = Some cs.

Lemma wp_grant reqID ctx idc acc w :
  wp (grant cfg reqID ctx idc acc) (granted reqID ctx idc acc w) w.
Proof.
  unfold grant. apply wp_bind, wp_mod_st, wp_bind.
  eapply wp_mono; [apply wp_and; [apply wp_session_for_sub|apply wp_session_for_grows]|].
  intros sess w1 [[Hsub E1] L1]. apply wp_bind. apply (wp_outside (P:=λ _, True)).
  { unfold client_session_id. destruct (decide _); [apply outside_newUUID|apply outside_ret]. }
  intros csID w2 E2 L2. apply wp_bind, wp_mod_st. eapply wp_mono.
  - apply wp_issue_redirects with (cs := approved_session cfg ctx csID idc acc).
    unfold getClientSessionByID. simpl.
    apply (upsert_lookup (s_ClientSessions sess) (approved_session cfg ctx csID idc acc)).
  - intros resp w3 (Hs & Hc & Hb & Hu & Est). simpl in Hu, L1.
    exists (w_uuid w2), (with_client_sessions sess (upsertClientSession (s_ClientSessions sess)
      (approved_session cfg ctx csID idc acc))), csID.
    cbv zeta. rewrite Est. simpl. rewrite E2, E1. simpl. split_and!; try done; [lia|].
    unfold getClientSessionByID. simpl.
    apply (upsert_lookup (s_ClientSessions sess) (approved_session cfg ctx csID idc acc)).
Qed.

(** C8: An approval that redirects answers one recorded authorization request, which
    it consumes: it goes to that request's redirect_uri with its state, and the code
    issued is on record for the client, nonce and a session of the user of that
    request, whose client session carries the request's scope and PKCE challenge. *)
Theorem approve_grants_the_request r w resp w' t :
  approve cfg r w = (resp, w') → rs_body resp = BRedirect t →
  ∃ ctx code k sess cs,
    sv_authContext (w_st w) !! form_get r "reqid" = Some ctx ∧
    sv_authContext (w_st w') !! form_get r "reqid" = None ∧
    t = buildURL (ac_RedirectURI ctx) (code_params code (ac_State ctx)) ∧
    sv_codeMeta (w_st w') !! code =
      Some {| cm_CookieID := k; cm_ClientID := ac_ClientID ctx; cm_Nonce := ac_Nonce ctx |} ∧
    sv_sessions (w_st w') !! k = Some sess ∧ s_Sub sess = ac_Sub ctx ∧
    getClientSessionByID sess (ac_ClientID ctx) = Some cs ∧
    cs_Scope cs = ac_Scope ctx ∧ cs_CodeChallenge cs = ac_CodeChallenge ctx ∧
    cs_CodeChallengeMethod cs = ac_CodeChallengeMethod ctx.
Proof.
  intros Hrun Ht. revert Ht.
  refine (wp_intro (approve cfg r) (λ resp w', rs_body resp = BRedirect t → ∃ ctx code k sess cs,
    _ ∧ sv_authContext (w_st w') !! _ = None ∧ _ ∧ sv_codeMeta (w_st w') !! code = _ ∧
    sv_sessions (w_st w') !! k = Some sess ∧ _) w resp w' Hrun _).
  unfold approve. destruct (negb _); [done|]. cbv zeta. apply wp_bind, wp_get_st.
  destruct (sv_authContext (w_st w) !! form_get r "reqid") as [ctx|] eqn:Hctx; [|done].
  destruct (negb _); [done|]. destruct (parseClaimsJSON _) as [idc|]; [|done].
  destruct (parseClaimsJSON _) as [acc|]; [|done].
  eapply wp_mono; [apply wp_grant|].
  intros resp' w1 (i & sess & csID & _ & _ & _ & _ & Hb & Ea & _ & Ec & Es & Hsub & Hcs) Ht.
  rewrite Hb in Ht. injection Ht as <-. eexists ctx, _, _, _, _.
  rewrite Ea, Ec, Es, !lookup_insert_eq, lookup_delete_eq. by split_and!.
Qed.
End authorize.

Section token.
Context `{HR : Runtime, HL : !RuntimeLaws, HJ : !JwtLaws} (cfg : Config).
Implicit Types (w : World server).

(** ** What a grant rests on *)

(** The code verifier answers the recorded challenge (RFC 7636). *)
Definition pkce_answers (challenge method verifier : string) : Prop :=
  challenge = EmptyString ∨
  (method = "plain" ∧ verifier = challenge) ∨
  (method = "S256" ∧ raw_url_encode (sha256 verifier) = challenge).

Lemma pkce_ok_true challenge method verifier :
  pkce_ok challenge method verifier = true → pkce_answers challenge method verifier.
Proof.
  unfold pkce_ok, pkce_answers. destruct (decide (challenge = EmptyString)); [tauto|].
  destruct (decide (method = "plain")); [rewrite bool_decide_eq_true; tauto|].
  destruct (decide (method = "S256")); [rewrite bool_decide_eq_true; tauto|done].
Qed.

(** The server state a successful grant was read from. *)
Inductive grant_basis (r : Request) (s : server) : grantResult → Prop :=
  | gb_code meta sess cs :
      form_get r "grant_type" = "authorization_code" →
      sv_codeMeta s !! form_get r "code" = Some meta →
      sv_sessions s !! cm_CookieID meta = Some sess →
      getClientSessionByID sess (cm_ClientID meta) = Some cs →
      pkce_answers (cs_CodeChallenge cs) (cs_CodeChallengeMethod cs) (form_get r "code_verifier") →
      grant_basis r s (grant_of cfg (cm_CookieID meta) sess cs (cm_Nonce meta))
  | gb_refresh c k sess cs :
      form_get r "grant_type" = "refresh_token" →
      jwt_signed (publicKey cfg) (form_get r "refresh_token") c →
      sv_sessions s !! k = Some sess → cs ∈ s_ClientSessions sess →
      cs_SessionID cs = claim_string c "csid" → cs_SessionID cs ≠ EmptyString →
      grant_basis r s (grant_of cfg k sess cs EmptyString).

(** [redeem] changes codes and sessions only. *)
Definition grant_step w w' : Prop :=
  sv_clients (w_st w') = sv_clients (w_st w) ∧
  sv_clientIDMetadata (w_st w') = sv_clientIDMetadata (w_st w).

#[local] Instance grant_step_preorder : PreOrder grant_step.
Proof. split; [done|]. intros a b c [A1 A2] [B1 B2]. split; congruence. Qed.

Lemma grant_step_outside {A} (m : Eff (World server) A) :
  outside (λ _, True) m → steps grant_step m.
Proof. intros Hm w. destruct (Hm w) as (E & _). unfold grant_step. by rewrite E. Qed.

Lemma steps_redeem r : steps grant_step (redeem cfg r).
Proof.
  unfold redeem, redeem_code, redeem_refresh.
  repeat first
    [ apply (steps_ret grant_step)
    | apply grant_step_outside; solve [eauto with oidc]
    | apply (steps_bind grant_step); [|intros ?]
    | by intros w | case_match ].
Qed.

Lemma wp_redeem r w :
  wp (redeem cfg r) (λ res w', ∀ g, res = inr g → grant_basis r (w_st w) g) w.
Proof using All.
  unfold redeem. destruct (decide (form_get r "grant_type" = _)) as [Hg|_].
  - unfold redeem_code. apply wp_bind, wp_get_st.
    destruct (sv_codeMeta (w_st w) !! form_get r "code") as [meta|] eqn:Hm; [|done].
    apply wp_bind, wp_mod_st, wp_bind, wp_get_st. simpl.
    destruct (sv_sessions (w_st w) !! cm_CookieID meta) as [sess|] eqn:Hs; [|done].
    destruct (getClientSessionByID sess (cm_ClientID meta)) as [cs|] eqn:Hcs; [|done].
    destruct (pkce_ok _ _ _) eqn:Hp; [simpl|done].
    apply wp_bind, wp_mod_st, wp_ret. intros g [= <-].
    eapply gb_code; eauto using pkce_ok_true.
  - destruct (decide (form_get r "grant_type" = _)) as [Hg|_]; [|done].
    unfold redeem_refresh. apply wp_bind.
    pose proof (decodeJWT_signed cfg (form_get r "refresh_token") w) as Hsig.
    pose proof (outside_decodeJWT cfg (λ _, True) (form_get r "refresh_token") w) as (E1 & _).
    unfold wp at 1. destruct (decodeJWT cfg (form_get r "refresh_token") w) as [[c|] w1]; [|done].
    specialize (Hsig c w1 eq_refl). simpl in *.
    apply wp_bind, wp_get_st, wp_bind, wp_rangeMap. intros order w2 Ho E2 _.
    destruct (getSessionByClientSessionID order _) as [[[k sess] cs]|] eqn:Hf; [|done].
    apply getSessionByClientSessionID_Some in Hf as (Hin & Hcs & Hid & Hne).
    apply wp_bind, wp_mod_st, wp_ret. intros g [= <-].
    eapply gb_refresh; eauto; [|by rewrite Hid].
    rewrite <-E1. apply elem_of_map_to_list. by rewrite <-Ho.
Qed.

(** ** What is issued *)

(** A token as issued: signed by the provider over claims that extend [claims]
    with the issuer, the audience, the lifetime and, if they name none, the
    subject. *)
Definition issued_token (subject : string) (audience : list string) (claims : Claims)
    (lifetime : Z) (token : string) : Prop :=
  ∃ t0 t1, t0 <= t1 ∧
    jwt_sign (privateKey cfg) (all_claims cfg subject audience claims t1 (t0 + lifetime)) = Some token.

Lemma wp_issue_if cond subject audience claims lifetime w :
  wp (issue_if cfg cond subject audience claims lifetime)
     (λ res w', w_st w' = w_st w ∧
        ∀ v, res = Some v → match v with
             | Some (tok, _) => cond = true ∧ issued_token subject audience claims lifetime tok
             | None => cond = false
             end) w.
Proof using HL.
  unfold issue_if. destruct cond; [|apply wp_ret; by split; [|intros v [= <-]]].
  apply wp_bind. unfold wp at 1. simpl. unfold issueToken, mbind, eff_bind, mret, eff_ret. simpl.
  unfold wp. simpl. split; [done|].
  destruct (jwt_sign _ _) as [tok|] eqn:Hs; simpl; [|done]. intros v [= <-]. split; [done|].
  exists (time_now (w_clock w)), (time_now (S (w_clock w))). split; [apply time_monotone; lia|done].
Qed.

(** The tokens of a successful response. *)
Definition tokens_of (g : grantResult) (resp : Response) : Prop :=
  ∃ access refresh idToken,
    resp = token_response cfg access refresh idToken ∧
    issued_token (g_advertisedSub g) (access_audience cfg) (g_accessClaims g)
      (seconds_duration (accessTokenLifetime cfg)) access ∧
    match refresh with
    | Some tok => hasScope (g_scope g) "offline_access" = true ∧
        issued_token (g_advertisedSub g) [externalURL cfg +:+ "/token"] (refresh_claims g)
          (seconds_duration (refreshTokenLifetime cfg)) tok
    | None => hasScope (g_scope g) "offline_access" = false
    end ∧
    match idToken with
    | Some tok => hasScope (g_scope g) "openid" = true ∧
        issued_token (g_advertisedSub g) [g_clientID g] (g_idTokenClaims g) (60 * minute) tok
    | None => hasScope (g_scope g) "openid" = false
    end.

Lemma wp_issue_tokens g w :
  wp (issue_tokens cfg g) (λ resp _, rs_status resp = 200 → tokens_of g resp) w.
Proof using HL.
  unfold issue_tokens. apply wp_bind. eapply wp_mono; [apply wp_issue_if|].
  intros [[[access ac]|]|] w1 [_ Ha]; [|done..]. destruct (Ha _ eq_refl) as [_ Hacc]. clear Ha.
  apply wp_bind. eapply wp_mono; [apply wp_issue_if|]. intros [rt|] w2 [_ Hr]; [|done].
  specialize (Hr _ eq_refl). apply wp_bind. eapply wp_mono; [apply wp_issue_if|].
  intros [it|] w3 [_ Hi]; [|done]. specialize (Hi _ eq_refl).
  apply wp_bind, wp_mod_st, wp_ret. intros _.
  exists access, (fst <$> rt), (fst <$> it). split; [done|].
  destruct rt as [[rt rc]|], it as [[it ic]|]; simpl in *; tauto.
Qed.

Lemma client_auth_error_status m : rs_status (writeClientAuthError m) = 401.
Proof. unfold writeClientAuthError. by destruct (decide _). Qed.

(** C4: Tokens are issued only on a grant read from the server's own state and only
    to an authenticated client: either a code on record whose client session's PKCE
    challenge the request answers, or a token this provider signed that names a live
    client session; and the client the grant belongs to, not the one the request
    claims, has authenticated against its registration. *)
Theorem token_requires r w resp w' :
  world_ok w → token cfg r w = (resp, w') → rs_status resp = 200 →
  is_post r = true ∧
  ∃ g w1, grant_basis r (w_st w) g ∧ grant_step w w1 ∧
    authenticated cfg (g_clientID g) (parseClientCredentials r) w1 ∧
    tokens_of g resp.
Proof using All.
  intros Hw Hrun H200. revert H200. unfold token in Hrun.
  destruct (is_post r); simpl in Hrun; [|by injection Hrun as <- <-].
  cbv zeta in Hrun. intros H200. split; [done|]. revert Hrun. unfold mbind, eff_bind.
  pose proof (wp_redeem r w) as Hg. pose proof (steps_redeem r w) as Hstep.
  pose proof (ok_redeem cfg r w Hw) as Hw1. unfold wp in *.
  destruct (redeem cfg r w) as [[e|g] w1] eqn:Hr; simpl in *.
  { intros [= -> ->]. exfalso. revert Hr H200. clear. unfold redeem, redeem_code, redeem_refresh,
      mbind, eff_bind, get_st, reads, mod_st, writes, decodeJWT, tNow, rangeMap, mret, eff_ret.
    intros Hr. repeat (case_match; simplify_eq/=; try done). }
  specialize (Hg g eq_refl).
  destruct (wp_authenticateClient cfg (g_clientID g) (parseClientCredentials r) w1
              (wo_registry _ Hw1)) as [_ Ha].
  destruct (authenticateClient cfg _ _ w1) as [[|] w2]; simpl in *.
  - intros Hrun. exists g, w1. split_and!; [done..|by apply Ha|].
    by apply (wp_intro _ _ _ _ _ Hrun (wp_issue_tokens g w2)).
  - intros [= <- _]. by rewrite client_auth_error_status in H200.
Qed.

(** ** Tokens a grant is owed *)

Lemma pkce_answers_ok challenge method verifier :
  pkce_answers challenge method verifier → pkce_ok challenge method verifier = true.
Proof using Type.
  unfold pkce_ok, pkce_answers. destruct (decide (challenge = EmptyString)); [done|].
  intros [?|[[-> ->]|[-> <-]]]; [done|..].
  - by rewrite decide_True, bool_decide_eq_true_2.
  - by rewrite decide_False, decide_True, bool_decide_eq_true_2.
Qed.

Lemma redeem_code_grants r w meta sess cs :
  form_get r "grant_type" = "authorization_code" →
  sv_codeMeta (w_st w) !! form_get r "code" = Some meta →
  sv_sessions (w_st w) !! cm_CookieID meta = Some sess →
  getClientSessionByID sess (cm_ClientID meta) = Some cs →
  pkce_answers (cs_CodeChallenge cs) (cs_CodeChallengeMethod cs) (form_get r "code_verifier") →
  (redeem cfg r w).1 = inr (grant_of cfg (cm_CookieID meta) sess cs (cm_Nonce meta)).
Proof using Type.
  intros Hg Hm Hs Hc Hp%pkce_answers_ok. unfold redeem. rewrite decide_True by done.
  unfold redeem_code, mbind, eff_bind, get_st, reads. rewrite Hm. simpl. rewrite Hs, Hc, Hp. done.
Qed.

(** Signing that does not fail makes issuing succeed. *)
Lemma wp_issue_tokens_ok g w :
  (∀ c, is_Some (jwt_sign (privateKey cfg) c)) →
  wp (issue_tokens cfg g) (λ resp _, rs_status resp = 200) w.
Proof using Type.
  intros Hsign.
  assert (∀ cond sub aud claims lifetime w0,
    wp (issue_if cfg cond sub aud claims lifetime)
       (λ res _, ∃ x, res = Some x ∧ (cond = true → is_Some x)) w0) as Hissue.
  { intros cond sub aud claims lifetime w0. unfold issue_if. destruct cond; [|by eexists].
    unfold wp, mbind, eff_bind, tNow, issueToken, mret, eff_ret. simpl.
    destruct (jwt_sign _ _) as [tok|] eqn:E; [by eexists|].
    destruct (Hsign (all_claims cfg sub aud claims (time_now (S (w_clock w0)))
      (time_now (w_clock w0) + lifetime))) as [? E']. simpl in *. congruence. }
  unfold issue_tokens. apply wp_bind. eapply wp_mono; [apply Hissue|].
  intros ? w1 (x & -> & [[a ac] ->]%(λ H, H eq_refl)). apply wp_bind.
  eapply wp_mono; [apply Hissue|]. intros ? w2 (y & -> & _). apply wp_bind.
  eapply wp_mono; [apply Hissue|]. intros ? w3 (z & -> & _). by apply wp_bind, wp_mod_st, wp_ret.
Qed.

Lemma wp_token_code r w meta sess cs :
  is_post r = true → form_get r "grant_type" = "authorization_code" →
  sv_codeMeta (w_st w) !! form_get r "code" = Some meta →
  sv_sessions (w_st w) !! cm_CookieID meta = Some sess →
  getClientSessionByID sess (cm_ClientID meta) = Some cs →
  pkce_answers (cs_CodeChallenge cs) (cs_CodeChallengeMethod cs) (form_get r "code_verifier") →
  (authenticateClient cfg (cs_ClientID cs) (parseClientCredentials r) (redeem cfg r w).2).1 = true →
  (∀ c, is_Some (jwt_sign (privateKey cfg) c)) →
  wp (token cfg r) (λ resp _, rs_status resp = 200 ∧
    tokens_of (grant_of cfg (cm_CookieID meta) sess cs (cm_Nonce meta)) resp) w.
Proof using HL.
  intros Hpost Hg Hm Hs Hc Hp Hauth Hsign. unfold token. rewrite Hpost. cbn [negb]. cbv zeta.
  pose proof (redeem_code_grants r w meta sess cs Hg Hm Hs Hc Hp) as Hgrant.
  apply wp_bind. unfold wp at 1. rewrite Hgrant. apply wp_bind. unfold wp at 1.
  change (g_clientID (grant_of cfg (cm_CookieID meta) sess cs (cm_Nonce meta))) with (cs_ClientID cs).
  rewrite Hauth. cbn [negb].
  eapply wp_mono; [apply wp_and; [by apply wp_issue_tokens_ok|apply wp_issue_tokens]|].
  intros resp w' [H200 Htok]. auto.
Qed.

(** C13: A client that holds a code gets its tokens.  If the code is on record and
    its session and client session are live, the request answers the recorded PKCE
    challenge, the client the code belongs to authenticates, and signing works,
    then the token request is answered 200 with an access token, and with a refresh
    token and an ID token exactly as the granted scope has offline_access and
    openid, all issued from that client session. *)
Theorem token_honours_code r w meta sess cs :
  is_post r = true → form_get r "grant_type" = "authorization_code" →
  sv_codeMeta (w_st w) !! form_get r "code" = Some meta →
  sv_sessions (w_st w) !! cm_CookieID meta = Some sess →
  getClientSessionByID sess (cm_ClientID meta) = Some cs →
  pkce_answers (cs_CodeChallenge cs) (cs_CodeChallengeMethod cs) (form_get r "code_verifier") →
  (authenticateClient cfg (cs_ClientID cs) (parseClientCredentials r) (redeem cfg r w).2).1 = true →
  (∀ c, is_Some (jwt_sign (privateKey cfg) c)) →
  wp (token cfg r) (λ resp _, rs_status resp = 200 ∧
    tokens_of (grant_of cfg (cm_CookieID meta) sess cs (cm_Nonce meta)) resp) w.
Proof using HL. apply wp_token_code. Qed.
End token.

Section resources.
Context `{HR : Runtime, HL : !RuntimeLaws, HJ : !JwtLaws} (cfg : Config).
Implicit Types (w : World server).
Set Default Proof Using "All".

(** ** The user's claims *)

(** The claims about the user a scope gives access to: none that describe the ID
    token, those of the profile under "profile", the address under "email", any
    other under every scope. *)
Definition may_see (scope name : string) : Prop :=
  name ∉ ["iss"; "aud"; "azp"; "exp"; "iat"; "nbf"; "jti"; "nonce"; "auth_time"; "at_hash"; "c_hash";
          "acr"; "amr"] ∧
  (name ∈ ["name"; "preferred_username"; "picture"] → "profile" ∈ fields scope) ∧
  (name ∈ ["email"; "email_verified"] → "email" ∈ fields scope).

Lemma userinfo_visible_may_see scope name :
  userinfo_visible scope name = true ↔ name ≠ "sub" ∧ may_see scope name.
Proof.
  unfold userinfo_visible, may_see, idTokenOnlyClaims. rewrite !andb_true_iff, !bool_decide_eq_true.
  assert (match claimScopes name with Some s => hasScope scope s | None => true end = true ↔
    (name ∈ ["name"; "preferred_username"; "picture"] → "profile" ∈ fields scope) ∧
    (name ∈ ["email"; "email_verified"] → "email" ∈ fields scope)) as ->; [|tauto].
  unfold claimScopes. destruct (decide (name ∈ ["name"; "preferred_username"; "picture"])) as [Hp|Hp].
  - rewrite hasScope_true. split; [intros Hs; split; [done|]|by intros [Hs _]; apply Hs].
    intros He. exfalso. set_solver.
  - destruct (decide _) as [He|He]; [rewrite hasScope_true|]; naive_solver.
Qed.

(** The claims of a user's login, for an access token issued with no ID token. *)
Definition login_claim (username name : string) (v : goval) : Prop :=
  username ≠ EmptyString ∧
  (name, v) ∈ [ ("preferred_username", VStr username); ("name", VStr (capitalize username));
                ("picture", VStr (avatarURL cfg username));
                ("email", VStr (emailForUsername cfg username)); ("email_verified", VBool true) ].

Lemma derived_claims_login scope username name v :
  derived_claims cfg scope username !! name = Some v →
  name ≠ "sub" ∧ may_see scope name ∧ login_claim username name v.
Proof.
  unfold derived_claims. destruct (bool_decide (username ≠ EmptyString)) eqn:Hu; simpl; [|done].
  apply bool_decide_eq_true in Hu.
  assert (∀ sc, name ∈ ["name"; "preferred_username"; "picture"; "email"; "email_verified"] →
    claimScopes name = Some sc → hasScope scope sc = true → name ≠ "sub" ∧ may_see scope name) as Hsee.
  { intros sc Hin Hc Hs. apply userinfo_visible_may_see. unfold userinfo_visible. rewrite Hc, Hs, andb_true_r.
    clear Hc. revert name Hin. apply Forall_forall. by apply (bool_decide_unpack _); vm_compute. }
  unfold login_claim.
  destruct (hasScope scope "profile") eqn:Hp, (hasScope scope "email") eqn:He;
    rewrite ?lookup_insert_Some; intros Hl;
    repeat match goal with H : _ ∨ _ |- _ => destruct H | H : _ ∧ _ |- _ => destruct H end;
    subst; try done;
    (destruct (Hsee "profile") as [? ?]; [by repeat constructor|reflexivity|exact Hp|]) ||
    (destruct (Hsee "email") as [? ?]; [by repeat constructor|reflexivity|exact He|]);
    (split; [done|]; split; [done|]; split; [done|]; by repeat constructor).
Qed.

Lemma extractAccessToken_sound r w c w' :
  extractAccessToken cfg r w = (Some c, w') →
  w_st w' = w_st w ∧ c !! "token_use" = Some (VStr "access") ∧
  ∃ scheme tok, fields (header_get r "Authorization") = [scheme; tok] ∧
    equal_fold scheme "bearer" = true ∧ jwt_signed (publicKey cfg) tok c.
Proof.
  intros Hrun. pose proof (outside_extractAccessToken cfg (λ _, True) r w) as (E & _).
  rewrite Hrun in E. split; [done|]. revert Hrun. unfold extractAccessToken.
  destruct (fields _) as [|scheme [|tok [|]]] eqn:Hf; try done.
  destruct (equal_fold scheme "bearer") eqn:Hb; simpl; [|done]. unfold mbind at 1, eff_bind at 1.
  destruct (decodeJWT cfg tok w) as [[c'|] w1] eqn:Hd; simpl; [|done].
  destruct (c' !! "token_use") as [[[| | |use| |]| |]|] eqn:Hu; try done.
  destruct (decide (use = "access")) as [->|]; [|done]. intros [= <- <-]. split; [done|].
  exists scheme, tok. split_and!; [done..|]. by eapply decodeJWT_signed.
Qed.

(** The value [v] of the claim [name] is what the client session [csid] was last
    issued in an ID token, or comes from its user's login where it was issued
    none. *)
Definition issued_to (m : gmap string session) (csid name : string) (v : goval) : Prop :=
  ∃ k s cs, m !! k = Some s ∧ cs ∈ s_ClientSessions s ∧ cs_SessionID cs = csid ∧
    match cs_IDTokenClaims cs with
    | Some issued => issued !! name = Some v
    | None => login_claim (s_Username s) name v
    end.

(** The claims [out] an access token with the claims [c] opens over the sessions
    [m]. *)
Definition released (m : gmap string session) (c out : Claims) : Prop :=
  out !! "sub" = Some (VStr (claim_string c "sub")) ∧
  (∀ name v, out !! name = Some v → name ≠ "sub" →
     may_see (claim_string c "scope") name ∧ issued_to m (claim_string c "csid") name v) ∧
  (∀ k s cs issued name v,
     m !! k = Some s → cs ∈ s_ClientSessions s → cs_SessionID cs = claim_string c "csid" →
     cs_IDTokenClaims cs = Some issued → issued !! name = Some v → name ≠ "sub" →
     may_see (claim_string c "scope") name → out !! name = Some v).

Lemma userinfo_claims_sound (m : gmap string session) order scope sub csid name v :
  order ≡ₚ map_to_list m →
  userinfo_claims cfg scope sub (getSessionByClientSessionID order csid) !! name = Some v → name ≠ "sub" →
  may_see scope name ∧ issued_to m csid name v.
Proof.
  intros Ho Hl Hne. unfold userinfo_claims in Hl. rewrite lookup_insert_ne in Hl by done.
  destruct (getSessionByClientSessionID _ _) as [[[k s] cs]|] eqn:Hf.
  - apply getSessionByClientSessionID_Some in Hf as (Hin & Hcs & Hid & _).
    assert (m !! k = Some s) as Hk by (apply elem_of_map_to_list; by rewrite <-Ho).
    unfold copyClaims in Hl. destruct (cs_IDTokenClaims cs) as [issued|] eqn:Hcl.
    + apply map_lookup_filter_Some in Hl as [Hv Hvis]. simpl in Hvis.
      apply userinfo_visible_may_see in Hvis as [_ Hsee]. split; [done|].
      exists k, s, cs. by rewrite Hcl.
    + apply derived_claims_login in Hl as (_ & Hsee & Hlogin). split; [done|].
      exists k, s, cs. by rewrite Hcl.
  - by apply derived_claims_login in Hl as (_ & _ & Hu & _).
Qed.

Lemma userinfo_claims_complete w order scope sub csid k s cs issued name v :
  world_ok w → order ≡ₚ map_to_list (sv_sessions (w_st w)) →
  sv_sessions (w_st w) !! k = Some s → cs ∈ s_ClientSessions s → cs_SessionID cs = csid →
  cs_IDTokenClaims cs = Some issued → issued !! name = Some v → name ≠ "sub" → may_see scope name →
  userinfo_claims cfg scope sub (getSessionByClientSessionID order csid) !! name = Some v.
Proof.
  intros Hw Ho Hk Hcs Hid Hcl Hv Hne Hsee.
  unfold userinfo_claims. rewrite lookup_insert_ne by done.
  pose proof (issued_nonempty _ _ (sessions_csid _ _ (wo_sessions _ Hw) _ _ _ Hk Hcs)) as Hcne.
  rewrite Hid in Hcne.
  rewrite (lookup_csid_complete _ _ _ _ _ _ _ (wo_sessions _ Hw) Ho Hcne Hk Hcs Hid).
  unfold copyClaims. rewrite Hcl. apply map_lookup_filter_Some. split; [done|].
  by apply userinfo_visible_may_see.
Qed.

End resources.
