(* ===== verification/IdpServer.v ===== *)
(** * The provider as a whole

    [newServer]'s configuration, the routing of [newMux] over a model of
    [http.ServeMux], [withCORS], and runs of
    the server over sequences of requests: reachability from the empty state and
    the theorems that hold of every run. *)

From S2P Require Import Prelude GoStrings GoNet GoURL GoBase64 GoPath Runtime RuntimeExample.
From S2P Require Import IdpState IdpUtil IdpRegistry IdpMetadata IdpClientAuth IdpJwt.
From S2P Require Import IdpSessions IdpAuthorize IdpToken IdpDiscovery IdpInvariant IdpFlow.
From Stdlib Require Import Ascii.
From stdpp Require Import options.
Local Open Scope Z_scope.

(** ** Configuration *)

(** [hex.DecodeString]. *)
Fixpoint hex_decode (s : string) : option string :=
  match s with
  | EmptyString => Some EmptyString
  | String a (String b r) =>
      h ← hex_digit a; l ← hex_digit b; t ← hex_decode r;
      Some (String (ascii_of_N (Z.to_N (h * 16 + l))) t)
  | String _ EmptyString => None
  end.

(** The subject type with the salt it needs. *)
Definition subject_config (env : string → string) : option (string * string) :=
  let subjectType := getenvDefault env "SUBJECT_TYPE" "public" in
  if decide (subjectType = "pairwise") then
    let saltHex := getenvDefault env "PAIRWISE_SALT" "" in
    if decide (saltHex = EmptyString) then None
    else salt ← hex_decode saltHex;
         if decide (Z.of_nat (String.length salt) < 16) then None else Some (subjectType, salt)
  else if decide (subjectType ≠ "public") then None
  else Some (subjectType, EmptyString).

(** [newServer]: the port and the configuration; [key] is the RSA key generated,
    [templates] whether the templates of a directory load. *)
Definition newServer (env : string → string) (key : option PrivKey) (templates : string → bool)
    : option (string * Config) :=
  let externalURL := getenvDefault env "IDP_EXTERNAL_URL" "http://127.0.0.1:5001" in
  '(subjectType, salt) ← subject_config env;
  privateKey ← key;
  let dir := getenvDefault env "TEMPLATES_DIR"
               (path_Join (getenvDefault env "KO_DATA_PATH" (path_Join "idp-auth-server" "kodata")) "templates") in
  if templates dir then
    Some (getenvDefault env "PORT" "5001",
      {| externalURL := externalURL;
         protectPictureURL := getenvDefaultBool env "PROTECT_PICTURE_URL" false;
         extraAudiences := getenvCSV env "EXTRA_AUDIENCES";
         emailDomain := getenvDefault env "EMAIL_DOMAIN" "example.com";
         accessTokenLifetime := getenvDefaultInt env "ACCESS_TOKEN_LIFETIME" 1200;
         refreshTokenLifetime := getenvDefaultInt env "REFRESH_TOKEN_LIFETIME" 3600;
         subjectType := subjectType; pairwiseSalt := salt;
         clientIDMetadataTTL := seconds_duration (getenvDefaultInt env "CLIENT_ID_METADATA_TTL" 900);
         clientIDMetadataTimeout :=
           seconds_duration (getenvDefaultInt env "CLIENT_ID_METADATA_FETCH_TIMEOUT" 5);
         allowLoopbackMetadataFetch := externalURLIsLoopback externalURL;
         templatesDir := dir; privateKey := privateKey |})
  else None.

(** ** [http.ServeMux] *)

(** The path of the request's target, escaped.  (A raw path that [net/http] sets
    is the path of a target, and begins with a slash.) *)
Definition request_path (r : Request) : string :=
  EscapedPath (with_paths (r_path r) (if has_prefix "/" (r_rawpath r) then r_rawpath r else EmptyString)
                 empty_url).

(** The redirect to a cleaned path. *)
Definition moved (path : string) (r : Request) : Response :=
  respond 301 (BRedirect (url_String (with_query (with_paths path EmptyString empty_url) (r_rawquery r)))).

(** [ServeMux.ServeHTTP] over literal patterns and a catch-all; a handler that
    answers at once is [answer] of its response. *)
Definition serve_mux {H} (pts : list (string * H)) (catchAll : H) (answer : Response → H) (r : Request) : H :=
  let escapedPath := request_path r in
  let path := if decide (r_method r = "CONNECT") then escapedPath else cleanPath escapedPath in
  if decide (path ≠ escapedPath) then answer (moved path r)
  else match List.find (λ ph, bool_decide (segments ph.1 = segments path)) pts with
  | Some (_, h) => h
  | None => if decide (path = EmptyString) then answer NotFound else catchAll
  end.

Lemma serve_mux_all {H} (P : H → Prop) pts catchAll answer r :
  Forall (λ ph, P ph.2) pts → P catchAll → (∀ resp, P (answer resp)) →
  P (serve_mux pts catchAll answer r).
Proof.
  intros Hpts Hc Ha. unfold serve_mux. cbv zeta. destruct (decide (_ ≠ request_path r)); [done|].
  destruct (List.find _ pts) as [[p h]|] eqn:E; [|by repeat case_match].
  apply find_some in E as [Hin%list_elem_of_In _]. exact (proj1 (Forall_forall _ _) Hpts _ Hin).
Qed.

Lemma request_path_rooted r :
  has_prefix "/" (r_path r) = true → has_prefix "/" (request_path r) = true.
Proof.
  intros [q Hq]%has_prefix_spec. change (r_path r = String "/" q) in Hq.
  unfold request_path. set (raw := if has_prefix "/" (r_rawpath r) then r_rawpath r else EmptyString).
  assert (raw = EmptyString ∨ has_prefix "/" raw = true) as Hraw.
  { unfold raw. destruct (has_prefix "/" (r_rawpath r)) eqn:E; [by right|by left]. }
  clearbody raw. unfold EscapedPath, with_paths. cbn [u_path u_rawpath].
  case_bool_decide as Hstar; [destruct Hstar as [_ Hstar]; congruence|]. clear Hstar.
  unfold escaped. destruct (bool_decide _ && _) eqn:E.
  - apply andb_prop in E as [[E _]%bool_decide_eq_true _]. by destruct Hraw.
  - rewrite Hq. done.
Qed.

(** A request for a path of one element, however it is escaped. *)
Lemma serve_mux_one {H} (pts : list (string * H)) catchAll answer r name h :
  r_path r = "/" +:+ name → contains_char "/" name = false → plain_element name →
  snd <$> List.find (λ ph, bool_decide (segments ph.1 = [name])) pts = Some h →
  serve_mux pts catchAll answer r = h.
Proof.
  intros Hp Hslash Hplain Hfind.
  destruct (one_segment (request_path r) name) as [Hclean Hseg]; [|by rewrite <-Hp; apply unescape_EscapedPath|done..|].
  { apply request_path_rooted. apply has_prefix_spec. by exists name. }
  unfold serve_mux. cbv zeta. rewrite Hclean.
  assert ((if decide (r_method r = "CONNECT") then request_path r else request_path r) = request_path r) as ->
    by by destruct (decide _).
  rewrite decide_False by (intros Hne; by apply Hne). rewrite Hseg.
  by destruct (List.find _ pts) as [[p h']|]; [injection Hfind as <-|].
Qed.

Section server.
Context `{HR : Runtime} (cfg : Config).
Abbreviation SWorld := (World server).
Abbreviation Handler := (Request → Eff SWorld Response).

(** ** Routing *)

Definition avatar_path (prefix : string) (i : nat) : string :=
  prefix +:+ digit_string (Z.of_nat i) +:+ ".svg".

Definition newMux : list (string * Handler) :=
  [ ("/clients", clientsPage); ("/register", register); ("/style.css", styleCSS cfg);
    ("/logout", logout cfg); ("/authorize", authorize cfg); ("/login", login cfg);
    ("/approve", approve cfg); ("/token", token cfg); ("/userinfo", userinfo cfg);
    ("/endsession", endsession cfg); ("/endsession-approve", endsessionApprove);
    ("/.well-known/jwks.json", jwks cfg);
    ("/.well-known/openid-configuration", openidConfiguration cfg) ]
  ++ ((λ i, (avatar_path "/avatars/" i, avatar cfg)) <$> seq 1 8)
  ++ ((λ i, (avatar_path "/internal/avatars/" i, internalAvatar cfg)) <$> seq 1 8).

(** [http.ServeMux] over these patterns, all of them literal, and the catch-all
    "/", which matches every path but the empty one of a CONNECT. *)
Definition route : Request → Handler := serve_mux newMux (index cfg) (λ resp _, mret resp).

Definition cors_headers : list (string * string) :=
  [ ("Access-Control-Allow-Origin", "*");
    ("Access-Control-Allow-Headers", "Authorization, Content-Type");
    ("Access-Control-Allow-Methods", "GET, POST, OPTIONS") ].

Definition with_headers (h : list (string * string)) (resp : Response) : Response :=
  {| rs_status := rs_status resp; rs_header := h ++ rs_header resp;
     rs_cookies := rs_cookies resp; rs_body := rs_body resp |}.

Definition withCORS (next : Handler) : Handler := λ r,
  if decide (r_method r = "OPTIONS") then mret (with_headers cors_headers (respond 204 BNone))
  else resp ← next r; mret (with_headers cors_headers resp).

Definition serve : Handler := withCORS (λ r, route r r).

(** ** Runs *)

Fixpoint run (rs : list Request) : Eff SWorld (list Response) :=
  match rs with
  | [] => mret []
  | r :: rs' => resp ← serve r; resps ← run rs'; mret (resp :: resps)
  end.

(** The worlds a server reaches. *)
Inductive reachable : World server → Prop :=
  | reachable_init : reachable (initial_world empty_server)
  | reachable_step w r : reachable w → reachable (serve r w).2.

(** What holds of every handler holds of the server. *)
Lemma newMux_all (P : Handler → Prop) :
  P clientsPage → P register → P (styleCSS cfg) → P (logout cfg) → P (authorize cfg) →
  P (login cfg) → P (approve cfg) → P (token cfg) → P (userinfo cfg) → P (endsession cfg) →
  P endsessionApprove → P (jwks cfg) → P (openidConfiguration cfg) → P (avatar cfg) →
  P (internalAvatar cfg) → P (index cfg) → (∀ resp, P (λ _, mret resp)) → ∀ r, P (route r).
Proof.
  intros. apply (serve_mux_all P); [|done..]. unfold newMux. rewrite !Forall_app, !Forall_fmap.
  split_and!; [by repeat constructor|by apply Forall_true..].
Qed.

Lemma route_one r name h :
  r_path r = "/" +:+ name → contains_char "/" name = false → plain_element name →
  snd <$> List.find (λ ph, bool_decide (segments ph.1 = [name])) newMux = Some h → route r = h.
Proof. apply serve_mux_one. Qed.
End server.

(** ** Frames of the whole server *)

(** The effects of the handlers but for the issuing of a code. *)
Class StateFrame `{Runtime} (cfg : Config) (R : World server → World server → Prop) := {
  hf_server :: ServerFrame cfg R;
  hf_authContext f : steps R (mod_st (up_authContext f));
  hf_sessions f : steps R (mod_st (up_sessions f));
  hf_delete_code c : steps R (mod_st (up_codeMeta (delete c)));
  hf_consume id jti expiry : steps R (consumePrivateKeyJWTJTI id jti expiry)
}.

Class HandlerFrame `{Runtime} (cfg : Config) (R : World server → World server → Prop) := {
  hf_state :: StateFrame cfg R;
  hf_issue sess id st n : steps R (issueCodeAndRedirect cfg sess id st n)
}.

(** One step of the structural proof that a handler moves along [R]. *)
Ltac handler_step tac :=
  cbv zeta;
  lazymatch goal with
  | |- steps _ (_ ≫= _) => apply steps_bind; [apply _| |intros ?]
  | |- steps _ (mret _) => apply steps_ret; apply _
  | |- steps _ (match _ with _ => _ end) => case_match
  | |- steps _ (mod_st (up_authContext _)) => apply hf_authContext
  | |- steps _ (mod_st (up_sessions _)) => apply hf_sessions
  | |- steps _ (mod_st (up_codeMeta _)) => apply hf_delete_code
  | |- steps _ (issueCodeAndRedirect _ _ _ _ _) => apply hf_issue
  | |- _ => first [tac | apply sf_outside; solve [auto with oidc]]
  end.
Ltac handler_steps tac := repeat handler_step tac.

Section frame.
Context `{HR : Runtime} (cfg : Config) (R : World server → World server → Prop)
  `{HF : !HandlerFrame cfg R}.
Set Default Proof Using "All".

Lemma steps_outside {A} (m : Eff (World server) A) : outside (dial_ok cfg) m → steps R m.
Proof. apply sf_outside. Qed.

Lemma steps_authorize r : steps R (authorize cfg r).
Proof.
  unfold authorize, resolveAuthorizeClient, authorize_registration, silent_authorize,
    request_login, continue_session.
  handler_steps ltac:(first [apply steps_resolve; apply _ | apply steps_registerClientLocked with (cfg := cfg); apply _]).
Qed.

Lemma steps_login r : steps R (login cfg r).
Proof. unfold login. handler_steps fail. Qed.

Lemma steps_approve r : steps R (approve cfg r).
Proof. unfold approve, grant, session_for, client_session_id. handler_steps fail. Qed.

(** The parts of [token] after the code is off the record. *)
Lemma steps_code_tail r meta :
  steps R (
    found ← get_st (λ s, sv_sessions s !! cm_CookieID meta);
    match found with
    | None => mret (inl (invalid_grant 403))
    | Some sess =>
        match getClientSessionByID sess (cm_ClientID meta) with
        | None => mret (inl (invalid_grant 403))
        | Some cs =>
            if negb (pkce_ok (cs_CodeChallenge cs) (cs_CodeChallengeMethod cs)
                       (form_get r "code_verifier"))
            then mret (inl (invalid_grant 403))
            else
              mod_st (up_sessions (update_session (cm_CookieID meta)
                        (λ c, bool_decide (cs_ClientID c = cm_ClientID meta)) set_csid));;
              mret (inr (grant_of cfg (cm_CookieID meta) sess cs (cm_Nonce meta)))
        end
    end).
Proof. handler_steps fail. Qed.

Lemma steps_issue g creds :
  steps R (
    authenticated ← authenticateClient cfg (g_clientID g) creds;
    if negb authenticated then mret (writeClientAuthError (cc_method creds))
    else issue_tokens cfg g).
Proof.
  unfold issue_tokens, issue_if.
  handler_steps ltac:(apply steps_authenticateClient; [apply _|apply hf_consume]).
Qed.

Lemma steps_token r : steps R (token cfg r).
Proof.
  unfold token, redeem, redeem_code, redeem_refresh, issue_tokens, issue_if.
  handler_steps ltac:(apply steps_authenticateClient; [apply _|apply hf_consume]).
Qed.

Lemma steps_route r0 r : steps R (route cfg r0 r).
Proof.
  revert r. revert r0. apply (newMux_all cfg (λ h, ∀ r, steps R (h r))); [..|intros resp]; intros r.
  - apply steps_outside, outside_clientsPage.
  - apply (steps_register cfg); apply _.
  - apply steps_outside, outside_ret.
  - unfold logout. handler_steps fail.
  - apply steps_authorize.
  - apply steps_login.
  - apply steps_approve.
  - apply steps_token.
  - apply steps_outside, outside_userinfo.
  - apply steps_outside, outside_endsession.
  - unfold endsessionApprove. handler_steps fail.
  - apply steps_outside, outside_jwks.
  - apply steps_outside, outside_ret.
  - apply steps_outside, outside_avatar.
  - apply steps_outside, outside_ret.
  - apply steps_outside, outside_index.
  - apply steps_outside, outside_ret.
Qed.

Lemma steps_serve r : steps R (serve cfg r).
Proof. unfold serve, withCORS. handler_steps ltac:(apply steps_route). Qed.

Lemma steps_run rs : steps R (run cfg rs).
Proof. induction rs; simpl; handler_steps ltac:(first [apply steps_serve|done]). Qed.

Lemma reachable_from (w0 : World server) w : w0 = initial_world empty_server → reachable cfg w → R w0 w.
Proof.
  intros ->. induction 1 as [|w r _ IH]; [apply sf_preorder|].
  etrans; [exact IH|]. apply steps_serve.
Qed.
End frame.

Section frames.
Context `{HR : Runtime, HL : !RuntimeLaws} (cfg : Config).
Implicit Types (w : World server).

(** The guard stands between the server and every address it connects to. *)
Definition dials_step w w' : Prop := dials_ok cfg w → dials_ok cfg w'.

Lemma dials_ok_elem w address :
  dials_ok cfg w → address ∈ w_dials w →
  ∃ host port ip, SplitHostPort address = Some (host, port) ∧ ParseIP host = Some ip ∧
    checkFetchAddress (Some ip) (allowLoopbackMetadataFetch cfg) = None.
Proof.
  intros Hok Hin. destruct (proj1 (Forall_forall _ _) Hok _ Hin) as (host & port & Hsplit & Hcheck).
  destruct (ParseIP host) as [ip|] eqn:Hip; [by exists host, port, ip|done].
Qed.

#[export] Instance dials_step_frame : HandlerFrame cfg dials_step.
Proof.
  split; [split; [split|..]|]; try (by intros * w ?).
  - split; [by intros w ?|]. intros a b c H1 H2 H3. auto.
  - intros A m Hm w Hw. destruct (Hm w) as (_ & _ & _ & l & E & Hl). unfold dials_ok.
    rewrite E. by apply Forall_app.
  - intros id jti expiry w Hw. unfold consumePrivateKeyJWTJTI, mbind, eff_bind, tNow, get_st, reads.
    cbn -[filter]. by destruct (filter _ _ !! _).
  - intros sess id st n w Hw. unfold issueCodeAndRedirect, mbind, eff_bind. simpl.
    by destruct (getClientSessionByID sess id).
Qed.

#[export] Instance jti_step_handlers : HandlerFrame cfg jti_step.
Proof.
  split; [split; [apply _|..]|]; try (by intros * w).
  - apply jti_step_consume.
  - intros sess id st n w. unfold issueCodeAndRedirect, mbind, eff_bind. simpl.
    by destruct (getClientSessionByID sess id).
Qed.

(** A code drawn from the UUID source and no longer on record. *)
Definition code_gone (c : string) w : Prop :=
  issued (w_uuid w) c ∧ sv_codeMeta (w_st w) !! c = None.

Definition code_step (c : string) w w' : Prop := code_gone c w → code_gone c w'.

#[export] Instance code_step_frame c : HandlerFrame cfg (code_step c).
Proof.
  split; [split; [split|..]|]; try (by intros * w ?).
  - split; [by intros w ?|]. intros x y z H1 H2 H3. auto.
  - intros A m Hm w [Hi Hc]. destruct (Hm w) as (E & U & _). unfold code_gone. rewrite E.
    split; [by eapply issued_mono|done].
  - intros c' w [Hi Hc]. split; [done|]. simpl. rewrite lookup_delete_None. by right.
  - intros id jti expiry w [Hi Hc].
    destruct (auth_step_consume id jti expiry w) as (_ & E & _ & U).
    split; [by eapply issued_mono|by rewrite E].
  - intros sess id st n w [Hi Hc]. unfold issueCodeAndRedirect, mbind, eff_bind.
    assert (issued (S (w_uuid w)) c) by (eapply issued_mono; [|done]; lia).
    assert (∀ m : codeMetadataEntry, <[uuid_new (w_uuid w) := m]> (sv_codeMeta (w_st w)) !! c = None).
    { intros m. rewrite lookup_insert_ne; [done|]. intros <-. by apply not_issued_new in Hi. }
    simpl. destruct (getClientSessionByID sess id); split; simpl; auto.
Qed.
End frames.

(** ** What holds of every run *)

Section promises.
Context `{HR : Runtime, HL : !RuntimeLaws, HJ : !JwtLaws} (cfg : Config).
Implicit Types (w : World server).
Set Default Proof Using "All".

Lemma ok_serve r : preserves world_ok (serve cfg r).
Proof.
  unfold serve, withCORS. destruct (decide _) as [_|_]; [apply (ok_ret cfg)|].
  apply preserves_bind; [|intros resp; apply (ok_ret cfg)].
  generalize r at 1. intros r0. revert r. revert r0.
  apply (newMux_all cfg (λ h, ∀ r, preserves world_ok (h r))); [..|intros resp]; intros r.
  - apply (ok_outside cfg (P:=λ _, True)), outside_clientsPage.
  - by apply ok_register.
  - apply (ok_ret cfg).
  - by apply ok_logout.
  - by apply ok_authorize.
  - by apply ok_login.
  - by apply ok_approve.
  - by apply ok_token.
  - apply (ok_outside cfg (P:=λ _, True)), outside_userinfo.
  - apply (ok_outside cfg (P:=λ _, True)), outside_endsession.
  - by apply ok_endsessionApprove.
  - apply (ok_outside cfg (P:=λ _, True)), outside_jwks.
  - apply (ok_ret cfg).
  - apply (ok_outside cfg (P:=λ _, True)), outside_avatar.
  - apply (ok_ret cfg).
  - apply (ok_outside cfg (P:=λ _, True)), outside_index.
  - apply (ok_ret cfg).
Qed.

Lemma reachable_ok w : reachable cfg w → world_ok w.
Proof.
  induction 1 as [|w r _ IH].
  - split; simpl; [split; by intros ? ? ?|apply sessions_ok_empty|].
    intros c [m Hm]. by rewrite lookup_empty in Hm.
  - by apply ok_serve.
Qed.

(** C7: In every state the server reaches, a session is stored under its own cookie
    identifier, has at most one client session per client, and no two sessions share
    a subject or a client session identifier; every registration is stored under its
    client_id and is well formed for the way it came about; every cached document is
    such a registration, with keys its client published; and every code on record
    was drawn from the UUID source. *)
Theorem server_invariant w :
  reachable cfg w →
  (∀ k s, sv_sessions (w_st w) !! k = Some s →
     s_CookieID s = k ∧ NoDup (client_ids (s_ClientSessions s))) ∧
  (∀ k1 s1 cs1 k2 s2 cs2,
     sv_sessions (w_st w) !! k1 = Some s1 → cs1 ∈ s_ClientSessions s1 →
     sv_sessions (w_st w) !! k2 = Some s2 → cs2 ∈ s_ClientSessions s2 →
     cs_SessionID cs1 = cs_SessionID cs2 → k1 = k2 ∧ cs1 = cs2) ∧
  (∀ k1 s1 k2 s2,
     sv_sessions (w_st w) !! k1 = Some s1 → sv_sessions (w_st w) !! k2 = Some s2 →
     s_Sub s1 = s_Sub s2 → k1 = k2) ∧
  (∀ id reg, sv_clients (w_st w) !! id = Some reg → client_ok id reg) ∧
  (∀ id e, sv_clientIDMetadata (w_st w) !! id = Some e → entry_ok id e) ∧
  (∀ c m, sv_codeMeta (w_st w) !! c = Some m → ∃ i, (i < w_uuid w)%nat ∧ c = uuid_new i).
Proof.
  intros [[Hc Hm] Hs Hcodes]%reachable_ok. split_and!.
  - intros k s Hk. split; [by apply (sessions_cookie _ _ Hs)|by eapply (sessions_clients _ _ Hs)].
  - intros k1 s1 cs1 k2 s2 cs2 H1 Hc1 H2 Hc2 E.
    destruct (sessions_csid_unique _ _ Hs _ _ _ _ _ _ H1 Hc1 H2 Hc2 E) as [-> Hcl].
    split; [done|]. rewrite H1 in H2. injection H2 as ->.
    eapply client_ids_inj; [by eapply (sessions_clients _ _ Hs)|done..].
  - apply (sessions_sub _ _ Hs).
  - apply Hc.
  - apply Hm.
  - intros c m Hcm. by apply Hcodes.
Qed.

(** ** Codes are redeemed once *)

(** A token request for the code [c]. *)
Definition redeems (c : string) (r : Request) : Prop :=
  r_method r = "POST" ∧ r_path r = "/token" ∧
  form_get r "grant_type" = "authorization_code" ∧ form_get r "code" = c.

Lemma wp_code_gone {A} c (m : Eff (World server) A) w :
  steps (code_step c) m → code_gone c w → wp m (λ _ w', code_gone c w') w.
Proof. intros Hm Hw. by apply (Hm w). Qed.

Lemma serve_token r w :
  r_method r = "POST" → r_path r = "/token" →
  serve cfg r w = (with_headers cors_headers (token cfg r w).1, (token cfg r w).2).
Proof.
  intros Hm Hp. unfold serve, withCORS. rewrite Hm, decide_False by done.
  rewrite (route_one cfg r "token" (token cfg)) by done. unfold mbind, eff_bind.
  by destruct (token cfg r w).
Qed.

Lemma token_unknown_code c r w :
  redeems c r → sv_codeMeta (w_st w) !! c = None → (token cfg r w).1 = invalid_grant 403.
Proof.
  intros (Hm & _ & Hg & Hc) Hnone. unfold token, is_post. rewrite Hm, bool_decide_eq_true_2 by done.
  unfold redeem. rewrite Hg, decide_True by done. unfold redeem_code. rewrite Hc.
  unfold mbind, eff_bind, get_st, reads. simpl. by rewrite Hnone.
Qed.

Lemma token_spends_code c r w m :
  redeems c r → sv_codeMeta (w_st w) !! c = Some m → issued (w_uuid w) c →
  code_gone c (token cfg r w).2.
Proof.
  intros (Hm & _ & Hg & Hc) Hcode Hi.
  change (wp (token cfg r) (λ _ w', code_gone c w') w).
  unfold token, is_post. rewrite Hm, bool_decide_eq_true_2 by done. cbn [negb]. cbv zeta.
  unfold redeem. rewrite Hg, decide_True by done. unfold redeem_code. rewrite Hc.
  apply wp_bind, wp_bind, wp_get_st. rewrite Hcode. apply wp_bind, wp_mod_st.
  eapply wp_mono.
  - apply wp_code_gone; [|split; [done|apply lookup_delete_eq]].
    apply (steps_code_tail cfg (code_step c)).
  - intros [e|g] w1 Hw1; [done|]. apply wp_code_gone; [|done]. apply (steps_issue cfg (code_step c)).
Qed.

(** C1: An authorization code is redeemed at most once: whatever the server does in
    between, of two token requests for one code at most one gets past the grant; if
    the first was not refused as invalid_grant, the second is, even when the first
    then failed client authentication. *)
Theorem code_redeemed_once w c r1 resp1 w1 rs resps w2 r2 resp2 w3 :
  reachable cfg w → redeems c r1 → redeems c r2 →
  serve cfg r1 w = (resp1, w1) → run cfg rs w1 = (resps, w2) → serve cfg r2 w2 = (resp2, w3) →
  rs_status resp1 ≠ 403 →
  rs_status resp2 = 403 ∧ rs_body resp2 = BClaims {["error" := VStr "invalid_grant"]}.
Proof.
  intros Hw H1 H2 E1 E E2 Hne.
  rewrite (serve_token r1) in E1 by apply H1. rewrite (serve_token r2) in E2 by apply H2.
  injection E1 as <- <-. injection E2 as <- _.
  destruct (sv_codeMeta (w_st w) !! c) as [m|] eqn:Hc.
  - assert (code_gone c w2) as [_ Hgone].
    { pose proof (steps_run cfg (code_step c) rs (token cfg r1 w).2) as Hrun. rewrite E in Hrun.
      apply Hrun. eapply token_spends_code; [done..|]. by apply (wo_codes _ (reachable_ok _ Hw)). }
    by rewrite (token_unknown_code c r2 w2 H2 Hgone).
  - by rewrite (token_unknown_code c r1 w H1 Hc) in Hne.
Qed.

(** C11: A client assertion is accepted once: after its identifier was consumed, and
    whatever requests were served since, the same client's identifier is refused for
    as long as the assertion could still be within its lifetime and leeway. *)
Theorem assertion_not_replayed id jti expiry expiry' w w1 rs resps w2 :
  consumePrivateKeyJWTJTI id jti expiry w = (true, w1) →
  run cfg rs w1 = (resps, w2) → time_now (w_clock w2) <= expiry + privateKeyJWTLeeway →
  (consumePrivateKeyJWTJTI id jti expiry' w2).1 = false.
Proof.
  intros Hc%consume_records Hrun Ht.
  pose proof (steps_run cfg jti_step rs w1) as [_ Hkeep]. rewrite Hrun in Hkeep.
  eapply consume_refuses; [by apply Hkeep|done].
Qed.

(** C12: Every address the server ever connects to on account of a client_id or a
    jwks_uri is an IP address that the SSRF guard allows. *)
Theorem dialled_addresses_guarded w address :
  reachable cfg w → address ∈ w_dials w →
  ∃ host port ip, SplitHostPort address = Some (host, port) ∧ ParseIP host = Some ip ∧
    checkFetchAddress (Some ip) (allowLoopbackMetadataFetch cfg) = None.
Proof.
  intros Hw Hin. pose proof (reachable_from cfg (dials_step cfg) _ w eq_refl Hw) as Hd.
  assert (dials_ok cfg w) as Hok by (by apply Hd; constructor).
  by apply (dials_ok_elem cfg w).
Qed.
End promises.

(** The server starts only with a subject type it implements, and with pairwise
    subjects only with a salt of at least 16 bytes given in hexadecimal; loopback
    documents are fetched exactly when its own URL is a loopback one. *)
Theorem newServer_config env key templates port cfg :
  newServer env key templates = Some (port, cfg) →
  (subjectType cfg = "public" ∧ pairwiseSalt cfg = "" ∨
   subjectType cfg = "pairwise" ∧ 16 <= Z.of_nat (String.length (pairwiseSalt cfg)) ∧
   hex_decode (getenvDefault env "PAIRWISE_SALT" "") = Some (pairwiseSalt cfg)) ∧
  allowLoopbackMetadataFetch cfg = externalURLIsLoopback (externalURL cfg) ∧
  key = Some (privateKey cfg) ∧ templates (templatesDir cfg) = true.
Proof.
  unfold newServer. destruct (subject_config env) as [[st salt]|] eqn:Hs; [simpl|done].
  destruct key as [k|]; [simpl|done]. destruct (templates _) eqn:Ht; [|done]. intros [= <- <-].
  simpl. split_and!; [|done..]. unfold subject_config in Hs.
  destruct (decide (getenvDefault env "SUBJECT_TYPE" "public" = "pairwise")) as [E|E].
  - destruct (decide (getenvDefault env "PAIRWISE_SALT" "" = _)); [done|].
    destruct (hex_decode _) as [s|] eqn:Hx; [simpl in Hs|done].
    destruct (decide (Z.of_nat _ < 16)); [done|]. injection Hs as <- <-. right.
    split_and!; [done|lia|done].
  - destruct (decide (_ ≠ "public")) as [|Hp]; [done|]. injection Hs as <- <-. left.
    split; [by apply dec_stable|done].
Qed.
