(* ===== verification/IdpThreads.v ===== *)
(** * The provider's handlers as threads

    Every handler of [main.go] cut at the points where another request may come in
    between: each section between [s.mu.Lock] and [s.mu.Unlock], and each effect
    outside them, is one step.  A session read under the lock is a copy of the
    struct, but its slice of client sessions and their claim maps are shared with
    the map in the server; where the source reads them after [Unlock] the thread
    reads an arbitrary value, and where it writes one ([accessClaims["csid"]]) the
    thread writes at an arbitrary place.  [runs_serve]: a request nobody interrupts
    does what the handlers of the other files do. *)

From S2P Require Import Prelude Threads GoStrings GoNet GoURL GoBase64 GoPath Runtime RuntimeExample.
From S2P Require Import IdpState IdpUtil IdpRegistry IdpMetadata IdpClientAuth IdpJwt.
From S2P Require Import IdpSessions IdpAuthorize IdpToken IdpDiscovery IdpInvariant IdpFlow.
From S2P Require Import IdpServer.
From Stdlib Require Import Ascii.
From stdpp Require Import options.
Local Open Scope Z_scope.

Section threads.
Context `{HR : Runtime} (cfg : Config).
Abbreviation SThread := (thread (World server)).

(** ** Memory that the lock does not protect *)

(** The client sessions behind a copied session struct, read without the lock. *)
Definition shared_clients (sess : session) : SThread session :=
  l ← racy (list clientSession); mret (with_client_sessions sess l).

(** [accessClaims["csid"] = id] where the map belongs to the client session at
    [place], a cookie identifier and an index, if it is still stored at all. *)
Definition with_csid (id : string) (cs : clientSession) : clientSession :=
  {| cs_SessionID := cs_SessionID cs; cs_ClientID := cs_ClientID cs;
     cs_AdvertisedSub := cs_AdvertisedSub cs; cs_Scope := cs_Scope cs;
     cs_RedirectURI := cs_RedirectURI cs; cs_CodeChallenge := cs_CodeChallenge cs;
     cs_CodeChallengeMethod := cs_CodeChallengeMethod cs;
     cs_IDTokenClaims := cs_IDTokenClaims cs;
     cs_AccessTokenClaims := insert "csid" (VStr id) <$> cs_AccessTokenClaims cs;
     cs_RefreshTokenClaims := cs_RefreshTokenClaims cs |}.

Definition write_csid (place : option (string * nat)) (id : string)
    (m : gmap string session) : gmap string session :=
  match place with
  | None => m
  | Some (k, i) =>
      alter (λ s, with_client_sessions s (alter (with_csid id) i (s_ClientSessions s))) k m
  end.

Definition mark_csid (id : string) : SThread unit :=
  place ← racy (option (string * nat)); unlocked (mod_st (up_sessions (write_csid place id))).

(** ** Client ID metadata documents and client authentication *)

Definition resolveClientIDMetadata_thread (clientID : string) : SThread (option clientRegistration) :=
  entry ← locked (get_st (λ s, sv_clientIDMetadata s !! clientID));
  live ← unlocked (cached_live entry);
  match live with
  | Some e => mret (Some (me_reg e))
  | None =>
      fetched ← unlocked (fetchClientIDMetadata cfg clientID);
      match fetched with
      | None => mret None
      | Some (reg, ttl) => reg ← locked (store_document clientID reg ttl); mret (Some reg)
      end
  end.

Definition clientKeySet_thread (clientID : string) (reg : clientRegistration)
    : SThread (option (list JWK)) :=
  entry ← locked (get_st (λ s, sv_clientIDMetadata s !! clientID));
  cached ← unlocked (cached_keys entry);
  match cached with
  | Some keys => mret (Some keys)
  | None =>
      raw ← unlocked (raw_keys cfg reg);
      match raw ≫= jose_unmarshal with
      | None | Some [] => mret None
      | Some keys => locked (cache_keys clientID keys);; mret (Some keys)
      end
  end.

Definition verifyPrivateKeyJWT_thread (clientID : string) (reg : clientRegistration)
    (assertion : string) : SThread bool :=
  if decide (assertion = EmptyString) then mret false
  else
    keySet ← clientKeySet_thread clientID reg;
    match keySet with
    | None => mret false
    | Some keys =>
        now ← unlocked tNow;
        match jwt_parse assertion_options now assertion
                (λ t, verificationKeys keys (jt_kid t) (jt_alg t)) with
        | None => mret false
        | Some claims =>
            if negb (assertion_claims_ok cfg clientID claims) then mret false
            else match jwt_GetExpirationTime claims with
            | None => mret false
            | Some expiry =>
                now ← unlocked tNow;
                if decide (expiry > now + privateKeyJWTMaxLifetime) then mret false
                else
                  let jti := claim_string claims "jti" in
                  if decide (jti = EmptyString) then mret false
                  else locked (consumePrivateKeyJWTJTI clientID jti expiry)
            end
        end
    end.

Definition check_credentials_thread (clientID : string) (reg : clientRegistration)
    (creds : clientCredentials) : SThread bool :=
  if decide (cr_TokenEndpointAuthMethod reg = EmptyString ∨
             cr_TokenEndpointAuthMethod reg = "none") then mret true
  else if decide (cc_method creds ≠ cr_TokenEndpointAuthMethod reg) then mret false
  else if decide (cr_TokenEndpointAuthMethod reg = "private_key_jwt") then
    if decide (cc_clientID creds ≠ EmptyString ∧ cc_clientID creds ≠ clientID) then mret false
    else verifyPrivateKeyJWT_thread clientID reg (cc_assertion creds)
  else if decide (cc_clientID creds ≠ clientID) then mret false
  else if decide (cr_ClientSecret reg = EmptyString) then mret false
  else mret (bool_decide (cc_secret creds = cr_ClientSecret reg)).

Definition authenticateClient_thread (clientID : string) (creds : clientCredentials)
    : SThread bool :=
  known ← locked (get_st (λ s, sv_clients s !! clientID));
  match known with
  | None => mret true
  | Some reg =>
      if decide (cr_RegistrationMethod reg = registrationMethodDynamic) then
        check_credentials_thread clientID reg creds
      else if decide (cr_RegistrationMethod reg = registrationMethodClientIDMetadataDocument) then
        refreshed ← resolveClientIDMetadata_thread clientID;
        match refreshed with
        | Some reg => check_credentials_thread clientID reg creds
        | None =>
            if decide (cr_TokenEndpointAuthMethod reg = "private_key_jwt") then mret false
            else check_credentials_thread clientID reg creds
        end
      else mret true
  end.

(** ** The authorization endpoint *)

Definition resolveAuthorizeClient_thread (ar : authorizeRequest) : SThread (option Response) :=
  resolved ← (if isClientIDMetadataDocumentURL (ar_clientID ar) then
                resolveClientIDMetadata_thread (ar_clientID ar)
              else
                locked (registerClientLocked (ar_clientID ar) (ar_redirectURI ar) (ar_scope ar);;
                        reg ← get_st (λ s, sv_clients s !! ar_clientID ar);
                        mret (Some (default zero_registration reg))));
  match resolved with
  | None => mret (Some (renderAuthorizeError "Could not resolve the client ID metadata document"))
  | Some reg =>
      if decide (cr_RegistrationMethod reg ∈
                   [registrationMethodClientIDMetadataDocument; registrationMethodDynamic] ∧
                 ar_redirectURI ar ∉ cr_RedirectURIs reg) then
        mret (Some (renderAuthorizeError
                      "The redirect_uri does not match this client's registration"))
      else if decide (cr_RegistrationMethod reg = registrationMethodClientIDMetadataDocument ∧
                      cr_TokenEndpointAuthMethod reg = "none" ∧
                      ar_codeChallenge ar = EmptyString) then
        mret (Some (renderAuthorizeError
                      "This client is registered as public and must use PKCE"))
      else mret None
  end.

Definition record_code (code : string) (sess : session) (clientID nonce : string)
    : Eff (World server) unit :=
  mod_st (up_codeMeta (<[code := {| cm_CookieID := s_CookieID sess; cm_ClientID := clientID;
                                    cm_Nonce := nonce |}]>)).

(** The code is drawn, then recorded under the lock; the redirect address is read
    from the client session afterwards. *)
Definition issueCodeAndRedirect_thread (sess : session) (clientID state nonce : string)
    : SThread Response :=
  code ← unlocked newUUID;
  locked (record_code code sess clientID nonce);;
  sess ← shared_clients sess;
  match getClientSessionByID sess clientID with
  | None => mret (error_page "Unknown client session")
  | Some clientSess =>
      let url := buildURL (cs_RedirectURI clientSess)
                   (params_of [("code", code); ("state", state); ("iss", externalURL cfg)]) in
      mret {| rs_status := 303; rs_header := []; rs_cookies := [session_cookie (s_CookieID sess)];
              rs_body := BRedirect url |}
  end.

(** The section that finds the session of a cookie and brings it up to date. *)
Definition find_and_refresh (ar : authorizeRequest) (cookieID : string)
    : Eff (World server) (option session) :=
  existing ← get_st (λ s, sv_sessions s !! cookieID);
  match existing with
  | Some sess =>
      let sess := refresh_session ar sess in
      mod_st (up_sessions (<[cookieID := sess]>));; mret (Some sess)
  | None => mret None
  end.

Definition find_and_refresh_by_sub (ar : authorizeRequest) (sub : string)
    : Eff (World server) (option session) :=
  sessions ← get_st sv_sessions;
  order ← rangeMap sessions;
  let id := getSessionByAdvertisedSub order sub in
  if decide (id = EmptyString) then mret None
  else
    let sess := refresh_session ar (default zero_session (sessions !! id)) in
    mod_st (up_sessions (<[id := sess]>));; mret (Some sess).

Definition silent_authorize_thread (ar : authorizeRequest) (hint : string) : SThread Response :=
  claims ← unlocked (decodeJWT cfg hint);
  match claims with
  | None => mret (login_required cfg ar)
  | Some c =>
      found ← locked (find_and_refresh_by_sub ar (claim_string c "sub"));
      match found with
      | None => mret (login_required cfg ar)
      | Some sess => issueCodeAndRedirect_thread sess (ar_clientID ar) (ar_state ar) (ar_nonce ar)
      end
  end.

Definition authorize_thread (r : Request) : SThread Response :=
  if negb (is_get r) && negb (is_post r) then mret NotFound
  else
    let ar := authorize_request r in
    if decide (ar_codeChallenge ar ≠ EmptyString ∧
               ar_codeChallengeMethod ar ∉ supportedCodeChallengeMethods)
    then mret (renderAuthorizeError "Unsupported code_challenge_method")
    else
      refused ← resolveAuthorizeClient_thread ar;
      match refused with
      | Some e => mret e
      | None =>
          reqID ← unlocked newUUID;
          let sessionCookie := default EmptyString (cookie_get r sessionCookieName) in
          existing ← locked (find_and_refresh ar sessionCookie);
          match existing with
          | Some sess =>
              issueCodeAndRedirect_thread sess (ar_clientID ar) (ar_state ar) (ar_nonce ar)
          | None =>
              if decide (form_get r "prompt" = "none")
              then silent_authorize_thread ar (form_get r "id_token_hint")
              else locked (request_login ar reqID)
          end
      end.

(** ** Login and approval *)

Definition set_user (reqID username : string) : Eff (World server) authContextEntry :=
  stored ← get_st (λ s, sv_authContext s !! reqID);
  let ctx := with_user username (default zero_authContext stored) in
  mod_st (up_authContext (<[reqID := ctx]>));; mret ctx.

Definition login_thread (r : Request) : SThread Response :=
  if negb (is_post r) then mret NotFound
  else
    let reqID := form_get r "reqid" in
    let username := form_get r "username" in
    if decide (form_get r "password" ≠ "valid") then mret (error_page "Authentication error")
    else
      ctx ← locked (set_user reqID username);
      match claimsToPrettyJSON (Some (defaultIDTokenClaims cfg ctx)),
            claimsToPrettyJSON (Some (defaultAccessTokenClaims ctx)) with
      | Some idJSON, Some accessJSON =>
          mret (render (PAuthorize (ac_ClientID ctx) (ac_Scope ctx) reqID idJSON accessJSON
                          EmptyString (internalAvatarURL cfg username)))
      | _, _ => mret serialization_error
      end.

(** The second critical section of [approve]. *)
Definition store_grant (reqID : string) (ctx : authContextEntry) (idClaims accessClaims : option Claims)
    : Eff (World server) session :=
  mod_st (up_authContext (delete reqID));;
  sess ← session_for ctx;
  csID ← client_session_id sess (ac_ClientID ctx);
  let sess := with_client_sessions sess
                (upsertClientSession (s_ClientSessions sess)
                   (approved_session cfg ctx csID idClaims accessClaims)) in
  mod_st (up_sessions (<[s_CookieID sess := sess]>));; mret sess.

Definition grant_thread (reqID : string) (ctx : authContextEntry) (idClaims accessClaims : option Claims)
    : SThread Response :=
  sess ← locked (store_grant reqID ctx idClaims accessClaims);
  issueCodeAndRedirect_thread sess (ac_ClientID ctx) (ac_State ctx) (ac_Nonce ctx).

Definition approve_thread (r : Request) : SThread Response :=
  if negb (is_post r) then mret NotFound
  else
    let reqID := form_get r "reqid" in
    stored ← locked (get_st (λ s, sv_authContext s !! reqID));
    match stored with
    | None => mret (error_page "Unknown request ID")
    | Some ctx =>
        if negb (form_has r "approve") then mret (error_page "Not approved")
        else
          let idJSON := form_get r "id_token_claims_json" in
          let accessJSON := form_get r "access_token_claims_json" in
          let again err := mret (render (PAuthorize (ac_ClientID ctx) (ac_Scope ctx) reqID
                                   idJSON accessJSON err (internalAvatarURL cfg (ac_Username ctx)))) in
          match parseClaimsJSON idJSON with
          | None => again "ID token claims must be valid JSON object"
          | Some idClaims =>
          match parseClaimsJSON accessJSON with
          | None => again "Access token claims must be valid JSON object"
          | Some accessClaims => grant_thread reqID ctx idClaims accessClaims
          end end
    end.

(** ** The token endpoint *)

Definition take_code (code : string) : Eff (World server) (option codeMetadataEntry) :=
  stored ← get_st (λ s, sv_codeMeta s !! code);
  match stored with
  | Some meta => mod_st (up_codeMeta (delete code));; mret (Some meta)
  | None => mret None
  end.

Definition redeem_code_thread (r : Request) : SThread (Response + grantResult) :=
  stored ← locked (take_code (form_get r "code"));
  match stored with
  | None => mret (inl (invalid_grant 403))
  | Some meta =>
      found ← locked (get_st (λ s, sv_sessions s !! cm_CookieID meta));
      match found with
      | None => mret (inl (invalid_grant 403))
      | Some sess =>
          sess ← shared_clients sess;
          match getClientSessionByID sess (cm_ClientID meta) with
          | None => mret (inl (invalid_grant 403))
          | Some cs =>
              if negb (pkce_ok (cs_CodeChallenge cs) (cs_CodeChallengeMethod cs)
                         (form_get r "code_verifier"))
              then mret (inl (invalid_grant 403))
              else
                mark_csid (cs_SessionID cs);;
                mret (inr (grant_of cfg (cm_CookieID meta) sess cs (cm_Nonce meta)))
          end
      end
  end.

(** The client session found under the lock is a pointer into the shared slice:
    its fields are read afterwards. *)
Definition redeem_refresh_thread (r : Request) : SThread (Response + grantResult) :=
  claims ← unlocked (decodeJWT cfg (form_get r "refresh_token"));
  match claims with
  | None => mret (inl (invalid_grant 401))
  | Some c =>
      found ← locked (sessions ← get_st sv_sessions;
                      order ← rangeMap sessions;
                      mret (getSessionByClientSessionID order (claim_string c "csid")));
      match found with
      | None => mret (inl (invalid_grant 401))
      | Some (cookieID, sess, _) =>
          cs ← racy clientSession;
          mark_csid (cs_SessionID cs);;
          mret (inr (grant_of cfg cookieID sess cs EmptyString))
      end
  end.

Definition redeem_thread (r : Request) : SThread (Response + grantResult) :=
  let grantType := form_get r "grant_type" in
  if decide (grantType = "authorization_code") then redeem_code_thread r
  else if decide (grantType = "refresh_token") then redeem_refresh_thread r
  else mret (inl (writeOAuthError 400 "unsupported_grant_type")).

Definition issue_tokens_thread (g : grantResult) : SThread Response :=
  access ← unlocked (issue_if cfg true (g_advertisedSub g) (access_audience cfg) (g_accessClaims g)
             (seconds_duration (accessTokenLifetime cfg)));
  match access with
  | None | Some None => mret token_error
  | Some (Some (accessToken, issuedAccess)) =>
  refresh ← unlocked (issue_if cfg (hasScope (g_scope g) "offline_access") (g_advertisedSub g)
              [externalURL cfg +:+ "/token"] (refresh_claims g)
              (seconds_duration (refreshTokenLifetime cfg)));
  match refresh with
  | None => mret token_error
  | Some refresh =>
  idToken ← unlocked (issue_if cfg (hasScope (g_scope g) "openid") (g_advertisedSub g)
              [g_clientID g] (g_idTokenClaims g) (60 * minute));
  match idToken with
  | None => mret token_error
  | Some idToken =>
      locked (mod_st (up_sessions (update_session (g_cookieID g)
        (λ cs, bool_decide (cs_SessionID cs = g_clientSessionID g))
        (as_issued g issuedAccess (snd <$> refresh) (snd <$> idToken)))));;
      mret (token_response cfg accessToken (fst <$> refresh) (fst <$> idToken))
  end end end.

Definition token_thread (r : Request) : SThread Response :=
  if negb (is_post r) then mret NotFound
  else
    let creds := parseClientCredentials r in
    granted ← redeem_thread r;
    match granted with
    | inl e => mret e
    | inr g =>
        authenticated ← authenticateClient_thread (g_clientID g) creds;
        if negb authenticated then mret (writeClientAuthError (cc_method creds))
        else issue_tokens_thread g
    end.
(** ** Registration *)

Definition register_thread (r : Request) : SThread Response :=
  if negb (is_post r) then mret NotFound
  else match json_decode_first (r_body r) ≫= decode_registration with
       | None => mret (writeRegistrationError "invalid_client_metadata"
                         "request body must be a JSON object of client metadata")
       | Some reg =>
           match normalizeRegistration reg supportedTokenEndpointAuthMethods
                   "client_secret_basic" with
           | inl e => mret (writeRegistrationError (re_code e) (re_description e))
           | inr reg =>
               id ← unlocked newUUID;
               now ← unlocked tNow;
               let reg := reg_identity reg id (unix now) (cr_ClientSecret reg)
                            (cr_ClientSecretExpiresAt reg) registrationMethodDynamic in
               if decide (cr_TokenEndpointAuthMethod reg = "none")
               then locked (store_registration reg)
               else
                 secret ← unlocked newClientSecret;
                 match secret with
                 | None => mret (writeRegistrationError "invalid_client_metadata"
                                   "could not issue a client secret")
                 | Some s =>
                     locked (store_registration
                       (reg_identity reg id (unix now) s (Some 0) registrationMethodDynamic))
                 end
           end
       end.

(** ** Handlers that read the sessions, and the ends of a session *)

Definition find_by_csid (csid : string)
    : Eff (World server) (option (string * session * clientSession)) :=
  sessions ← get_st sv_sessions;
  order ← rangeMap sessions;
  mret (getSessionByClientSessionID order csid).

Definition userinfo_thread (r : Request) : SThread Response :=
  if negb (is_get r) && negb (is_post r) then mret NotFound
  else
    claims ← unlocked (extractAccessToken cfg r);
    match claims with
    | None => mret (writeBearerError cfg 401 "invalid_token")
    | Some c =>
        found ← locked (find_by_csid (claim_string c "csid"));
        mret {| rs_status := 200; rs_header := [("Content-Type", "application/json")];
                rs_cookies := [];
                rs_body := BClaims (userinfo_claims cfg (claim_string c "scope")
                                      (claim_string c "sub") found) |}
    end.

Definition avatar_thread (r : Request) : SThread Response :=
  if negb (is_get r) then mret NotFound
  else if negb (protectPictureURL cfg) then mret (serve_avatar cfg r)
  else
    claims ← unlocked (extractAccessToken cfg r);
    match claims with
    | None => mret (writeBearerError cfg 401 "invalid_token")
    | Some c =>
        found ← locked (find_by_csid (claim_string c "csid"));
        match found with
        | None => mret (writeBearerError cfg 401 "invalid_token")
        | Some (_, sess, _) =>
            if decide (path_base (r_path r) ≠ digit_string (avatarIndex (s_Username sess)) +:+ ".svg")
            then mret (writeBearerError cfg 403 "invalid_token")
            else mret (serve_avatar cfg r)
        end
    end.

Definition find_by_advertised_sub (sub : string) : Eff (World server) (option (string * session)) :=
  sessions ← get_st sv_sessions;
  order ← rangeMap sessions;
  let id := getSessionByAdvertisedSub order sub in
  if decide (id = EmptyString) then mret None
  else mret (Some (id, default zero_session (sessions !! id))).

Definition endsession_thread (r : Request) : SThread Response :=
  if negb (is_get r) && negb (is_post r) then mret NotFound
  else
    claims ← unlocked (decodeJWT cfg (form_get r "id_token_hint"));
    match claims with
    | None => mret (error_page "ID token not for us")
    | Some c =>
        found ← locked (find_by_advertised_sub (claim_string c "sub"));
        match found with
        | None => mret (error_page "Error logging out")
        | Some (id, sess) =>
            mret (render (PEndsession id (s_Username sess) (form_get r "post_logout_redirect_uri")))
        end
    end.

Definition endsessionApprove_thread (r : Request) : SThread Response :=
  if negb (is_get r) && negb (is_post r) then mret NotFound
  else locked (mod_st (up_sessions (delete (form_get r "sessionid"))));;
       mret (redirect (form_get r "redirurl")).

Definition logout_thread (r : Request) : SThread Response :=
  if negb (is_post r) then mret NotFound
  else locked (mod_st (up_sessions (delete (form_get r "cookieid"))));;
       mret (redirect (externalURL cfg)).

(** ** The server *)

Definition mux_threads : list (string * (Request → SThread Response)) :=
  [ ("/clients", λ r, locked (clientsPage r)); ("/register", register_thread);
    ("/style.css", λ r, unlocked (styleCSS cfg r)); ("/logout", logout_thread);
    ("/authorize", authorize_thread); ("/login", login_thread); ("/approve", approve_thread);
    ("/token", token_thread); ("/userinfo", userinfo_thread); ("/endsession", endsession_thread);
    ("/endsession-approve", endsessionApprove_thread);
    ("/.well-known/jwks.json", λ r, unlocked (jwks cfg r));
    ("/.well-known/openid-configuration", λ r, unlocked (openidConfiguration cfg r)) ]
  ++ ((λ i, (avatar_path "/avatars/" i, avatar_thread)) <$> seq 1 8)
  ++ ((λ i, (avatar_path "/internal/avatars/" i, λ r, unlocked (internalAvatar cfg r))) <$> seq 1 8).

Definition route_thread : Request → Request → SThread Response :=
  serve_mux mux_threads (λ r, locked (index cfg r)) (λ resp _, mret resp).

Definition serve_thread (r : Request) : SThread Response :=
  if decide (r_method r = "OPTIONS") then mret (with_headers cors_headers (respond 204 BNone))
  else resp ← route_thread r r; mret (with_headers cors_headers resp).

Lemma route_thread_one r name h :
  r_path r = "/" +:+ name → contains_char "/" name = false → plain_element name →
  snd <$> List.find (λ ph, bool_decide (segments ph.1 = [name])) mux_threads = Some h →
  route_thread r = h.
Proof. apply serve_mux_one. Qed.
End threads.

(** ** A request nobody interrupts *)

(** A step of the proof that a thread runs as its handler does. *)
Ltac runs_step :=
  cbv zeta;
  lazymatch goal with
  | |- runs (mret _) (mret _) => apply runs_ret
  | |- runs (locked _) _ => apply runs_locked
  | |- runs (unlocked _) _ => apply runs_unlocked
  | |- runs (_ ≫= _) (_ ≫= _) => apply runs_bind; [|intros ?]
  | |- runs (if ?b then _ else _) _ => destruct b
  | |- runs (match ?x with _ => _ end) _ => destruct x
  end.
Ltac runs_steps tac := repeat first [tac | runs_step].

Section alone.
Context `{HR : Runtime} (cfg : Config).

Lemma runs_resolve id : runs (resolveClientIDMetadata_thread cfg id) (resolveClientIDMetadata cfg id).
Proof. unfold resolveClientIDMetadata_thread, resolveClientIDMetadata. runs_steps fail. Qed.

Lemma runs_clientKeySet id reg : runs (clientKeySet_thread cfg id reg) (clientKeySet cfg id reg).
Proof. unfold clientKeySet_thread, clientKeySet. runs_steps fail. Qed.

Lemma runs_verify id reg a : runs (verifyPrivateKeyJWT_thread cfg id reg a) (verifyPrivateKeyJWT cfg id reg a).
Proof.
  unfold verifyPrivateKeyJWT_thread, verifyPrivateKeyJWT. runs_steps ltac:(apply runs_clientKeySet).
Qed.

Lemma runs_check id reg creds :
  runs (check_credentials_thread cfg id reg creds) (check_credentials cfg id reg creds).
Proof.
  unfold check_credentials_thread, check_credentials. runs_steps ltac:(apply runs_verify).
Qed.

Lemma runs_authenticate id creds :
  runs (authenticateClient_thread cfg id creds) (authenticateClient cfg id creds).
Proof.
  unfold authenticateClient_thread, authenticateClient.
  runs_steps ltac:(first [apply runs_resolve | apply runs_check]).
Qed.

Lemma runs_resolveAuthorizeClient ar :
  runs (resolveAuthorizeClient_thread cfg ar) (resolveAuthorizeClient cfg ar).
Proof.
  unfold resolveAuthorizeClient_thread, resolveAuthorizeClient, authorize_registration.
  runs_steps ltac:(apply runs_resolve).
Qed.

Lemma with_own_clients sess : with_client_sessions sess (s_ClientSessions sess) = sess.
Proof. by destruct sess. Qed.

(** Left alone, the shared slice is what it was when the struct was copied. *)
Lemma runs_shared {A} sess (f : session → thread (World server) A) m :
  runs (f sess) m → runs (shared_clients sess ≫= f) m.
Proof.
  intros H w. apply alone_racy with (s_ClientSessions sess). simpl. rewrite with_own_clients. apply H.
Qed.

Lemma runs_issue sess id st n :
  runs (issueCodeAndRedirect_thread cfg sess id st n) (issueCodeAndRedirect cfg sess id st n).
Proof.
  unfold issueCodeAndRedirect_thread, issueCodeAndRedirect, record_code.
  runs_steps ltac:(apply runs_shared).
Qed.
(** A critical section that the source's value spreads over several binds. *)
Lemma runs_section {X A} (m0 : Eff (World server) X) (f : X → thread (World server) A)
    (g : X → Eff (World server) A) m :
  (∀ w, m w = (m0 ≫= g) w) → (∀ x, runs (f x) (g x)) → runs (locked m0 ≫= f) m.
Proof. intros E H w. rewrite E. apply runs_bind; [apply runs_locked|done]. Qed.

Lemma runs_silent ar hint : runs (silent_authorize_thread cfg ar hint) (silent_authorize cfg ar hint).
Proof.
  unfold silent_authorize_thread, silent_authorize. apply runs_bind; [apply runs_unlocked|].
  intros [c|]; [|apply runs_ret].
  apply runs_section with (g := λ found, match found with
    | None => mret (login_required cfg ar)
    | Some sess => issueCodeAndRedirect cfg sess (ar_clientID ar) (ar_state ar) (ar_nonce ar)
    end); [|intros [sess|]; [apply runs_issue|apply runs_ret]].
  intros w. unfold find_and_refresh_by_sub, continue_session, mbind, eff_bind. simpl.
  by destruct (decide _).
Qed.

Lemma runs_authorize r : runs (authorize_thread cfg r) (authorize cfg r).
Proof.
  unfold authorize_thread, authorize. destruct (negb _ && negb _); [apply runs_ret|]. cbv zeta.
  destruct (decide _); [apply runs_ret|]. apply runs_bind; [apply runs_resolveAuthorizeClient|].
  intros [e|]; [apply runs_ret|]. apply runs_bind; [apply runs_unlocked|]. intros reqID.
  apply runs_section with (g := λ found, match found with
    | Some sess => issueCodeAndRedirect cfg sess (ar_clientID (authorize_request r))
                     (ar_state (authorize_request r)) (ar_nonce (authorize_request r))
    | None => if decide (form_get r "prompt" = "none")
              then silent_authorize cfg (authorize_request r) (form_get r "id_token_hint")
              else request_login (authorize_request r) reqID
    end).
  - intros w. unfold find_and_refresh, continue_session, mbind, eff_bind, get_st, reads.
    by destruct (sv_sessions (w_st w) !! _).
  - intros [sess|]; [apply runs_issue|]. destruct (decide _); [apply runs_silent|apply runs_locked].
Qed.

Lemma runs_login r : runs (login_thread cfg r) (login cfg r).
Proof.
  unfold login_thread, login. destruct (negb _); [apply runs_ret|]. cbv zeta.
  destruct (decide _); [apply runs_ret|].
  eapply runs_section with (g := λ ctx, match claimsToPrettyJSON (Some (defaultIDTokenClaims cfg ctx)),
            claimsToPrettyJSON (Some (defaultAccessTokenClaims ctx)) with
      | Some idJSON, Some accessJSON =>
          mret (render (PAuthorize (ac_ClientID ctx) (ac_Scope ctx) (form_get r "reqid") idJSON
                  accessJSON EmptyString (internalAvatarURL cfg (form_get r "username"))))
      | _, _ => mret serialization_error
      end); [done|]. intros ctx. runs_steps fail.
Qed.

Lemma runs_grant reqID ctx idc acc :
  runs (grant_thread cfg reqID ctx idc acc) (grant cfg reqID ctx idc acc).
Proof.
  apply runs_section with (g := λ sess,
    issueCodeAndRedirect cfg sess (ac_ClientID ctx) (ac_State ctx) (ac_Nonce ctx)).
  - intros w. unfold grant, store_grant, mbind, eff_bind, mod_st, writes.
    by destruct (session_for _ _) as [s w1], (client_session_id _ _ _).
  - intros sess. apply runs_issue.
Qed.

Lemma runs_approve r : runs (approve_thread cfg r) (approve cfg r).
Proof. unfold approve_thread, approve. runs_steps ltac:(apply runs_grant). Qed.
(** ** Redeeming, left alone *)

Lemma find_client_session_place p l cs :
  find_client_session p l = Some cs →
  ∃ i, l !! i = Some cs ∧ ∀ f, update_first p f l = alter f i l.
Proof.
  induction l as [|c l IH]; simpl; [done|]. destruct (p c).
  - intros [= ->]. by exists 0%nat.
  - intros (i & Hi & Hf)%IH. exists (S i). split; [done|]. intros f. by rewrite Hf.
Qed.

Lemma write_csid_first k p (m : gmap string session) sess cs :
  m !! k = Some sess → find_client_session p (s_ClientSessions sess) = Some cs →
  ∃ place, write_csid place (cs_SessionID cs) m = update_session k p set_csid m.
Proof.
  intros Hk (i & Hi & Hf)%find_client_session_place. exists (Some (k, i)). simpl.
  unfold update_session. rewrite Hk. apply map_eq. intros j. rewrite lookup_alter, lookup_insert.
  destruct (decide (k = j)) as [<-|]; [|done]. rewrite Hk. simpl. do 2 f_equal. rewrite Hf.
  apply list_eq. intros n. destruct (decide (i = n)) as [<-|Hn].
  - by rewrite !list_lookup_alter_eq, Hi.
  - by rewrite !list_lookup_alter_ne.
Qed.

(** The unprotected write, left alone, hits the client session the grant is for. *)
Lemma alone_mark {A} k p (w : World server) sess cs (x : A) :
  sv_sessions (w_st w) !! k = Some sess →
  find_client_session p (s_ClientSessions sess) = Some cs →
  alone (mark_csid (cs_SessionID cs);; mret x) w x
    (set_st (up_sessions (update_session k p set_csid) (w_st w)) w).
Proof.
  intros Hk Hf. destruct (write_csid_first _ _ _ _ _ Hk Hf) as [place Hp].
  apply alone_racy with place, alone_atomic. simpl. unfold up_sessions. rewrite Hp. apply alone_done.
Qed.

Lemma runs_redeem_code r : runs (redeem_code_thread cfg r) (redeem_code cfg r).
Proof.
  intros w. eapply alone_bind; [apply runs_locked|].
  unfold take_code, redeem_code, mbind, eff_bind, get_st, reads, mod_st, writes. simpl.
  destruct (sv_codeMeta (w_st w) !! _) as [meta|]; [|apply alone_done]. simpl.
  apply alone_atomic. simpl.
  destruct (sv_sessions (w_st w) !! _) as [sess|] eqn:Hs; [|apply alone_done].
  apply alone_racy with (s_ClientSessions sess). simpl. rewrite with_own_clients.
  destruct (getClientSessionByID sess _) as [cs|] eqn:Hc; [|apply alone_done].
  destruct (negb _); [apply alone_done|]. simpl.
  pose proof (alone_mark (cm_CookieID meta) _
    (set_st (up_codeMeta (delete (form_get r "code")) (w_st w)) w) sess cs
    (inr (grant_of cfg (cm_CookieID meta) sess cs (cm_Nonce meta)) : Response + grantResult) Hs Hc) as H.
  exact H.
Qed.

Lemma getSessionByClientSessionID_find order csID k s cs :
  getSessionByClientSessionID order csID = Some (k, s, cs) →
  (k, s) ∈ order ∧
  find_client_session (λ x, bool_decide (cs_SessionID x = csID)) (s_ClientSessions s) = Some cs.
Proof.
  unfold getSessionByClientSessionID. case_decide; [done|].
  induction order as [|[k' s'] order IH]; simpl; [done|].
  destruct (find_client_session _ (s_ClientSessions s')) as [c|] eqn:E.
  - intros [= <- <- <-]. split; [by left|done].
  - intros [? ?]%IH. split; [by right|done].
Qed.

Context `{HL : !RuntimeLaws}.

Lemma runs_redeem_refresh r : runs (redeem_refresh_thread cfg r) (redeem_refresh cfg r).
Proof using HL.
  unfold redeem_refresh_thread, redeem_refresh.
  apply runs_bind; [apply runs_unlocked|]. intros [c|]; [|apply runs_ret].
  intros w. eapply alone_bind; [apply runs_locked|].
  unfold mbind, eff_bind, get_st, reads, rangeMap, mod_st, writes. simpl.
  pose proof (range_perm_perm (w_range w) _ (map_to_list (sv_sessions (w_st w)))) as Ho.
  destruct (getSessionByClientSessionID _ _) as [[[k sess] cs]|] eqn:Hf; [|apply alone_done].
  apply getSessionByClientSessionID_find in Hf as [Hin Hf].
  pose proof (order_lookup _ _ _ _ Ho Hin) as Hk. apply alone_racy with cs.
  match goal with |- alone _ ?w1 _ _ => pose proof (alone_mark k _ w1 sess cs
    (inr (grant_of cfg k sess cs EmptyString) : Response + grantResult) Hk Hf) as H end.
  exact H.
Qed.
Lemma runs_redeem r : runs (redeem_thread cfg r) (redeem cfg r).
Proof using HL.
  unfold redeem_thread, redeem.
  runs_steps ltac:(first [apply runs_redeem_code | apply runs_redeem_refresh]).
Qed.

Lemma runs_issue_tokens g : runs (issue_tokens_thread cfg g) (issue_tokens cfg g).
Proof using Type. unfold issue_tokens_thread, issue_tokens. runs_steps fail. Qed.

Lemma runs_token r : runs (token_thread cfg r) (token cfg r).
Proof using HL.
  unfold token_thread, token.
  runs_steps ltac:(first [apply runs_redeem | apply runs_authenticate | apply runs_issue_tokens]).
Qed.

(** ** The other handlers, left alone *)

Lemma runs_register r : runs (register_thread r) (register r).
Proof using Type. unfold register_thread, register, issue_registration. runs_steps fail. Qed.

Lemma runs_userinfo r : runs (userinfo_thread cfg r) (userinfo cfg r).
Proof using Type.
  unfold userinfo_thread, userinfo. runs_step; [apply runs_ret|]. runs_step; [apply runs_unlocked|].
  runs_step; [|apply runs_ret]. eapply runs_section; [|intros found; apply runs_ret]. done.
Qed.

Lemma runs_avatar r : runs (avatar_thread cfg r) (avatar cfg r).
Proof using Type.
  unfold avatar_thread, avatar. do 2 (runs_step; [apply runs_ret|]).
  runs_step; [apply runs_unlocked|]. runs_step; [|apply runs_ret].
  eapply runs_section with (g := λ found, match found with
    | None => _
    | Some (_, sess, _) =>
        if decide (path_base (r_path r) ≠ digit_string (avatarIndex (s_Username sess)) +:+ ".svg")
        then _ else _
    end); [done|]. intros found. runs_steps fail.
Qed.

Lemma runs_endsession r : runs (endsession_thread cfg r) (endsession cfg r).
Proof using Type.
  unfold endsession_thread, endsession. runs_step; [apply runs_ret|].
  runs_step; [apply runs_unlocked|]. runs_step; [|apply runs_ret].
  eapply runs_section with (g := λ found, match found with
    | None => mret (error_page "Error logging out")
    | Some (id, sess) => mret (render (PEndsession id (s_Username sess)
                                         (form_get r "post_logout_redirect_uri")))
    end); [|intros [[id sess]|]; apply runs_ret].
  intros w. unfold find_by_advertised_sub, mbind, eff_bind. simpl. by destruct (decide _).
Qed.

(** ** The server *)

Abbreviation Handler := (Request → Eff (World server) Response).
Abbreviation ThreadHandler := (Request → thread (World server) Response).

Definition same_handler (a : string * ThreadHandler) (b : string * Handler) : Prop :=
  a.1 = b.1 ∧ ∀ r, runs (a.2 r) (b.2 r).

Lemma mux_threads_same : Forall2 same_handler (mux_threads cfg) (newMux cfg).
Proof using HL.
  unfold mux_threads, newMux. apply Forall2_app; [|apply Forall2_app].
  - repeat (constructor; [split; [done|intros r; simpl]|]); [..|constructor].
    + apply runs_locked.
    + apply runs_register.
    + apply runs_unlocked.
    + unfold logout_thread, logout. runs_steps fail.
    + apply runs_authorize.
    + apply runs_login.
    + apply runs_approve.
    + apply runs_token.
    + apply runs_userinfo.
    + apply runs_endsession.
    + unfold endsessionApprove_thread, endsessionApprove. runs_steps fail.
    + apply runs_unlocked.
    + apply runs_unlocked.
  - apply Forall2_fmap, Forall_Forall2_diag, Forall_true. intros i.
    split; [done|]. intros r. apply runs_avatar.
  - apply Forall2_fmap, Forall_Forall2_diag, Forall_true. intros i.
    split; [done|]. intros r. apply runs_unlocked.
Qed.

Lemma find_same (path : string) l1 l2 :
  Forall2 same_handler l1 l2 →
  let found {H} (ph : string * H) := bool_decide (segments ph.1 = segments path) in
  match List.find found l1, List.find found l2 with
  | Some a, Some b => ∀ r, runs (a.2 r) (b.2 r)
  | None, None => True
  | _, _ => False
  end.
Proof using Type.
  induction 1 as [|a b l1 l2 [E Hr] _ IH]; simpl; [done|]. rewrite E. by destruct (bool_decide _).
Qed.

Lemma runs_route r0 r : runs (route_thread cfg r0 r) (route cfg r0 r).
Proof using HL.
  unfold route_thread, route, serve_mux. cbv zeta.
  destruct (decide (_ ≠ request_path r0)); [apply runs_ret|].
  set (path := if decide _ then _ else _).
  pose proof (find_same path _ _ mux_threads_same) as H. cbv zeta in H.
  destruct (List.find _ (mux_threads cfg)) as [[p1 h1]|], (List.find _ (newMux cfg)) as [[p2 h2]|];
    try done. destruct (decide (path = EmptyString)); [apply runs_ret|apply runs_locked].
Qed.

Lemma runs_serve r : runs (serve_thread cfg r) (serve cfg r).
Proof using HL. unfold serve_thread, serve, withCORS. runs_steps ltac:(apply runs_route). Qed.
End alone.
