(* ===== verification/IdpConcurrent.v ===== *)
(** * What holds of every interleaving of requests

    The provider serves any number of requests at once; the states of a pool of
    threads (Threads) under the handlers of IdpThreads are all the interleavings of
    their critical sections.  The theorems here hold of every one of them: a code is
    redeemed at most once, an assertion is accepted at most once, only guarded
    addresses are connected to; and one shows what the two critical sections of
    [approve] do not prevent. *)

From S2P Require Import Prelude Threads GoStrings GoNet GoURL GoBase64 GoPath Runtime RuntimeExample.
From S2P Require Import IdpState IdpUtil IdpRegistry IdpMetadata IdpClientAuth IdpJwt.
From S2P Require Import IdpSessions IdpAuthorize IdpToken IdpDiscovery IdpInvariant IdpFlow.
From S2P Require Import IdpServer IdpThreads.
From stdpp Require Import relations options.
Local Open Scope Z_scope.

(** ** What every section of every handler keeps *)

Ltac section_step :=
  cbv zeta;
  lazymatch goal with
  | |- steps _ (_ ≫= _) => apply steps_bind; [apply _| |intros ?]
  | |- steps _ (mret _) => apply steps_ret; apply _
  | |- steps _ (match _ with _ => _ end) => case_match
  | |- steps _ (mod_st (up_authContext _)) => apply hf_authContext
  | |- steps _ (mod_st (up_sessions _)) => apply hf_sessions
  | |- steps _ (mod_st (up_codeMeta (delete _))) => apply hf_delete_code
  | |- steps _ (mod_st (up_metadata _)) => apply sf_metadata
  | |- steps _ (mod_st (up_clients _)) => apply sf_clients
  | |- steps _ (consumePrivateKeyJWTJTI _ _ _) => apply hf_consume
  | |- _ => apply sf_outside; solve
      [eauto using outside_cached_live, outside_cached_keys, outside_raw_keys,
         outside_fetchClientIDMetadata, outside_issue_if, outside_index, outside_clientsPage,
         outside_jwks with oidc]
  end.

Ltac keeps_step tac :=
  cbv zeta;
  lazymatch goal with
  | |- keeps _ _ (_ ≫= _) => apply keeps_bind; [|intros ?]
  | |- keeps _ _ (mret _) => apply keeps_ret
  | |- keeps _ _ (racy _) => apply keeps_racy
  | |- keeps _ _ (match _ with _ => _ end) => case_match
  | |- _ => first [tac | eapply keeps_locked; [eassumption|]; repeat section_step]
  end.
Ltac keeps_steps tac := repeat keeps_step tac.

Section frame.
Context `{HR : Runtime} (cfg : Config) {G : Type} (R : G → World server → World server → G → Prop)
  (K : World server → World server → Prop) (g0 : G)
  (HK : ∀ w w', K w w' → R g0 w w' g0) `{HF : !StateFrame cfg K}.
Set Default Proof Using "All".

Lemma keeps_mark id : keeps R g0 (mark_csid id).
Proof. unfold mark_csid. keeps_steps fail. Qed.

Lemma keeps_resolve id : keeps R g0 (resolveClientIDMetadata_thread cfg id).
Proof. unfold resolveClientIDMetadata_thread, store_document. keeps_steps fail. Qed.

Lemma keeps_clientKeySet id reg : keeps R g0 (clientKeySet_thread cfg id reg).
Proof. unfold clientKeySet_thread, cache_keys. keeps_steps fail. Qed.

Lemma keeps_verify id reg a : keeps R g0 (verifyPrivateKeyJWT_thread cfg id reg a).
Proof. unfold verifyPrivateKeyJWT_thread. keeps_steps ltac:(apply keeps_clientKeySet). Qed.

Lemma keeps_check id reg creds : keeps R g0 (check_credentials_thread cfg id reg creds).
Proof. unfold check_credentials_thread. keeps_steps ltac:(apply keeps_verify). Qed.

Lemma keeps_authenticate id creds : keeps R g0 (authenticateClient_thread cfg id creds).
Proof.
  unfold authenticateClient_thread. keeps_steps ltac:(first [apply keeps_resolve | apply keeps_check]).
Qed.
(** Issuing a code is the one part that needs more than [K]. *)
Context (Hissue : ∀ sess id st n, keeps R g0 (issueCodeAndRedirect_thread cfg sess id st n)).

Lemma keeps_authorize r : keeps R g0 (authorize_thread cfg r).
Proof.
  unfold authorize_thread, resolveAuthorizeClient_thread, silent_authorize_thread,
    find_and_refresh, find_and_refresh_by_sub, registerClientLocked, request_login.
  keeps_steps ltac:(first [apply Hissue | apply keeps_resolve]).
Qed.

Lemma keeps_login r : keeps R g0 (login_thread cfg r).
Proof. unfold login_thread, set_user. keeps_steps fail. Qed.

Lemma keeps_approve r : keeps R g0 (approve_thread cfg r).
Proof.
  unfold approve_thread, grant_thread, store_grant, session_for, client_session_id.
  keeps_steps ltac:(apply Hissue).
Qed.

Lemma keeps_redeem r : keeps R g0 (redeem_thread cfg r).
Proof.
  unfold redeem_thread, redeem_code_thread, redeem_refresh_thread, take_code,
    shared_clients.
  keeps_steps ltac:(apply keeps_mark).
Qed.

Lemma keeps_issue_tokens g : keeps R g0 (issue_tokens_thread cfg g).
Proof. unfold issue_tokens_thread. keeps_steps fail. Qed.

Lemma keeps_token r : keeps R g0 (token_thread cfg r).
Proof.
  unfold token_thread. keeps_steps ltac:(first
    [apply keeps_redeem | apply keeps_authenticate | apply keeps_issue_tokens]).
Qed.

Lemma keeps_register r : keeps R g0 (register_thread r).
Proof. unfold register_thread, newClientSecret, store_registration. keeps_steps fail. Qed.

Lemma keeps_route r0 r : keeps R g0 (route_thread cfg r0 r).
Proof.
  apply (serve_mux_all (λ h, keeps R g0 (h r))); [|..].
  - unfold mux_threads. rewrite !Forall_app, !Forall_fmap. split_and!.
    + repeat (constructor; [simpl|]); [..|constructor].
      all: try first [apply keeps_register | apply keeps_authorize | apply keeps_login
                     | apply keeps_approve | apply keeps_token].
      all: unfold logout_thread, userinfo_thread, endsession_thread, endsessionApprove_thread,
             find_by_csid, find_by_advertised_sub, styleCSS, openidConfiguration;
           keeps_steps fail.
    + apply Forall_true. intros i. simpl. unfold avatar_thread, find_by_csid. keeps_steps fail.
    + apply Forall_true. intros i. simpl. unfold internalAvatar. keeps_steps fail.
  - keeps_steps fail.
  - intros resp. keeps_steps fail.
Qed.

Lemma keeps_serve r : keeps R g0 (serve_thread cfg r).
Proof. unfold serve_thread. keeps_steps ltac:(apply keeps_route). Qed.
End frame.

(** ** Interleavings *)

Section interleavings.
Context `{HR : Runtime} (cfg : Config).
Implicit Types (w : World server).

Abbreviation flights := (list (Request * thread (World server) Response)).

(** The states of the server with any number of requests in flight. *)
Definition server_steps : relation (flights * World server) :=
  rtc (pool_step (serve_thread cfg)).

Definition concurrently (ts : flights) w : Prop :=
  server_steps ([], initial_world empty_server) (ts, w).

(** A relation every section keeps, the recording of a code among them. *)
Lemma serve_moves K `{!StateFrame cfg K} :
  (∀ code sess id n, steps K (record_code code sess id n)) →
  ∀ r, moves K (serve_thread cfg r).
Proof using Type.
  intros Hrec r. unfold moves. 
  apply (keeps_serve cfg (λ (_ : unit) w w' _, K w w') K tt (λ w w' H, H)).
  intros sess id st n. unfold issueCodeAndRedirect_thread, shared_clients.
  repeat first [apply keeps_racy | apply keeps_ret
    | eapply keeps_locked; [exact (λ w w' H, H)|first [apply Hrec | by apply sf_outside, outside_newUUID]]
    | apply keeps_bind; [|intros ?] | case_match].
Qed.

Lemma concurrently_moves K `{!StateFrame cfg K} ts w ts' w' :
  (∀ code sess id n, steps K (record_code code sess id n)) →
  concurrently ts w → server_steps (ts, w) (ts', w') →
  Forall (λ rt, moves K rt.2) ts ∧ K (initial_world empty_server) w ∧ K w w'.
Proof using Type.
  intros Hrec Hc Hs. pose proof (serve_moves K Hrec) as Hserve.
  pose proof (sf_preorder (R := K)) as Hpre.
  destruct (pool_steps_moves _ K Hserve _ _ Hc (Forall_nil_2 _)) as [H1 H2].
  by destruct (pool_steps_moves _ K Hserve _ _ Hs H1) as [_ H3].
Qed.
End interleavings.

Section guards.
Context `{HR : Runtime, HL : !RuntimeLaws} (cfg : Config).
Implicit Types (w : World server).
Set Default Proof Using "All".

Lemma run_cons r rs w :
  let first := serve cfg r w in
  run cfg (r :: rs) w = (first.1 :: (run cfg rs first.2).1, (run cfg rs first.2).2).
Proof.
  simpl. unfold mbind, eff_bind. destruct (serve cfg r w) as [resp w1]. simpl.
  by destruct (run cfg rs w1).
Qed.

Lemma runs_alone ts rs w :
  server_steps cfg (ts, w) (ts ++ zip rs (Done <$> (run cfg rs w).1), (run cfg rs w).2).
Proof.
  revert ts w. induction rs as [|r rs IH]; intros ts w; [by rewrite app_nil_r|].
  rewrite run_cons. simpl. eapply rtc_l; [apply (step_accept _ r)|].
  etrans; [exact (alone_middle _ _ _ _ [] _ _ _ (runs_serve cfg r w))|].
  pose proof (IH (ts ++ [(r, Done (serve cfg r w).1)]) (serve cfg r w).2) as H.
  by rewrite <-app_assoc in H.
Qed.

(** The sequential model is one of the interleavings: whatever else is in flight,
    requests that arrive one after the other's answer are answered, and change the
    server, exactly as [run] says.  Cutting the handlers at their critical sections
    and leaving open what reads outside the lock return loses none of their
    behaviour. *)
Lemma runs_are_interleavings ts rs w :
  server_steps cfg (ts, w) (ts ++ zip rs (Done <$> (run cfg rs w).1), (run cfg rs w).2).
Proof. apply runs_alone. Qed.

(** C15: However requests are interleaved, every address the server ever connects to
    on account of a client_id or a jwks_uri is one the SSRF guard allows. *)
Theorem dialled_addresses_guarded_interleaved ts w address :
  concurrently cfg ts w → address ∈ w_dials w →
  ∃ host port ip, SplitHostPort address = Some (host, port) ∧ ParseIP host = Some ip ∧
    checkFetchAddress (Some ip) (allowLoopbackMetadataFetch cfg) = None.
Proof.
  intros Hc Hin.
  destruct (concurrently_moves cfg (dials_step cfg) ts w ts w) as (_ & Hd & _);
    [by intros * v ?|done|constructor|].
  assert (dials_ok cfg w) as Hok by (by apply Hd; constructor).
  by apply (dials_ok_elem cfg w).
Qed.

(** However requests are interleaved, a client assertion is accepted at most
    once: when one request in flight passes the check of its identifier, a check of
    the same client's identifier by any other request fails in every later state in
    which the assertion could still be within its lifetime and leeway. *)
Theorem assertion_accepted_once_interleaved ts w id jti expiry expiry' i r k w1 ts2 w2 :
  concurrently cfg ts w →
  ts !! i = Some (r, Atomic (consumePrivateKeyJWTJTI id jti expiry) k) →
  consumePrivateKeyJWTJTI id jti expiry w = (true, w1) →
  server_steps cfg (<[i := (r, k true)]> ts, w1) (ts2, w2) →
  time_now (w_clock w2) <= expiry + privateKeyJWTLeeway →
  (consumePrivateKeyJWTJTI id jti expiry' w2).1 = false.
Proof.
  intros Hc Hi Hcons Hs Ht.
  assert (concurrently cfg (<[i := (r, k true)]> ts) w1) as Hc1.
  { eapply rtc_r; [exact Hc|]. pose proof (step_section (serve_thread cfg) i r _ _ k ts w Hi) as Hst.
    by rewrite Hcons in Hst. }
  destruct (concurrently_moves cfg jti_step _ _ _ _ ltac:(by intros * v) Hc1 Hs) as (_ & _ & [_ Hkeep]).
  apply consume_records in Hcons. eapply consume_refuses; [by apply Hkeep|done].
Qed.
End guards.

(** ** Codes under interleaving

    The permission to record a code is held by the request that drew it, until it
    records it; the permission to redeem it by the request that took it. *)

Section codes.
Context `{HR : Runtime, HL : !RuntimeLaws} (cfg : Config) (c : string).
Implicit Types (w : World server) (r : Request) (g : bool).
Set Default Proof Using "All".

Abbreviation flights := (list (Request * thread (World server) Response)).

(** Sections that draw no code and record none. *)
Definition code_kept w w' : Prop :=
  (w_uuid w ≤ w_uuid w')%nat ∧
  (sv_codeMeta (w_st w) !! c = None → sv_codeMeta (w_st w') !! c = None).

(** The permission to record [c] comes with drawing it and goes with recording it. *)
Definition code_rule g w w' g' : Prop :=
  (w_uuid w ≤ w_uuid w')%nat ∧
  (g' = true → g = true ∨ (¬ issued (w_uuid w) c ∧ issued (w_uuid w') c)) ∧
  (sv_codeMeta (w_st w) !! c = None →
     sv_codeMeta (w_st w') !! c = None ∨ (g = true ∧ g' = false)).

#[local] Instance code_kept_frame : StateFrame cfg code_kept.
Proof.
  split; [split|..]; try (by intros * w).
  - split; [by intros w|]. intros w1 w2 w3 [L1 H1] [L2 H2]. split; [lia|auto].
  - intros A m Hm w. destruct (Hm w) as (E & U & _). split; [done|]. by rewrite E.
  - intros c' w. split; [done|]. simpl. intros H. apply lookup_delete_None. by right.
  - intros id jti expiry w. destruct (auth_step_consume id jti expiry w) as (_ & E & _ & U).
    split; [done|by rewrite E].
Qed.

Lemma code_kept_rule w w' : code_kept w w' → code_rule false w w' false.
Proof. intros [L H]. split_and!; [done|done|]. intros Hn. left. auto. Qed.

Lemma keeps_issue_code sess id st n :
  keeps code_rule false (issueCodeAndRedirect_thread cfg sess id st n).
Proof.
  intros w. simpl.
  assert (∀ b code w1, (b = true ∨ code ≠ c) →
    code_rule b w1 (record_code code sess id n w1).2 false) as Hrec.
  { intros b code w1 Hb. split_and!; [done|done|]. simpl. intros Hn.
    destruct (decide (code = c)) as [->|Hne]; [right; by destruct Hb|].
    left. by rewrite lookup_insert_ne. }
  exists (bool_decide (uuid_new (w_uuid w) = c)). split.
  - split_and!; [simpl; lia| |by left]. intros E%bool_decide_eq_true. right. rewrite <-E.
    split; [apply not_issued_new|apply issued_new].
  - intros w1. exists false. split.
    + apply Hrec. case_bool_decide; [by left|by right].
    + intros l. by case_match.
Qed.

Lemma keeps_serve_code r : keeps code_rule false (serve_thread cfg r).
Proof. apply (keeps_serve cfg code_rule code_kept false code_kept_rule keeps_issue_code). Qed.

(** ** The requests in flight *)

Definition refusal : Response := with_headers cors_headers (invalid_grant 403).

(** A token request for [c] has not begun, was refused, or has taken the code. *)
Definition redeemer_ok (winner : option nat) i r (t : thread (World server) Response) : Prop :=
  redeems c r → t = serve_thread cfg r ∨ t = Done refusal ∨ winner = Some i.

Definition on_record w : Prop := is_Some (sv_codeMeta (w_st w) !! c).

(** Who holds [c] without having recorded it, and who has taken it. *)
Record codes_ok (holder winner : option nat) (ts : flights) w : Prop := {
  co_threads i r t : ts !! i = Some (r, t) →
    twp code_rule (bool_decide (holder = Some i)) t (λ _ g, g = false);
  co_flight i : holder = Some i → (i < length ts)%nat;
  co_held : is_Some holder → issued (w_uuid w) c ∧ ¬ on_record w ∧ winner = None;
  co_recorded : on_record w → issued (w_uuid w) c ∧ winner = None;
  co_taken : is_Some winner → issued (w_uuid w) c;
  co_redeemers i r t : ts !! i = Some (r, t) → redeemer_ok winner i r t
}.

Lemma not_on_record w : ¬ on_record w ↔ sv_codeMeta (w_st w) !! c = None.
Proof. unfold on_record. by rewrite eq_None_not_Some. Qed.

(** The holder after a step of request [i]. *)
Definition holder_after (holder : option nat) i (g' : bool) : option nat :=
  if g' then Some i else if decide (holder = Some i) then None else holder.

Lemma holder_after_others holder i g' j :
  (g' = true → holder = Some i ∨ holder = None) → j ≠ i →
  bool_decide (holder_after holder i g' = Some j) = bool_decide (holder = Some j).
Proof.
  intros Hg Hj. unfold holder_after. apply bool_decide_ext.
  destruct g'; [destruct (Hg eq_refl) as [-> | ->]|case_decide; subst]; naive_solver.
Qed.

(** A step of request [i] moves the permissions, and only its own. *)
Lemma move_permission holder winner ts w w' i g' :
  codes_ok holder winner ts w → code_rule (bool_decide (holder = Some i)) w w' g' →
  (g' = true → holder = Some i ∨ holder = None) ∧
  (on_record w → holder_after holder i g' = None) ∧
  (is_Some (holder_after holder i g') → issued (w_uuid w') c ∧ ¬ on_record w' ∧ winner = None) ∧
  (on_record w' → issued (w_uuid w') c ∧ winner = None) ∧
  (is_Some winner → issued (w_uuid w') c).
Proof.
  intros [_ _ Hheld Hrec Htaken _] (HL' & Hdraw & Hkeep). rewrite bool_decide_eq_true in Hdraw, Hkeep.
  rewrite <-!not_on_record in Hkeep.
  assert (issued (w_uuid w) c → issued (w_uuid w') c) as Hmono by (intros; by eapply issued_mono).
  unfold holder_after. destruct g'.
  - destruct (Hdraw eq_refl) as [->|[Hno Hi]].
    + destruct Hheld as (Hi & Hn & ->); [by eexists|]. split_and!; [by left|done|..|done].
      * intros _. split_and!; [auto|naive_solver|done].
      * intros _. split; [auto|done].
    + assert (holder = None ∧ winner = None ∧ ¬ on_record w) as (-> & -> & Hn).
      { rewrite !eq_None_not_Some. tauto. }
      split_and!; [by right|done|..|by intros []].
      * intros _. split_and!; [done|naive_solver|done].
      * done.
  - split; [done|]. case_decide as Hh.
    + subst holder. destruct Hheld as (Hi & Hn & ->); [by eexists|].
      split_and!; [done|by intros []|auto|by intros []].
    + assert (¬ on_record w → ¬ on_record w') as Hnr by naive_solver.
      assert (on_record w' → on_record w) as Hr.
      { intros Hr. destruct (sv_codeMeta (w_st w) !! c) eqn:E; [by eexists|].
        apply not_on_record in E. tauto. }
      split_and!.
      * intros Ho. apply eq_None_not_Some. intros Hs. by destruct (Hheld Hs) as (_ & ? & _).
      * intros Hs. destruct (Hheld Hs) as (? & ? & ?). auto.
      * intros Ho. destruct (Hrec (Hr Ho)). auto.
      * auto.
Qed.

#[local] Instance redeems_dec r : Decision (redeems c r).
Proof. unfold redeems. apply _. Defined.

(** A token request for [c] begins by taking it, or is refused. *)
Lemma redeemer_begins r :
  redeems c r →
  match serve_thread cfg r with
  | Atomic m k => ∀ w,
      (on_record w → ¬ on_record (m w).2) ∧
      (¬ on_record w → k (m w).1 = Done refusal)
  | _ => False
  end.
Proof.
  intros (Hm & Hp & Hg & Hc). unfold serve_thread. rewrite Hm, decide_False by done.
  rewrite (route_thread_one cfg r "token" (token_thread cfg)) by done.
  unfold token_thread, is_post. rewrite Hm, bool_decide_eq_true_2 by done.
  unfold redeem_thread. rewrite Hg, decide_True by done. simpl. rewrite Hc. intros w.
  unfold take_code, mbind, eff_bind, get_st, reads, mod_st, writes, on_record. simpl. split.
  - intros [m ->]. simpl. rewrite lookup_delete_eq. by intros [].
  - destruct (sv_codeMeta (w_st w) !! c); [|done]. intros []. by eexists.
Qed.

(** The requests in flight after a step of request [i]. *)
Lemma lookup_stepped (ts : flights) i r t j r' t' :
  <[i := (r, t)]> ts !! j = Some (r', t') →
  (j = i ∧ r' = r ∧ t' = t) ∨ (j ≠ i ∧ ts !! j = Some (r', t')).
Proof.
  intros [(<- & [= <- <-] & _)|[? ?]]%list_lookup_insert_Some; auto.
Qed.

Lemma codes_ok_section holder winner ts w i r X (m : Eff (World server) X) k :
  codes_ok holder winner ts w → ts !! i = Some (r, Atomic m k) →
  ∃ holder' winner', codes_ok holder' winner' (<[i := (r, k (m w).1)]> ts) (m w).2.
Proof.
  intros Hok Hi. destruct (co_threads _ _ _ _ Hok _ _ _ Hi w) as (g' & Hrule & Hk).
  destruct (move_permission _ _ _ _ _ _ _ Hok Hrule) as (Hg & Hfree & Hheld & Hrec & Htaken).
  assert (∀ j r' t', <[i := (r, k (m w).1)]> ts !! j = Some (r', t') →
    twp code_rule (bool_decide (holder_after holder i g' = Some j)) t' (λ _ g, g = false)) as Hthr.
  { intros j r' t' [(-> & -> & ->)|[Hj Ht]]%lookup_stepped.
    - assert (bool_decide (holder_after holder i g' = Some i) = g') as ->; [|done].
      unfold holder_after. destruct g'; [by apply bool_decide_eq_true|].
      apply bool_decide_eq_false. case_decide; naive_solver.
    - rewrite holder_after_others by done. by eapply co_threads. }
  assert (∀ j, holder_after holder i g' = Some j → (j < length (<[i := (r, k (m w).1)]> ts))%nat) as Hfl.
  { intros j. rewrite length_insert. unfold holder_after. pose proof (lookup_lt_Some _ _ _ Hi).
    destruct g'; [naive_solver|]. case_decide; [done|]. by apply (co_flight _ _ _ _ Hok). }
  assert (∀ winner', redeemer_ok winner' i r (k (m w).1) → (winner = None ∨ winner' = winner) →
    ∀ j r' t', <[i := (r, k (m w).1)]> ts !! j = Some (r', t') → redeemer_ok winner' j r' t') as Hred.
  { intros winner' Hri Hw j r' t' [(-> & -> & ->)|[Hj Ht]]%lookup_stepped; [done|].
    intros Hr. destruct (co_redeemers _ _ _ _ Hok _ _ _ Ht Hr) as [?|[?|?]]; [tauto|tauto|].
    right. right. destruct Hw; congruence. }
  assert (redeemer_ok winner i r (k (m w).1) → ∃ holder' winner',
    codes_ok holder' winner' (<[i := (r, k (m w).1)]> ts) (m w).2) as Hsame.
  { intros Hri. exists (holder_after holder i g'), winner. split; try done. apply Hred; auto. }
  destruct (decide (redeems c r ∧ winner ≠ Some i)) as [[Hr Hw]|Hno].
  - assert (Atomic m k = serve_thread cfg r) as Ht.
    { by destruct (co_redeemers _ _ _ _ Hok _ _ _ Hi Hr) as [?|[?|?]]. }
    pose proof (redeemer_begins r Hr) as Hb. rewrite <-Ht in Hb. destruct (Hb w) as [Htake Hrefuse].
    destruct (decide (is_Some (sv_codeMeta (w_st w) !! c))) as [Ho|Ho].
    + destruct (co_recorded _ _ _ _ Hok Ho) as [Hiss Hwin]. rewrite (Hfree Ho) in Hthr.
      exists None, (Some i). split; [done|done|by intros []|by intros ?%Htake|..].
      * intros _. eapply issued_mono; [|done]. apply Hrule.
      * apply Hred; [|by left]. intros _. by right; right.
    + apply Hsame. intros _. right. left. by apply Hrefuse.
  - apply Hsame. intros Hr. right. right. apply dec_stable. tauto.
Qed.

Lemma codes_ok_step holder winner ts w ts' w' :
  codes_ok holder winner ts w → pool_step (serve_thread cfg) (ts, w) (ts', w') →
  ∃ holder' winner', codes_ok holder' winner' ts' w'.
Proof.
  intros Hok Hs. inversion Hs as [r ? ?|i r X m k ? ? Hi|i r X k x ? ? Hi]; subst.
  - exists holder, winner. destruct Hok as [H1 H2 H3 H4 H5 H6]. split; try done.
    + intros i r' t [[_ Ht]|[-> [= <- <-]]]%lookup_snoc_Some; [by eapply H1|].
      rewrite bool_decide_eq_false_2; [apply keeps_serve_code|]. intros Hh%H2. lia.
    + intros i Hh%H2. rewrite length_app. lia.
    + intros i r' t [[_ Ht]|[-> [= <- <-]]]%lookup_snoc_Some; [by eapply H6|]. by left.
  - by eapply codes_ok_section.
  - exists holder, winner. pose proof Hok as [H1 H2 H3 H4 H5 H6]. split; try done.
    + intros j r' t [(-> & -> & ->)|[Hj Ht]]%lookup_stepped; [|by eapply H1].
      by apply (H1 _ _ _ Hi x).
    + intros j. rewrite length_insert. apply H2.
    + intros j r' t [(-> & -> & ->)|[Hj Ht]]%lookup_stepped; [|by eapply H6]. intros Hr.
      destruct (H6 _ _ _ Hi Hr) as [E|[E|E]]; [|done|by right; right].
      pose proof (redeemer_begins r Hr) as Hb. by rewrite <-E in Hb.
Qed.

Lemma concurrently_codes_ok ts w : concurrently cfg ts w → ∃ holder winner, codes_ok holder winner ts w.
Proof.
  intros Hc. apply (rtc_ind_r (λ s, ∃ holder winner, codes_ok holder winner s.1 s.2)
    (([], initial_world empty_server) : flights * World server)) in Hc; [done|..].
  - exists None, None. split; try done; try by intros [].
  - intros [ts1 w1] [ts2 w2] _ Hs (holder & winner & Hok). by eapply codes_ok_step.
Qed.

(** C2: However requests are interleaved, an authorization code is redeemed at most
    once: of two token requests for one code that were both answered, at least one
    was refused as invalid_grant. *)
Theorem code_redeemed_once_interleaved ts w i j r1 resp1 r2 resp2 :
  concurrently cfg ts w →
  ts !! i = Some (r1, Done resp1) → ts !! j = Some (r2, Done resp2) → i ≠ j →
  redeems c r1 → redeems c r2 →
  rs_status resp1 ≠ 403 →
  rs_status resp2 = 403 ∧ rs_body resp2 = BClaims {["error" := VStr "invalid_grant"]}.
Proof.
  intros (holder & winner & Hok)%concurrently_codes_ok H1 H2 Hij R1 R2 Hne.
  assert (∀ k r resp, ts !! k = Some (r, Done resp) → redeems c r → resp = refusal ∨ winner = Some k)
    as Hends.
  { intros k r resp Hk Hr. destruct (co_redeemers _ _ _ _ Hok _ _ _ Hk Hr) as [E|[[= E]|E]]; auto.
    pose proof (redeemer_begins r Hr) as Hb. by rewrite <-E in Hb. }
  destruct (Hends _ _ _ H1 R1) as [->|Hw1]; [done|].
  destruct (Hends _ _ _ H2 R2) as [->|Hw2]; [done|]. congruence.
Qed.
End codes.

(** ** What two critical sections do not prevent *)

Section approvals.
Context `{HR : Runtime, HL : !RuntimeLaws} (cfg : Config).
Implicit Types (w : World server) (r : Request).
Set Default Proof Using "All".

(** The rest of an approval once the pending request was read. *)
Definition approval_rest (r : Request) (ctx : authContextEntry) (idc acc : option Claims)
    : thread (World server) Response :=
  resp ← grant_thread cfg (form_get r "reqid") ctx idc acc; mret (with_headers cors_headers resp).

Definition approves (r : Request) (idc acc : option Claims) : Prop :=
  r_method r = "POST" ∧ r_path r = "/approve" ∧ form_has r "approve" = true ∧
  parseClaimsJSON (form_get r "id_token_claims_json") = Some idc ∧
  parseClaimsJSON (form_get r "access_token_claims_json") = Some acc.

Lemma approval_begins r ctx idc acc :
  approves r idc acc →
  match serve_thread cfg r with
  | Atomic m k => ∀ w, sv_authContext (w_st w) !! form_get r "reqid" = Some ctx →
      (m w).2 = w ∧ k (m w).1 = approval_rest r ctx idc acc
  | _ => False
  end.
Proof.
  intros (Hm & Hp & Ha & Hi & Hc). unfold serve_thread. rewrite Hm, decide_False by done.
  rewrite (route_thread_one cfg r "approve" (approve_thread cfg)) by done.
  unfold approve_thread, is_post. rewrite Hm, bool_decide_eq_true_2 by done. simpl.
  intros w ->. by rewrite Ha, Hi, Hc.
Qed.

Lemma approval_rest_alone r ctx idc acc w :
  ∃ resp w', alone (approval_rest r ctx idc acc) w (with_headers cors_headers resp) w' ∧
             granted cfg (form_get r "reqid") ctx idc acc w resp w'.
Proof.
  exists (grant cfg (form_get r "reqid") ctx idc acc w).1,
    (grant cfg (form_get r "reqid") ctx idc acc w).2.
  split; [|apply wp_grant]. eapply alone_bind; [apply runs_grant|apply alone_done].
Qed.

(** Two requests begun one after the other, before either goes on. *)
Lemma two_begin r ctx idc acc ts w :
  approves r idc acc → sv_authContext (w_st w) !! form_get r "reqid" = Some ctx →
  server_steps cfg (ts, w)
    (ts ++ [(r, approval_rest r ctx idc acc); (r, approval_rest r ctx idc acc)], w).
Proof.
  intros Ha Hctx. pose proof (approval_begins r ctx idc acc Ha) as Hb.
  assert (∀ ts0 ts1, pool_step (serve_thread cfg) (ts0 ++ (r, serve_thread cfg r) :: ts1, w)
            (ts0 ++ (r, approval_rest r ctx idc acc) :: ts1, w)) as Hbegin.
  { intros ts0 ts1. destruct (serve_thread cfg r) as [|X m k|] eqn:Hs; [done| |done].
    destruct (Hb w Hctx) as [Hw Hk].
    pose proof (section_middle (serve_thread cfg) ts0 r X m k ts1 w) as Hst.
    by rewrite Hw, Hk in Hst. }
  pose proof (Hbegin ts [(r, serve_thread cfg r)]) as H1.
  pose proof (Hbegin (ts ++ [(r, approval_rest r ctx idc acc)]) []) as H2.
  rewrite <-app_assoc in H2.
  eapply rtc_l; [apply (step_accept _ r)|]. eapply rtc_l; [apply (step_accept _ r)|].
  rewrite <-app_assoc. eapply rtc_l; [exact H1|]. apply rtc_once.
  rewrite <-app_assoc in H2. exact H2.
Qed.

(** C16: A login can be approved twice.  Since the pending request is read in one
    critical section and deleted in another, in every state in which it is pending
    two approvals can both go through: both browsers are redirected, with two
    different codes on record for the client. *)
Theorem approval_not_exclusive ts w r ctx idc acc :
  approves r idc acc → sv_authContext (w_st w) !! form_get r "reqid" = Some ctx →
  ∃ resp1 resp2 w' c1 c2 m1 m2,
    server_steps cfg (ts, w) (ts ++ [(r, Done resp1); (r, Done resp2)], w') ∧
    rs_body resp1 = BRedirect (buildURL (ac_RedirectURI ctx) (code_params cfg c1 (ac_State ctx))) ∧
    rs_body resp2 = BRedirect (buildURL (ac_RedirectURI ctx) (code_params cfg c2 (ac_State ctx))) ∧
    c1 ≠ c2 ∧
    sv_codeMeta (w_st w') !! c1 = Some m1 ∧ cm_ClientID m1 = ac_ClientID ctx ∧
    sv_codeMeta (w_st w') !! c2 = Some m2 ∧ cm_ClientID m2 = ac_ClientID ctx.
Proof.
  intros Ha Hctx.
  destruct (approval_rest_alone r ctx idc acc w) as (p1 & w1 & A1 & G1).
  destruct (approval_rest_alone r ctx idc acc w1) as (p2 & w2 & A2 & G2).
  destruct G1 as (i1 & s1 & k1 & _ & U1 & _ & _ & B1 & _ & _ & C1 & _).
  destruct G2 as (i2 & s2 & k2 & L2 & _ & _ & _ & B2 & _ & _ & C2 & _).
  assert (uuid_new i1 ≠ uuid_new i2) as Hne by (intros E%uuid_inj; lia).
  eexists (with_headers cors_headers p1), (with_headers cors_headers p2), w2, (uuid_new i1),
    (uuid_new i2), _, _.
  split_and!; [|exact B1|exact B2|done|..].
  - etrans; [by apply two_begin|]. etrans; [apply alone_middle, A1|].
    pose proof (alone_middle (serve_thread cfg) (ts ++ [(r, Done (with_headers cors_headers p1))])
      r _ [] _ _ _ A2) as H2.
    rewrite <-!app_assoc in H2. exact H2.
  - rewrite C2, lookup_insert_ne, C1, lookup_insert_eq by done. done.
  - done.
  - rewrite C2, lookup_insert_eq. done.
  - done.
Qed.
End approvals.
