(* ===== verification/IdpLive.v ===== *)
(** * A user gets in

    The authorization code flow from the browser's first request to the tokens,
    as one theorem: whatever state the server is in, a login that is carried
    through, by a client the server has no reason to refuse, ends with tokens for
    the user who logged in. *)

From S2P Require Import Prelude GoStrings GoNet GoURL GoBase64 GoPath Runtime RuntimeExample IdpState.
From S2P Require Import IdpUtil IdpRegistry IdpMetadata IdpClientAuth IdpJwt IdpSessions.
From S2P Require Import IdpAuthorize IdpToken IdpDiscovery IdpInvariant IdpFlow IdpServer.
From Stdlib Require Import Ascii.
From stdpp Require Import options.
Local Open Scope Z_scope.

(** ** The client *)

(** The server has no reason to refuse the client's redirect address: it has never
    seen the client, has only observed it, or the client registered the address. *)
Definition welcome (m : gmap string clientRegistration) (id uri : string) : Prop :=
  ∀ reg, m !! id = Some reg →
    cr_RegistrationMethod reg = registrationMethodAutomatic ∨
    (cr_RegistrationMethod reg = registrationMethodDynamic ∧ uri ∈ cr_RedirectURIs reg).

(** A client that registered itself presents what it registered with. *)
Definition proves (m : gmap string clientRegistration) (id : string) (creds : clientCredentials)
    : Prop :=
  ∀ reg, m !! id = Some reg → cr_RegistrationMethod reg = registrationMethodDynamic →
    cr_TokenEndpointAuthMethod reg = EmptyString ∨ cr_TokenEndpointAuthMethod reg = "none" ∨
    (cr_TokenEndpointAuthMethod reg = cc_method creds ∧ cc_method creds ≠ "private_key_jwt" ∧
     cc_clientID creds = id ∧ cr_ClientSecret reg ≠ EmptyString ∧
     cc_secret creds = cr_ClientSecret reg).

Section client.
Context `{HR : Runtime} (cfg : Config).
Implicit Types (w : World server).

Lemma registered_cases m now id uri scope reg :
  registered m now id uri scope !! id = Some reg →
  cr_RegistrationMethod reg = registrationMethodAutomatic ∨ m !! id = Some reg.
Proof.
  unfold registered. destruct (decide (id = EmptyString)); [by right|].
  destruct (m !! id) as [old|] eqn:E.
  - case_decide as Hm; [|by right; congruence].
    rewrite lookup_insert_eq. intros [= <-]. by left.
  - rewrite lookup_insert_eq. intros [= <-]. by left.
Qed.

Lemma registered_welcome m now id uri scope :
  welcome m id uri → welcome (registered m now id uri scope) id uri.
Proof. intros Hm reg [?|Hr]%registered_cases; [by left|by apply Hm]. Qed.

Lemma registered_proves m now id uri scope creds :
  proves m id creds → proves (registered m now id uri scope) id creds.
Proof.
  intros Hm reg [Ha|Hr]%registered_cases Hd; [|by apply Hm]. by rewrite Ha in Hd.
Qed.

Lemma authenticate_ok id uri creds w :
  welcome (sv_clients (w_st w)) id uri → proves (sv_clients (w_st w)) id creds →
  (authenticateClient cfg id creds w).1 = true.
Proof.
  intros Hw Hp. unfold authenticateClient, mbind, eff_bind, get_st, reads.
  destruct (sv_clients (w_st w) !! id) as [reg|] eqn:Hreg; [|done].
  destruct (Hw reg Hreg) as [Ha|[Hd _]].
  - rewrite Ha. by rewrite decide_False, decide_False by done.
  - rewrite decide_True by done. unfold check_credentials.
    case_decide as Hnone; [done|].
    destruct (Hp reg Hreg Hd) as [?|[?|(Hm & Hne & Hid & Hs & Hsec)]]; [tauto..|].
    rewrite decide_False by congruence. rewrite decide_False by congruence.
    rewrite decide_False by congruence. rewrite decide_False by done.
    rewrite Hsec. by apply bool_decide_eq_true.
Qed.
End client.

(** ** The four requests *)

Section flow.
Context `{HR : Runtime, HL : !RuntimeLaws, HJ : !JwtLaws} (cfg : Config).
Implicit Types (w : World server) (r : Request).
Set Default Proof Using "All".

(** A browser without a session comes to [authorize]. *)
Definition comes r w : Prop :=
  r_method r = "GET" ∧ r_path r = "/authorize" ∧ cookie_get r sessionCookieName = None ∧
  form_get r "prompt" ≠ "none" ∧
  isClientIDMetadataDocumentURL (form_get r "client_id") = false ∧
  welcome (sv_clients (w_st w)) (form_get r "client_id") (form_get r "redirect_uri") ∧
  (form_get r "code_challenge" ≠ EmptyString →
     form_get r "code_challenge_method" ∈ [""; "plain"; "S256"]).

Definition logs_in (reqID : string) r : Prop :=
  r_method r = "POST" ∧ r_path r = "/login" ∧ form_get r "reqid" = reqID ∧
  form_get r "password" = "valid".

Definition consents (reqID : string) r : Prop :=
  r_method r = "POST" ∧ r_path r = "/approve" ∧ form_get r "reqid" = reqID ∧
  form_has r "approve" = true ∧
  is_Some (parseClaimsJSON (form_get r "id_token_claims_json")) ∧
  is_Some (parseClaimsJSON (form_get r "access_token_claims_json")).

(** The request as [authorize] keeps it for the login. *)
Definition pending (ar : authorizeRequest) : authContextEntry :=
  {| ac_Scope := ar_scope ar; ac_ClientID := ar_clientID ar;
     ac_RedirectURI := ar_redirectURI ar; ac_State := ar_state ar; ac_Nonce := ar_nonce ar;
     ac_CodeChallenge := ar_codeChallenge ar;
     ac_CodeChallengeMethod := ar_codeChallengeMethod ar;
     ac_Username := EmptyString; ac_Sub := EmptyString |}.

Lemma challenge_supported r :
  (form_get r "code_challenge" ≠ EmptyString →
     form_get r "code_challenge_method" ∈ [""; "plain"; "S256"]) →
  ¬ (ar_codeChallenge (authorize_request r) ≠ EmptyString ∧
     ar_codeChallengeMethod (authorize_request r) ∉ supportedCodeChallengeMethods).
Proof.
  intros Hc [Hne Hm]. apply Hm. specialize (Hc Hne). simpl in *. unfold with_defaulted_method.
  unfold supportedCodeChallengeMethods. case_decide as Hd; [set_solver|].
  apply elem_of_cons in Hc as [Hc|Hc]; [|set_solver]. by destruct Hd.
Qed.

Lemma resolve_welcome ar w :
  isClientIDMetadataDocumentURL (ar_clientID ar) = false →
  welcome (sv_clients (w_st w)) (ar_clientID ar) (ar_redirectURI ar) →
  wp (resolveAuthorizeClient cfg ar)
     (λ refused w', refused = None ∧ w_uuid w' = w_uuid w ∧
        ∃ now, w_st w' = up_clients (λ m, registered m now (ar_clientID ar) (ar_redirectURI ar)
                           (ar_scope ar)) (w_st w)) w.
Proof.
  intros Hu Hw. unfold resolveAuthorizeClient, authorize_registration. rewrite Hu.
  apply wp_bind, wp_bind, wp_registerClientLocked. intros now w1 E U.
  apply wp_bind, wp_get_st, wp_ret.
  assert (∀ reg, sv_clients (w_st w1) !! ar_clientID ar = Some reg →
    cr_RegistrationMethod reg = registrationMethodAutomatic ∨
    (cr_RegistrationMethod reg = registrationMethodDynamic ∧
     ar_redirectURI ar ∈ cr_RedirectURIs reg)) as Hreg.
  { rewrite E. intros reg. apply (registered_welcome _ now _ _ (ar_scope ar) Hw). }
  assert (cr_RegistrationMethod (default zero_registration (sv_clients (w_st w1) !! ar_clientID ar))
            ≠ registrationMethodClientIDMetadataDocument) as Hnot.
  { destruct (sv_clients (w_st w1) !! ar_clientID ar) as [reg|]; [simpl|done].
    destruct (Hreg reg eq_refl) as [-> |[-> _]]; done. }
  rewrite decide_False, decide_False; [apply wp_ret; eauto|tauto|].
  intros [Hin Hnot_in].
  destruct (sv_clients (w_st w1) !! ar_clientID ar) as [reg|] eqn:Er; simpl in *.
  - destruct (Hreg reg eq_refl) as [Ha|[_ ?]]; [|done]. rewrite Ha in Hin. set_solver.
  - set_solver.
Qed.

Lemma wp_comes r w :
  world_ok w → comes r w →
  wp (authorize cfg r) (λ resp w',
    ∃ reqID, resp = render (PAuthenticate reqID) ∧
      sv_authContext (w_st w') !! reqID = Some (pending (authorize_request r)) ∧
      ∃ now, sv_clients (w_st w') = registered (sv_clients (w_st w)) now
               (form_get r "client_id") (form_get r "redirect_uri") (form_get r "scope")) w.
Proof.
  intros Hok (Hm & _ & Hcookie & Hprompt & Hu & Hw & Hc). unfold authorize, is_get, is_post.
  rewrite Hm. simpl. cbv zeta. rewrite decide_False by (by apply challenge_supported).
  apply wp_bind. eapply wp_mono; [by apply resolve_welcome|]. intros ? w1 (-> & U & now & E).
  apply wp_bind, wp_newUUID, wp_bind, wp_get_st. rewrite Hcookie. cbn [w_st default from_option]. rewrite E.
  cbn [up_clients sv_sessions].
  destruct (sv_sessions (w_st w) !! EmptyString) as [s|] eqn:Hs.
  { destruct (sessions_cookie _ _ (wo_sessions _ Hok) _ _ Hs) as [_ Hi].
    by apply issued_nonempty in Hi. }
  rewrite decide_False by done. apply wp_bind, wp_mod_st, wp_ret.
  eexists. split; [done|]. split; [apply lookup_insert_eq|]. by exists now.
Qed.

Lemma wp_logs_in r reqID ctx w :
  (∀ c, is_Some (json_marshal_indent c)) → logs_in reqID r →
  sv_authContext (w_st w) !! reqID = Some ctx →
  wp (login cfg r) (λ resp w',
    (∃ idJSON accessJSON, resp = render (PAuthorize (ac_ClientID ctx) (ac_Scope ctx) reqID
       idJSON accessJSON EmptyString (internalAvatarURL cfg (form_get r "username")))) ∧
    sv_authContext (w_st w') !! reqID = Some (with_user (form_get r "username") ctx) ∧
    sv_clients (w_st w') = sv_clients (w_st w)) w.
Proof.
  intros Hj (Hm & _ & Hr & Hp) Hctx. unfold login, is_post. rewrite Hm. simpl. cbv zeta.
  rewrite Hp, Hr, decide_False by tauto. apply wp_bind, wp_get_st. rewrite Hctx. simpl.
  apply wp_bind, wp_mod_st. unfold claimsToPrettyJSON.
  destruct (Hj (default ∅ (Some (defaultIDTokenClaims cfg (with_user (form_get r "username") ctx)))))
    as [idJSON ->].
  destruct (Hj (default ∅ (Some (defaultAccessTokenClaims (with_user (form_get r "username") ctx)))))
    as [accessJSON ->].
  apply wp_ret. split_and!; [by eexists _, _|apply lookup_insert_eq|done].
Qed.

Lemma wp_consents r reqID ctx w :
  consents reqID r → sv_authContext (w_st w) !! reqID = Some ctx →
  ∃ idc acc, wp (approve cfg r) (granted cfg reqID ctx idc acc w) w.
Proof.
  intros (Hm & _ & Hr & Ha & [idc Hi] & [acc Hc]) Hctx. exists idc, acc.
  unfold approve, is_post. rewrite Hm. simpl. cbv zeta. apply wp_bind, wp_get_st.
  rewrite Hr, Hctx, Ha, Hi, Hc. apply wp_grant.
Qed.

Lemma serve_at (h : Request → Eff (World server) Response) r name w :
  r_method r ≠ "OPTIONS" → r_path r = "/" +:+ name → contains_char "/" name = false →
  plain_element name →
  snd <$> List.find (λ ph, bool_decide (segments ph.1 = [name])) (newMux cfg) = Some h →
  serve cfg r w = (with_headers cors_headers (h r w).1, (h r w).2).
Proof.
  intros Hm Hp Hslash Hplain Hh. unfold serve, withCORS. rewrite decide_False by done.
  rewrite (route_one cfg r name h) by done. unfold mbind, eff_bind. by destruct (h r w).
Qed.
(** What the last request is answered: tokens for the user who logged in, at the
    scope the client asked for. *)
Definition tokens_for (ar : authorizeRequest) (username : string) (out : Response) : Prop :=
  ∃ g resp, out = with_headers cors_headers resp ∧ rs_status resp = 200 ∧ tokens_of cfg g resp ∧
    g_clientID g = ar_clientID ar ∧ g_scope g = ar_scope ar ∧
    g_advertisedSub g = computeAdvertisedSub cfg ("internal|" +:+ username)
                          (sectorIdentifier (ar_redirectURI ar) (ar_clientID ar)).

Lemma wp_redeems r code ctx csID idc acc sess uri w :
  (∀ c, is_Some (jwt_sign (privateKey cfg) c)) → redeems code r →
  sv_codeMeta (w_st w) !! code = Some {| cm_CookieID := s_CookieID sess;
    cm_ClientID := ac_ClientID ctx; cm_Nonce := ac_Nonce ctx |} →
  sv_sessions (w_st w) !! s_CookieID sess = Some sess →
  getClientSessionByID sess (ac_ClientID ctx) = Some (approved_session cfg ctx csID idc acc) →
  pkce_answers (ac_CodeChallenge ctx) (ac_CodeChallengeMethod ctx) (form_get r "code_verifier") →
  welcome (sv_clients (w_st w)) (ac_ClientID ctx) uri →
  proves (sv_clients (w_st w)) (ac_ClientID ctx) (parseClientCredentials r) →
  wp (token cfg r) (λ resp _, ∃ g, rs_status resp = 200 ∧ tokens_of cfg g resp ∧
    g_clientID g = ac_ClientID ctx ∧ g_scope g = ac_Scope ctx ∧
    g_advertisedSub g = computeAdvertisedSub cfg (ac_Sub ctx)
                          (sectorIdentifier (ac_RedirectURI ctx) (ac_ClientID ctx))) w.
Proof.
  intros Hsign (Hm & _ & Hg & <-) Hcode Hsess Hcs Hp Hw Hpr. eapply wp_mono.
  - eapply (wp_token_code cfg r w); [|done|exact Hcode|exact Hsess|exact Hcs|exact Hp| |exact Hsign].
    + unfold is_post. by rewrite Hm.
    + destruct (steps_redeem cfg r w) as [E _].
      apply authenticate_ok with (uri := uri); by rewrite E.
  - intros resp w2 [H200 Htok]. eexists. by split_and!.
Qed.

End flow.
