(* ===== verification/IdpExample.v ===== *)
(** * A concrete run of the identity provider

    A whole authorization code flow, evaluated: authorize, log in, approve,
    redeem the code, ask for the user's claims; a registered confidential client
    and a client known by its metadata document.  The runs show that the
    hypotheses of the theorems can hold; each [.._witness] applies one theorem to
    such a run. *)

From S2P Require Import Prelude GoStrings GoNet GoURL GoBase64 Runtime RuntimeExample GoJson.
From S2P Require Import IdpState IdpUtil IdpRegistry IdpMetadata IdpClientAuth IdpJwt.
From S2P Require Import IdpSessions IdpAuthorize IdpToken IdpDiscovery IdpInvariant IdpFlow.
From S2P Require Import IdpServer Threads IdpThreads IdpConcurrent IdpLive.
From stdpp Require Import options.
Local Open Scope Z_scope.

(** ** The outside world of the runs *)

Definition key_example : PrivKey := {| pk_public := RSAPublic 3233 65537; pk_secret := "d" |}.

Definition cfg_example : Config := {|
  externalURL := "https://idp.example"; protectPictureURL := false; extraAudiences := [];
  emailDomain := "example.com"; accessTokenLifetime := 1200; refreshTokenLifetime := 3600;
  subjectType := "public"; pairwiseSalt := ""; clientIDMetadataTTL := 900 * second;
  clientIDMetadataTimeout := 5 * second; allowLoopbackMetadataFetch := false;
  templatesDir := "templates"; privateKey := key_example |}.

(** The access token the run issues, as the library reads it back. *)
Definition access_token_example : table_token := {|
  tt_header := {| jt_alg := "RS256"; jt_is_rsa := true; jt_kid := "" |};
  tt_key := RSAPublic 3233 65537;
  tt_claims := <["token_use" := VStr "access"]> (<["sub" := VStr "internal|alice"]>
    (<["csid" := VStr "uii"]> {["scope" := VStr "openid profile"]}));
  tt_exp := 1000000 * second |}.

(** An assertion of the metadata client, signed with the key it publishes. *)
Definition client_url : string := "https://client.example/app.json".

Definition assertion_example : table_token := {|
  tt_header := {| jt_alg := "ES256"; jt_is_rsa := false; jt_kid := "k1" |};
  tt_key := ECDSAPublic "P-256 point";
  tt_claims := <["iss" := VStr client_url]> (<["sub" := VStr client_url]>
    (<["aud" := VStr "https://idp.example/token"]> (<["jti" := VStr "j1"]>
    {["exp" := VInt 300]})));
  tt_exp := 300 * second |}.

Definition jwk_example : JWK :=
  {| jwk_kid := "k1"; jwk_use := "sig"; jwk_alg := "ES256"; jwk_key := ECDSAPublic "P-256 point" |}.

Definition document_example : json := JObj
  [ ("client_id", JStr client_url); ("redirect_uris", JArr [JStr "https://client.example/cb"]);
    ("token_endpoint_auth_method", JStr "private_key_jwt"); ("jwks", JStr "keys") ].

Definition tables_example : Tables := {|
  tb_json := [ ("document", document_example);
               ("registration", JObj [("redirect_uris", JArr [JStr "https://app.example/cb"]);
                                      ("token_endpoint_auth_method", JStr "client_secret_post")]) ];
  tb_tokens := [ ("signed", access_token_example); ("assertion", assertion_example) ];
  tb_keys := [ (JStr "keys", [jwk_example]) ];
  tb_net := [ (client_url, (["203.0.114.7:443"],
    {| hr_status := 200; hr_header := {["Content-Type" := "application/json"]};
       hr_body := "document" |})) ];
  tb_rand := λ _, true |}.

#[local] Instance R : Runtime := table_runtime tables_example.
#[local] Instance L : RuntimeLaws := table_laws tables_example.
#[local] Instance J : JwtLaws := table_jwt_laws tables_example.

Definition ask (method path : string) (form : list (string * string))
    (header : gmap string (list string)) (body : string) : Request :=
  {| r_method := method; r_path := path; r_rawpath := ""; r_rawquery := ""; r_host := "idp.example";
     r_remote := "10.0.0.1:4000"; r_form := form_of form; r_header := header; r_cookies := [];
     r_body := body |}.

(** An unclean path is not served but redirected to the clean one. *)
Example unclean_path_moved :
  let out := (serve cfg_example (ask "GET" "/a/..//token" [] ∅ "") (initial_world empty_server)).1 in
  rs_status out = 301 ∧ rs_body out = BRedirect "/token".
Proof. by vm_compute. Qed.

(** ** A flow of a client without a registration *)

Definition ask_authorize : Request := ask "GET" "/authorize"
  [ ("client_id", "app"); ("redirect_uri", "https://app.example/cb");
    ("scope", "openid profile offline_access"); ("state", "st"); ("nonce", "n1");
    ("response_type", "code"); ("code_challenge", "verifier"); ("code_challenge_method", "plain") ] ∅ "".
Definition ask_login : Request := ask "POST" "/login"
  [ ("reqid", "u"); ("username", "alice"); ("password", "valid") ] ∅ "".
Definition ask_approve : Request := ask "POST" "/approve"
  [ ("reqid", "u"); ("approve", "y"); ("id_token_claims_json", "");
    ("access_token_claims_json", "") ] ∅ "".
Definition ask_token : Request := ask "POST" "/token"
  [ ("grant_type", "authorization_code"); ("code", "uiii"); ("client_id", "app");
    ("code_verifier", "verifier") ] ∅ "".
Definition ask_userinfo : Request := ask "GET" "/userinfo" [] {["Authorization" := ["Bearer signed"]]} "".

Definition flow_after (rs : list Request) : World server :=
  (run cfg_example rs (initial_world empty_server)).2.
Definition flow_responses (rs : list Request) : list Response :=
  (run cfg_example rs (initial_world empty_server)).1.

(** A later authorization request of the same browser, which the session cookie
    lets answer at once. *)
Definition ask_again : Request :=
  let r := ask_authorize in
  {| r_method := r_method r; r_path := r_path r; r_rawpath := r_rawpath r; r_rawquery := r_rawquery r;
     r_host := r_host r; r_remote := r_remote r; r_form := r_form r; r_header := r_header r;
     r_cookies := [("session", "ui")]; r_body := r_body r |}.

(** The same provider with pairwise subjects. *)
Definition cfg_pairwise : Config := {|
  externalURL := "https://idp.example"; protectPictureURL := false; extraAudiences := [];
  emailDomain := "example.com"; accessTokenLifetime := 1200; refreshTokenLifetime := 3600;
  subjectType := "pairwise"; pairwiseSalt := "0123456789abcdef"; clientIDMetadataTTL := 900 * second;
  clientIDMetadataTimeout := 5 * second; allowLoopbackMetadataFetch := false;
  templatesDir := "templates"; privateKey := key_example |}.

(** ** The flow's theorems, applied to the run *)

Lemma run_reachable rs w : reachable cfg_example w → reachable cfg_example (run cfg_example rs w).2.
Proof.
  revert w. induction rs as [|r rs IH]; intros w Hw; [done|]. simpl. unfold mbind, eff_bind.
  pose proof (IH _ (reachable_step _ _ r Hw)) as H. destruct (serve cfg_example r w) as [resp w1].
  simpl in H. by destruct (run cfg_example rs w1).
Qed.

Lemma flow_reachable rs : reachable cfg_example (flow_after rs).
Proof. apply run_reachable. constructor. Qed.

Lemma flow_ok rs : world_ok (flow_after rs).
Proof. apply (reachable_ok cfg_example), flow_reachable. Qed.

Lemma flow_registry_ok rs : registry_ok (w_st (flow_after rs)).
Proof. apply wo_registry, flow_ok. Qed.

(** The world in which the code "uiii" has been issued. *)
Definition w_code : World server := flow_after [ask_authorize; ask_login; ask_approve].

(** The flow as a whole: 302, 200 (the consent page), 303 with the code, tokens,
    a refusal of the code's second use, and the user's claims. *)
Example flow_statuses :
  rs_status <$> flow_responses [ask_authorize; ask_login; ask_approve; ask_token; ask_token; ask_userinfo] =
  [200; 200; 303; 200; 403; 200].
Proof. by vm_compute. Qed.

Lemma code_redeemed_once_witness :
  let first := serve cfg_example ask_token w_code in
  let between := run cfg_example [ask_authorize] first.2 in
  let second := serve cfg_example ask_token between.2 in
  rs_status first.1 = 200 ∧
  rs_status second.1 = 403 ∧ rs_body second.1 = BClaims {["error" := VStr "invalid_grant"]}.
Proof.
  intros first between second. split; [by vm_compute|].
  apply (code_redeemed_once cfg_example w_code "uiii" ask_token first.1 first.2 [ask_authorize]
           between.1 between.2 ask_token second.1 second.2).
  - apply flow_reachable.
  - done.
  - done.
  - apply surjective_pairing.
  - apply surjective_pairing.
  - apply surjective_pairing.
  - by vm_compute.
Defined.

Lemma token_requires_witness :
  let out := token cfg_example ask_token w_code in
  rs_status out.1 = 200 ∧ is_post ask_token = true ∧
  ∃ g w1, grant_basis cfg_example ask_token (w_st w_code) g ∧ grant_step w_code w1 ∧
    authenticated cfg_example (g_clientID g) (parseClientCredentials ask_token) w1 ∧
    tokens_of cfg_example g out.1.
Proof.
  intros out. split; [by vm_compute|].
  apply (token_requires cfg_example ask_token w_code out.1 out.2).
  - apply flow_ok.
  - apply surjective_pairing.
  - by vm_compute.
Defined.

Lemma server_invariant_witness :
  let s := w_st (flow_after [ask_authorize; ask_login; ask_approve; ask_token]) in
  size (sv_sessions s) = 1%nat ∧
  (∀ k sess, sv_sessions s !! k = Some sess →
     s_CookieID sess = k ∧ NoDup (client_ids (s_ClientSessions sess))) ∧
  (∀ id reg, sv_clients s !! id = Some reg → client_ok id reg).
Proof.
  intros s. split; [by vm_compute|].
  destruct (server_invariant cfg_example _
              (flow_reachable [ask_authorize; ask_login; ask_approve; ask_token])) as (H1 & _ & _ & H4 & _).
  by split.
Defined.

Lemma authorize_redirects_witness :
  let out := authorize cfg_example ask_again w_code in
  let ar := authorize_request ask_again in
  let t := "https://app.example/cb?code=uiiiii&iss=https%3A%2F%2Fidp.example&state=st" in
  rs_body out.1 = BRedirect t ∧
  registration_allows cfg_example ar w_code ∧
  (ar_codeChallenge ar ≠ EmptyString → ar_codeChallengeMethod ar ∈ ["S256"; "plain"]) ∧
  ∃ params, t = buildURL (ar_redirectURI ar) params ∧
            response_params cfg_example ar (w_st out.2) params.
Proof.
  intros out ar t. split; [by vm_compute|].
  apply (authorize_redirects cfg_example ask_again w_code out.1 out.2).
  - apply flow_registry_ok.
  - apply surjective_pairing.
  - by vm_compute.
Defined.

Definition w_asked : World server := flow_after [ask_authorize; ask_login].

Lemma approve_grants_the_request_witness :
  let out := approve cfg_example ask_approve w_asked in
  ∃ ctx code k sess cs,
    sv_authContext (w_st w_asked) !! "u" = Some ctx ∧
    sv_authContext (w_st out.2) !! "u" = None ∧
    "https://app.example/cb?code=uiii&iss=https%3A%2F%2Fidp.example&state=st" =
      buildURL (ac_RedirectURI ctx) (code_params cfg_example code (ac_State ctx)) ∧
    sv_codeMeta (w_st out.2) !! code =
      Some {| cm_CookieID := k; cm_ClientID := ac_ClientID ctx; cm_Nonce := ac_Nonce ctx |} ∧
    sv_sessions (w_st out.2) !! k = Some sess ∧ s_Sub sess = ac_Sub ctx ∧
    getClientSessionByID sess (ac_ClientID ctx) = Some cs ∧
    cs_Scope cs = ac_Scope ctx ∧ cs_CodeChallenge cs = ac_CodeChallenge ctx ∧
    cs_CodeChallengeMethod cs = ac_CodeChallengeMethod ctx.
Proof.
  intros out. apply (approve_grants_the_request cfg_example ask_approve w_asked out.1 out.2).
  - apply surjective_pairing.
  - by vm_compute.
Defined.

(** The session behind the code, and its client session. *)
Definition meta_run : codeMetadataEntry :=
  default {| cm_CookieID := ""; cm_ClientID := ""; cm_Nonce := "" |}
    (sv_codeMeta (w_st w_code) !! "uiii").
Definition session_run : session := default zero_session (sv_sessions (w_st w_code) !! "ui").
Definition client_session_run : option clientSession := getClientSessionByID session_run "app".

Lemma token_honours_code_witness :
  ∃ cs, client_session_run = Some cs ∧
  wp (token cfg_example ask_token) (λ resp _, rs_status resp = 200 ∧
      tokens_of cfg_example (grant_of cfg_example "ui" session_run cs "n1") resp) w_code.
Proof.
  destruct client_session_run as [cs|] eqn:Hcs; [|by vm_compute in Hcs]. exists cs. split; [done|].
  apply (token_honours_code cfg_example ask_token w_code meta_run session_run cs).
  - done.
  - done.
  - by vm_compute.
  - by vm_compute.
  - exact Hcs.
  - vm_compute in Hcs. injection Hcs as <-. right. left. by vm_compute.
  - vm_compute in Hcs. injection Hcs as <-. by vm_compute.
  - done.
Defined.

(** Edited claims that name an issuer of their own. *)
Definition edited_claims : Claims :=
  <["iss" := VStr "https://evil.example"]> {["scope" := VStr "openid"]}.

Definition issued_example : Claims :=
  delete "iat" (all_claims cfg_example "internal|alice" ["app"] edited_claims 0 (60 * second)).

Lemma issueToken_example :
  issueToken cfg_example "internal|alice" ["app"] edited_claims (60 * second)
    (initial_world empty_server) =
  (Some ("signed", issued_example), mkWorld empty_server 1 0 0 0 0 []).
Proof. reflexivity. Qed.

Lemma issueToken_claims_witness :
  ∃ all,
    jwt_sign key_example all = Some "signed" ∧ issued_example = delete "iat" all ∧
    all !! "iss" = Some (VStr "https://idp.example") ∧ all !! "aud" = Some (VStrs ["app"]) ∧
    all !! "exp" = Some (VInt 60) ∧
    all !! "sub" = Some (VStr "internal|alice") ∧ all !! "scope" = Some (VStr "openid").
Proof.
  destruct (issueToken_claims cfg_example "internal|alice" ["app"] edited_claims (60 * second)
              (initial_world empty_server) "signed" issued_example
              (mkWorld empty_server 1 0 0 0 0 []) issueToken_example)
    as (_ & all & Hs & Hi & H1 & H2 & H3 & _ & H5 & H6).
  exists all. split_and!; [done..|]. rewrite H6; [done|]. by apply (bool_decide_unpack _).
Defined.


Lemma session_lookups_order_independent_witness :
  let m := sv_sessions (w_st w_code) in
  getSessionByClientSessionID (reverse (map_to_list m)) "uii" =
    getSessionByClientSessionID (map_to_list m) "uii" ∧
  getSessionBySub (reverse (map_to_list m)) "internal|alice" =
    getSessionBySub (map_to_list m) "internal|alice".
Proof.
  intros m. apply (session_lookups_order_independent (w_uuid w_code) m).
  - apply wo_sessions, flow_ok.
  - by rewrite reverse_Permutation.
  - done.
Defined.

Lemma pairwise_subjects_collide_witness :
  let cfg := cfg_pairwise in
  computeAdvertisedSub cfg "internal|alice" "app.example" ≠
    computeAdvertisedSub cfg "internal|alice" "other.example" ∧
  (if decide (subjectType cfg = "pairwise") then
     computeAdvertisedSub cfg "internal|alice" "app.example" =
       computeAdvertisedSub cfg "internal|alice" "other.example" →
     "internal|alice" = "internal|alice" ∧ "app.example" = "other.example" ∨
     "app.example" +:+ String NUL "internal|alice" ≠ "other.example" +:+ String NUL "internal|alice" ∧
     hmac_sha256 (pairwiseSalt cfg) ("app.example" +:+ String NUL "internal|alice") =
     hmac_sha256 (pairwiseSalt cfg) ("other.example" +:+ String NUL "internal|alice")
   else computeAdvertisedSub cfg "internal|alice" "app.example" = "internal|alice") ∧
  computeAdvertisedSub cfg_example "internal|alice" "app.example" = "internal|alice".
Proof.
  intros cfg. split; [by vm_compute|]. split; [|by vm_compute].
  apply (pairwise_subjects_collide cfg "internal|alice" "app.example" "internal|alice" "other.example");
    by apply (bool_decide_unpack _).
Defined.

Lemma buildURL_query_witness :
  let base := "https://app.example/cb?lang=en" in
  let params := params_of [("state", "a&b=c"); ("code", "1")] in
  ∃ u q, buildURL base params = url_String (with_query u q) ∧
    parseQuery q = ((λ v, [v]) <$> params) ∪ Query u ∧ Query u !! "lang" = Some ["en"].
Proof.
  intros base params. destruct (url_Parse base) as [u|] eqn:Hu; [|by vm_compute in Hu].
  destruct (buildURL_query base params u Hu) as (q & H1 & H2). exists u, q. split_and!; [done..|].
  vm_compute in Hu. injection Hu as <-. by vm_compute.
Defined.

Lemma checkFetchAddress_ranges_witness :
  checkFetchAddress (Some (ip4in6 203 0 114 7)) false = None ∧
  ((false = false → ¬ in_range (v4_value 203 0 114 7) loopback_v4) ∧
   Forall (λ r, ¬ in_range (v4_value 203 0 114 7) r) refused_v4).
Proof.
  assert (checkFetchAddress (Some (ip4in6 203 0 114 7)) false = None) as H by (by vm_compute).
  split; [done|]. revert H. apply (checkFetchAddress_ranges 203 0 114 7 false); unfold is_byte; lia.
Defined.

(** ** Registered clients *)

Definition ask_register : Request :=
  ask "POST" "/register" [] {["Content-Type" := ["application/json"]]} "registration".

Definition w_registered : World server := flow_after [ask_register].
Definition reg_run : clientRegistration :=
  default (automatic_registration "" 0) (sv_clients (w_st w_registered) !! "u").

Lemma register_creates_witness :
  let out := register ask_register (initial_world empty_server) in
  rs_body out.1 = BRegistration reg_run ∧
  rs_status out.1 = 201 ∧ metadata_ok supportedTokenEndpointAuthMethods reg_run ∧
  cr_ClientID reg_run = "u" ∧
  w_st out.2 = up_clients (<["u" := reg_run]>) empty_server ∧
  ∃ n buf, rand_read n 32 = Some buf ∧ raw_url_decode (cr_ClientSecret reg_run) = Some buf.
Proof.
  intros out. assert (rs_body out.1 = BRegistration reg_run) as H by (by vm_compute).
  split; [exact H|].
  destruct (register_creates ask_register (initial_world empty_server) out.1 out.2) as [_ Hr];
    [apply surjective_pairing|].
  destruct (Hr _ H) as (H1 & H2 & _ & H4 & H5 & H6).
  assert (cr_ClientID reg_run = "u") as E by (by vm_compute). rewrite E in H5.
  split_and!; [done..|]. apply H6. by vm_compute.
Defined.

Definition metadata_example : clientRegistration :=
  reg_metadata (automatic_registration "" 0) ["https://app.example/cb"; "https://app.example/cb"]
    "" [] [] "openid  openid email".

Lemma normalizeRegistration_accepts_exactly_witness :
  let allowed := supportedTokenEndpointAuthMethods in
  match normalizeRegistration metadata_example allowed "client_secret_basic" with
  | inr reg' => acceptable allowed "client_secret_basic" metadata_example ∧ metadata_ok allowed reg' ∧
                normalizeRegistration reg' allowed "client_secret_basic" = inr reg' ∧
                cr_Scope reg' = "openid email"
  | inl e => False
  end.
Proof.
  intros allowed.
  pose proof (normalizeRegistration_accepts_exactly metadata_example allowed "client_secret_basic"
                ltac:(by apply (bool_decide_unpack _))) as H.
  destruct (normalizeRegistration metadata_example allowed "client_secret_basic") as [e|reg'] eqn:E;
    [by vm_compute in E|]. destruct H as (H1 & H2 & H3). split_and!; [done..|].
  vm_compute in E. by injection E as <-.
Defined.

Lemma registerClientLocked_records_witness :
  let w := w_code in
  let w' := (registerClientLocked "app" "https://app.example/other" "email" w).2 in
  let before := default (automatic_registration "app" 0) (sv_clients (w_st w) !! "app") in
  ∃ reg', sv_clients (w_st w') !! "app" = Some reg' ∧
    (∀ t, hasScope (cr_Scope reg') t = hasScope (cr_Scope before) t || hasScope "email" t) ∧
    (∀ u, u ∈ cr_RedirectURIs reg' ↔
          u ∈ cr_RedirectURIs before ∨ (u = "https://app.example/other" ∧ "https://app.example/other" ≠ "")) ∧
    hasScope (cr_Scope reg') "email" = true ∧ hasScope (cr_Scope reg') "profile" = true.
Proof.
  intros w w' before.
  destruct (registerClientLocked_records "app" "https://app.example/other" "email" w w')
    as (_ & _ & H); [done|by apply injective_projections; [by destruct (_).1|]|].
  destruct H as (reg' & H1 & H2 & H3 & H4); [by vm_compute|].
  exists reg'. split_and!; [done..|rewrite H3; by vm_compute|rewrite H3; by vm_compute].
Defined.

Definition w_clients : World server := flow_after [ask_register; ask_authorize].
Definition w_clients_later : World server := mkWorld (w_st w_clients) 7 0 0 9 0 [].
Definition ask_clients : Request := ask "GET" "/clients" [] ∅ "".

Lemma clientsPage_order_independent_witness :
  size (sv_clients (w_st w_clients)) = 2%nat ∧
  (clientsPage ask_clients w_clients).1 = (clientsPage ask_clients w_clients_later).1 ∧
  ∃ regs, (clientsPage ask_clients w_clients).1 = render (PClients (client_view <$> regs)) ∧
    regs ≡ₚ (map_to_list (sv_clients (w_st w_clients))).*2 ∧ StronglySorted reg_le regs.
Proof.
  split; [by vm_compute|].
  exact (clientsPage_order_independent ask_clients w_clients w_clients_later eq_refl
           (proj1 (flow_registry_ok [ask_register; ask_authorize])) eq_refl).
Defined.

(** ** A client known by its metadata document *)

Lemma resolveClientIDMetadata_sound_witness :
  let out := resolveClientIDMetadata cfg_example client_url (initial_world empty_server) in
  ∃ reg, out.1 = Some reg ∧ registry_ok (w_st out.2) ∧ client_ok client_url reg ∧
    cr_ClientSecret reg = "" ∧ cr_TokenEndpointAuthMethod reg = "private_key_jwt" ∧
    (is_Some (cr_Jwks reg) ∨ cr_JwksURI reg ≠ "").
Proof.
  intros out. destruct out.1 as [reg|] eqn:E; [|by vm_compute in E].
  destruct (resolveClientIDMetadata_sound cfg_example client_url (initial_world empty_server)
              out.1 out.2) as (H1 & _ & _ & H2).
  - by apply (flow_registry_ok []).
  - apply surjective_pairing.
  - destruct (H2 _ E) as (H3 & H4 & _ & H5).
    assert (cr_TokenEndpointAuthMethod reg = "private_key_jwt") as Hm
      by (vm_compute in E; by injection E as <-).
    exists reg. split_and!; auto.
Defined.

(** The first request of the client stores its document. *)
Definition ask_document : Request := ask "GET" "/authorize"
  [ ("client_id", client_url); ("redirect_uri", "https://client.example/cb"); ("scope", "openid");
    ("response_type", "code"); ("code_challenge", "verifier"); ("code_challenge_method", "plain") ] ∅ "".
Definition w_document : World server := flow_after [ask_document].
Definition credentials_example : clientCredentials :=
  {| cc_method := "private_key_jwt"; cc_clientID := client_url; cc_secret := "";
     cc_assertion := "assertion" |}.

Lemma authenticateClient_sound_witness :
  let out := authenticateClient cfg_example client_url credentials_example w_document in
  out.1 = true ∧ registry_ok (w_st out.2) ∧
  ∀ reg, sv_clients (w_st w_document) !! client_url = Some reg →
    cr_RegistrationMethod reg = registrationMethodClientIDMetadataDocument →
    ∃ reg', current_registration cfg_example client_url w_document reg reg' ∧
      (cr_TokenEndpointAuthMethod reg' = "private_key_jwt" →
         accepted_assertion cfg_example client_url reg' "assertion").
Proof.
  intros out. assert (out.1 = true) as H by (by vm_compute). split; [exact H|].
  destruct (authenticateClient_sound cfg_example client_url credentials_example w_document out.2)
    as [H1 H2].
  - apply flow_registry_ok.
  - rewrite <-H. apply surjective_pairing.
  - split; [exact H1|]. intros reg Hreg Hm. destruct (H2 reg Hreg) as [_ (reg' & Hc & Ha)%(λ f, f Hm)].
    exists reg'. split; [exact Hc|]. intros Hp. by apply Ha.
Defined.

Lemma verificationKeys_exact_witness :
  let keys := [jwk_example; {| jwk_kid := "k2"; jwk_use := "enc"; jwk_alg := ""; jwk_key := OtherKey |}] in
  match verificationKeys keys "k1" "ES256" with
  | Some out => out ≠ [] ∧ ∀ k, k ∈ out ↔ verifying_key keys "k1" "ES256" k
  | None => ¬ ∃ k, verifying_key keys "k1" "ES256" k
  end.
Proof. intros keys. apply (verificationKeys_exact keys "k1" "ES256"). Defined.

Definition w_consumed : World server :=
  (consumePrivateKeyJWTJTI client_url "j1" (300 * second) w_document).2.

Lemma assertion_not_replayed_witness :
  let out := run cfg_example [ask_authorize; ask_login] w_consumed in
  (consumePrivateKeyJWTJTI client_url "j1" (400 * second) out.2).1 = false.
Proof.
  intros out.
  assert ((consumePrivateKeyJWTJTI client_url "j1" (300 * second) w_document).1 = true) as H
    by (by vm_compute).
  apply (assertion_not_replayed cfg_example client_url "j1" (300 * second) (400 * second)
           w_document w_consumed [ask_authorize; ask_login] out.1 out.2).
  - unfold w_consumed. rewrite <-H. apply surjective_pairing.
  - apply surjective_pairing.
  - by vm_compute.
Defined.

Lemma dialled_addresses_guarded_witness :
  "203.0.114.7:443" ∈ w_dials w_document ∧
  ∃ host port ip, SplitHostPort "203.0.114.7:443" = Some (host, port) ∧ ParseIP host = Some ip ∧
    checkFetchAddress (Some ip) false = None.
Proof.
  assert ("203.0.114.7:443" ∈ w_dials w_document) as H by (vm_compute; by left).
  split; [exact H|].
  apply (dialled_addresses_guarded cfg_example w_document "203.0.114.7:443"); [apply flow_reachable|exact H].
Defined.

(** ** Discovery and start-up *)

Lemma jwks_publishes_the_key_witness :
  let r := ask "GET" "/.well-known/jwks.json" [] ∅ "" in
  ∃ members nb eb,
    rs_body (jwks cfg_example r (initial_world empty_server)).1 =
      BClaims {["keys" := VJ (JArr [JObj members])]} ∧
    ("n", JStr nb) ∈ members ∧ ("e", JStr eb) ∈ members ∧ ("kty", JStr "RSA") ∈ members ∧
    be_value 0 <$> raw_url_decode nb = Some 3233 ∧ be_value 0 <$> raw_url_decode eb = Some 65537.
Proof.
  intros r. by apply (jwks_publishes_the_key cfg_example r (initial_world empty_server) 3233 65537).
Defined.

Definition env_pairwise (name : string) : string :=
  if decide (name = "SUBJECT_TYPE") then "pairwise"
  else if decide (name = "PAIRWISE_SALT") then "000102030405060708090a0b0c0d0e0f" else "".

Lemma newServer_config_witness :
  ∃ port cfg, newServer env_pairwise (Some key_example) (λ _, true) = Some (port, cfg) ∧
    subjectType cfg = "pairwise" ∧ 16 <= Z.of_nat (String.length (pairwiseSalt cfg)) ∧
    hex_decode "000102030405060708090a0b0c0d0e0f" = Some (pairwiseSalt cfg) ∧
    allowLoopbackMetadataFetch cfg = externalURLIsLoopback (externalURL cfg).
Proof.
  destruct (newServer env_pairwise (Some key_example) (λ _, true)) as [[port cfg]|] eqn:E;
    [|by vm_compute in E].
  destruct (newServer_config env_pairwise (Some key_example) (λ _, true) port cfg E)
    as ([[H _]|(H1 & H2 & H3)] & H4 & _).
  - vm_compute in E. injection E as <- <-. discriminate H.
  - exists port, cfg. split_and!; try done.
Defined.

(** ** Interleavings *)

(** The requests of a sequential run, all answered. *)
Definition answered (rs : list Request) : list (Request * thread (World server) Response) :=
  zip rs (Done <$> flow_responses rs).

Lemma answered_concurrently rs : concurrently cfg_example (answered rs) (flow_after rs).
Proof.
  pose proof (fun ts w => runs_alone cfg_example ts rs w) as H.
  exact (H [] (initial_world empty_server)).
Qed.

Lemma answered_lookup rs i r status :
  rs !! i = Some r → (rs_status <$> flow_responses rs) !! i = Some status →
  ∃ resp, answered rs !! i = Some (r, Done resp) ∧ rs_status resp = status.
Proof.
  intros Hr (resp & -> & Hs)%list_lookup_fmap_Some. exists resp. split; [|done].
  apply lookup_zip_Some. split; [done|]. by rewrite list_lookup_fmap, Hs.
Qed.

Lemma code_redeemed_once_interleaved_witness :
  let rs := [ask_authorize; ask_login; ask_approve; ask_token; ask_token] in
  ∃ resp1 resp2, answered rs !! 3%nat = Some (ask_token, Done resp1) ∧ rs_status resp1 = 200 ∧
    answered rs !! 4%nat = Some (ask_token, Done resp2) ∧
    rs_status resp2 = 403 ∧ rs_body resp2 = BClaims {["error" := VStr "invalid_grant"]}.
Proof.
  assert (redeems "uiii" ask_token) as Hr by done. intros rs.
  assert (rs_status <$> flow_responses rs = [200; 200; 303; 200; 403]) as Hst by (by vm_compute).
  destruct (answered_lookup rs 3 ask_token 200) as (resp1 & H1 & S1); [done|by rewrite Hst|].
  destruct (answered_lookup rs 4 ask_token 403) as (resp2 & H2 & S2); [done|by rewrite Hst|].
  exists resp1, resp2. split; [exact H1|]. split; [exact S1|]. split; [exact H2|].
  apply (code_redeemed_once_interleaved cfg_example "uiii" (answered rs) (flow_after rs) 3 4
           ask_token resp1 ask_token resp2).
  - apply answered_concurrently.
  - exact H1.
  - exact H2.
  - lia.
  - exact Hr.
  - exact Hr.
  - rewrite S1. lia.
Defined.

Lemma dialled_addresses_guarded_interleaved_witness :
  ∃ host port ip, SplitHostPort "203.0.114.7:443" = Some (host, port) ∧ ParseIP host = Some ip ∧
    checkFetchAddress (Some ip) false = None.
Proof.
  assert ("203.0.114.7:443" ∈ w_dials (flow_after [ask_document])) as H
    by (apply (bool_decide_unpack _); by vm_compute).
  exact (dialled_addresses_guarded_interleaved cfg_example (answered [ask_document])
    (flow_after [ask_document]) "203.0.114.7:443" (answered_concurrently _) H).
Defined.

(** The request the login left pending, approved twice. *)
Definition ctx_example : authContextEntry :=
  with_user "alice" (pending (authorize_request ask_authorize)).

Lemma approval_not_exclusive_witness :
  let rs := [ask_authorize; ask_login] in
  ∃ resp1 resp2 w' c1 c2 m1 m2,
    server_steps cfg_example (answered rs, flow_after rs)
      (answered rs ++ [(ask_approve, Done resp1); (ask_approve, Done resp2)], w') ∧
    rs_body resp1 = BRedirect (buildURL "https://app.example/cb" (code_params cfg_example c1 "st")) ∧
    rs_body resp2 = BRedirect (buildURL "https://app.example/cb" (code_params cfg_example c2 "st")) ∧
    c1 ≠ c2 ∧
    sv_codeMeta (w_st w') !! c1 = Some m1 ∧ cm_ClientID m1 = "app" ∧
    sv_codeMeta (w_st w') !! c2 = Some m2 ∧ cm_ClientID m2 = "app".
Proof.
  intros rs.
  apply (approval_not_exclusive cfg_example (answered rs) (flow_after rs) ask_approve ctx_example
           (Some ∅) (Some ∅)).
  - split_and!; by vm_compute.
  - by vm_compute.
Defined.

(** ** The flow as one theorem *)

