(* ===== verification/BffSession.v ===== *)
(** * Sessions of the browser gateway

    [bff/internal/session]: the session record and its JSON text, the claims read
    off an ID token, the three stores (memory, Redis, encrypted cookie) behind the
    one interface [Store], and the [Manager] that ties a store to a cookie.  The
    contract of a store is a type class; each store is an instance, and the
    gateway's theorems are proved against the class. *)

From S2P Require Import Prelude GoStrings GoNet GoURL GoBase64 Runtime GoJson.
From Stdlib Require Import Ascii.
From stdpp Require Import options.
Local Open Scope Z_scope.

(** ** Data *)

Record UserClaims := {
  uc_Sub : string;
  uc_Name : string;
  uc_Email : string;
  uc_Picture : string
}.

(** [AccessTokenExpiry] is an instant in nanoseconds since 1970; [zero_time] is
    Go's zero [time.Time], the start of the year 1. *)
Record Session := {
  ss_AccessToken : string;
  ss_RefreshToken : string;
  ss_IDToken : string;
  ss_CSRFToken : string;
  ss_AccessTokenExpiry : Z
}.

Definition zero_time : Z := -62135596800 * second.

Record memoryItem := { mi_session : Session; mi_expires : Z }.

(** ** Outside the source: AES-GCM, the texts of JSON and of times, Redis *)

(** A Redis exchange fails ([None]) or answers; the server's state is its own. *)
Class BffRuntime := {
  gcm_seal : string → string → string → string;          (* key, nonce, plaintext *)
  gcm_open : string → string → string → option string;   (* key, nonce, ciphertext *)
  json_text : json → string;                             (* [json.Marshal] *)
  time_text : Z → option string;                         (* [time.Time] in JSON *)
  parse_time : string → option Z;
  redis_state : Type;
  redis_SET : nat → string → string → Z → redis_state → option redis_state;
  redis_GET : nat → string → redis_state → option (option string);
  redis_DEL : nat → string → redis_state → option redis_state
}.

(** A request the gateway sends. *)
Record OutRequest := {
  or_method : string;
  or_url : URL;
  or_host : string;
  or_header : gmap string (list string);
  or_body : string
}.

(** The gateway's mutable state: the memory store, the Redis server, the claimed
    login states of [handler.stateClaims]; and the requests it has sent to the
    servers behind it, the latest first. *)
Record bff_state `{BffRuntime} := {
  bs_items : gmap string memoryItem;
  bs_redis : redis_state;
  bs_claimedAt : gmap string Z;
  bs_lastCleanup : Z;
  bs_sent : list OutRequest
}.

Definition up_items `{BffRuntime} (f : gmap string memoryItem → gmap string memoryItem)
    (s : bff_state) : bff_state :=
  {| bs_items := f (bs_items s); bs_redis := bs_redis s; bs_claimedAt := bs_claimedAt s;
     bs_lastCleanup := bs_lastCleanup s; bs_sent := bs_sent s |}.
Definition up_redis `{BffRuntime} (r : redis_state) (s : bff_state) : bff_state :=
  {| bs_items := bs_items s; bs_redis := r; bs_claimedAt := bs_claimedAt s;
     bs_lastCleanup := bs_lastCleanup s; bs_sent := bs_sent s |}.

Abbreviation BWorld := (World bff_state).

(** An object whose members are ASCII strings, which the text syntax keeps as
    they are. *)
Definition ascii_members (j : json) : bool :=
  match j with
  | JObj ms => forallb (λ kv, is_ascii_string kv.1 &&
                 match kv.2 with JStr s => is_ascii_string s | _ => false end) ms
  | _ => false
  end.

Class BffLaws `{Runtime, BffRuntime} := {
  gcm_open_seal k n p : gcm_open k n (gcm_seal k n p) = Some p;
  json_text_round j : ascii_members j = true → json_unmarshal (json_text j) = Some j;
  parse_time_text t s : time_text t = Some s → parse_time s = Some t ∧ is_ascii_string s = true;
  rand_read_length n k b : rand_read n k = Some b → String.length b = k;
  sha256_length s : String.length (sha256 s) = 32%nat;
  (** the value last set under a key; the server may have dropped it since *)
  redis_value : redis_state → string → option string;
  redis_GET_value n k σ v : redis_GET n k σ = Some (Some v) → redis_value σ k = Some v;
  redis_SET_value n k v ttl σ σ' :
    redis_SET n k v ttl σ = Some σ' → ∀ k', redis_value σ' k' = if decide (k' = k) then Some v else redis_value σ k';
  redis_DEL_value n k σ σ' :
    redis_DEL n k σ = Some σ' → ∀ k', redis_value σ' k' = if decide (k' = k) then None else redis_value σ k'
}.

Section session.
Context `{Runtime, BffRuntime}.

(** ** The session as JSON *)

Definition session_tags : list string :=
  ["accessToken"; "refreshToken"; "idToken"; "csrfToken"; "accessTokenExpiry"].

(** [json.Marshal]; [omitempty] does not apply to a struct such as [time.Time]. *)
Definition marshal_session (s : Session) : option string :=
  t ← time_text (ss_AccessTokenExpiry s);
  Some (json_text (JObj
    [ ("accessToken", JStr (ss_AccessToken s)); ("refreshToken", JStr (ss_RefreshToken s));
      ("idToken", JStr (ss_IDToken s)); ("csrfToken", JStr (ss_CSRFToken s));
      ("accessTokenExpiry", JStr t) ])).

Definition into_time (old : Z) (v : json) : option Z :=
  match v with JNull => Some old | JStr s => parse_time s | _ => None end.

Definition decode_session (ms : list (string * json)) : option Session :=
  let str t := foldM into_string EmptyString (values_for session_tags t ms) in
  access ← str "accessToken"; refresh ← str "refreshToken"; idtoken ← str "idToken";
  csrf ← str "csrfToken";
  expiry ← foldM into_time zero_time (values_for session_tags "accessTokenExpiry" ms);
  Some {| ss_AccessToken := access; ss_RefreshToken := refresh; ss_IDToken := idtoken;
          ss_CSRFToken := csrf; ss_AccessTokenExpiry := expiry |}.

Definition unmarshal_session (text : string) : option Session :=
  match json_unmarshal text with
  | Some (JObj ms) => decode_session ms
  | Some JNull => decode_session []
  | _ => None
  end.

(** ** The claims of an ID token, unverified *)

Definition claims_tags : list string := ["sub"; "name"; "email"; "picture"].

Definition decode_claims (ms : list (string * json)) : option UserClaims :=
  let str t := foldM into_string EmptyString (values_for claims_tags t ms) in
  sub ← str "sub"; name ← str "name"; email ← str "email"; picture ← str "picture";
  Some {| uc_Sub := sub; uc_Name := name; uc_Email := email; uc_Picture := picture |}.

(** [strings.SplitN(raw, ".", 3)] with three parts, the middle one. *)
Definition jwt_payload (raw : string) : option string :=
  let '(_, rest, ok) := cut "." raw in
  let '(payload, _, ok') := cut "." rest in
  if (ok : bool) && (ok' : bool) then Some payload else None.

Definition ParseIDTokenClaims (raw : string) : option UserClaims :=
  part ← jwt_payload raw;
  payload ← raw_url_decode part;
  match json_unmarshal payload with
  | Some (JObj ms) => decode_claims ms
  | Some JNull => decode_claims []
  | _ => None
  end.

(** ** The store interface *)

(** [Save]: the token, or an error.  [Load]: an error, or whether there is a
    session.  [Delete]: whether it went well. *)
Record Store := {
  Save : Session → Z → Eff BWorld (option string);
  Load : string → Eff BWorld (option (option Session));
  Delete : string → Eff BWorld bool
}.

Definition randomToken (size : nat) : Eff BWorld (option string) :=
  b ← randRead size; mret (raw_url_encode <$> b).

(** *** Memory *)

Definition memory_Save (s : Session) (ttl : Z) : Eff BWorld (option string) :=
  id ← randomToken 32;
  match id with
  | None => mret None
  | Some id =>
      now ← tNow;
      mod_st (up_items (<[id := {| mi_session := s; mi_expires := now + ttl |}]>));;
      mret (Some id)
  end.

Definition memory_Load (token : string) : Eff BWorld (option (option Session)) :=
  item ← get_st (λ s, bs_items s !! token);
  match item with
  | None => mret (Some None)
  | Some it =>
      now ← tNow;
      if decide (now > mi_expires it) then
        mod_st (up_items (delete token));; mret (Some None)
      else mret (Some (Some (mi_session it)))
  end.

Definition memory_Delete (token : string) : Eff BWorld bool :=
  mod_st (up_items (delete token));; mret true.

Definition MemoryStore : Store :=
  {| Save := memory_Save; Load := memory_Load; Delete := memory_Delete |}.

(** *** AES-GCM *)

(** [aes.NewCipher] takes keys of 16, 24 or 32 bytes. *)
Definition aes_key_ok (key : string) : bool :=
  bool_decide (String.length key ∈ [16; 24; 32]%nat).

Definition nonceSize : nat := 12.

(** [encryptAESGCM], and the same steps in [CookieStore.Save]. *)
Definition encryptAESGCM (key plaintext : string) : Eff BWorld (option string) :=
  if negb (aes_key_ok key) then mret None
  else nonce ← randRead nonceSize;
       mret (n ← nonce; Some (n +:+ gcm_seal key n plaintext)).

Definition decryptAESGCM (key data : string) : option string :=
  if negb (aes_key_ok key) then None
  else if decide (String.length data < nonceSize)%nat then None
  else gcm_open key (String.substring 0 nonceSize data)
         (String.substring nonceSize (String.length data - nonceSize) data).

(** *** Redis *)

Definition redis_exchange {A} (f : nat → redis_state → option A) : Eff BWorld (option A) := λ w,
  (f (w_net w) (bs_redis (w_st w)),
   mkWorld (w_st w) (w_clock w) (w_uuid w) (w_rand w) (w_range w) (S (w_net w)) (w_dials w)).

(** A command that changes the server's state. *)
Definition redis_update (f : nat → redis_state → option redis_state) : Eff BWorld bool :=
  r ← redis_exchange f;
  match r with
  | None => mret false
  | Some σ => mod_st (up_redis σ);; mret true
  end.

Section redis.
Variable prefix : string.

Definition redis_Save (s : Session) (ttl : Z) : Eff BWorld (option string) :=
  id ← randomToken 32;
  match id with
  | None => mret None
  | Some id =>
      secret ← randRead 32;
      match secret, marshal_session s with
      | Some secret, Some plaintext =>
          ciphertext ← encryptAESGCM secret plaintext;
          match ciphertext with
          | None => mret None
          | Some c =>
              ok ← redis_update (λ n, redis_SET n (prefix +:+ id) c ttl);
              mret (if ok : bool then Some (id +:+ String "." (raw_url_encode secret)) else None)
          end
      | _, _ => mret None
      end
  end.

Definition redis_Load (token : string) : Eff BWorld (option (option Session)) :=
  let '(id, secretB64, ok) := cut "." token in
  if negb ok then mret (Some None)
  else match raw_url_decode secretB64 with
  | None => mret (Some None)
  | Some secret =>
      got ← redis_exchange (λ n, redis_GET n (prefix +:+ id));
      match got with
      | None => mret None
      | Some None => mret (Some None)
      | Some (Some ciphertext) =>
          match decryptAESGCM secret ciphertext with
          | None => mret (Some None)
          | Some plaintext =>
              match unmarshal_session plaintext with
              | None => mret None
              | Some s => mret (Some (Some s))
              end
          end
      end
  end.

Definition redis_Delete (token : string) : Eff BWorld bool :=
  let '(id, _, _) := cut "." token in redis_update (λ n, redis_DEL n (prefix +:+ id)).

Definition RedisStore : Store :=
  {| Save := redis_Save; Load := redis_Load; Delete := redis_Delete |}.
End redis.

Definition NewRedisStore (cookieName : string) : Store := RedisStore (cookieName +:+ "-").

(** *** Cookie *)

Definition maxCookieValueBytes : Z := 3900.

Section cookie.
Variable key : string.

Definition cookie_Save (s : Session) (ttl : Z) : Eff BWorld (option string) :=
  match marshal_session s with
  | None => mret None
  | Some plaintext =>
      ciphertext ← encryptAESGCM key plaintext;
      mret (c ← ciphertext;
            let token := raw_url_encode c in
            if decide (Z.of_nat (String.length token) > maxCookieValueBytes) then None
            else Some token)
  end.

(** An unusable key is an error here, unlike undecipherable data. *)
Definition cookie_Load (token : string) : Eff BWorld (option (option Session)) :=
  mret match raw_url_decode token with
       | None => Some None
       | Some data =>
           if negb (aes_key_ok key) then None
           else match decryptAESGCM key data with
                | None => Some None
                | Some plaintext => Some <$> unmarshal_session plaintext
                end
       end.

Definition cookie_Delete (token : string) : Eff BWorld bool := mret true.

Definition CookieStore : Store :=
  {| Save := cookie_Save; Load := cookie_Load; Delete := cookie_Delete |}.
End cookie.

Definition NewCookieStore (secret : string) : Store := CookieStore (sha256 secret).

(** ** The manager *)

Definition sessionTTL : Z := 24 * hour.

Record Manager := {
  m_store : Store;
  m_cookieName : string;
  m_insecureCookie : bool
}.

Definition set_cookie (m : Manager) (value : string) (maxAge : Z) : Cookie :=
  {| ck_name := m_cookieName m; ck_value := value; ck_http_only := true;
     ck_secure := negb (m_insecureCookie m); ck_max_age := maxAge |}.

(** The cookie to set, or an error. *)
Definition Create (m : Manager) (s : Session) : Eff BWorld (option Cookie) :=
  token ← Save (m_store m) s sessionTTL;
  mret ((λ t, set_cookie m t (sessionTTL / second)) <$> token).

Definition Get (m : Manager) (r : Request) : Eff BWorld (option (option Session)) :=
  match cookie_get r (m_cookieName m) with
  | None => mret (Some None)
  | Some value =>
      let token := trim_space value in
      if decide (token = EmptyString) then mret (Some None) else Load (m_store m) token
  end.

Definition Rotate (m : Manager) (r : Request) (s : Session) : Eff BWorld (option Cookie) :=
  match cookie_get r (m_cookieName m) with
  | Some value =>
      if decide (trim_space value ≠ EmptyString)
      then Delete (m_store m) value;; Create m s
      else Create m s
  | None => Create m s
  end.

Definition Destroy (m : Manager) (r : Request) : Eff BWorld (option Cookie) :=
  let done := set_cookie m EmptyString (-1) in
  match cookie_get r (m_cookieName m) with
  | Some value =>
      if decide (trim_space value ≠ EmptyString) then
        ok ← Delete (m_store m) value; mret (if ok : bool then Some done else None)
      else mret (Some done)
  | None => mret (Some done)
  end.
End session.

(** ** Facts: encryption and the session's text *)

Lemma substring_prefix a b : String.substring 0 (String.length a) (a +:+ b) = a.
Proof.
  induction a as [|c a IH]; simpl; [by destruct b|]. f_equal. exact IH.
Qed.

Lemma substring_suffix a b n : n = String.length b →
  String.substring (String.length a) n (a +:+ b) = b.
Proof.
  intros ->. induction a as [|c a IH]; simpl; [|exact IH].
  rewrite sapp_nil_l. induction b as [|c b IH]; simpl; [done|]. by rewrite IH.
Qed.

Section facts.
Context `{HR : Runtime, HB : BffRuntime, HL : !BffLaws}.
Implicit Types (w : BWorld) (s : Session).
Set Default Proof Using "HL".

(** What [encryptAESGCM] produces decrypts to the plaintext. *)
Lemma wp_encrypt key p w :
  wp (encryptAESGCM key p)
     (λ r w', w_st w' = w_st w ∧ ∀ c, r = Some c →
        decryptAESGCM key c = Some p ∧ aes_key_ok key = true ∧ c ≠ EmptyString) w.
Proof.
  unfold encryptAESGCM, decryptAESGCM. destruct (aes_key_ok key) eqn:Hkey; simpl; [|by split].
  apply wp_bind. unfold wp, randRead, mret, eff_ret. simpl. split; [done|].
  destruct (rand_read (w_rand w) nonceSize) as [n|] eqn:Hn; simpl; [|done].
  intros c [= <-]. apply rand_read_length in Hn. rewrite slength_app.
  destruct (decide _) as [|Hlen]; [lia|]. rewrite <-Hn.
  rewrite substring_prefix, substring_suffix by lia.
  split; [apply gcm_open_seal|]. split; [done|]. by destruct n.
Qed.

Definition ascii_session s : Prop :=
  is_ascii_string (ss_AccessToken s) = true ∧ is_ascii_string (ss_RefreshToken s) = true ∧
  is_ascii_string (ss_IDToken s) = true ∧ is_ascii_string (ss_CSRFToken s) = true.

Lemma decode_session_members a r i c t e :
  parse_time t = Some e →
  decode_session [ ("accessToken", JStr a); ("refreshToken", JStr r); ("idToken", JStr i);
                   ("csrfToken", JStr c); ("accessTokenExpiry", JStr t) ] =
  Some {| ss_AccessToken := a; ss_RefreshToken := r; ss_IDToken := i; ss_CSRFToken := c;
          ss_AccessTokenExpiry := e |}.
Proof using Type.
  intros Ht. unfold decode_session. set (ms := [_; _; _; _; _]).
  assert (values_for session_tags "accessToken" ms = [JStr a]) as -> by done.
  assert (values_for session_tags "refreshToken" ms = [JStr r]) as -> by done.
  assert (values_for session_tags "idToken" ms = [JStr i]) as -> by done.
  assert (values_for session_tags "csrfToken" ms = [JStr c]) as -> by done.
  assert (values_for session_tags "accessTokenExpiry" ms = [JStr t]) as -> by done.
  unfold foldM. cbn. by rewrite Ht.
Qed.

Lemma unmarshal_marshal s p :
  ascii_session s → marshal_session s = Some p → unmarshal_session p = Some s.
Proof.
  intros (Ha & Hr & Hi & Hc) Hm. unfold marshal_session in Hm.
  destruct (time_text (ss_AccessTokenExpiry s)) as [t|] eqn:Ht; [|done].
  apply parse_time_text in Ht as [Ht Hta]. injection Hm as <-. unfold unmarshal_session.
  rewrite json_text_round by (simpl; by rewrite Ha, Hr, Hi, Hc, Hta).
  rewrite (decode_session_members _ _ _ _ _ _ Ht). by destruct s.
Qed.
End facts.
Set Default Proof Using "Type".

(** ** The contract of a store *)

(** A load that finds no session, or fails, leaves every token as it was. *)
Ltac no_session := apply wp_ret; split; [done|by intros ???].

Section contract.
Context `{HR : Runtime, HB : BffRuntime}.
Implicit Types (w : BWorld) (σ : bff_state).

(** [holds σ token s]: in [σ], [token] stands for the session [s].  Loading
    may forget sessions, it never invents one. *)
Definition fewer (holds : bff_state → string → Session → Prop) σ' σ : Prop :=
  ∀ token s, holds σ' token s → holds σ token s.

(** What a store's operations leave alone: the claimed login states and the
    requests sent; the clock goes on.  What they do to the sessions the store
    holds is [st_holds] of the contract below. *)
Definition store_step w w' : Prop :=
  bs_claimedAt (w_st w') = bs_claimedAt (w_st w) ∧
  bs_lastCleanup (w_st w') = bs_lastCleanup (w_st w) ∧
  bs_sent (w_st w') = bs_sent (w_st w) ∧ (w_clock w ≤ w_clock w')%nat.

#[export] Instance store_step_preorder : PreOrder store_step.
Proof.
  split; [intros w; unfold store_step; by split_and!|].
  intros a b c (?&?&?&?) (?&?&?&?). unfold store_step. split_and!; [congruence..|lia].
Qed.

Lemma store_step_redis f : steps store_step (redis_update f).
Proof.
  intros w. unfold redis_update, redis_exchange, mbind, eff_bind.
  by destruct (f (w_net w) (bs_redis (w_st w))).
Qed.

(** The structural proof that a store's operation is a [store_step]. *)
Ltac store_step_tac :=
  lazymatch goal with
  | |- steps _ (_ ≫= _) => apply steps_bind; [apply _| |intros ?]
  | |- steps _ (mret _) => apply steps_ret; apply _
  | |- steps _ (match _ with _ => _ end) => case_match
  | |- steps _ (mod_st (up_items _)) => intros ?; unfold store_step; by split_and!
  | |- steps _ (redis_update _) => apply store_step_redis
  | |- steps _ (redis_exchange _) => intros ?; unfold store_step; by split_and!
  | |- steps _ (randRead _) => intros ?; unfold store_step; by split_and!
  | |- steps _ tNow => intros ?; unfold store_step; split_and!; simpl; [done..|lia]
  | |- steps _ (get_st _) => intros ?; unfold store_step; by split_and!
  end.
Ltac store_steps := repeat store_step_tac.

(** A store loads only the sessions its state holds; saving makes its token
    stand for the session saved, and a failing save adds none. *)
Class StoreSpec (st : Store) := {
  st_holds : bff_state → string → Session → Prop;
  st_storable : Session → Prop;
  st_functional σ token s1 s2 : st_holds σ token s1 → st_holds σ token s2 → s1 = s2;
  st_own σ σ' token s :
    bs_items σ' = bs_items σ → bs_redis σ' = bs_redis σ → st_holds σ' token s → st_holds σ token s;
  st_Load token w :
    wp (Load st token) (λ r w',
      (∀ s, r = Some (Some s) → st_holds (w_st w) token s) ∧ fewer st_holds (w_st w') (w_st w)) w;
  st_Save s ttl w :
    wp (Save st s ttl) (λ r w', match r with
      | Some token => (st_storable s → st_holds (w_st w') token s) ∧ all_visible token = true
      | None => fewer st_holds (w_st w') (w_st w)
      end) w;
  st_Load_step token : steps store_step (Load st token);
  st_Save_step s ttl : steps store_step (Save st s ttl);
  st_Delete_step token : steps store_step (Delete st token)
}.

(** Deleting takes the token's meaning away. *)
Class RevocableStore (st : Store) `{!StoreSpec st} := {
  st_Delete token w :
    wp (Delete st token) (λ ok w', ok = true → ∀ s, ¬ st_holds (w_st w') token s) w
}.

(** *** Memory *)

Definition memory_holds σ token s : Prop :=
  ∃ e, bs_items σ !! token = Some {| mi_session := s; mi_expires := e |}.

#[global, refine] Instance memory_spec : StoreSpec MemoryStore :=
  {| st_holds := memory_holds; st_storable := λ _, True |}.
Proof.
  - intros σ token s1 s2 [e1 H1] [e2 H2]. congruence.
  - intros σ σ' token s E _ [e He]. exists e. congruence.
  - intros token w. simpl. unfold memory_Load. apply wp_bind, wp_get_st.
    destruct (bs_items (w_st w) !! token) as [[s e]|] eqn:Hi; [|no_session].
    apply wp_bind. unfold wp at 1. simpl. destruct (decide _).
    + split; [done|]. intros t s' [e' He']. simpl in He'.
      apply lookup_delete_Some in He' as [_ He']. by exists e'.
    + apply wp_ret. split; [|by intros ???]. intros s' [= <-]. by exists e.
  - intros s ttl w. simpl. unfold memory_Save, randomToken.
    unfold wp, mbind, eff_bind, randRead, mret, eff_ret. simpl.
    destruct (rand_read _ _) as [b|]; simpl; [|by intros ??].
    split; [intros _|apply raw_url_encode_visible]. eexists. apply lookup_insert_eq.
  - intros token. simpl. unfold memory_Load. store_steps.
  - intros s ttl. simpl. unfold memory_Save, randomToken. store_steps.
  - intros token. simpl. unfold memory_Delete. store_steps.
Defined.

#[global] Instance memory_revocable : RevocableStore MemoryStore.
Proof.
  split. intros token w _ s [e He]. simpl in He. by rewrite lookup_delete_eq in He.
Qed.

(** *** Redis *)

Section redis.
Context `{HL : !BffLaws} (prefix : string).

Definition redis_holds σ token s : Prop :=
  ∃ id secretB64 secret c p,
    cut "." token = (id, secretB64, true) ∧ raw_url_decode secretB64 = Some secret ∧
    redis_value (bs_redis σ) (prefix +:+ id) = Some c ∧
    decryptAESGCM secret c = Some p ∧ unmarshal_session p = Some s.

Lemma wp_redis_update f (Q : bool → BWorld → Prop) w :
  (∀ w', w_st w' = w_st w → Q false w') →
  (∀ n (ρ : redis_state) w', f n (bs_redis (w_st w)) = Some ρ →
     w_st w' = up_redis ρ (w_st w) → Q true w') →
  wp (redis_update f) Q w.
Proof.
  intros Hf Ht. unfold redis_update, redis_exchange, wp, mbind, eff_bind. simpl.
  destruct (f (w_net w) (bs_redis (w_st w))) as [ρ|] eqn:E; simpl; [by eapply Ht|by apply Hf].
Qed.

#[global, refine] Instance redis_spec : StoreSpec (RedisStore prefix) :=
  {| st_holds := redis_holds; st_storable := ascii_session |}.
Proof using All.
  - intros σ token s1 s2 (?&?&?&?&?&?&?&?&?&?) (?&?&?&?&?&?&?&?&?&?). congruence.
  - intros σ σ' token s _ E (id & b & k & c & p & Hh). exists id, b, k, c, p. by rewrite <-E.
  - intros token w. simpl. unfold redis_Load.
    destruct (cut "." token) as [[id b64] ok] eqn:Hcut. destruct ok; [|no_session].
    destruct (raw_url_decode b64) as [secret|] eqn:Hsec; [|no_session].
    apply wp_bind. unfold redis_exchange, wp at 1. simpl.
    destruct (redis_GET (w_net w) (prefix +:+ id) (bs_redis (w_st w))) as [[c|]|] eqn:Hg;
      [|no_session..].
    apply redis_GET_value in Hg.
    destruct (decryptAESGCM secret c) as [p|] eqn:Hp; [|no_session].
    destruct (unmarshal_session p) as [s|] eqn:Hs; [|no_session].
    apply wp_ret. split; [|by intros ???]. intros s' [= <-]. by exists id, b64, secret, c, p.
  - intros s ttl w. simpl. unfold redis_Save, randomToken. apply wp_bind, wp_bind.
    unfold wp at 1. simpl. destruct (rand_read (w_rand w) 32) as [b|]; simpl; [|by intros ???].
    apply wp_bind. unfold wp at 1. simpl.
    destruct (rand_read _ 32) as [secret|]; [|by intros ???].
    destruct (marshal_session s) as [p|] eqn:Hm; [|by intros ???].
    apply wp_bind. eapply wp_mono; [apply wp_encrypt|]. simpl. intros [c|] w1 [E1 Hdec];
      [|apply wp_ret; rewrite E1; by intros ???].
    destruct (Hdec c eq_refl) as [Hopen _]. apply wp_bind, wp_redis_update.
    { intros w2 E2. apply wp_ret. rewrite E2, E1. by intros ???. }
    intros n ρ w2 Hset E. apply wp_ret. split; [|by rewrite all_visible_app; cbn [all_visible];
      rewrite !raw_url_encode_visible]. intros Hs. rewrite E. simpl.
    exists (raw_url_encode b), (raw_url_encode secret), secret, c, p.
    split_and!; [|apply raw_url_decode_encode| |done|by eapply unmarshal_marshal].
    + apply cut_app. apply raw_url_encode_no_dot.
    + rewrite (redis_SET_value _ _ _ _ _ _ Hset). by rewrite decide_True.
  - intros token. simpl. unfold redis_Load. store_steps.
  - intros s ttl. simpl. unfold redis_Save, randomToken, encryptAESGCM. store_steps.
  - intros token. simpl. unfold redis_Delete. store_steps.
Defined.

#[global] Instance redis_revocable : RevocableStore (RedisStore prefix).
Proof using All.
  split. intros token w. simpl. unfold redis_Delete.
  destruct (cut "." token) as [[id b64] ok] eqn:Hcut. apply wp_redis_update; [done|].
  intros n σ w' Hdel E _ s (id' & ? & ? & c & ? & Hcut' & _ & Hv & _). rewrite E in Hv. simpl in Hv.
  rewrite Hcut in Hcut'. injection Hcut' as <- <- ->.
  by rewrite (redis_DEL_value _ _ _ _ Hdel), decide_True in Hv.
Qed.
End redis.

(** *** Cookie: the token is the session, encrypted. *)

Section cookie.
Context `{HL : !BffLaws} (key : string).

Definition cookie_holds σ token s : Prop :=
  ∃ data p, raw_url_decode token = Some data ∧ decryptAESGCM key data = Some p ∧
    unmarshal_session p = Some s.

#[global, refine] Instance cookie_spec : StoreSpec (CookieStore key) :=
  {| st_holds := cookie_holds; st_storable := ascii_session |}.
Proof using All.
  - intros σ token s1 s2 (?&?&?&?&?) (?&?&?&?&?). congruence.
  - done.
  - intros token w. simpl. unfold cookie_Load. apply wp_ret.
    split; [|by intros ???]. intros s'. destruct (raw_url_decode token) as [data|] eqn:Hd; [|done].
    destruct (negb _); [done|]. destruct (decryptAESGCM key data) as [p|] eqn:Hp; [|done].
    destruct (unmarshal_session p) as [s|] eqn:Hs; simpl; [|done].
    intros [= <-]. by exists data, p.
  - intros s ttl w. simpl. unfold cookie_Save.
    destruct (marshal_session s) as [p|] eqn:Hm; [|by intros ???].
    apply wp_bind. eapply wp_mono; [apply wp_encrypt|].
    intros [c|] w1 [_ Hdec]; apply wp_ret; [|by intros ???].
    cbn [mbind option_bind]. cbv zeta. destruct (decide _); [by intros ???|].
    split; [intros Hs|apply raw_url_encode_visible]. exists c, p. split_and!; [apply raw_url_decode_encode|by apply Hdec|by eapply unmarshal_marshal].
  - intros token. simpl. unfold cookie_Load. store_steps.
  - intros s ttl. simpl. unfold cookie_Save, encryptAESGCM. store_steps.
  - intros token. simpl. unfold cookie_Delete. store_steps.
Defined.
End cookie.
End contract.
