(* ===== verification/BffManager.v ===== *)
(** * What the session manager guarantees

    The manager of [BffSession] over any store that satisfies the contract: a
    request's session is the one its cookie's token stands for.  Then what each
    store adds: that a session created is read back, the lifetime of a memory
    session, the size and the permanence of a cookie session; and what a rotation
    that fails loses.  Ends with a concrete gateway runtime that
    satisfies the laws. *)

From S2P Require Import Prelude GoStrings GoNet GoURL GoBase64 Runtime RuntimeExample GoJson.
From S2P Require Import BffSession.
From Stdlib Require Import Ascii.
From stdpp Require Import options.
Local Open Scope Z_scope.

(** The request [r] brings the cookie [c]. *)
Definition cookie_of (c : Cookie) (r : Request) : Prop :=
  cookie_get r (ck_name c) = Some (ck_value c).

Section manager.
Context `{HR : Runtime, HB : BffRuntime}.
Implicit Types (w : BWorld) (σ : bff_state) (m : Manager).

(** The token a request brings, as [Get] reads it. *)
Definition request_token m (r : Request) : option string :=
  v ← cookie_get r (m_cookieName m);
  if decide (trim_space v = EmptyString) then None else Some (trim_space v).

Lemma Get_token m r :
  Get m r = match request_token m r with
            | None => mret (Some None)
            | Some token => Load (m_store m) token
            end.
Proof.
  unfold Get, request_token. destruct (cookie_get r (m_cookieName m)) as [v|]; [|done].
  cbn [mbind option_bind]. by destruct (decide _).
Qed.

Lemma request_token_word m r v :
  cookie_get r (m_cookieName m) = Some v → all_visible v = true → v ≠ EmptyString →
  request_token m r = Some v.
Proof.
  intros Hc Hv Hne. unfold request_token. rewrite Hc. cbn [mbind option_bind].
  rewrite trim_space_word by by apply visible_no_space. by rewrite decide_False.
Qed.

Lemma trim_space_visible v : all_visible v = true → trim_space v = v.
Proof. intros Hv. by apply trim_space_word, visible_no_space. Qed.

Section any_store.
Context (m : Manager) `{HS : !StoreSpec (m_store m)}.
Set Default Proof Using "HS".

(** The session [r]'s cookie stands for in [σ]. *)
Definition request_session σ (r : Request) (s : Session) : Prop :=
  ∃ token, request_token m r = Some token ∧ st_holds σ token s.

Lemma request_session_unique σ r s1 s2 :
  request_session σ r s1 → request_session σ r s2 → s1 = s2.
Proof.
  intros (t1 & E1 & H1) (t2 & E2 & H2). rewrite E1 in E2. injection E2 as <-.
  by eapply st_functional.
Qed.

Lemma request_session_fewer σ' σ r s :
  fewer st_holds σ' σ → request_session σ' r s → request_session σ r s.
Proof. intros Hf (t & E & Ht). exists t. eauto. Qed.

Lemma wp_Get r w :
  wp (Get m r) (λ res w',
    (∀ s, res = Some (Some s) → request_session (w_st w) r s) ∧
    fewer st_holds (w_st w') (w_st w)) w.
Proof.
  rewrite Get_token. destruct (request_token m r) as [token|] eqn:E.
  - eapply wp_mono; [apply st_Load|]. intros res w' [Hres Hf]. split; [|done].
    intros s Hs. exists token. auto.
  - apply wp_ret. split; [done|by intros ???].
Qed.

(** The manager touches the store alone. *)
Lemma steps_Get r : steps store_step (Get m r).
Proof.
  rewrite Get_token. case_match; [apply st_Load_step|apply steps_ret, _].
Qed.
Lemma steps_Create s : steps store_step (Create m s).
Proof.
  unfold Create. apply steps_bind; [apply _|apply st_Save_step|intros; apply steps_ret, _].
Qed.
Lemma steps_Rotate r s : steps store_step (Rotate m r s).
Proof.
  unfold Rotate. repeat case_match; try apply steps_Create.
  apply steps_bind; [apply _|apply st_Delete_step|intros; apply steps_Create].
Qed.
Lemma steps_Destroy r : steps store_step (Destroy m r).
Proof.
  unfold Destroy. cbv zeta. repeat case_match; try (apply steps_ret, _).
  apply steps_bind; [apply _|apply st_Delete_step|intros; apply steps_ret, _].
Qed.

(** What [Create] promises over any store: the cookie's attributes, and that its
    value stands for the session. *)
Lemma wp_Create s w :
  st_storable s →
  wp (Create m s) (λ res w1, ∀ c, res = Some c →
    ck_name c = m_cookieName m ∧ ck_http_only c = true ∧
    ck_secure c = negb (m_insecureCookie m) ∧ ck_max_age c = 86400 ∧
    st_holds (w_st w1) (ck_value c) s ∧
    ∀ r, cookie_of c r → ck_value c ≠ EmptyString → request_token m r = Some (ck_value c)) w.
Proof.
  intros Hs. unfold Create. apply wp_bind. eapply wp_mono; [apply st_Save|].
  intros [token|] w1 Htok; apply wp_ret; [|done]. destruct Htok as [Hhold Hvis].
  simpl. intros c [= <-]. split_and!; [done..|by apply Hhold|]. intros r Hck Hne.
  by apply request_token_word.
Qed.

(** [Destroy] over a store that can revoke: the request that logged out no
    longer has a session, provided its cookie value has no surrounding white
    space, which [Get] trims and [Destroy] does not. *)
Lemma wp_Destroy `{!RevocableStore (m_store m)} r w :
  (∀ v, cookie_get r (m_cookieName m) = Some v → trim_space v = v) →
  wp (Destroy m r) (λ res w', ∀ c, res = Some c →
    ck_name c = m_cookieName m ∧ ck_value c = EmptyString ∧ ck_max_age c < 0 ∧
    ∀ s, ¬ request_session (w_st w') r s) w.
Proof.
  intros Htrim. unfold Destroy, request_session, request_token.
  destruct (cookie_get r (m_cookieName m)) as [v|] eqn:Hc.
  - rewrite (Htrim v eq_refl). destruct (decide (v ≠ EmptyString)) as [Hv|Hv].
    + apply wp_bind. eapply wp_mono; [apply st_Delete|]. intros [] w' Hdel; apply wp_ret; [|done].
      intros c [= <-]. split_and!; [done..|]. intros s (t & Ht & Hhold).
      cbn [mbind option_bind] in Ht. rewrite (Htrim v eq_refl), decide_False in Ht by done.
      injection Ht as <-. by eapply Hdel.
    + apply wp_ret. intros c [= <-]. split_and!; [done..|]. intros s (t & Ht & _).
      cbn [mbind option_bind] in Ht. rewrite (Htrim v eq_refl), decide_True in Ht; [done|].
      by apply dec_stable.
  - apply wp_ret. intros c [= <-]. split_and!; [done..|]. by intros s (t & Ht & _).
Qed.
Lemma wp_Destroy_cookie r w :
  wp (Destroy m r) (λ res _, ∀ c, res = Some c → c = set_cookie m EmptyString (-1)) w.
Proof.
  unfold Destroy. cbv zeta. repeat case_match; try (apply wp_ret; naive_solver).
  apply wp_bind. apply wp_mono with (Q := λ _ _, True); [done|].
  intros [] ? _; apply wp_ret; naive_solver.
Qed.
End any_store.
End manager.
Set Default Proof Using "Type".

(** ** Each store's own guarantees *)

Section stores.
Context `{HR : Runtime, HB : BffRuntime, HL : !BffLaws}.
Implicit Types (w : BWorld) (m : Manager).
Set Default Proof Using "HL".

Lemma random_token_word n k b :
  rand_read n (S k) = Some b → all_visible (raw_url_encode b) = true ∧ raw_url_encode b ≠ EmptyString.
Proof.
  intros Hb%rand_read_length. split; [apply raw_url_encode_visible|].
  apply raw_url_encode_nonempty. by destruct b.
Qed.

Lemma memory_Load_none t w : bs_items (w_st w) !! t = None → memory_Load t w = (Some None, w).
Proof using Type. intros Hn. unfold memory_Load, mbind, eff_bind. simpl. by rewrite Hn. Qed.

(** C30: A session of the memory store lives for exactly [sessionTTL], 24 hours:
    the request that brings its cookie gets the session back up to and including
    the instant 24 hours after [Create] read the clock, and afterwards gets none
    and the entry is removed. *)
Theorem memory_session_lifetime m s w :
  m_store m = MemoryStore →
  wp (Create m s) (λ res w1, ∀ c, res = Some c →
    ∀ r w2, w_st w2 = w_st w1 → cookie_of c r →
      let live := bool_decide (time_now (w_clock w2) <= time_now (w_clock w) + 24 * hour) in
      wp (Get m r) (λ got w3,
        got = Some (if live then Some s else None) ∧
        bs_items (w_st w3) = if live then bs_items (w_st w2)
                             else delete (ck_value c) (bs_items (w_st w2))) w2) w.
Proof.
  intros Hm. unfold Create. rewrite Hm. apply wp_bind. simpl.
  unfold memory_Save, randomToken. unfold wp at 1, mbind, eff_bind, randRead, mret, eff_ret. simpl.
  destruct (rand_read (w_rand w) 32) as [b|] eqn:Hb; simpl; [|done].
  apply random_token_word in Hb as [Hvis Hne]. unfold wp at 1. simpl. intros c [= <-] r w2 E2 Hck.
  rewrite Get_token, (request_token_word _ _ _ Hck Hvis Hne), Hm. simpl. unfold memory_Load.
  apply wp_bind, wp_get_st. rewrite E2. simpl. rewrite lookup_insert_eq. apply wp_bind.
  unfold wp at 1. simpl. unfold sessionTTL.
  destruct (decide (time_now (w_clock w2) > time_now (w_clock w) + 24 * hour)).
  - rewrite bool_decide_eq_false_2 by lia. unfold wp. simpl. by rewrite E2.
  - rewrite bool_decide_eq_true_2 by lia. unfold wp. simpl. by rewrite E2.
Qed.

(** A cookie session (of ASCII strings) lives in the cookie alone: the value is at
    most 3900 bytes (a longer one is an error), and the request that brings it
    gets the session back whatever the state and the time - so neither the 24
    hours of [sessionTTL] nor a logout end it. *)
Lemma cookie_session_permanent key m s w :
  m_store m = CookieStore key → ascii_session s →
  wp (Create m s) (λ res w1, ∀ c, res = Some c →
    Z.of_nat (String.length (ck_value c)) <= 3900 ∧
    ∀ r w2, cookie_of c r →
      (Get m r w2).1 = Some (Some s) ∧ (Get m r ((Destroy m r w2).2)).1 = Some (Some s)) w.
Proof.
  intros Hm Hs. unfold Create. rewrite Hm. apply wp_bind. simpl. unfold cookie_Save.
  destruct (marshal_session s) as [p|] eqn:Hp; [|done]. apply wp_bind.
  eapply wp_mono; [apply wp_encrypt|]. intros [c|] w1 [_ Hc]; apply wp_ret, wp_ret; [|done].
  destruct (Hc c eq_refl) as (Hdec & Hkey & Hne). cbn [mbind option_bind]. cbv zeta.
  destruct (decide _) as [|Hlen]; [done|]. unfold maxCookieValueBytes in Hlen.
  intros c' [= <-]. simpl. split; [lia|]. intros r w2 Hck.
  assert (∀ w3, (Get m r w3).1 = Some (Some s)) as Hget; [|by rewrite !Hget].
  intros w3. rewrite Get_token.
  rewrite (request_token_word _ _ _ Hck (raw_url_encode_visible c) (raw_url_encode_nonempty c Hne)).
  rewrite Hm. simpl. unfold cookie_Load. simpl.
  by rewrite raw_url_decode_encode, Hkey, Hdec, (unmarshal_marshal _ _ Hs Hp).
Qed.

(** The three stores there are. *)
Inductive backend := Memory | Redis (prefix : string) | Encrypted (key : string).
Definition store_of (b : backend) : Store :=
  match b with
  | Memory => MemoryStore
  | Redis prefix => RedisStore prefix
  | Encrypted key => CookieStore key
  end.

#[local] Instance backend_spec b : StoreSpec (store_of b) :=
  match b with
  | Memory => memory_spec
  | Redis prefix => redis_spec prefix
  | Encrypted key => cookie_spec key
  end.

(** The sessions a store can keep as they are: the text of a session keeps ASCII. *)
Definition storable (b : backend) (s : Session) : Prop :=
  match b with Memory => True | _ => ascii_session s end.

(** In [w] the store can answer for [token]: its entry, if any, has not expired;
    the Redis server answers, with the value it holds. *)
Definition answers (b : backend) (token : string) w : Prop :=
  match b with
  | Memory => ∀ it, bs_items (w_st w) !! token = Some it → time_now (w_clock w) <= mi_expires it
  | Redis prefix =>
      let key := prefix +:+ (cut "." token).1.1 in
      redis_GET (w_net w) key (bs_redis (w_st w)) = Some (redis_value (bs_redis (w_st w)) key)
  | Encrypted _ => True
  end.

Lemma Load_answers b token s w :
  st_holds (StoreSpec := backend_spec b) (w_st w) token s → answers b token w → (Load (store_of b) token w).1 = Some (Some s).
Proof.
  destruct b as [|prefix|key].
  - intros [e He] Ha. specialize (Ha _ He). simpl in *. unfold memory_Load, mbind, eff_bind.
    simpl. rewrite He. simpl. by rewrite decide_False by lia.
  - intros (id & b64 & secret & c & p & Hcut & Hsec & Hv & Hdec & Hun) Ha.
    unfold answers in Ha. rewrite Hcut in Ha. cbv zeta in Ha. simpl fst in Ha. rewrite Hv in Ha.
    simpl. unfold redis_Load. rewrite Hcut. simpl negb. cbv iota. rewrite Hsec.
    unfold mbind, eff_bind, redis_exchange. simpl. rewrite Ha. simpl. by rewrite Hdec, Hun.
  - intros (data & p & Hdata & Hdec & Hun) _. simpl. unfold cookie_Load. rewrite Hdata, Hdec, Hun.
    unfold decryptAESGCM in Hdec. by destruct (aes_key_ok key).
Qed.

Lemma Create_value b m s w :
  m_store m = store_of b → wp (Create m s) (λ res _, ∀ c, res = Some c → ck_value c ≠ EmptyString) w.
Proof.
  intros Hm. unfold Create. rewrite Hm. apply wp_bind. simpl.
  apply (wp_mono _ (λ t _, ∀ token, t = Some token → token ≠ EmptyString)).
  2:{ intros [t|] w1 Ht; apply wp_ret; [|done]. intros c [= <-]. by apply Ht. }
  destruct b as [|prefix|key]; simpl.
  - unfold memory_Save, randomToken, wp, mbind, eff_bind, randRead, mret, eff_ret. simpl.
    destruct (rand_read (w_rand w) 32) as [b|] eqn:Hb; simpl; [|done].
    apply random_token_word in Hb as [_ Hne]. by intros t [= <-].
  - unfold redis_Save. apply wp_bind. apply wp_mono with (Q := λ _ _, True); [done|].
    intros [id|] w1 _; [|done]. apply wp_bind. apply wp_mono with (Q := λ _ _, True); [done|].
    intros [secret|] w2 _; [|done]. destruct (marshal_session s); [|done].
    apply wp_bind. apply wp_mono with (Q := λ _ _, True); [done|]. intros [c|] w3 _; [|done].
    apply wp_bind. apply wp_mono with (Q := λ _ _, True); [done|]. intros [] w4 _; apply wp_ret; [|done].
    intros t [= <-] [_ [=]]%sapp_eq_nil.
  - unfold cookie_Save. destruct (marshal_session s) as [p|]; [|done]. apply wp_bind.
    eapply wp_mono; [apply wp_encrypt|]. intros [c|] w1 [_ Hc]; apply wp_ret; [|done].
    destruct (Hc c eq_refl) as (_ & _ & Hne). cbn [mbind option_bind]. cbv zeta.
    destruct (decide _); [done|]. intros t [= <-]. by apply raw_url_encode_nonempty.
Qed.

(** C28: A session created through [Manager.Create] belongs to the cookie it
    sets: the cookie has the configured name, is HttpOnly, is Secure unless
    insecure cookies were asked for, and lasts 24 hours; and while the store's
    state is the one [Create] left, a request bringing that cookie reads back
    that session - as long as the memory store's entry has not expired and the
    Redis server answers with the value it holds - and never another one.  For
    each of the three stores; for Redis and the encrypted cookie the session's
    strings are ASCII. *)
Theorem Create_binds_cookie b m s w :
  m_store m = store_of b → storable b s →
  wp (Create m s) (λ res w1, ∀ c, res = Some c →
    ck_name c = m_cookieName m ∧ ck_http_only c = true ∧
    ck_secure c = negb (m_insecureCookie m) ∧ ck_max_age c = 86400 ∧
    ∀ r w2, w_st w2 = w_st w1 → cookie_of c r →
      (∀ s', (Get m r w2).1 = Some (Some s') → s' = s) ∧
      (answers b (ck_value c) w2 → (Get m r w2).1 = Some (Some s))) w.
Proof.
  destruct m as [st name insecure]. simpl. intros -> Hs. set (m := {| m_store := _ |}).
  eapply wp_mono; [apply wp_and; [apply (wp_Create m (HS := backend_spec b)); by destruct b|]|].
  { by apply (Create_value b m). }
  intros res w1 [Hres Hval] c Hc. destruct (Hres c Hc) as (? & ? & ? & ? & Hhold & Htok).
  specialize (Hval c Hc) as Hne. split_and!; [done..|]. intros r w2 E2 Hck. rewrite <-E2 in Hhold. split.
  - intros s' Hget. destruct (wp_Get m (HS := backend_spec b) r w2) as [Hgot _].
    destruct (Hgot s' Hget) as (t & Ht & Hhold'). rewrite (Htok r Hck Hne) in Ht.
    injection Ht as <-. exact (st_functional _ _ _ _ Hhold' Hhold).
  - intros Ha. rewrite Get_token, (Htok r Hck Hne). by apply Load_answers.
Qed.

(** C38: [Manager.Rotate] deletes the old session before it creates the new one,
    so a rotation whose save fails has lost the session.  Over a store that can
    revoke, for a cookie value without surrounding white space: when the delete
    went through and [Rotate] still reports an error (the Redis server refused
    the SET, say), the cookie the browser holds stands for no session any more -
    although [TokenForwarder] goes on serving that request, and only that one. *)
Theorem failed_Rotate_loses_session m `{HS : !StoreSpec (m_store m)}
    `{HD : !RevocableStore (m_store m)} r s w v :
  cookie_get r (m_cookieName m) = Some v → trim_space v = v → v ≠ EmptyString →
  (Delete (m_store m) v w).1 = true →
  wp (Rotate m r s) (λ res w', res = None → ∀ s', ¬ request_session m (w_st w') r s') w.
Proof.
  intros Hck Htrim Hne Hdel. unfold Rotate. rewrite Hck, Htrim, decide_True by done.
  apply wp_bind. pose proof (st_Delete v w) as Hgone. unfold wp in Hgone |- *.
  destruct (Delete (m_store m) v w) as [ok w1]. simpl in *. specialize (Hgone Hdel).
  change (wp (Create m s) (λ res w', res = None → ∀ s', ¬ request_session m (w_st w') r s') w1).
  unfold Create. apply wp_bind. eapply wp_mono; [apply st_Save|].
  intros [token|] w2 Hsave; apply wp_ret; [done|]. intros _ s' (t & Ht & Hh).
  unfold request_token in Ht. rewrite Hck in Ht. cbn [mbind option_bind] in Ht.
  rewrite Htrim, decide_False in Ht by done. injection Ht as <-. by eapply Hgone, Hsave.
Qed.
End stores.
Set Default Proof Using "Type".

(** ** A concrete gateway *)

(** AES-GCM that seals nothing, JSON and times in the example syntax, and a
    Redis server that is a map and can be reached in the exchanges that are [up]. *)
Definition redis_bff (up : nat → bool) : BffRuntime := {|
  gcm_seal := λ _ _ p, p;
  gcm_open := λ _ _ c, Some c;
  json_text := object_text;
  time_text := λ t, Some (pos_text (encode t));
  parse_time := λ s, text_pos s ≫= decode;
  redis_state := gmap string string;
  redis_SET := λ n k v _ σ, if up n then Some (<[k := v]> σ) else None;
  redis_GET := λ n k σ, if up n then Some (σ !! k) else None;
  redis_DEL := λ n k σ, if up n then Some (delete k σ) else None
|}.

Lemma ascii_members_fields j : ascii_members j = true → ∃ l, j = string_members l.
Proof.
  destruct j as [| | | | |ms]; try done. simpl. induction ms as [|[k v] ms IH]; [by exists []|].
  simpl. intros [[_ Hv]%andb_prop Hms]%andb_prop. destruct v as [| | |s| |]; try done.
  destruct (IH Hms) as [l [= ->]]. by exists ((k, s) :: l).
Qed.

Lemma pos_text_ascii p : is_ascii_string (pos_text p) = true.
Proof. by induction p. Qed.

Lemma redis_bff_laws t up : @BffLaws (table_runtime t) (redis_bff up).
Proof.
  unshelve refine (@Build_BffLaws (table_runtime t) (redis_bff up) _ _ _ _ _
    (λ (σ : gmap string string) k, σ !! k) _ _ _); simpl.
  - done.
  - intros j [l ->]%ascii_members_fields. by rewrite text_object_text.
  - intros x s [= <-]. rewrite text_pos_text. cbn [mbind option_bind]. rewrite decode_encode.
    split; [done|]. apply pos_text_ascii.
  - intros n k b. destruct (tb_rand t n); [|done]. intros [= <-]. apply fit_length.
  - intros s. apply (fit_length 32).
  - intros n k σ v. destruct (up n); [by intros [= ->]|done].
  - intros n k v _ σ σ'. destruct (up n); [|done]. intros [= <-] k'. destruct (decide (k' = k)) as [->|].
    + by rewrite lookup_insert_eq.
    + by rewrite lookup_insert_ne.
  - intros n k σ σ'. destruct (up n); [|done]. intros [= <-] k'. destruct (decide (k' = k)) as [->|].
    + by rewrite lookup_delete_eq.
    + by rewrite lookup_delete_ne.
Defined.
Definition redis_start (up : nat → bool) : @bff_state (redis_bff up) :=
  @Build_bff_state (redis_bff up) ∅ ∅ ∅ 0 [].

Definition session_example : Session :=
  {| ss_AccessToken := "at"; ss_RefreshToken := "rt"; ss_IDToken := "h.p.s"; ss_CSRFToken := "csrf";
     ss_AccessTokenExpiry := 100 * second |}.

Definition request_example (method path : string) (header : gmap string (list string))
    (cookies : list (string * string)) : Request :=
  {| r_method := method; r_path := path; r_rawpath := ""; r_rawquery := ""; r_host := "app";
     r_remote := "10.0.0.1:4000"; r_form := ∅; r_header := header; r_cookies := cookies;
     r_body := "" |}.

(** A Redis server that is reached for the DEL of a rotation (the exchange after
    the SET of [Create]) and not for the SET that follows. *)
Section redis_down.
Definition down_at_2 (n : nat) : bool := negb (bool_decide (n = 2%nat)).
#[local] Instance redis_faulty : BffRuntime := redis_bff down_at_2.

Lemma failed_Rotate_loses_session_witness :
  let R := table_runtime no_tables in let L := redis_bff_laws no_tables down_at_2 in
  let S := redis_spec "session-" in
  let m := {| m_store := RedisStore "session-"; m_cookieName := "session"; m_insecureCookie := false |} in
  let w0 := initial_world (redis_start down_at_2) in
  let w := (Create m session_example w0).2 in
  let v := default EmptyString (ck_value <$> (Create m session_example w0).1) in
  let r := request_example "GET" "/api/x" ∅ [("session", v)] in
  (Get m r w).1 = Some (Some session_example) ∧ (Rotate m r session_example w).1 = None ∧
  wp (Rotate m r session_example)
    (λ res w', res = None → ∀ s', ¬ request_session m (HS := S) (w_st w') r s') w.
Proof.
  intros R L S m w0 w v r. split; [by vm_compute|]. split; [by vm_compute|].
  apply (failed_Rotate_loses_session m (HS := S) (HD := redis_revocable "session-") r
           session_example w v); by vm_compute.
Defined.
End redis_down.

#[local] Instance table_bff : BffRuntime := redis_bff (λ _, true).
Definition table_bff_laws t : @BffLaws (table_runtime t) table_bff := redis_bff_laws t (λ _, true).

Definition start_state : bff_state := redis_start (λ _, true).
Definition start_world : BWorld := initial_world start_state.

Definition manager_example (st : Store) : Manager :=
  {| m_store := st; m_cookieName := "session"; m_insecureCookie := false |}.

Lemma Create_binds_cookie_witness :
  let R := table_runtime no_tables in let L := table_bff_laws no_tables in
  let m := manager_example (RedisStore "session-") in
  ascii_session session_example ∧ is_Some (Create m session_example start_world).1 ∧
  (∀ token w2, answers (Redis "session-") token w2) ∧
  wp (Create m session_example) (λ res w1, ∀ c, res = Some c →
    ck_name c = "session" ∧ ck_http_only c = true ∧ ck_secure c = true ∧ ck_max_age c = 86400 ∧
    ∀ r w2, w_st w2 = w_st w1 → cookie_of c r →
      (∀ s', (Get m r w2).1 = Some (Some s') → s' = session_example) ∧
      (answers (Redis "session-") (ck_value c) w2 → (Get m r w2).1 = Some (Some session_example)))
    start_world.
Proof.
  intros R L m. split; [done|]. split; [vm_compute; eauto|]. split; [done|].
  apply (Create_binds_cookie (Redis "session-") m session_example start_world); done.
Defined.

Lemma memory_session_lifetime_witness :
  let R := table_runtime no_tables in let L := table_bff_laws no_tables in
  let m := manager_example MemoryStore in
  is_Some (Create m session_example start_world).1 ∧
  wp (Create m session_example) (λ res w1, ∀ c, res = Some c →
    ∀ r w2, w_st w2 = w_st w1 → cookie_of c r →
      let live := bool_decide (time_now (w_clock w2) <= time_now (w_clock start_world) + 24 * hour) in
      wp (Get m r) (λ got w3,
        got = Some (if live then Some session_example else None) ∧
        bs_items (w_st w3) = if live then bs_items (w_st w2)
                             else delete (ck_value c) (bs_items (w_st w2))) w2) start_world.
Proof.
  intros R L m. split; [vm_compute; eauto|].
  exact (memory_session_lifetime m session_example start_world eq_refl).
Defined.
