(* ===== verification/BffTable.v ===== *)
(** * The memory store refines a table whose entries expire

    The abstract store is a table from tokens to sessions with an expiry: loading
    is a pure function of the table and the instant, and nothing is ever cleaned
    up.  [MemoryStore] cleans up while it loads; a simulation shows that no caller
    can tell. *)

From S2P Require Import Prelude GoStrings GoNet GoURL GoBase64 Runtime RuntimeExample GoJson.
From S2P Require Import BffSession BffManager.
From stdpp Require Import options.
Local Open Scope Z_scope.

(** ** Calls of a store and what they return *)

Inductive store_op :=
  | OpSave (s : Session) (ttl : Z)
  | OpLoad (token : string)
  | OpDelete (token : string).

Inductive store_result :=
  | RSaved (token : option string)
  | RLoaded (session : option (option Session))
  | RDeleted (ok : bool).

Section calls.
Context `{HR : Runtime, HB : BffRuntime}.

Definition perform (st : Store) (op : store_op) : Eff BWorld store_result :=
  match op with
  | OpSave s ttl => token ← Save st s ttl; mret (RSaved token)
  | OpLoad token => session ← Load st token; mret (RLoaded session)
  | OpDelete token => ok ← Delete st token; mret (RDeleted ok)
  end.

Fixpoint perform_all (st : Store) (ops : list store_op) : Eff BWorld (list store_result) :=
  match ops with
  | [] => mret []
  | op :: ops' => r ← perform st op; rs ← perform_all st ops'; mret (r :: rs)
  end.
End calls.

(** ** The abstract store *)

Section table.
Context `{HR : Runtime}.

Abbreviation table := (gmap string memoryItem).

(** What [token] stands for at the instant [now]. *)
Definition live (now : Z) (t : table) (token : string) : option Session :=
  it ← t !! token; if decide (now <= mi_expires it) then Some (mi_session it) else None.

(** One call at the instant [now]: saving draws 32 random bytes for the token
    and fails only when the source does. *)
Inductive table_step (now : Z) (t : table) : store_op → store_result → table → Prop :=
  | ts_save s ttl n b :
      rand_read n 32 = Some b →
      table_step now t (OpSave s ttl) (RSaved (Some (raw_url_encode b)))
        (<[raw_url_encode b := {| mi_session := s; mi_expires := now + ttl |}]> t)
  | ts_save_fails s ttl n :
      rand_read n 32 = None → table_step now t (OpSave s ttl) (RSaved None) t
  | ts_load token :
      table_step now t (OpLoad token) (RLoaded (Some (live now t token))) t
  | ts_delete token :
      table_step now t (OpDelete token) (RDeleted true) (delete token t).

(** A sequence of calls, each at an instant not before the one preceding it. *)
Inductive table_run : Z → table → list store_op → list store_result → Prop :=
  | tr_nil now t : table_run now t [] []
  | tr_cons now now' t t' op r ops rs :
      now <= now' → table_step now' t op r t' → table_run now' t' ops rs →
      table_run now t (op :: ops) (r :: rs).

Lemma table_run_earlier now now' t ops rs :
  now <= now' → table_run now' t ops rs → table_run now t ops rs.
Proof. intros Hn H. destruct H; econstructor; [|done..]. lia. Qed.

(** ** The simulation *)

(** From [now] on the two tables answer alike. *)
Definition agrees (now : Z) (items t : table) : Prop :=
  ∀ now' token, now <= now' → live now' items token = live now' t token.

Lemma agrees_later now now' items t : now <= now' → agrees now items t → agrees now' items t.
Proof. intros Hn Ha now'' token Hn'. apply Ha. lia. Qed.

Lemma live_insert now t k it token :
  live now (<[k := it]> t) token =
  if decide (token = k) then (if decide (now <= mi_expires it) then Some (mi_session it) else None)
  else live now t token.
Proof.
  unfold live. destruct (decide (token = k)) as [->|Hne].
  - by rewrite lookup_insert_eq.
  - by rewrite lookup_insert_ne.
Qed.

Lemma live_delete now t k token :
  live now (delete k t) token = if decide (token = k) then None else live now t token.
Proof.
  unfold live. destruct (decide (token = k)) as [->|Hne].
  - by rewrite lookup_delete_eq.
  - by rewrite lookup_delete_ne.
Qed.

Lemma agrees_insert now items t k it :
  agrees now items t → agrees now (<[k := it]> items) (<[k := it]> t).
Proof. intros Ha now' token Hn. rewrite !live_insert. case_decide; auto. Qed.

Lemma agrees_delete now items t k : agrees now items t → agrees now (delete k items) (delete k t).
Proof. intros Ha now' token Hn. rewrite !live_delete. case_decide; auto. Qed.

(** Forgetting an expired entry is not seen. *)
Lemma agrees_forget now items t k it :
  items !! k = Some it → now > mi_expires it → agrees now items t → agrees now (delete k items) t.
Proof.
  intros Hk He Ha now' token Hn. rewrite <-Ha by done. rewrite live_delete.
  case_decide as Ht; [subst|done]. unfold live. rewrite Hk. simpl. by rewrite decide_False by lia.
Qed.
End table.

Section refinement.
Context `{HR : Runtime, HB : BffRuntime, HL : !RuntimeLaws}.
Implicit Types (w : BWorld).
Set Default Proof Using "HL".

Definition clock_of (w : BWorld) : Z := time_now (w_clock w).

(** One call of [MemoryStore] is one step of the table, at an instant within
    the call. *)
Lemma memory_step op w t :
  agrees (clock_of w) (bs_items (w_st w)) t →
  wp (perform MemoryStore op) (λ r w', ∃ now t',
    clock_of w <= now ∧ table_step now t op r t' ∧ now <= clock_of w' ∧
    agrees now (bs_items (w_st w')) t') w.
Proof.
  intros Ha. destruct op as [s ttl|token|token]; simpl.
  - unfold memory_Save, randomToken, wp, mbind, eff_bind, randRead, mret, eff_ret.
    simpl. destruct (rand_read (w_rand w) 32) as [b|] eqn:Hb; simpl.
    + exists (clock_of w). eexists. split_and!; [lia|by eapply ts_save|apply time_monotone; simpl; lia|].
      by apply agrees_insert.
    + exists (clock_of w), t. split_and!; [lia|by eapply ts_save_fails|apply Z.le_refl|done].
  - unfold memory_Load, wp, mbind, eff_bind, get_st, reads, mret, eff_ret. simpl.
    destruct (bs_items (w_st w) !! token) as [[s e]|] eqn:Hi; simpl.
    + assert (clock_of w <= time_now (S (w_clock w))) by (apply time_monotone; lia).
      assert (live (clock_of w) t token =
              if decide (clock_of w <= e) then Some s else None) as Hlive.
      { rewrite <-Ha by lia. unfold live. by rewrite Hi. }
      destruct (decide (time_now (w_clock w) > e)) as [He|He]; simpl;
        exists (clock_of w), t; (split_and!; [lia| |done|]).
      * rewrite decide_False in Hlive by (unfold clock_of; lia). rewrite <-Hlive. constructor.
      * by eapply agrees_forget.
      * rewrite decide_True in Hlive by (unfold clock_of; lia). rewrite <-Hlive. constructor.
      * done.
    + exists (clock_of w), t. split_and!; [lia| |apply Z.le_refl|done].
      assert (live (clock_of w) t token = None) as <-; [|constructor].
      rewrite <-Ha by lia. unfold live. by rewrite Hi.
  - unfold wp, mbind, eff_bind, mret, eff_ret. simpl.
    exists (clock_of w). eexists. split_and!; [lia|constructor|apply Z.le_refl|]. by apply agrees_delete.
Qed.

Lemma memory_runs ops w t :
  agrees (clock_of w) (bs_items (w_st w)) t →
  wp (perform_all MemoryStore ops) (λ rs _, table_run (clock_of w) t ops rs) w.
Proof.
  revert w t. induction ops as [|op ops IH]; intros w t Ha; [apply wp_ret; constructor|].
  simpl. apply wp_bind. eapply wp_mono; [by apply memory_step|].
  intros r w1 (now & t' & H1 & H2 & H3 & H4). apply wp_bind.
  eapply wp_mono; [by eapply (IH w1 t'), agrees_later|].
  intros rs w2 Hrs. apply wp_ret. econstructor; [exact H1|exact H2|]. by eapply table_run_earlier.
Qed.

(** C14: [MemoryStore] implements a table whose entries expire.  Whatever sequence of
    saves, loads and deletes its callers make, what they get back is a run of the
    abstract table from the store's present content: a token loads the session it
    was saved with up to its expiry and nothing afterwards or once deleted, and the
    removal of expired entries by [Load] is never observed. *)
Theorem memory_store_refines_table ops w :
  table_run (clock_of w) (bs_items (w_st w)) ops (perform_all MemoryStore ops w).1.
Proof. by apply (memory_runs ops w). Qed.
End refinement.
Set Default Proof Using "Type".

(** ** A run *)

#[local] Existing Instance table_bff.

(** A session saved for one second is loaded at its expiry, and gone a second
    later. *)
Lemma memory_store_refines_table_witness :
  let R := table_runtime no_tables in let T := table_laws no_tables in
  let id := raw_url_encode (fit 32 "r") in
  let ops := [OpSave session_example second; OpLoad id; OpLoad id; OpLoad id; OpDelete id] in
  let results := [ RSaved (Some id); RLoaded (Some (Some session_example)); RLoaded (Some None);
                   RLoaded (Some None); RDeleted true ] in
  (perform_all MemoryStore ops start_world).1 = results ∧ table_run 0 ∅ ops results.
Proof.
  intros R T id ops results.
  assert ((perform_all MemoryStore ops start_world).1 = results) as H by (by vm_compute).
  split; [exact H|]. rewrite <-H. exact (memory_store_refines_table ops start_world).
Defined.
