(* ===== verification/BffHandler.v ===== *)
(** * The gateway's login and its own endpoints

    [bff/internal/handler]: the response writer, the claimed login states
    ([state_claims.go]) and the handlers of [auth.go].  The functions the gateway
    is given ([Dependencies]) and the HTTP client are arguments. *)

From S2P Require Import Prelude GoStrings GoNet GoURL GoBase64 Runtime RuntimeExample GoJson.
From S2P Require Import BffSession BffManager.
From Stdlib Require Import Ascii.
From stdpp Require Import options.
Local Open Scope Z_scope.

(** ** Outside the source: [oauth2.GenerateVerifier] and the HTTP client *)

Record UpResponse := {
  up_status : Z;
  up_header : gmap string (list string);
  up_body : string;
  up_complete : bool     (* whether the body came whole *)
}.

(** An exchange: the informational responses (1xx, but 101) the peer sends first,
    which only a caller that asks for them sees, and the response, if it comes. *)
Class GatewayLib := {
  oauth2_GenerateVerifier : nat → string;
  http_Do : nat → OutRequest → list (Z * gmap string (list string)) * option UpResponse
}.

(** ** The response writer *)

(** The header fields to send and the cookies among them; the informational
    responses sent, in order; the response sent, which the first [WriteHeader] of
    another status fixes; and the body written so far. *)
Record ResponseWriter := {
  rw_header : gmap string (list string);
  rw_cookies : list Cookie;
  rw_informational : list (Z * gmap string (list string) * list Cookie);
  rw_sent : option (Z * gmap string (list string) * list Cookie);
  rw_body : string
}.

Definition new_writer : ResponseWriter :=
  {| rw_header := ∅; rw_cookies := []; rw_informational := []; rw_sent := None; rw_body := "" |}.

Definition up_header_map (f : gmap string (list string) → gmap string (list string))
    (rw : ResponseWriter) : ResponseWriter :=
  {| rw_header := f (rw_header rw); rw_cookies := rw_cookies rw;
     rw_informational := rw_informational rw; rw_sent := rw_sent rw; rw_body := rw_body rw |}.

(** [w.Header().Set] and [Add]; the program's keys are in canonical form. *)
Definition SetHeader (k v : string) : ResponseWriter → ResponseWriter := up_header_map (<[k := [v]]>).
Definition AddHeaders (k : string) (vs : list string) : ResponseWriter → ResponseWriter :=
  up_header_map (partial_alter (λ old, Some (default [] old ++ vs)) k).

Definition SetCookie (c : Cookie) (rw : ResponseWriter) : ResponseWriter :=
  {| rw_header := rw_header rw; rw_cookies := rw_cookies rw ++ [c];
     rw_informational := rw_informational rw; rw_sent := rw_sent rw; rw_body := rw_body rw |}.

(** The statuses of informational responses; 101 ends an exchange. *)
Definition informational (status : Z) : bool :=
  bool_decide (100 <= status ∧ status <= 199 ∧ status ≠ 101).

Definition WriteHeader (status : Z) (rw : ResponseWriter) : ResponseWriter :=
  match rw_sent rw with
  | Some _ => rw
  | None =>
      let line := (status, rw_header rw, rw_cookies rw) in
      if informational status then
        {| rw_header := rw_header rw; rw_cookies := rw_cookies rw;
           rw_informational := rw_informational rw ++ [line]; rw_sent := None; rw_body := rw_body rw |}
      else
        {| rw_header := rw_header rw; rw_cookies := rw_cookies rw;
           rw_informational := rw_informational rw; rw_sent := Some line; rw_body := rw_body rw |}
  end.

Definition Write (p : string) (rw : ResponseWriter) : ResponseWriter :=
  let rw := WriteHeader 200 rw in
  {| rw_header := rw_header rw; rw_cookies := rw_cookies rw;
     rw_informational := rw_informational rw; rw_sent := rw_sent rw; rw_body := rw_body rw +:+ p |}.

Definition status_of (rw : ResponseWriter) : option Z := (λ s, s.1.1) <$> rw_sent rw.

(** [http.Redirect], less the note it puts into the body. *)
Definition Redirect (target : string) (code : Z) (rw : ResponseWriter) : ResponseWriter :=
  WriteHeader code (SetHeader "Location" target rw).

(** What a handler can panic with; [net/http] reserves [ErrAbortHandler]. *)
Inductive panic := ErrAbortHandler | OtherPanic.

Section writing.
Context `{HR : Runtime, HB : BffRuntime}.

Definition newline : string := String "010" EmptyString.

(** [json.NewEncoder(w).Encode]. *)
Definition EncodeJSON (j : json) (rw : ResponseWriter) : ResponseWriter :=
  Write (json_text j +:+ newline) rw.

(** [writeError] and [writeJSONError]. *)
Definition writeError (status : Z) (msg : string) (rw : ResponseWriter) : ResponseWriter :=
  EncodeJSON (JObj [("error", JStr msg)])
    (WriteHeader status (SetHeader "Content-Type" "application/json" rw)).

Definition done (rw : ResponseWriter) : Eff BWorld (option panic * ResponseWriter) := mret (None, rw).
End writing.

Abbreviation HandlerFunc :=
  (ResponseWriter → Request → Eff (World bff_state) (option panic * ResponseWriter)).

(** ** The claimed login states *)

Definition oidcStateClaimTTL : Z := 5 * minute.

Section claims.
Context `{HR : Runtime, HB : BffRuntime}.

Definition up_claims (claimedAt : gmap string Z) (lastCleanup : Z) (s : bff_state) : bff_state :=
  {| bs_items := bs_items s; bs_redis := bs_redis s; bs_claimedAt := claimedAt;
     bs_lastCleanup := lastCleanup; bs_sent := bs_sent s |}.

(** [cleanupLocked]: the claims that are not [ttl] old yet stay. *)
Definition cleanupLocked (ttl now : Z) (s : bff_state) : bff_state :=
  up_claims (filter (λ kv : string * Z, now - kv.2 < ttl) (bs_claimedAt s)) now s.

Definition set_claim (state : string) (now : Z) (s : bff_state) : bff_state :=
  up_claims (<[state := now]> (bs_claimedAt s)) (bs_lastCleanup s) s.

(** [stateClaims.Claim], with the [ttl] [New] gives it. *)
Definition Claim (state : string) : Eff BWorld bool :=
  let ttl := oidcStateClaimTTL in
  now ← tNow;
  last ← get_st bs_lastCleanup;
  (if decide (now - last >= ttl) then mod_st (cleanupLocked ttl now) else mret tt);;
  claimed ← get_st (λ s, bs_claimedAt s !! state);
  match claimed with
  | Some at_ => if decide (now - at_ < ttl) then mret false
                else mod_st (set_claim state now);; mret true
  | None => mod_st (set_claim state now);; mret true
  end.
End claims.

(** ** The handlers *)

(** An [oauth2.Token]; the last field is its [Extra("id_token")] as a string. *)
Record Token := {
  tk_AccessToken : string;
  tk_RefreshToken : string;
  tk_Expiry : Z;
  tk_id_token : option string
}.

(** The number an exchange gets is the number of exchanges before it. *)
Record Dependencies `{BffRuntime} `{Runtime} := {
  Sessions : Manager;
  AuthCodeURL : string → string → string;
  ExchangeCode : nat → string → string → option Token;
  VerifyIDToken : option (nat → string → option UserClaims);
  RefreshTokens : option (nat → string → option Token);
  EndSessionEndpoint : string;
  ContentSecurityPolicy : string;
  InsecureCookies : bool;
  APIPathPrefix : string;
  AuthBypassPaths : list string
}.

Definition stateCookieName : string := "oidc_state".
Definition verifierCookieName : string := "oidc_verifier".
Definition csrfCookieName : string := "csrf_token".

Definition appendIDTokenHint (baseURL idTokenHint : string) : string :=
  match url_Parse baseURL with
  | None => baseURL
  | Some u => url_String (with_query u (Encode (values_set "id_token_hint" idTokenHint (Query u))))
  end.

Definition BuildEndSessionURL (baseURL postLogoutRedirectURI idTokenHint : string) : string :=
  if decide (baseURL = EmptyString) then baseURL
  else match url_Parse baseURL with
  | None => baseURL
  | Some u =>
      let q := Query u in
      let q := if decide (postLogoutRedirectURI ≠ EmptyString)
               then values_set "post_logout_redirect_uri" postLogoutRedirectURI q else q in
      let q := if decide (idTokenHint ≠ EmptyString)
               then values_set "id_token_hint" idTokenHint q else q in
      url_String (with_query u (Encode q))
  end.

Section handlers.
Context `{HR : Runtime, HB : BffRuntime, HG : GatewayLib} (deps : Dependencies).

Definition generateVerifier : Eff BWorld string := λ w,
  (oauth2_GenerateVerifier (w_rand w),
   mkWorld (w_st w) (w_clock w) (w_uuid w) (S (w_rand w)) (w_range w) (w_net w) (w_dials w)).

(** A call of a function of [Dependencies]. *)
Definition call {A} (f : nat → A) : Eff BWorld A := λ w,
  (f (w_net w),
   mkWorld (w_st w) (w_clock w) (w_uuid w) (w_rand w) (w_range w) (S (w_net w)) (w_dials w)).

Definition log_sent (o : OutRequest) (s : bff_state) : bff_state :=
  {| bs_items := bs_items s; bs_redis := bs_redis s; bs_claimedAt := bs_claimedAt s;
     bs_lastCleanup := bs_lastCleanup s; bs_sent := o :: bs_sent s |}.

Definition clientDo (o : OutRequest)
    : Eff BWorld (list (Z * gmap string (list string)) * option UpResponse) :=
  mod_st (log_sent o);; call (λ n, http_Do n o).

(** A cookie of the handlers; a negative age deletes it. *)
Definition auth_cookie (name value : string) (httpOnly : bool) (maxAge : Z) : Cookie :=
  {| ck_name := name; ck_value := value; ck_http_only := httpOnly;
     ck_secure := negb (InsecureCookies deps); ck_max_age := maxAge |}.

Definition Login : HandlerFunc := λ rw r,
  state ← generateVerifier;
  verifier ← generateVerifier;
  let rw := SetCookie (auth_cookie stateCookieName state true 300) rw in
  let rw := SetCookie (auth_cookie verifierCookieName verifier true 300) rw in
  done (Redirect (AuthCodeURL deps state verifier) 303 rw).

(** The claims, unless they cannot be trusted, and the raw ID token. *)
Definition readClaims (tokenSet : Token) : Eff BWorld (option UserClaims * string) :=
  let raw := default EmptyString (tk_id_token tokenSet) in
  match VerifyIDToken deps with
  | Some verify => claims ← call (λ n, verify n raw); mret (claims, raw)
  | None => mret (None, EmptyString)
  end.

Definition unauthorized (rw : ResponseWriter) := done (writeError 401 "unauthorized" rw).
Definition server_error (rw : ResponseWriter) := done (writeError 500 "internal server error" rw).

(** The login state the request and its cookie agree on. *)
Definition callback_state (r : Request) : option string :=
  cookie ← cookie_get r stateCookieName;
  let query := values_get "state" (r_query r) in
  if decide (query = EmptyString) then None
  else if decide (cookie ≠ query) then None else Some cookie.

Definition callback_verifier (r : Request) : option string :=
  v ← cookie_get r verifierCookieName; if decide (v = EmptyString) then None else Some v.

Definition Callback : HandlerFunc := λ rw r,
  match callback_state r, callback_verifier r with
  | Some state, Some verifier =>
      let code := values_get "code" (r_query r) in
      if decide (code = EmptyString) then unauthorized rw else
      ok ← Claim state;
      if negb ok then unauthorized rw else
      tokenSet ← call (λ n, ExchangeCode deps n code verifier);
      match tokenSet with
      | None => unauthorized rw
      | Some tokenSet =>
          '(claims, rawIDToken) ← readClaims tokenSet;
          match claims with
          | None => unauthorized rw
          | Some _ =>
              csrf ← generateVerifier;
              created ← Create (Sessions deps)
                {| ss_AccessToken := tk_AccessToken tokenSet;
                   ss_RefreshToken := tk_RefreshToken tokenSet; ss_IDToken := rawIDToken;
                   ss_CSRFToken := csrf; ss_AccessTokenExpiry := tk_Expiry tokenSet |};
              match created with
              | None => server_error rw
              | Some c =>
                  let rw := SetCookie c rw in
                  let rw := SetCookie (auth_cookie csrfCookieName csrf false (24 * hour / second)) rw in
                  let rw := SetCookie (auth_cookie stateCookieName EmptyString true (-1)) rw in
                  let rw := SetCookie (auth_cookie verifierCookieName EmptyString true (-1)) rw in
                  done (Redirect "/" 303 rw)
              end
          end
      end
  | _, _ => unauthorized rw
  end.

Definition logout_url (current : option Session) : string :=
  if decide (EndSessionEndpoint deps = EmptyString) then "/login"
  else match current with
  | Some s => if decide (ss_IDToken s ≠ EmptyString)
              then appendIDTokenHint (EndSessionEndpoint deps) (ss_IDToken s)
              else EndSessionEndpoint deps
  | None => EndSessionEndpoint deps
  end.

Definition Logout : HandlerFunc := λ rw r,
  got ← Get (Sessions deps) r;
  let current := default None got in
  destroyed ← Destroy (Sessions deps) r;
  match destroyed with
  | None => server_error rw
  | Some c =>
      let rw := SetCookie c rw in
      let rw := SetCookie (auth_cookie csrfCookieName EmptyString false (-1)) rw in
      let rw := WriteHeader 200 (SetHeader "Content-Type" "application/json" rw) in
      done (EncodeJSON (JObj [("redirectTo", JStr (logout_url current))]) rw)
  end.

Definition claims_json (c : UserClaims) : json :=
  JObj [("sub", JStr (uc_Sub c)); ("name", JStr (uc_Name c)); ("email", JStr (uc_Email c));
        ("picture", JStr (uc_Picture c))].

Definition hide_picture (c : UserClaims) : UserClaims :=
  if decide (uc_Picture c ≠ EmptyString) then
    {| uc_Sub := uc_Sub c; uc_Name := uc_Name c; uc_Email := uc_Email c;
       uc_Picture := "/auth/avatar" |}
  else c.

Definition Me : HandlerFunc := λ rw r,
  got ← Get (Sessions deps) r;
  match got with
  | None => server_error rw
  | Some None => unauthorized rw
  | Some (Some current) =>
      match ParseIDTokenClaims (ss_IDToken current) with
      | None => server_error rw
      | Some claims =>
          let rw := WriteHeader 200 (SetHeader "Content-Type" "application/json" rw) in
          done (EncodeJSON (claims_json (hide_picture claims)) rw)
      end
  end.

(** The picture's URL as [http.NewRequest] reads it, if it may be fetched. *)
Definition picture_url (picture : string) : option URL :=
  u ← url_Parse picture;
  if bool_decide (u_scheme u = EmptyString) || bool_decide (u_host u = EmptyString) ||
     (bool_decide (u_scheme u ≠ "http") && bool_decide (u_scheme u ≠ "https"))
  then None else url_Parse (url_String u).

Definition first_header (h : gmap string (list string)) (k : string) : string :=
  default EmptyString (h !! k ≫= head).

(** Copies a header field of the peer's answer, unless it is empty. *)
Definition pass_header (h : gmap string (list string)) (k : string) (rw : ResponseWriter) :=
  let v := first_header h k in
  if decide (v ≠ EmptyString) then SetHeader k v rw else rw.

Definition Avatar : HandlerFunc := λ rw r,
  let bad_gateway := done (writeError 502 "bad gateway" rw) in
  got ← Get (Sessions deps) r;
  match got with
  | None => server_error rw
  | Some None => unauthorized rw
  | Some (Some current) =>
      let not_found := done (writeError 404 "not found" rw) in
      match ParseIDTokenClaims (ss_IDToken current) with
      | None => not_found
      | Some claims =>
          if decide (uc_Picture claims = EmptyString) then not_found else
          match picture_url (uc_Picture claims) with
          | None => bad_gateway
          | Some u =>
              let header := if decide (ss_AccessToken current ≠ EmptyString)
                            then {[ "Authorization" := ["Bearer " +:+ ss_AccessToken current] ]}
                            else ∅ in
              exchange ← clientDo {| or_method := "GET"; or_url := u; or_host := u_host u;
                                     or_header := header; or_body := "" |};
              match exchange.2 with
              | None => bad_gateway
              | Some resp =>
                  if decide (up_status resp ≠ 200) then bad_gateway else
                  let rw := pass_header (up_header resp) "Content-Type" rw in
                  let rw := pass_header (up_header resp) "Cache-Control" rw in
                  done (Write (up_body resp) (WriteHeader 200 rw))
              end
          end
      end
  end.
End handlers.

(** ** Login states are claimed once *)

Section claim_facts.
Context `{HR : Runtime, HB : BffRuntime, HT : !RuntimeLaws}.
Implicit Types (w : BWorld).

Definition now_of w : Z := time_now (w_clock w).

(** A claim of [state] made at [t] still stands, or is [ttl] old. *)
Definition covered (state : string) (t : Z) w : Prop :=
  (∃ t', bs_claimedAt (w_st w) !! state = Some t' ∧ t <= t') ∨ t + oidcStateClaimTTL <= now_of w.

Definition claims_step w w' : Prop :=
  (w_clock w ≤ w_clock w')%nat ∧ ∀ state t, covered state t w → covered state t w'.

#[export] Instance claims_step_preorder : PreOrder claims_step.
Proof.
  split; [by split|]. intros a b c [C1 K1] [C2 K2]. split; [lia|auto].
Qed.

Lemma now_of_mono w w' : (w_clock w ≤ w_clock w')%nat → now_of w <= now_of w'.
Proof using HT. apply time_monotone. Qed.

Lemma claims_step_same w w' :
  bs_claimedAt (w_st w') = bs_claimedAt (w_st w) → (w_clock w ≤ w_clock w')%nat → claims_step w w'.
Proof using HT.
  intros E C. split; [done|]. intros state t [(t' & Ht & Hle)|Hold].
  - left. exists t'. by rewrite E.
  - right. pose proof (now_of_mono _ _ C). lia.
Qed.

Lemma claims_step_store w w' : store_step w w' → claims_step w w'.
Proof using HT. intros (E & _ & _ & C). by apply claims_step_same. Qed.

(** What is claimed of [state] after the cleanup [Claim] may begin with. *)
Definition still_claimed (state : string) w : option Z :=
  let now := now_of w in
  let old := bs_claimedAt (w_st w) in
  (if decide (now - bs_lastCleanup (w_st w) >= oidcStateClaimTTL)
   then filter (λ kv : string * Z, now - kv.2 < oidcStateClaimTTL) old else old) !! state.

Lemma still_claimed_old state w t :
  still_claimed state w = Some t → bs_claimedAt (w_st w) !! state = Some t.
Proof using Type.
  unfold still_claimed. cbv zeta. destruct (decide _); [|done]. by intros [? _]%map_lookup_filter_Some.
Qed.

Lemma still_claimed_young state w t :
  bs_claimedAt (w_st w) !! state = Some t → now_of w - t < oidcStateClaimTTL →
  still_claimed state w = Some t.
Proof using Type.
  intros Ht Hy. unfold still_claimed. cbv zeta. destruct (decide _); [|done].
  by apply map_lookup_filter_Some.
Qed.

(** [Claim] succeeds exactly when the state was not claimed in the last [ttl],
    and then records the claim. *)
Lemma wp_Claim state w :
  wp (Claim state) (λ ok w',
    w_clock w' = S (w_clock w) ∧ bs_sent (w_st w') = bs_sent (w_st w) ∧
    bs_items (w_st w') = bs_items (w_st w) ∧ bs_redis (w_st w') = bs_redis (w_st w) ∧
    (ok = true ↔ ∀ t, bs_claimedAt (w_st w) !! state = Some t → now_of w - t >= oidcStateClaimTTL) ∧
    ∀ s, bs_claimedAt (w_st w') !! s =
         if decide (ok = true ∧ s = state) then Some (now_of w) else still_claimed s w) w.
Proof using Type.
  unfold Claim. cbv zeta. apply wp_bind. unfold wp at 1. simpl. apply wp_bind, wp_get_st. simpl.
  apply wp_bind. fold (now_of w).
  assert (∀ t, still_claimed state w = Some t → now_of w - t < oidcStateClaimTTL →
    ¬ ∀ t, bs_claimedAt (w_st w) !! state = Some t → now_of w - t >= oidcStateClaimTTL) as Hno.
  { intros t Ht%still_claimed_old Hy Hall. specialize (Hall t Ht). lia. }
  assert ((∀ t, still_claimed state w = Some t → ¬ now_of w - t < oidcStateClaimTTL) →
    ∀ t, bs_claimedAt (w_st w) !! state = Some t → now_of w - t >= oidcStateClaimTTL) as Hyes.
  { intros Hall t Ht. destruct (decide (now_of w - t < oidcStateClaimTTL)) as [Hy|]; [|lia].
    by destruct (Hall t (still_claimed_young _ _ _ Ht Hy)). }
  pose (w1 := mkWorld (if decide (now_of w - bs_lastCleanup (w_st w) >= oidcStateClaimTTL)
                 then cleanupLocked oidcStateClaimTTL (now_of w) (w_st w) else w_st w)
               (S (w_clock w)) (w_uuid w) (w_rand w) (w_range w) (w_net w) (w_dials w)).
  assert (∀ s, bs_claimedAt (w_st w1) !! s = still_claimed s w) as Hw1.
  { intros s. unfold w1, still_claimed. cbv zeta. simpl. by destruct (decide _). }
  assert (bs_sent (w_st w1) = bs_sent (w_st w) ∧ bs_items (w_st w1) = bs_items (w_st w) ∧
          bs_redis (w_st w1) = bs_redis (w_st w)) as Hsame.
  { unfold w1. simpl. by destruct (decide _). }
  match goal with |- wp ?m _ _ => assert (m (mkWorld (w_st w) (S (w_clock w)) (w_uuid w)
    (w_rand w) (w_range w) (w_net w) (w_dials w)) = (tt, w1)) as Hrun end.
  { unfold w1. by destruct (decide _). }
  unfold wp at 1. rewrite Hrun. simpl fst. simpl snd. clear Hrun.
  assert (w_clock w1 = S (w_clock w)) as Hc by done. clearbody w1. destruct Hsame as (Hs1 & Hs2 & Hs3).
  apply wp_bind, wp_get_st. rewrite Hw1.
  destruct (still_claimed state w) as [t|] eqn:Ht; [destruct (decide (now_of w - t < _)) as [Hy|Hy]|].
  - apply wp_ret. split_and!; [done..| |].
    + split; [done|]. intros Hall. by destruct (Hno t eq_refl Hy).
    + intros s. rewrite decide_False by naive_solver. apply Hw1.
  - apply wp_bind, wp_mod_st, wp_ret. split_and!; [done..| |].
    + split; [|done]. intros _. apply Hyes. by intros ? [= <-].
    + intros s. simpl. destruct (decide _) as [[_ ->]|Hs]; [apply lookup_insert_eq|].
      rewrite lookup_insert_ne by naive_solver. apply Hw1.
  - apply wp_bind, wp_mod_st, wp_ret. split_and!; [done..| |].
    + split; [|done]. intros _. by apply Hyes.
    + intros s. simpl. destruct (decide _) as [[_ ->]|Hs]; [apply lookup_insert_eq|].
      rewrite lookup_insert_ne by naive_solver. apply Hw1.
Qed.

Lemma steps_Claim state : steps claims_step (Claim state).
Proof using HT.
  intros w. destruct (wp_Claim state w) as (C & _ & _ & _ & Hok & Hnew).
  pose proof (now_of_mono w (Claim state w).2 ltac:(lia)) as Hmono.
  assert (0 < oidcStateClaimTTL) by done.
  split; [lia|]. intros s t [(t' & Ht & Hle)|Hold]; [|right; lia].
  destruct (decide (now_of w - t' < oidcStateClaimTTL)) as [Hy|]; [|right; lia].
  left. rewrite Hnew. destruct (decide _) as [[Htrue ->]|].
  - apply (proj1 Hok) with (t := t') in Htrue; [lia|done].
  - exists t'. split; [by apply still_claimed_young|done].
Qed.

(** After a successful claim of a state, steps that respect claims, and a second
    successful claim of it, [ttl] has passed. *)
Lemma claimed_twice state w w' :
  (Claim state w).1 = true → claims_step (Claim state w).2 w' → (Claim state w').1 = true →
  now_of w + oidcStateClaimTTL <= now_of w'.
Proof using HT.
  intros H1 [_ Hk] H2. destruct (wp_Claim state w) as (_ & _ & _ & _ & _ & Hnew).
  destruct (Hk state (now_of w)) as [(t' & Ht & Hle)|]; [|clear Hk|done].
  - left. exists (now_of w). rewrite Hnew, decide_True by done. split; [done|lia].
  - destruct (wp_Claim state w') as (_ & _ & _ & _ & [Hok _] & _).
    specialize (Hok H2 t' Ht). lia.
Qed.
End claim_facts.

(** ** What the handlers guarantee *)

Section handler_facts.
Context `{HR : Runtime, HB : BffRuntime, HG : GatewayLib} (deps : Dependencies)
  `{HS : !StoreSpec (m_store (Sessions deps))}.
Implicit Types (w : BWorld).

(** The session a completed login opens. *)
Definition new_session (tok : Token) (csrf : string) : Session :=
  {| ss_AccessToken := tk_AccessToken tok; ss_RefreshToken := tk_RefreshToken tok;
     ss_IDToken := default EmptyString (tk_id_token tok); ss_CSRFToken := csrf;
     ss_AccessTokenExpiry := tk_Expiry tok |}.

(** The tokens [tok] come from exchanging the request's code with the
    request's verifier, and their ID token was verified. *)
Definition exchanged (r : Request) (tok : Token) : Prop :=
  ∃ verifier n n' verify claims,
    cookie_get r verifierCookieName = Some verifier ∧ verifier ≠ EmptyString ∧
    values_get "code" (r_query r) ≠ EmptyString ∧
    ExchangeCode deps n (values_get "code" (r_query r)) verifier = Some tok ∧
    VerifyIDToken deps = Some verify ∧
    verify n' (default EmptyString (tk_id_token tok)) = Some claims.

Lemma callback_state_spec r state :
  callback_state r = Some state ↔
  cookie_get r stateCookieName = Some state ∧ values_get "state" (r_query r) = state ∧
  state ≠ EmptyString.
Proof using Type.
  unfold callback_state. destruct (cookie_get r stateCookieName) as [c|]; cbn [mbind option_bind]; [|naive_solver].
  cbv zeta. destruct (decide (values_get "state" (r_query r) = EmptyString)) as [E|E].
  { split; [done|]. intros ([= ->] & <- & Hne). done. }
  destruct (decide (c ≠ values_get "state" (r_query r))) as [E'|E'].
  { split; [done|]. intros ([= ->] & <- & _). done. }
  apply dec_stable in E'. subst c. naive_solver.
Qed.

Lemma callback_verifier_spec r v :
  callback_verifier r = Some v ↔ cookie_get r verifierCookieName = Some v ∧ v ≠ EmptyString.
Proof using Type.
  unfold callback_verifier. destruct (cookie_get r verifierCookieName) as [c|]; cbn [mbind option_bind]; [|naive_solver].
  destruct (decide _); naive_solver.
Qed.

Definition refused (codes : list Z) (out : option panic * ResponseWriter) : Prop :=
  out.1 = None ∧ rw_cookies out.2 = [] ∧ ∃ code, status_of out.2 = Some code ∧ code ∈ codes.

Lemma refuse code codes msg Q w :
  code ∈ codes ∧ informational code = false →
  (∀ out, refused codes out → Q out w) → wp (done (writeError code msg new_writer)) Q w.
Proof using Type.
  intros [Hc Hi] HQ. apply wp_ret, HQ. unfold refused, writeError, EncodeJSON, Write, WriteHeader.
  simpl. rewrite Hi. simpl. split_and!; [done..|]. by exists code.
Qed.

Definition logged_in (r : Request) w w' (out : option panic * ResponseWriter) : Prop :=
  ∃ state tok csrf token,
    cookie_get r stateCookieName = Some state ∧ state ≠ EmptyString ∧
    values_get "state" (r_query r) = state ∧
    (∀ t, bs_claimedAt (w_st w) !! state = Some t → now_of w - t >= oidcStateClaimTTL) ∧
    exchanged r tok ∧ out.1 = None ∧ status_of out.2 = Some 303 ∧
    rw_cookies out.2 = [ set_cookie (Sessions deps) token (sessionTTL / second);
                         auth_cookie deps csrfCookieName csrf false (24 * hour / second);
                         auth_cookie deps stateCookieName EmptyString true (-1);
                         auth_cookie deps verifierCookieName EmptyString true (-1) ] ∧
    (st_storable (new_session tok csrf) → st_holds (w_st w') token (new_session tok csrf)).

(** The last steps of a callback: open the session, set the cookies. *)
Lemma wp_open_session r state tok w0 w (Q : option panic * ResponseWriter → BWorld → Prop) raw :
  callback_state r = Some state →
  (∀ t, bs_claimedAt (w_st w0) !! state = Some t → now_of w0 - t >= oidcStateClaimTTL) →
  exchanged r tok → raw = default EmptyString (tk_id_token tok) →
  (∀ out w', refused [401; 500] out ∧ fewer st_holds (w_st w') (w_st w) ∨ logged_in r w0 w' out → Q out w') →
  wp (csrf ← generateVerifier;
      created ← Create (Sessions deps)
        {| ss_AccessToken := tk_AccessToken tok; ss_RefreshToken := tk_RefreshToken tok;
           ss_IDToken := raw; ss_CSRFToken := csrf; ss_AccessTokenExpiry := tk_Expiry tok |};
      match created with
      | None => server_error new_writer
      | Some c =>
          let rw := SetCookie c new_writer in
          let rw := SetCookie (auth_cookie deps csrfCookieName csrf false (24 * hour / second)) rw in
          let rw := SetCookie (auth_cookie deps stateCookieName EmptyString true (-1)) rw in
          let rw := SetCookie (auth_cookie deps verifierCookieName EmptyString true (-1)) rw in
          done (Redirect "/" 303 rw)
      end) Q w.
Proof using HS.
  intros (Hck & Hqu & Hne)%callback_state_spec Hold Hex -> HQ. apply wp_bind. unfold wp at 1. simpl fst. simpl snd.
  set (csrf := oauth2_GenerateVerifier _). apply wp_bind. unfold Create. apply wp_bind.
  eapply wp_mono; [apply st_Save|]. intros [token|] w' Hw'; apply wp_ret; simpl.
  - apply wp_ret, HQ. right. exists state, tok, csrf, token. split_and!; try done. apply Hw'.
  - apply refuse with [401; 500]; [split; [set_solver|done]|]. intros out Hout. apply HQ. by left.
Qed.


(** The address to go to after a logout, given the session [Get] answered with:
    "/login" without an end-session address; with one, that address with the
    session's ID token as the query's [id_token_hint], every other parameter as
    it was - or the address as it is, when there is no session, no ID token, or
    the address does not parse. *)
Definition logout_target (got : option (option Session)) (target : string) : Prop :=
  let endpoint := EndSessionEndpoint deps in
  if decide (endpoint = EmptyString) then target = "/login"
  else match got, url_Parse endpoint with
  | Some (Some s), Some u =>
      if decide (ss_IDToken s = EmptyString) then target = endpoint
      else ∃ q, target = url_String (with_query u q) ∧
        ∀ k, parseQuery q !! k = if decide (k = "id_token_hint") then Some [ss_IDToken s]
                                 else parseQuery (u_rawquery u) !! k
  | _, _ => target = endpoint
  end.

Lemma logout_url_target got : logout_target got (logout_url deps (default None got)).
Proof using Type.
  unfold logout_target, logout_url. cbv zeta. destruct (decide _) as [|He]; [done|].
  destruct got as [[s|]|]; simpl; [|done..]. unfold appendIDTokenHint.
  destruct (url_Parse (EndSessionEndpoint deps)) as [u|]; [|by destruct (decide _)].
  destruct (decide (ss_IDToken s = EmptyString)) as [Hs|Hs];
    [by rewrite decide_False by (intros Hn; by apply Hn)|].
  rewrite decide_True by done. eexists. split; [done|]. intros k.
  rewrite parse_Encode by apply values_ok_set, values_ok_parse. unfold values_set.
  destruct (decide (k = "id_token_hint")) as [->|Hk]; [apply lookup_insert_eq|].
  by rewrite lookup_insert_ne.
Qed.

(** C29: A logout ends the session.  Over a store that can revoke, and for a
    cookie value without surrounding white space, [Logout] either answers 500
    with no cookie set, or answers 200 with the session cookie and the CSRF
    cookie deleted; then the request's token stands for no session any more,
    and the body names the address to go to: the provider's end-session address
    with, when loading the request's session gave one with an ID token, that ID
    token as the query's [id_token_hint] and the rest of the query as it was;
    or "/login" where the provider has no such address. *)
Theorem Logout_ends_session `{!RevocableStore (m_store (Sessions deps))} r w :
  (∀ v, cookie_get r (m_cookieName (Sessions deps)) = Some v → trim_space v = v) →
  wp (Logout deps new_writer r) (λ out w',
    refused [500] out ∨
    ∃ target, out.1 = None ∧ status_of out.2 = Some 200 ∧
      rw_cookies out.2 = [ set_cookie (Sessions deps) EmptyString (-1);
                           auth_cookie deps csrfCookieName EmptyString false (-1) ] ∧
      (∀ s, (Get (Sessions deps) r w).1 = Some (Some s) →
         request_session (Sessions deps) (w_st w) r s) ∧
      logout_target (Get (Sessions deps) r w).1 target ∧
      rw_body out.2 = json_text (JObj [("redirectTo", JStr target)]) +:+ newline ∧
      ∀ s, ¬ request_session (Sessions deps) (w_st w') r s) w.
Proof using HS.
  intros Htrim. unfold Logout. apply wp_bind.
  destruct (wp_Get (Sessions deps) r w) as [Hgot _]. unfold wp at 1.
  destruct (Get (Sessions deps) r w) as [got w1]. simpl fst in *. simpl snd. cbv zeta. apply wp_bind.
  eapply wp_mono; [apply wp_and; [by apply wp_Destroy|apply (wp_Destroy_cookie _ r)]|].
  intros [c|] w2 [Hgone Hc].
  - apply wp_ret. right. exists (logout_url deps (default None got)).
    destruct (Hgone c eq_refl) as (_ & _ & _ & Hno).
    split_and!; [done..| |exact Hgot|apply logout_url_target| |exact Hno].
    + simpl. by rewrite (Hc c eq_refl).
    + simpl. by rewrite sapp_nil_l.
  - apply refuse with [500]; [split; [set_solver|done]|]. auto.
Qed.

(** A request for the picture of the session [s]: a GET, over http or https, of
    the address the session's ID token names, with no body and no header but the
    session's access token as its bearer. *)
Definition picture_request (s : Session) (o : OutRequest) : Prop :=
  ∃ claims u,
    ParseIDTokenClaims (ss_IDToken s) = Some claims ∧
    url_Parse (uc_Picture claims) = Some u ∧
    (u_scheme u = "http" ∨ u_scheme u = "https") ∧ u_host u ≠ EmptyString ∧
    url_Parse (url_String u) = Some (or_url o) ∧ or_method o = "GET" ∧ or_body o = EmptyString ∧
    or_header o = (if decide (ss_AccessToken s = EmptyString) then ∅
                   else {[ "Authorization" := ["Bearer " +:+ ss_AccessToken s] ]}).

Lemma wp_Avatar rw r w :
  wp (Avatar deps rw r) (λ _ w',
    bs_sent (w_st w') = bs_sent (w_st w) ∨
    ∃ s o, request_session (Sessions deps) (w_st w) r s ∧ picture_request s o ∧
      bs_sent (w_st w') = o :: bs_sent (w_st w)) w.
Proof using HS.
  unfold Avatar. cbv zeta. apply wp_bind.
  eapply wp_mono; [exact (wp_steps_and _ _ _ _ (steps_Get (Sessions deps) r) (wp_Get (Sessions deps) r w))|].
  intros got w1 [[Hgot _] (_ & _ & Hsent & _)].
  destruct got as [[s|]|]; [|by left..].
  destruct (ParseIDTokenClaims (ss_IDToken s)) as [claims|] eqn:Hcl; [|by left].
  destruct (decide _); [by left|].
  destruct (picture_url (uc_Picture claims)) as [u'|] eqn:Hpic; [|by left].
  unfold picture_url in Hpic. destruct (url_Parse (uc_Picture claims)) as [u|] eqn:Hu; [|done].
  cbn [mbind option_bind] in Hpic. case_match eqn:Hok; [done|].
  apply orb_false_iff in Hok as [[_ Hhost]%orb_false_iff Hscheme].
  apply bool_decide_eq_false in Hhost.
  assert (u_scheme u = "http" ∨ u_scheme u = "https") as Hs.
  { apply andb_false_iff in Hscheme as [E|E]; apply bool_decide_eq_false, dec_stable in E; auto. }
  clear Hscheme. match goal with |- wp (clientDo ?x ≫= _) _ _ => set (o := x) end.
  unfold clientDo. apply wp_bind, wp_bind, wp_mod_st. unfold wp at 1. simpl fst. simpl snd.
  match goal with |- wp ?m ?Q ?w2 => assert ((m w2).2 = w2) as Hrun end.
  { destruct (http_Do _ _) as [pre [resp|]]; [|reflexivity]. simpl snd.
    destruct (decide (up_status resp ≠ 200)); reflexivity. }
  right. rewrite Hrun. exists s, o. split; [by apply Hgot|]. split; [|simpl; by rewrite Hsent].
  exists claims, u. split_and!; try done. unfold o. simpl. destruct (decide (ss_AccessToken s = "")) as [->|Hne]; [done|].
  by rewrite decide_True.
Qed.
(** What every handler's moves are made of. *)
Class GatewayFrame (R : BWorld → BWorld → Prop) := {
  gf_preorder :: PreOrder R;
  gf_store w w' : store_step w w' → R w w';
  gf_claim state : steps R (Claim state)
}.

Section frame.
Context (R : BWorld → BWorld → Prop) `{HF : !GatewayFrame R}.
Set Default Proof Using "HS HF".

Lemma steps_store {A} (m : Eff BWorld A) : steps store_step m → steps R m.
Proof. intros Hm. eapply steps_mono; [exact Hm|apply gf_store]. Qed.

Lemma steps_call {A} (f : nat → A) : steps R (call f).
Proof. apply steps_store. intros w. by split_and!. Qed.
Lemma steps_generateVerifier : steps R generateVerifier.
Proof. apply steps_store. intros w. by split_and!. Qed.
Lemma steps_Sessions_Get r : steps R (Get (Sessions deps) r).
Proof. apply steps_store, (steps_Get (Sessions deps)). Qed.
Lemma steps_Sessions_Create s : steps R (Create (Sessions deps) s).
Proof. apply steps_store, (steps_Create (Sessions deps)). Qed.
Lemma steps_Sessions_Destroy r : steps R (Destroy (Sessions deps) r).
Proof. apply steps_store, (steps_Destroy (Sessions deps)). Qed.

Context (Hsent : ∀ o, steps R (mod_st (log_sent o))).

Lemma steps_clientDo o : steps R (clientDo o).
Proof using HS HF Hsent. unfold clientDo. apply steps_bind; [apply _|apply Hsent|intros; apply steps_call]. Qed.

(** One step of the structural proof that a handler moves along a frame. *)
Ltac gateway_step :=
  cbv zeta;
  lazymatch goal with
  | |- steps _ (_ ≫= _) => apply steps_bind; [apply _| |intros ?]
  | |- steps _ (mret _) => apply steps_ret; apply _
  | |- steps _ (done _) => apply steps_ret; apply _
  | |- steps _ (match _ with _ => _ end) => case_match
  | |- steps _ (call _) => apply steps_call
  | |- steps _ generateVerifier => apply steps_generateVerifier
  | |- steps _ (Get (Sessions _) _) => apply steps_Sessions_Get
  | |- steps _ (Create (Sessions _) _) => apply steps_Sessions_Create
  | |- steps _ (Destroy (Sessions _) _) => apply steps_Sessions_Destroy
  | |- steps _ (clientDo _) => apply steps_clientDo
  | |- steps _ (Claim _) => apply gf_claim
  end.
Ltac gateway_steps := repeat gateway_step.

Lemma steps_Login rw r : steps R (Login deps rw r).
Proof. unfold Login. gateway_steps. Qed.
Lemma steps_Callback rw r : steps R (Callback deps rw r).
Proof. unfold Callback, readClaims, unauthorized, server_error. gateway_steps. Qed.
Lemma steps_Logout rw r : steps R (Logout deps rw r).
Proof. unfold Logout, server_error. gateway_steps. Qed.
Lemma steps_Me rw r : steps R (Me deps rw r).
Proof. unfold Me, server_error, unauthorized. gateway_steps. Qed.

Lemma steps_Avatar rw r : steps R (Avatar deps rw r).
Proof using HS HF Hsent. unfold Avatar, server_error, unauthorized. gateway_steps. Qed.
End frame.
End handler_facts.
