(* ===== verification/BffMiddleware.v ===== *)
(** * The gateway's middleware stack

    [handler/middleware.go] and [middleware/recovery.go], [middleware/logging.go]:
    each middleware takes the handler it wraps and is one.  Then what the stack
    lets through. *)

From S2P Require Import Prelude GoStrings GoNet GoURL GoBase64 Runtime RuntimeExample GoJson.
From S2P Require Import BffSession BffManager BffHandler.
From Stdlib Require Import Ascii.
From stdpp Require Import options.
Local Open Scope Z_scope.

(** [r.Clone] with a header field set. *)
Definition with_header (k v : string) (r : Request) : Request :=
  {| r_method := r_method r; r_path := r_path r; r_rawpath := r_rawpath r;
     r_rawquery := r_rawquery r; r_host := r_host r; r_remote := r_remote r; r_form := r_form r;
     r_header := <[k := [v]]> (r_header r); r_cookies := r_cookies r; r_body := r_body r |}.

(** The path is the prefix, or below it. *)
Definition under_prefix (prefix path : string) : bool :=
  has_prefix (prefix +:+ "/") path || bool_decide (path = prefix).

(** The request brings a bearer token of its own. *)
Definition has_bearer (r : Request) : bool :=
  has_prefix "Bearer " (trim_space (header_get r "Authorization")).

Definition tokenRefreshThreshold : Z := 60 * second.

Section middleware.
Context `{HR : Runtime, HB : BffRuntime, HG : GatewayLib} (deps : Dependencies).

Definition is_api (r : Request) : bool := under_prefix (APIPathPrefix deps) (r_path r).
Definition is_bypass (r : Request) : bool :=
  existsb (λ prefix, has_prefix prefix (r_path r)) (AuthBypassPaths deps).

Definition SecurityHeaders (next : HandlerFunc) : HandlerFunc := λ rw r,
  let csp := trim_space (ContentSecurityPolicy deps) in
  let rw := SetHeader "Strict-Transport-Security" "max-age=63072000; includeSubDomains" rw in
  let rw := SetHeader "X-Content-Type-Options" "nosniff" rw in
  let rw := SetHeader "X-Frame-Options" "DENY" rw in
  let rw := SetHeader "Content-Security-Policy" csp rw in
  let rw := SetHeader "Referrer-Policy" "strict-origin-when-cross-origin" rw in
  next rw r.

Definition AuthGuard (next : HandlerFunc) : HandlerFunc := λ rw r,
  if is_api r then next rw r
  else if is_bypass r then next rw r
  else
    got ← Get (Sessions deps) r;
    match got with
    | None => server_error rw
    | Some None => done (Redirect "/login" 303 rw)
    | Some (Some _) => next rw r
    end.

(** The session with the tokens refreshed, and the writer with its cookie. *)
Definition refreshed_session (current : Session) (newToken : Token) : Session :=
  {| ss_AccessToken := tk_AccessToken newToken;
     ss_RefreshToken := if decide (tk_RefreshToken newToken ≠ EmptyString)
                        then tk_RefreshToken newToken else ss_RefreshToken current;
     ss_IDToken := match tk_id_token newToken with
                   | Some rawID => if decide (rawID ≠ EmptyString) then rawID else ss_IDToken current
                   | None => ss_IDToken current
                   end;
     ss_CSRFToken := ss_CSRFToken current;
     ss_AccessTokenExpiry := tk_Expiry newToken |}.

Definition refreshAccessToken (refresh : nat → string → option Token) (rw : ResponseWriter)
    (r : Request) (current : Session) : Eff BWorld (option (Session * ResponseWriter)) :=
  newToken ← call (λ n, refresh n (ss_RefreshToken current));
  match newToken with
  | None => mret None
  | Some newToken =>
      let updated := refreshed_session current newToken in
      rotated ← Rotate (Sessions deps) r updated;
      mret (match rotated with
            | None => None
            | Some c => Some (updated, SetCookie c rw)
            end)
  end.

Definition TokenForwarder (next : HandlerFunc) : HandlerFunc := λ rw r,
  let forward rw (s : Session) := next rw (with_header "Authorization" ("Bearer " +:+ ss_AccessToken s) r) in
  if negb (is_api r) then next rw r
  else if has_bearer r then next rw r
  else
    got ← Get (Sessions deps) r;
    match got with
    | None => server_error rw
    | Some None => unauthorized rw
    | Some (Some current) =>
        if decide (trim_space (ss_AccessToken current) = EmptyString) then unauthorized rw else
        match RefreshTokens deps with
        | None => forward rw current
        | Some refresh =>
            if decide (ss_RefreshToken current = EmptyString) then forward rw current
            else if decide (ss_AccessTokenExpiry current = zero_time) then forward rw current
            else
              t1 ← tNow;
              t2 ← tNow;
              let tokenExpired := bool_decide (t1 > ss_AccessTokenExpiry current) in
              let tokenNearExpiry := bool_decide (t2 + tokenRefreshThreshold > ss_AccessTokenExpiry current) in
              if tokenExpired || tokenNearExpiry then
                refreshed ← refreshAccessToken refresh rw r current;
                match refreshed with
                | Some (s, rw) => forward rw s
                | None =>
                    if tokenExpired then
                      destroyed ← Destroy (Sessions deps) r;
                      let rw := match destroyed with Some c => SetCookie c rw | None => rw end in
                      done (writeError 401 "session expired" rw)
                    else forward rw current
                end
              else forward rw current
        end
    end.

Definition is_safe_method (r : Request) : bool :=
  bool_decide (r_method r ∈ ["GET"; "HEAD"; "OPTIONS"]).

(** The requests whose CSRF token is checked. *)
Definition csrf_checked (r : Request) : bool :=
  negb (is_safe_method r) && (is_api r || has_prefix "/auth/logout" (r_path r)).

Definition CSRFMiddleware (next : HandlerFunc) : HandlerFunc := λ rw r,
  if is_safe_method r then next rw r
  else if negb (is_api r) && negb (has_prefix "/auth/logout" (r_path r)) then next rw r
  else
    got ← Get (Sessions deps) r;
    match got with
    | None => server_error rw
    | Some None => unauthorized rw
    | Some (Some current) =>
        let headerToken := trim_space (header_get r "X-Csrf-Token") in
        if bool_decide (headerToken = EmptyString) || bool_decide (headerToken ≠ ss_CSRFToken current)
        then done (writeError 403 "forbidden" rw)
        else next rw r
    end.
End middleware.

Section outer.
Context `{HR : Runtime, HB : BffRuntime}.

(** [middleware.writeJSONError]: the text written out. *)
Definition json_error_text (msg : string) : string :=
  let q := String quote_char EmptyString in
  "{" +:+ q +:+ "error" +:+ q +:+ ":" +:+ q +:+ msg +:+ q +:+ "}".

Definition Recovery (next : HandlerFunc) : HandlerFunc := λ rw r,
  '(p, rw) ← next rw r;
  match p with
  | Some OtherPanic =>
      done (Write (json_error_text "internal server error")
              (WriteHeader 500 (SetHeader "Content-Type" "application/json" rw)))
  | _ => mret (p, rw)
  end.

(** The log's two readings of the clock; its writer passes everything on. *)
Definition RequestLogger (next : HandlerFunc) : HandlerFunc := λ rw r,
  tNow;;
  '(p, rw) ← next rw r;
  match p with
  | None => tNow;; done rw
  | Some _ => mret (p, rw)
  end.

Context {HG : GatewayLib}.

Definition BuildMiddlewareStack (auth : option Dependencies)
    (recovery : option (HandlerFunc → HandlerFunc)) (next : HandlerFunc) : HandlerFunc :=
  let h := match recovery with Some f => f next | None => next end in
  match auth with
  | Some deps =>
      SecurityHeaders deps (AuthGuard deps (CSRFMiddleware deps (TokenForwarder deps h)))
  | None => h
  end.
End outer.

(** The baseline headers, and a set of fields that begin with them. *)
Definition baseline `{HR : Runtime, HB : BffRuntime} (deps : Dependencies) : list (string * string) :=
  [ ("Strict-Transport-Security", "max-age=63072000; includeSubDomains");
    ("X-Content-Type-Options", "nosniff"); ("X-Frame-Options", "DENY");
    ("Content-Security-Policy", trim_space (ContentSecurityPolicy deps));
    ("Referrer-Policy", "strict-origin-when-cross-origin") ].

Definition carries (base : list (string * string)) (h : gmap string (list string)) : Prop :=
  Forall (λ kv, ∃ more, h !! kv.1 = Some (kv.2 :: more)) base.

(** The first response that leaves carries the baseline: the first informational
    response, or, when there is none, the response; while nothing has left, the
    fields to send do. *)
Definition secured (base : list (string * string)) (rw : ResponseWriter) : Prop :=
  match rw_informational rw, rw_sent rw with
  | (_, h, _) :: _, _ => carries base h
  | [], Some (_, h, _) => carries base h
  | [], None => carries base (rw_header rw)
  end.

(** ** What the stack lets through *)

Section guards.
Context `{HR : Runtime, HB : BffRuntime, HG : GatewayLib} (deps : Dependencies)
  `{HS : !StoreSpec (m_store (Sessions deps))}.
Implicit Types (w : BWorld) (next : HandlerFunc) (Q : option panic * ResponseWriter → BWorld → Prop).
Abbreviation session_of w := (request_session (Sessions deps) (w_st w)).

(** The request may pass [AuthGuard]. *)
Definition guard_passed (r : Request) w : Prop :=
  is_api deps r = true ∨ is_bypass deps r = true ∨ ∃ s, session_of w r s.

(** It brought its session's CSRF token, where one is needed. *)
Definition csrf_passed (r : Request) w : Prop :=
  csrf_checked deps r = true →
  ∃ s, session_of w r s ∧ trim_space (header_get r "X-Csrf-Token") = ss_CSRFToken s ∧
       ss_CSRFToken s ≠ EmptyString.

(** An access token of the session: its own, or one it was refreshed to. *)
Definition token_of (s : Session) (tok : string) : Prop :=
  trim_space (ss_AccessToken s) ≠ EmptyString ∧
  (tok = ss_AccessToken s ∨
   ∃ refresh n t, RefreshTokens deps = Some refresh ∧ ss_RefreshToken s ≠ EmptyString ∧
     refresh n (ss_RefreshToken s) = Some t ∧ tok = tk_AccessToken t).

(** [r'] is what [TokenForwarder] makes of [r]: an API request leaves with the
    bearer token it brought or with one of its session. *)
Definition forwarded (r r' : Request) w : Prop :=
  if is_api deps r && negb (has_bearer r) then
    ∃ s tok, session_of w r s ∧ token_of s tok ∧ r' = with_header "Authorization" ("Bearer " +:+ tok) r
  else r' = r.

(** A session [r]'s cookie stands for: as [r] came in at [w], or, for an API
    request whose session had its tokens refreshed, after the rotation. *)
Definition standing (r : Request) w (s : Session) : Prop :=
  session_of w r s ∨
  is_api deps r = true ∧ has_bearer r = false ∧
  ∃ s0 refresh n t w1, session_of w r s0 ∧ RefreshTokens deps = Some refresh ∧
    refresh n (ss_RefreshToken s0) = Some t ∧ fewer st_holds (w_st w1) (w_st w) ∧
    session_of (Rotate (Sessions deps) r (refreshed_session s0 t) w1).2 r s.

(** The answer of a middleware that does not let a request through. *)
Definition turned_away (rw : ResponseWriter) (out : option panic * ResponseWriter) : Prop :=
  out.1 = None ∧
  (out.2 = Redirect "/login" 303 rw ∨
   ∃ code msg rw', code ∈ [401; 403; 500] ∧ (rw' = rw ∨ ∃ c, rw' = SetCookie c rw) ∧
     out.2 = writeError code msg rw').

Lemma turn_away rw code msg Q w :
  code ∈ [401; 403; 500] → (∀ out, turned_away rw out → Q out w) →
  wp (done (writeError code msg rw)) Q w.
Proof using Type.
  intros Hc HQ. apply wp_ret, HQ. split; [done|]. right. exists code, msg, rw. auto.
Qed.

(** [Get], as the middlewares use it. *)
Lemma wp_Get_guard r (K : option (option Session) → BWorld → Prop) w :
  (∀ got w', store_step w w' → fewer st_holds (w_st w') (w_st w) →
     (∀ s, got = Some (Some s) → session_of w r s) → K got w') →
  wp (Get (Sessions deps) r) K w.
Proof using HS.
  intros HQ. eapply wp_mono;
    [exact (wp_steps_and _ _ _ _ (steps_Get (Sessions deps) r) (wp_Get (Sessions deps) r w))|].
  intros got w' [[Hgot Hf] Hstep]. auto.
Qed.

Lemma wp_AuthGuard next rw r Q w :
  (∀ w', store_step w w' → fewer st_holds (w_st w') (w_st w) → guard_passed r w → wp (next rw r) Q w') →
  (∀ out w', store_step w w' → turned_away rw out → Q out w') →
  wp (AuthGuard deps next rw r) Q w.
Proof using HS.
  intros Hnext Hout. unfold AuthGuard.
  assert (fewer st_holds (w_st w) (w_st w)) as Hw by by intros ???.
  destruct (is_api deps r) eqn:Ha; [apply Hnext; [done..|by left]|].
  destruct (is_bypass deps r) eqn:Hb; [apply Hnext; [done..|by right; left]|].
  apply wp_bind, wp_Get_guard. intros got w' Hstep Hf Hgot.
  destruct got as [[s|]|].
  - apply Hnext; [done..|]. right. right. exists s. auto.
  - apply wp_ret, Hout; [done|]. split; [done|]. by left.
  - apply turn_away; [set_solver|]. auto.
Qed.

Lemma wp_CSRFMiddleware next rw r Q w :
  (∀ w', store_step w w' → fewer st_holds (w_st w') (w_st w) → csrf_passed r w → wp (next rw r) Q w') →
  (∀ out w', store_step w w' → turned_away rw out → Q out w') →
  wp (CSRFMiddleware deps next rw r) Q w.
Proof using HS.
  intros Hnext Hout. unfold CSRFMiddleware.
  assert (fewer st_holds (w_st w) (w_st w)) as Hw by by intros ???.
  destruct (is_safe_method r) eqn:Hsafe.
  { apply Hnext; [done..|]. intros Hc. unfold csrf_checked in Hc. by rewrite Hsafe in Hc. }
  destruct (negb (is_api deps r) && negb _) eqn:Hp.
  { apply Hnext; [done..|]. intros Hc. unfold csrf_checked in Hc.
    rewrite <-negb_orb in Hp. apply negb_true_iff in Hp. by rewrite Hp, andb_false_r in Hc. }
  apply wp_bind, wp_Get_guard. intros got w' Hstep Hf Hgot.
  destruct got as [[s|]|]; [|apply turn_away; [set_solver|]; auto..].
  cbv zeta. destruct (_ || _) eqn:Htok; [apply turn_away; [set_solver|]; auto|].
  apply orb_false_iff in Htok as [Hne Heq]. apply bool_decide_eq_false in Hne.
  apply bool_decide_eq_false, dec_stable in Heq.
  apply Hnext; [done..|]. intros _. exists s. split; [by apply Hgot|]. by rewrite <-Heq.
Qed.

Lemma steps_refreshAccessToken refresh rw r s :
  steps store_step (refreshAccessToken deps refresh rw r s).
Proof using HS.
  unfold refreshAccessToken. apply steps_bind; [apply _|intros w; by split_and!|].
  intros [tok|]; [|apply steps_ret, _]. cbv zeta.
  apply steps_bind; [apply _|apply (steps_Rotate (Sessions deps))|intros; apply steps_ret, _].
Qed.

Lemma wp_refreshAccessToken refresh rw r s w :
  wp (refreshAccessToken deps refresh rw r s) (λ res w', store_step w w' ∧
    (w_st w' = w_st w ∧ res = None ∨
     ∃ n t w1, refresh n (ss_RefreshToken s) = Some t ∧ w_st w1 = w_st w ∧
       w_st w' = w_st (Rotate (Sessions deps) r (refreshed_session s t) w1).2 ∧
       ∀ s' rw', res = Some (s', rw') → s' = refreshed_session s t ∧ ∃ c, rw' = SetCookie c rw)) w.
Proof using HS.
  split; [apply (steps_refreshAccessToken refresh rw r s w)|].
  unfold refreshAccessToken, mbind, eff_bind, call. simpl.
  destruct (refresh (w_net w) (ss_RefreshToken s)) as [t|] eqn:Ht; [|by left]. right. cbv zeta.
  set (w1 := mkWorld _ _ _ _ _ _ _).
  exists (w_net w), t, w1. destruct (Rotate _ _ _ w1) as [[c|] w2]; split_and!; try done.
  intros s' rw' [= <- <-]. eauto.
Qed.

(** [TokenForwarder]: what it passes on, and what the request's cookie may stand
    for by then. *)
Lemma wp_TokenForwarder next rw r Q w :
  (∀ rw' r' w', store_step w w' → forwarded r r' w → (∀ s, session_of w' r s → standing r w s) →
     (rw' = rw ∨ ∃ c, rw' = SetCookie c rw) → wp (next rw' r') Q w') →
  (∀ out w', store_step w w' → turned_away rw out → Q out w') →
  wp (TokenForwarder deps next rw r) Q w.
Proof using HS.
  intros Hnext Hout. unfold TokenForwarder. cbv zeta.
  destruct (is_api deps r) eqn:Ha; simpl;
    [|apply Hnext; [done| |by left|by left]; unfold forwarded; by rewrite Ha].
  destruct (has_bearer r) eqn:Hb;
    [apply Hnext; [done| |by left|by left]; unfold forwarded; by rewrite Ha, Hb|].
  apply wp_bind, wp_Get_guard. intros got w1 Hstep1 Hf Hgot.
  destruct got as [[s|]|]; [|apply turn_away; [set_solver|]; auto..].
  specialize (Hgot s eq_refl).
  destruct (decide (trim_space (ss_AccessToken s) = _)) as [|Hat]; [apply turn_away; [set_solver|]; auto|].
  assert (∀ tok w', store_step w1 w' → token_of s tok → (∀ s1, session_of w' r s1 → standing r w s1) →
    ∀ rw', (rw' = rw ∨ ∃ c, rw' = SetCookie c rw) →
    wp (next rw' (with_header "Authorization" ("Bearer " +:+ tok) r)) Q w') as Hforward.
  { intros tok w' Hstep Htok Hst rw' Hrw. apply Hnext; [by etrans| |done..].
    unfold forwarded. rewrite Ha, Hb. simpl. by exists s, tok. }
  assert (∀ w', store_step w1 w' → (∀ s1, session_of w' r s1 → standing r w s1) →
    wp (next rw (with_header "Authorization" ("Bearer " +:+ ss_AccessToken s) r)) Q w') as Hown.
  { intros w' Hstep Hst. apply Hforward; [done|by split; [|left]|done|by left]. }
  assert (∀ w', w_st w' = w_st w1 → ∀ s1, session_of w' r s1 → standing r w s1) as Hsame.
  { intros w' -> s1 Hs1. left. by eapply request_session_fewer. }
  destruct (RefreshTokens deps) as [refresh|] eqn:Hr; [|by apply Hown, Hsame].
  destruct (decide (ss_RefreshToken s = _)) as [|Hrt]; [by apply Hown, Hsame|].
  destruct (decide (ss_AccessTokenExpiry s = _)); [by apply Hown, Hsame|].
  apply wp_bind. unfold wp at 1. simpl. apply wp_bind. unfold wp at 1. simpl.
  set (w2 := mkWorld _ _ _ _ _ _ _).
  assert (store_step w1 w2) as Hstep2 by (unfold store_step; simpl; split_and!; [done..|lia]).
  assert (w_st w2 = w_st w1) as E2 by done. clearbody w2. destruct (_ || _); [|by apply Hown, Hsame].
  apply wp_bind. eapply wp_mono; [apply wp_refreshAccessToken|]. intros res w3 [Hstep3 Hres].
  assert (∀ s1, session_of w3 r s1 → standing r w s1) as Hst3.
  { destruct Hres as [[E3 _]|(k & t & w0 & Ht & E0 & E3 & _)]; [apply Hsame; congruence|].
    intros s1 Hs1. right. split; [done|]. split; [done|]. exists s, refresh, k, t, w0.
    rewrite E0, E2, <-E3. done. }
  destruct res as [[s' rw']|].
  - destruct Hres as [[_ [=]]|(k & t & w0 & Ht & _ & _ & Hs')].
    destruct (Hs' s' rw' eq_refl) as [-> [c ->]].
    apply Hforward; [by etrans| |done|by eauto]. split; [done|]. right. by exists refresh, k, t.
  - destruct (bool_decide _); [|apply Hown; [by etrans|done]].
    apply wp_bind. eapply wp_mono; [apply (wp_steps_and _ _ (λ _ _, True) _ (steps_Destroy (Sessions deps) r)); done|].
    intros res w4 [_ Hstep4]. apply wp_ret, Hout; [by repeat (etrans; [eassumption|])|].
    split; [done|]. right. exists 401. destruct res as [c|]; repeat eexists; try set_solver; eauto.
Qed.

Lemma standing_fewer r w' w s :
  fewer st_holds (w_st w') (w_st w) → standing r w' s → standing r w s.
Proof using Type.
  intros Hf [Hs|(Ha & Hb & s0 & refresh & n & t & w1 & Hs0 & Hr & Ht & Hf1 & Hs)].
  - left. by eapply request_session_fewer.
  - right. split; [done|]. split; [done|]. exists s0, refresh, n, t, w1. split_and!; try done.
    + by eapply request_session_fewer.
    + intros tok s' Hh. by apply Hf, Hf1.
Qed.

(** The whole stack: what it wraps is called only with a request that passed. *)
Lemma wp_stack recovery next r Q w :
  (∀ rw' r' w', store_step w w' → secured (baseline deps) rw' →
     guard_passed r w → csrf_passed r w → forwarded r r' w →
     (∀ s, session_of w' r s → standing r w s) →
     wp (match recovery with Some f => f next | None => next end rw' r') Q w') →
  (∀ rw out w', store_step w w' → secured (baseline deps) rw → turned_away rw out → Q out w') →
  wp (BuildMiddlewareStack (Some deps) recovery next new_writer r) Q w.
Proof using HS.
  intros Hnext Hout. unfold BuildMiddlewareStack, SecurityHeaders. cbv zeta.
  set (rw := SetHeader _ _ _).
  assert (secured (baseline deps) rw) as Hrw.
  { change (carries (baseline deps) (rw_header rw)).
    unfold carries, baseline. repeat (constructor; [by eexists|]). constructor. }
  clearbody rw. apply wp_AuthGuard; [|by eauto]. intros w1 S1 F1 Hguard.
  apply wp_CSRFMiddleware; [|intros out w' S'; apply Hout; [by etrans|done]].
  intros w2 S2 F2 Hcsrf.
  apply wp_TokenForwarder; [|intros out w' S'; apply Hout; [by repeat (etrans; [eassumption|])|done]].
  assert (∀ s, session_of w2 r s → session_of w r s) as Hdown.
  { intros s Hs. by eapply request_session_fewer, request_session_fewer. }
  intros rw' r' w3 S3 Hfwd Hst Hrw'. apply Hnext; [by repeat (etrans; [eassumption|])|..].
  - by destruct Hrw' as [->|[c ->]].
  - done.
  - intros Hc. destruct (Hcsrf Hc) as (s & Hs & Htok). exists s. split; [|done].
    by eapply request_session_fewer.
  - unfold forwarded in *. destruct (is_api deps r && _); [|done].
    destruct Hfwd as (s & tok & Hs & Htok). exists s, tok. auto.
  - intros s Hs. apply Hst in Hs. by eapply standing_fewer, standing_fewer.
Qed.
End guards.
