(* ===== verification/BffServer.v ===== *)
(** * The gateway: proxies, routes, and the server as a whole

    [handler/proxy.go] over a model of [httputil.ReverseProxy],
    [handler/router.go] over a model of [http.ServeMux], and [server.NewBFF].
    Ends with what the informational responses of a proxied server do to the
    answer, and the paths the API proxy sends to. *)

From S2P Require Import Prelude GoStrings GoNet GoURL GoBase64 Runtime RuntimeExample GoJson.
From S2P Require Import GoPath BffSession BffManager BffHandler BffMiddleware.
From Stdlib Require Import Ascii.
From stdpp Require Import options.
Local Open Scope Z_scope.

(** ** [httputil.ReverseProxy] *)

Abbreviation Header := (gmap string (list string)).

Definition token_char (c : ascii) : bool :=
  is_alnum c || bool_decide (c ∈ chars "!#$%&'*+-.^_`|~").

(** [textproto.CanonicalMIMEHeaderKey]. *)
Fixpoint canonical_from (upper : bool) (s : string) : string :=
  match s with
  | EmptyString => EmptyString
  | String c s' =>
      String (if upper then upper_byte c else lower_byte c)
        (canonical_from (bool_decide (c = "-"%char)) s')
  end.
Definition canonical_key (s : string) : string :=
  if forallb token_char (chars s) then canonical_from true s else s.

Definition ascii_space (c : ascii) : bool := bool_decide (c ∈ [" "; "009"; "010"; "013"]%char).
Fixpoint trim_left_ascii (s : string) : string :=
  match s with
  | String c s' => if ascii_space c then trim_left_ascii s' else s
  | EmptyString => EmptyString
  end.
Definition trim_ascii (s : string) : string := srev (trim_left_ascii (srev (trim_left_ascii s))).

(** The tokens of a list-valued field. *)
Definition field_tokens (h : Header) (k : string) : list string :=
  trim_ascii <$> concat (split_on "," <$> default [] (h !! k)).

Definition has_token (h : Header) (k token : string) : bool :=
  existsb (equal_fold token) (field_tokens h k).

Definition hopHeaders : list string :=
  ["Connection"; "Proxy-Connection"; "Keep-Alive"; "Proxy-Authenticate"; "Proxy-Authorization";
   "Te"; "Trailer"; "Transfer-Encoding"; "Upgrade"].

Definition delete_all (ks : list string) (h : Header) : Header := foldr delete h ks.

Definition removeHopByHopHeaders (h : Header) : Header :=
  delete_all (hopHeaders ++
    (canonical_key <$> filter (λ s, s ≠ EmptyString) (field_tokens h "Connection"))) h.

Definition upgradeType (h : Header) : string :=
  if has_token h "Connection" "upgrade" then first_header h "Upgrade" else EmptyString.

Definition set_field (k v : string) (h : Header) : Header := <[k := [v]]> h.

(** The fields a request leaves with, as the proxy makes them. *)
Definition proxy_header (remote : string) (h : Header) : Header :=
  let upType := upgradeType h in
  let h1 := removeHopByHopHeaders h in
  let h2 := if has_token h "Te" "trailers" then set_field "Te" "trailers" h1 else h1 in
  let h3 := if decide (upType ≠ EmptyString)
            then set_field "Upgrade" upType (set_field "Connection" "Upgrade" h2) else h2 in
  let h4 := match SplitHostPort remote with
            | Some (clientIP, _) =>
                match h3 !! "X-Forwarded-For" with
                | Some (p :: ps) => set_field "X-Forwarded-For" (join ", " (p :: ps ++ [clientIP])) h3
                | _ => set_field "X-Forwarded-For" clientIP h3
                end
            | None => h3
            end in
  match h4 !! "User-Agent" with Some _ => h4 | None => set_field "User-Agent" EmptyString h4 end.

(** [copyHeader]. *)
Definition copy_header (h : Header) (rw : ResponseWriter) : ResponseWriter :=
  map_fold (λ k vs rw, AddHeaders k vs rw) rw h.

(** [Got1xxResponse]: an informational response is passed on with the fields set
    so far, and then they are cleared. *)
Definition clear_header (rw : ResponseWriter) : ResponseWriter :=
  {| rw_header := ∅; rw_cookies := []; rw_informational := rw_informational rw;
     rw_sent := rw_sent rw; rw_body := rw_body rw |}.
Definition got1xxResponse (rw : ResponseWriter) (response : Z * Header) : ResponseWriter :=
  clear_header (WriteHeader response.1 (copy_header response.2 rw)).

(** The request as the proxy's director gets it. *)
Definition out_request (r : Request) : OutRequest :=
  {| or_method := r_method r;
     or_url := {| u_scheme := ""; u_opaque := ""; u_user := None; u_host := "";
                  u_path := r_path r; u_rawpath := r_rawpath r; u_omithost := false;
                  u_forcequery := false; u_rawquery := r_rawquery r; u_fragment := "";
                  u_rawfragment := "" |};
     or_host := r_host r; or_header := r_header r; or_body := r_body r |}.

Definition singleJoiningSlash (a b : string) : string :=
  match has_suffix "/" a, has_prefix "/" b with
  | true, true => a +:+ trim_prefix "/" b
  | false, false => a +:+ "/" +:+ b
  | _, _ => a +:+ b
  end.

(** The path and the raw path of [b] below those of [a]. *)
Definition joinURLPath (a b : URL) : string * string :=
  if decide (u_rawpath a = EmptyString ∧ u_rawpath b = EmptyString)
  then (singleJoiningSlash (u_path a) (u_path b), EmptyString)
  else
    let apath := EscapedPath a in
    let bpath := EscapedPath b in
    match has_suffix "/" apath, has_prefix "/" bpath with
    | true, true => (u_path a +:+ String.substring 1 (String.length (u_path b) - 1) (u_path b),
                     apath +:+ trim_prefix "/" bpath)
    | false, false => (u_path a +:+ "/" +:+ u_path b, apath +:+ "/" +:+ bpath)
    | _, _ => (u_path a +:+ u_path b, apath +:+ bpath)
    end.

(** [rewriteRequestURL], and the host the program's directors set. *)
Definition rewrite_url (target u : URL) : URL :=
  let '(path, rawpath) := joinURLPath target u in
  let tq := u_rawquery target in
  let q := u_rawquery u in
  {| u_scheme := u_scheme target; u_opaque := u_opaque u; u_user := u_user u;
     u_host := u_host target; u_path := path; u_rawpath := rawpath;
     u_omithost := u_omithost u; u_forcequery := u_forcequery u;
     u_rawquery := if decide (tq = EmptyString ∨ q = EmptyString) then tq +:+ q else tq +:+ "&" +:+ q;
     u_fragment := u_fragment u; u_rawfragment := u_rawfragment u |}.

Definition target_director (target : URL) (o : OutRequest) : OutRequest :=
  {| or_method := or_method o; or_url := rewrite_url target (or_url o); or_host := u_host target;
     or_header := or_header o; or_body := or_body o |}.

Definition up_url (f : URL → URL) (o : OutRequest) : OutRequest :=
  {| or_method := or_method o; or_url := f (or_url o); or_host := or_host o;
     or_header := or_header o; or_body := or_body o |}.

Definition sent_request (director : OutRequest → OutRequest) (r : Request) : OutRequest :=
  let o := director (out_request r) in
  {| or_method := or_method o; or_url := or_url o; or_host := or_host o;
     or_header := proxy_header (r_remote r) (or_header o); or_body := or_body o |}.

Definition printable (s : string) : bool := forallb (λ c, (32 <=? byte_of c)%N && (byte_of c <=? 126)%N) (chars s).

Section proxies.
Context `{HR : Runtime, HB : BffRuntime, HG : GatewayLib}.

(** [WriteHeader] panics on a status that has not three digits. *)
Definition status_ok (status : Z) : bool := (100 <=? status) && (status <=? 999).

(** A peer that breaks off in mid-body makes the proxy panic. *)
Definition reverse_proxy (director : OutRequest → OutRequest)
    (errorHandler : ResponseWriter → ResponseWriter) : HandlerFunc := λ rw r,
  let upType := upgradeType (or_header (director (out_request r))) in
  if negb (printable upType) then done (errorHandler rw)
  else
    exchange ← clientDo (sent_request director r);
    let rw := foldl got1xxResponse rw exchange.1 in
    mret (match exchange.2 with
    | None => (None, errorHandler rw)
    | Some resp =>
        if decide (up_status resp = 101) then
          if equal_fold upType (upgradeType (up_header resp))
          then (None, WriteHeader 101 (copy_header (up_header resp) rw))
          else (None, errorHandler rw)
        else
          let rw := copy_header (removeHopByHopHeaders (up_header resp)) rw in
          if negb (status_ok (up_status resp)) then (Some OtherPanic, rw)
          else
          let rw := WriteHeader (up_status resp) rw in
          (if up_complete resp then None else Some ErrAbortHandler, Write (up_body resp) rw)
    end).

(** ** The program's two proxies *)

Record APIProxy := {
  ap_target : URL;
  ap_pathPrefix : string;
  ap_upstreamPathPrefix : string;
  ap_sessions : Manager
}.

(** A base URL with a scheme and a host. *)
Definition proxy_target (baseURL : string) : option URL :=
  if decide (trim_space baseURL = EmptyString) then None
  else target ← url_Parse baseURL;
       if decide (u_scheme target = EmptyString ∨ u_host target = EmptyString) then None
       else Some target.

Definition NewAPIProxy (sessions : option Manager) (apiBaseURL apiPathPrefix upstreamPathPrefix : string)
    : option APIProxy :=
  if decide (trim_space apiBaseURL = EmptyString) then None
  else m ← sessions;
       target ← proxy_target apiBaseURL;
       Some {| ap_target := target; ap_pathPrefix := apiPathPrefix;
               ap_upstreamPathPrefix := upstreamPathPrefix; ap_sessions := m |}.

(** The paths the director gives the upstream, from those of [rewrite_url]. *)
Definition api_paths (p : APIProxy) (u : URL) : URL :=
  with_paths
    (path_Join (ap_upstreamPathPrefix p) (trim_prefix (ap_pathPrefix p) (u_path u)))
    (if decide (u_rawpath u ≠ EmptyString)
     then path_Join (ap_upstreamPathPrefix p) (trim_prefix (ap_pathPrefix p) (u_rawpath u))
     else u_rawpath u) u.

Definition api_director (p : APIProxy) (o : OutRequest) : OutRequest :=
  up_url (api_paths p) (target_director (ap_target p) o).

(** The request with the fields that tell where it came from. *)
Definition forwarded_for (r : Request) (forwarded : Request) : Request :=
  let forwarded := with_header "X-Forwarded-Host" (r_host r) forwarded in
  match SplitHostPort (r_remote r) with
  | Some (host, _) => with_header "X-Forwarded-For" host forwarded
  | None => forwarded
  end.

Definition APIProxy_ServeHTTP (p : APIProxy) : HandlerFunc := λ rw r,
  let serve forwarded :=
    reverse_proxy (api_director p) (writeError 502 "bad gateway") rw (forwarded_for r forwarded) in
  if has_bearer r then serve r
  else
    got ← Get (ap_sessions p) r;
    match got with
    | None => server_error rw
    | Some None => unauthorized rw
    | Some (Some current) =>
        if decide (trim_space (ss_AccessToken current) = EmptyString) then unauthorized rw
        else serve (with_header "Authorization" ("Bearer " +:+ ss_AccessToken current) r)
    end.

Definition NewStaticAssetsProxy (staticAssetsBaseURL : string) : option URL :=
  proxy_target staticAssetsBaseURL.

(** [http.Error]. *)
Definition http_Error (msg : string) (code : Z) (rw : ResponseWriter) : ResponseWriter :=
  Write (msg +:+ newline)
    (WriteHeader code (SetHeader "X-Content-Type-Options" "nosniff"
      (SetHeader "Content-Type" "text/plain; charset=utf-8" rw))).

Definition StaticAssetsProxy_ServeHTTP (target : URL) : HandlerFunc :=
  reverse_proxy (target_director target) (http_Error "bad gateway" 502).
End proxies.

(** ** [http.ServeMux] *)

(** A pattern: a method (GET stands for HEAD too) or any, the segments of its
    path, and whether it is the whole subtree below them. *)
Record pattern `{BffRuntime} := {
  pt_method : option string;
  pt_segments : list string;
  pt_subtree : bool;
  pt_handler : HandlerFunc
}.

Fixpoint list_prefix (p l : list string) : bool :=
  match p, l with
  | [], _ => true
  | x :: p, y :: l => bool_decide (x = y) && list_prefix p l
  | _ :: _, [] => false
  end.

Section mux.
Context `{HR : Runtime, HB : BffRuntime, HG : GatewayLib}.

Definition segments_match (pt : pattern) (segs : list string) : bool :=
  if pt_subtree pt then list_prefix (pt_segments pt) segs && (length (pt_segments pt) <? length segs)%nat
  else bool_decide (pt_segments pt = segs).

Definition method_match (pt : pattern) (method : string) : bool :=
  match pt_method pt with
  | None => true
  | Some m => bool_decide (m = method) || (bool_decide (m = "GET") && bool_decide (method = "HEAD"))
  end.

(** The first match; the patterns are listed with the more specific first. *)
Definition mux_match (pts : list pattern) (method path : string) : option pattern :=
  List.find (λ pt, method_match pt method && segments_match pt (segments path)) pts.

(** The match is the pattern's own path. *)
Definition exact_match (m : option pattern) (path : string) : bool :=
  match m with
  | None => false
  | Some pt => negb (pt_subtree pt) || bool_decide (segments path = pt_segments pt ++ [""])
  end.

Definition path_redirect (path : string) (r : Request) (rw : ResponseWriter) : ResponseWriter :=
  Redirect (url_String (with_query (with_paths path EmptyString empty_url) (r_rawquery r))) 301 rw.

(** [ServeMux.ServeHTTP]. *)
Definition mux_ServeHTTP (pts : list pattern) : HandlerFunc := λ rw r,
  let escapedPath := EscapedPath (or_url (out_request r)) in
  let path := if decide (r_method r = "CONNECT") then escapedPath else cleanPath escapedPath in
  let n := mux_match pts (r_method r) path in
  if negb (exact_match n path) && negb (has_suffix "/" path) && bool_decide (path ≠ EmptyString)
     && exact_match (mux_match pts (r_method r) (path +:+ "/")) (path +:+ "/")
  then done (path_redirect (cleanPath (r_path r) +:+ "/") r rw)
  else if decide (path ≠ escapedPath) then done (path_redirect path r rw)
  else match n with
  | Some pt => pt_handler pt rw r
  | None =>
      let allowed := filter (λ m, is_Some (mux_match pts m path)) ["GET"; "HEAD"; "POST"] in
      match allowed with
      | [] => done (http_Error "404 page not found" 404 rw)
      | _ => done (http_Error "Method Not Allowed" 405 (SetHeader "Allow" (join ", " allowed) rw))
      end
  end.

Definition exact (method : option string) (path : string) (h : HandlerFunc) : pattern :=
  {| pt_method := method; pt_segments := segments path; pt_subtree := false; pt_handler := h |}.
Definition subtree (path : string) (h : HandlerFunc) : pattern :=
  {| pt_method := None; pt_segments := removelast (segments path); pt_subtree := true; pt_handler := h |}.

(** [RegisterRoutes], and the health check and the catch-all of [NewBFF]. *)
Definition auth_routes (deps : Dependencies) : list pattern :=
  [ exact (Some "GET") "/auth/login" (Login deps); exact (Some "GET") "/auth/callback" (Callback deps);
    exact (Some "POST") "/auth/logout" (Logout deps); exact (Some "GET") "/auth/me" (Me deps);
    exact (Some "GET") "/auth/avatar" (Avatar deps) ].

Definition api_routes (apiPathPrefix : string) (apiProxy : option HandlerFunc) : list pattern :=
  match apiProxy with
  | Some h => [ exact None apiPathPrefix h; subtree (apiPathPrefix +:+ "/") h ]
  | None => [ subtree (apiPathPrefix +:+ "/") (λ rw _, done (http_Error "404 page not found" 404 rw)) ]
  end.

Definition RegisterRoutes (static auth_handler : list pattern) (apiPathPrefix : string)
    (apiProxy : option HandlerFunc) : list pattern :=
  auth_handler ++ api_routes apiPathPrefix apiProxy ++ static.

Definition healthz : HandlerFunc := λ rw _, done (WriteHeader 200 rw).

(** The two patterns of the prefix are literal paths, one below the other: after
    a space or a tab the mux would look for the path and take what is before it
    for a method, in braces it would see a wildcard, and with a slash at the end
    (of "/", all that the configuration leaves of one) the second pattern is a
    subtree too, for "/" the catch-all once more. *)
Definition prefix_ok (apiPathPrefix : string) : bool :=
  has_prefix "/" apiPathPrefix && negb (has_suffix "/" apiPathPrefix) &&
  negb (existsb (λ c, contains_char c apiPathPrefix) [" "; "009"; "{"]%char).

Definition gateway_routes (static : option HandlerFunc) (auth : option Dependencies)
    (apiProxy : option HandlerFunc) (apiPathPrefix : string) : list pattern :=
  exact (Some "GET") "/healthz" healthz ::
  RegisterRoutes (match static with Some h => [subtree "/" h] | None => [] end)
    (match auth with Some deps => auth_routes deps | None => [] end) apiPathPrefix apiProxy.

(** [NewBFF]; [None] is the mux's panic on a pattern it cannot register, and
    stands for the prefixes with wildcards, which are not modelled. *)
Definition NewBFF (static : option HandlerFunc) (auth : option Dependencies)
    (apiProxy : option HandlerFunc) (apiPathPrefix : string) : option HandlerFunc :=
  if prefix_ok apiPathPrefix then
    Some (RequestLogger (BuildMiddlewareStack auth (Some Recovery)
            (mux_ServeHTTP (gateway_routes static auth apiProxy apiPathPrefix))))
  else None.
End mux.

Set Default Proof Using "Type".

(** ** An informational response takes the fields with it *)

Lemma copy_header_same h rw :
  rw_cookies (copy_header h rw) = rw_cookies rw ∧ rw_body (copy_header h rw) = rw_body rw ∧
  rw_informational (copy_header h rw) = rw_informational rw ∧ rw_sent (copy_header h rw) = rw_sent rw.
Proof.
  unfold copy_header. apply (map_fold_weak_ind (λ rw' _, rw_cookies rw' = rw_cookies rw ∧
    rw_body rw' = rw_body rw ∧ rw_informational rw' = rw_informational rw ∧ rw_sent rw' = rw_sent rw)); [done|].
  by intros k vs m rw' _ Hrw.
Qed.

(** Copied onto no fields at all, fields are as they were. *)
Lemma copy_header_empty h rw : rw_header rw = ∅ → rw_header (copy_header h rw) = h.
Proof.
  intros E. unfold copy_header. apply (map_fold_weak_ind (λ rw' m, rw_header rw' = m)); [done|].
  intros k vs m rw' Hk <-. simpl. apply map_eq. intros j. destruct (decide (j = k)) as [->|Hj].
  - by rewrite lookup_partial_alter_eq, Hk, lookup_insert_eq.
  - by rewrite lookup_partial_alter_ne, lookup_insert_ne.
Qed.

Lemma got1xx_sent rw c :
  rw_sent rw = None → informational c.1 = true → rw_sent (got1xxResponse rw c) = None.
Proof.
  intros E Hc. destruct (copy_header_same c.2 rw) as (_ & _ & _ & Es). unfold got1xxResponse, WriteHeader.
  by rewrite Es, E, Hc.
Qed.

(** The first of them goes out with the fields and cookies set so far; the last
    leaves none. *)
Lemma foldl_got1xx rw pre c :
  rw_sent rw = None → Forall (λ c, informational c.1 = true) (c :: pre) →
  let rw' := foldl got1xxResponse rw (c :: pre) in
  rw_header rw' = ∅ ∧ rw_cookies rw' = [] ∧ rw_body rw' = rw_body rw ∧ rw_sent rw' = None ∧
  ∃ more, rw_informational rw' =
    rw_informational rw ++ (c.1, rw_header (copy_header c.2 rw), rw_cookies rw) :: more.
Proof.
  revert rw c. induction pre as [|c' pre IH]; intros rw c E [Hc Hpre]%Forall_cons; cbv zeta.
  - destruct (copy_header_same c.2 rw) as (Ec & Eb & Ei & Es). cbn [foldl].
    split_and!; [done|done| |by apply got1xx_sent|]; unfold got1xxResponse, WriteHeader; rewrite Es, E, Hc; simpl.
    + done.
    + exists []. by rewrite Ei, Ec.
  - destruct (IH (got1xxResponse rw c) c') as (Hh & Hck & Hb & Hs & more & Hi);
      [by apply got1xx_sent|done|].
    destruct (copy_header_same c.2 rw) as (Ec & Eb & Ei & Es).
    split_and!; [done|done| |done|].
    + cbn [foldl] in *. rewrite Hb. unfold got1xxResponse, WriteHeader. rewrite Es, E, Hc. done.
    + cbn [foldl] in *. rewrite Hi. unfold got1xxResponse at 1, WriteHeader. rewrite Es, E, Hc. simpl.
      rewrite Ei, Ec. eexists. by rewrite <-app_assoc.
Qed.

Lemma wp_informational `{HR : Runtime, HB : BffRuntime, HG : GatewayLib}
    director errorHandler rw r w code header pre resp :
  rw_sent rw = None → printable (upgradeType (or_header (director (out_request r)))) = true →
  http_Do (w_net w) (sent_request director r) = ((code, header) :: pre, Some resp) →
  Forall (λ c, 100 <= c.1 <= 199 ∧ c.1 ≠ 101) ((code, header) :: pre) →
  200 <= up_status resp <= 999 →
  wp (reverse_proxy director errorHandler rw r) (λ out _,
    (∃ more, rw_informational out.2 =
       rw_informational rw ++ (code, rw_header (copy_header header rw), rw_cookies rw) :: more) ∧
    rw_sent out.2 = Some (up_status resp, removeHopByHopHeaders (up_header resp), [])) w.
Proof.
  intros Hsent Hup Hdo Hpre Hst. unfold reverse_proxy. cbv zeta. rewrite Hup. cbn [negb].
  apply wp_bind. unfold clientDo. apply wp_bind, wp_mod_st. unfold wp at 1, call. cbn beta iota delta [fst snd].
  change (w_net (set_st (log_sent (sent_request director r) (w_st w)) w)) with (w_net w).
  rewrite Hdo. apply wp_ret. cbn [fst snd].
  destruct (foldl_got1xx rw pre (code, header)) as (Hh & Hck & Hb & Hs & more & Hi); [done| |].
  { eapply Forall_impl; [exact Hpre|]. intros [c h] Hc. apply bool_decide_eq_true. simpl in *. lia. }
  rewrite decide_False by lia.
  assert (status_ok (up_status resp) = true) as -> by (apply andb_true_iff; lia). cbn [negb].
  set (rw1 := foldl _ _ _) in *. set (h := removeHopByHopHeaders _).
  destruct (copy_header_same h rw1) as (Ec & Eb & Ei & Es).
  assert (informational (up_status resp) = false) as Hinf by (apply bool_decide_eq_false; lia).
  assert (WriteHeader (up_status resp) (copy_header h rw1) =
    {| rw_header := h; rw_cookies := []; rw_informational := rw_informational rw1;
       rw_sent := Some (up_status resp, h, []); rw_body := rw_body rw1 |}) as ->.
  { unfold WriteHeader. by rewrite Es, Hs, Hinf, (copy_header_empty _ _ Hh), Ec, Hck, Ei, Eb. }
  simpl. eauto.
Qed.

(** [h] is one of the two proxies and sends [o] on behalf of [r], which carries a
    bearer token where it goes to the API. *)
Definition proxies `{HR : Runtime, HB : BffRuntime, HG : GatewayLib} (h : HandlerFunc) (r : Request)
    (o : OutRequest) : Prop :=
  (∃ target, h = StaticAssetsProxy_ServeHTTP target ∧ o = sent_request (target_director target) r) ∨
  (∃ p, h = APIProxy_ServeHTTP p ∧ has_bearer r = true ∧
        o = sent_request (api_director p) (forwarded_for r r)).

Lemma upgradeType_forwarded r f : upgradeType (r_header (forwarded_for r f)) = upgradeType (r_header f).
Proof.
  unfold upgradeType, has_token, field_tokens, first_header, forwarded_for.
  destruct (SplitHostPort (r_remote r)) as [[host port]|]; simpl; by rewrite !lookup_insert_ne.
Qed.

(** C27: An informational response from a server behind the gateway takes the
    answer's fields with it.  When the API server or the static server sends
    informational responses (103 Early Hints, say) before its response, the first
    of them is passed on with every field and cookie that was to be set - the
    security headers, the cookie of a session rotated by a token refresh - and
    the response itself then carries exactly the fields that server sent with it,
    less those of the connection, and none of the gateway's fields or cookies. *)
Theorem informational_takes_fields `{HR : Runtime, HB : BffRuntime, HG : GatewayLib}
    h rw r o w code header pre resp :
  proxies h r o → rw_sent rw = None → printable (upgradeType (r_header r)) = true →
  http_Do (w_net w) o = ((code, header) :: pre, Some resp) →
  Forall (λ c, 100 <= c.1 <= 199 ∧ c.1 ≠ 101) ((code, header) :: pre) →
  200 <= up_status resp <= 999 →
  wp (h rw r) (λ out _,
    (∃ more, rw_informational out.2 =
       rw_informational rw ++ (code, rw_header (copy_header header rw), rw_cookies rw) :: more) ∧
    rw_sent out.2 = Some (up_status resp, removeHopByHopHeaders (up_header resp), [])) w.
Proof.
  intros [(target & -> & ->)|(p & -> & Hb & ->)] Hsent Hup Hdo Hpre Hst.
  - by eapply wp_informational.
  - unfold APIProxy_ServeHTTP. cbv zeta. rewrite Hb. eapply wp_informational; try done.
    change (printable (upgradeType (r_header (forwarded_for r r))) = true). by rewrite upgradeType_forwarded.
Qed.

(** ** The API proxy's paths *)

Section paths.
Context `{HR : Runtime, HB : BffRuntime, HG : GatewayLib} (p : APIProxy).

Lemma escaped_rooted u : has_prefix "/" (EscapedPath u) = true → has_prefix "/" (u_path u) = true.
Proof.
  intros [e He]%has_prefix_spec. pose proof (unescape_EscapedPath u) as Hun. rewrite He in Hun.
  change (unescape encodePath (EmptyString +:+ String "/" e) = Some (u_path u)) in Hun.
  apply unescape_slash in Hun as (ta & tb & [= <-] & _ & ->). apply has_prefix_spec. by exists tb.
Qed.

(** Over a base URL without a path, the joined path is the request's. *)
Lemma joinURLPath_root a b :
  u_path a = EmptyString → u_rawpath a = EmptyString → has_prefix "/" (EscapedPath b) = true →
  (joinURLPath a b).1 = u_path b.
Proof.
  intros Ha Hra Hb. pose proof (escaped_rooted b Hb) as Hpb. unfold joinURLPath, singleJoiningSlash.
  assert (EscapedPath a = EmptyString) as ->.
  { unfold EscapedPath, escaped. rewrite Ha, Hra. done. }
  rewrite Ha, Hb, Hpb. by destruct (decide _).
Qed.

(** C37: The API proxy confines what it forwards.  With a base URL that has no
    path of its own and an upstream prefix of plain elements, the director sends
    a request to the host of the base URL, under its scheme, and to a path that
    is the upstream prefix or below it - provided what follows the API prefix in
    the request's path has no ".." element. *)
Theorem api_director_confined r :
  u_path (ap_target p) = EmptyString → u_rawpath (ap_target p) = EmptyString →
  clean_prefix (ap_upstreamPathPrefix p) →
  has_prefix "/" (EscapedPath (or_url (out_request r))) = true →
  Forall (λ e, e ≠ "..") (split_on "/" (trim_prefix (ap_pathPrefix p) (r_path r))) →
  let o := api_director p (out_request r) in
  u_scheme (or_url o) = u_scheme (ap_target p) ∧ u_host (or_url o) = u_host (ap_target p) ∧
  or_host o = u_host (ap_target p) ∧ or_method o = r_method r ∧
  (u_path (or_url o) = ap_upstreamPathPrefix p ∨
   ∃ t, u_path (or_url o) = ap_upstreamPathPrefix p +:+ "/" +:+ t).
Proof.
  intros Ht Hrt Hup Hrooted Hdots. cbv zeta. unfold api_director, api_paths, target_director, rewrite_url.
  pose proof (joinURLPath_root (ap_target p) (or_url (out_request r)) Ht Hrt Hrooted) as Hjoin.
  simpl. destruct (joinURLPath (ap_target p) _) as [path rawpath]. simpl in *. subst path.
  split_and!; [done..|]. by apply path_Join_below.
Qed.
End paths.
