(* ===== verification/BffGateway.v ===== *)
(** * What the gateway guarantees

    The theorems about the server [NewBFF] builds: where a request may end up,
    what is sent to the servers behind the gateway and on whose behalf, what the
    first response to a request carries, and that a login state completes at most one login per five
    minutes over any run. *)

From S2P Require Import Prelude GoStrings GoNet GoURL GoBase64 Runtime RuntimeExample GoJson.
From S2P Require Import GoPath BffSession BffManager BffHandler BffMiddleware BffServer.
From Stdlib Require Import Ascii.
From stdpp Require Import options.
Local Open Scope Z_scope.

(** ** Routes below a prefix *)

(** The request's target is an absolute path or empty, as [net/http] has it. *)
Definition target_ok (r : Request) : Prop :=
  let p := EscapedPath (or_url (out_request r)) in p = EmptyString ∨ has_prefix "/" p = true.

Section routes.
Context `{HR : Runtime, HB : BffRuntime, HG : GatewayLib}.

Lemma plain_segments q :
  contains_char "%" q = false → unescape_segment <$> split_on "/" q = split_on "/" q.
Proof.
  intros Hq. rewrite <-(join_split "/" q) in Hq.
  induction (split_on "/" q) as [|e [|e' es] IH]; [done|..].
  - simpl in *. unfold unescape_segment. by rewrite unescape_plain.
  - change (join "/" (e :: e' :: es)) with (e +:+ String "/" (join "/" (e' :: es))) in Hq.
    rewrite contains_char_app in Hq. apply orb_false_iff in Hq as [He Hes].
    cbn [contains_char] in Hes. apply orb_false_iff in Hes as [_ Hes].
    rewrite fmap_cons, IH by done. unfold unescape_segment at 1. by rewrite unescape_plain.
Qed.

Lemma list_prefix_app p l : list_prefix p l = true → ∃ rest, l = p ++ rest.
Proof.
  revert l. induction p as [|x p IH]; intros l Hl; [by exists l|].
  destruct l as [|y l]; [done|]. simpl in Hl. apply andb_prop in Hl as [Hx Hl].
  apply bool_decide_eq_true in Hx as ->. destruct (IH l Hl) as [rest ->]. by exists rest.
Qed.

(** An escaped path the API patterns match is a path below the prefix. *)
Lemma api_segments prefix u segs rest :
  has_prefix "/" prefix = true → contains_char "%" prefix = false →
  has_prefix "/" (EscapedPath u) = true → segments prefix = segs →
  segments (EscapedPath u) = segs ++ rest → under_prefix prefix (u_path u) = true.
Proof.
  intros Hp Hpct Hu Hsegs Hm. apply has_prefix_spec in Hp as [q ->].
  pose proof (unescape_EscapedPath u) as Hun. apply has_prefix_spec in Hu as [e He].
  rewrite He in Hun, Hm. change (unescape encodePath (EmptyString +:+ String "/" e) = Some (u_path u)) in Hun.
  apply unescape_slash in Hun as (ta & tb & [= <-] & He' & Hpath).
  rewrite Hpath. clear Hpath.
  apply unescape_elements in He'. rewrite contains_char_app in Hpct.
  apply orb_false_iff in Hpct as [_ Hq].
  change (unescape_segment <$> split_on "/" q = segs) in Hsegs.
  change (unescape_segment <$> split_on "/" e = segs ++ rest) in Hm.
  rewrite plain_segments in Hsegs by done.
  unfold under_prefix. apply orb_true_iff. unfold unescape_segment in Hm.
  rewrite Hm, <-Hsegs in He'. destruct rest as [|x xs].
  - right. apply bool_decide_eq_true. rewrite app_nil_r, join_split in He'. by rewrite He'.
  - left. apply has_prefix_spec. rewrite join_app, join_split in He' by (done || apply split_on_nonempty).
    exists (join "/" (x :: xs)). rewrite He', !sapp_assoc. done.
Qed.

Lemma removelast_segments q :
  removelast (unescape_segment <$> split_on "/" (q +:+ "/")) = unescape_segment <$> split_on "/" q.
Proof.
  change (q +:+ "/") with (q +:+ String "/" EmptyString). rewrite split_on_app, fmap_app.
  by rewrite removelast_app, app_nil_r.
Qed.

(** So a request the mux hands to the API proxy is an API request. *)
Lemma api_match prefix u (h : HandlerFunc) (pt : pattern) :
  has_prefix "/" prefix = true → contains_char "%" prefix = false →
  has_prefix "/" (EscapedPath u) = true → pt ∈ api_routes prefix (Some h) →
  segments_match pt (segments (EscapedPath u)) = true → under_prefix prefix (u_path u) = true.
Proof.
  intros Hp Hpct Hu Hpt Hm. unfold api_routes in Hpt.
  apply elem_of_cons in Hpt as [->|Hpt]; [|apply list_elem_of_singleton in Hpt as ->].
  - apply bool_decide_eq_true in Hm. simpl in Hm.
    eapply (api_segments prefix u (segments prefix) []); [done..|]. by rewrite app_nil_r.
  - unfold segments_match in Hm. cbn [pt_subtree subtree pt_segments] in Hm.
    apply andb_prop in Hm as [Hm _]. apply list_prefix_app in Hm as [rest Hm].
    eapply (api_segments prefix u (segments prefix) rest); [done..|]. rewrite Hm. f_equal.
    apply has_prefix_spec in Hp as [q ->]. rewrite sapp_assoc.
    change (removelast (unescape_segment <$> split_on "/" (q +:+ "/")) = unescape_segment <$> split_on "/" q).
    apply removelast_segments.
Qed.
End routes.

Lemma cleanPath_rooted p : has_prefix "/" (cleanPath p) = true.
Proof.
  unfold cleanPath. destruct (decide (p = "")); [done|].
  set (q := if has_prefix "/" p then p else _). cbv zeta.
  assert (has_prefix "/" q = true) as Hq.
  { unfold q. destruct (has_prefix "/" p) eqn:E; [done|]. apply has_prefix_spec. by exists p. }
  assert (∃ b, path_Clean q = "/" +:+ b) as [b ->].
  { unfold path_Clean. rewrite Hq, decide_False by (by intros ->). eauto. }
  case_match; apply has_prefix_spec; [|by exists b]. exists (b +:+ "/"). by rewrite sapp_assoc.
Qed.

(** ** The baseline headers survive every operation of the response writer *)

Section secured.
Variable base : list (string * string).

(** Setting [k] to [v] does not displace a baseline field. *)
Definition harmless (k v : string) : Prop := ∀ b, (k, b) ∈ base → b = v.

Lemma carries_set k v h : harmless k v → carries base h → carries base (<[k := [v]]> h).
Proof.
  unfold carries. rewrite !Forall_forall. intros Hk Hh [k' b] Hin. simpl.
  destruct (decide (k' = k)) as [->|].
  - exists []. rewrite lookup_insert_eq. by rewrite (Hk b Hin).
  - rewrite lookup_insert_ne by done. by apply (Hh (k', b)).
Qed.

Lemma carries_add k vs h :
  carries base h → carries base (partial_alter (λ old, Some (default [] old ++ vs)) k h).
Proof.
  unfold carries. rewrite !Forall_forall. intros Hh [k' b] Hin. simpl.
  destruct (Hh (k', b) Hin) as [more Hmore]. simpl in Hmore. destruct (decide (k' = k)) as [->|].
  - rewrite lookup_partial_alter_eq, Hmore. by exists (more ++ vs).
  - rewrite lookup_partial_alter_ne by done. eauto.
Qed.

Lemma secured_fields f rw :
  (carries base (rw_header rw) → carries base (f (rw_header rw))) →
  secured base rw → secured base (up_header_map f rw).
Proof.
  unfold secured. simpl. by destruct (rw_informational rw) as [|[[]]], (rw_sent rw) as [[[]]|]; auto.
Qed.
Lemma secured_SetHeader k v rw : harmless k v → secured base rw → secured base (SetHeader k v rw).
Proof. intros Hk. apply secured_fields. by apply carries_set. Qed.
Lemma secured_AddHeaders k vs rw : secured base rw → secured base (AddHeaders k vs rw).
Proof. apply secured_fields, carries_add. Qed.
Lemma secured_SetCookie c rw : secured base rw → secured base (SetCookie c rw).
Proof. done. Qed.
Lemma secured_WriteHeader status rw : secured base rw → secured base (WriteHeader status rw).
Proof.
  unfold WriteHeader, secured. destruct (rw_sent rw) as [[[]]|] eqn:E; [by rewrite E|].
  by destruct (informational status), (rw_informational rw) as [|[[]]].
Qed.
Lemma secured_Write p rw : secured base rw → secured base (Write p rw).
Proof. apply (secured_WriteHeader 200). Qed.

Lemma secured_copy_header h rw : secured base rw → secured base (copy_header h rw).
Proof.
  intros Hrw. unfold copy_header. apply (map_fold_weak_ind (λ rw _, secured base rw)); [done|].
  intros k vs m rw' _. apply secured_AddHeaders.
Qed.
Lemma secured_got1xx rw c : secured base rw → secured base (got1xxResponse rw c).
Proof.
  intros Hrw. unfold got1xxResponse. apply (secured_copy_header c.2) in Hrw.
  generalize dependent (copy_header c.2 rw). clear rw. intros rw. unfold WriteHeader, secured.
  destruct (rw_sent rw) as [[[]]|] eqn:E; [simpl; by rewrite E|].
  by destruct (informational c.1), (rw_informational rw) as [|[[]]].
Qed.
Lemma secured_foldl_got1xx pre rw : secured base rw → secured base (foldl got1xxResponse rw pre).
Proof. revert rw. induction pre as [|c pre IH]; intros rw Hrw; [done|]. by apply IH, secured_got1xx. Qed.
Lemma secured_pass_header h k rw :
  (∀ v, harmless k v) → secured base rw → secured base (pass_header h k rw).
Proof. intros Hk Hrw. unfold pass_header. cbv zeta. case_match; auto using secured_SetHeader. Qed.
End secured.

Section gateway.
Context `{HR : Runtime, HB : BffRuntime, HG : GatewayLib} (deps : Dependencies)
  `{HS : !StoreSpec (m_store (Sessions deps))} (target : URL) (proxy : APIProxy).
Implicit Types (w : BWorld) (h : HandlerFunc).
Abbreviation prefix := (APIPathPrefix deps).

(** The gateway as [run] assembles it: the proxies, the handlers and the
    manager share their settings. *)
Definition gateway : HandlerFunc :=
  RequestLogger (BuildMiddlewareStack (Some deps) (Some Recovery)
    (mux_ServeHTTP (gateway_routes (Some (StaticAssetsProxy_ServeHTTP target)) (Some deps)
                      (Some (APIProxy_ServeHTTP proxy)) prefix))).

Lemma NewBFF_gateway :
  prefix_ok prefix = true →
  NewBFF (Some (StaticAssetsProxy_ServeHTTP target)) (Some deps) (Some (APIProxy_ServeHTTP proxy))
    prefix = Some gateway.
Proof using Type. intros Hok. unfold NewBFF. by rewrite Hok. Qed.

(** The mux's own answers. *)
Definition mux_answer (r : Request) (rw : ResponseWriter) (out : option panic * ResponseWriter) : Prop :=
  out.1 = None ∧
  ((∃ p, out.2 = path_redirect p r rw) ∨ out.2 = http_Error "404 page not found" 404 rw ∨
   ∃ allow, out.2 = http_Error "Method Not Allowed" 405 (SetHeader "Allow" allow rw)).

Lemma wp_mux pts rw r Q w :
  (r_method r = "CONNECT" → target_ok r) →
  (∀ pt, pt ∈ pts → pt_subtree pt = true ∨ pt_segments pt ≠ []) →
  (∀ out, mux_answer r rw out → Q out w) →
  (∀ pt, pt ∈ pts → has_prefix "/" (EscapedPath (or_url (out_request r))) = true →
     segments_match pt (segments (EscapedPath (or_url (out_request r)))) = true →
     wp (pt_handler pt rw r) Q w) →
  wp (mux_ServeHTTP pts rw r) Q w.
Proof using Type.
  intros Hconnect Hpts Hanswer Hroute. unfold mux_ServeHTTP. cbv zeta.
  set (e := EscapedPath _) in *. set (path := if decide _ then e else _).
  destruct (_ && _ && _ && _); [apply wp_ret, Hanswer; split; [done|left; eauto]|].
  destruct (decide (path ≠ e)) as [|Hpath]; [apply wp_ret, Hanswer; split; [done|left; eauto]|].
  apply dec_stable in Hpath.
  assert (e = EmptyString ∨ has_prefix "/" e = true) as He.
  { unfold path in Hpath. destruct (decide (r_method r = "CONNECT")) as [Hm|]; [by apply Hconnect|].
    right. rewrite <-Hpath. apply cleanPath_rooted. }
  destruct (mux_match pts (r_method r) path) as [pt|] eqn:Hpt.
  - unfold mux_match in Hpt. apply find_some in Hpt as [Hin Hm]. apply list_elem_of_In in Hin.
    apply andb_prop in Hm as [_ Hm]. rewrite Hpath in Hm. apply Hroute; [done| |done].
    destruct He as [E|]; [|done]. exfalso. rewrite E in Hm. unfold segments_match in Hm.
    destruct (Hpts pt Hin) as [Hs|Hs]; destruct (pt_subtree pt); try done.
    + apply andb_prop in Hm as [_ Hm]. by destruct (pt_segments pt).
    + apply andb_prop in Hm as [_ Hm]. by destruct (pt_segments pt).
    + by apply bool_decide_eq_true in Hm.
  - destruct (filter _ _); apply wp_ret, Hanswer; split; try done; right; [by left|right; eauto].
Qed.

(** What a handler sends: at most one request, which satisfies [P]. *)
Definition sends (P : OutRequest → Prop) w w' : Prop :=
  bs_sent (w_st w') = bs_sent (w_st w) ∨ ∃ o, P o ∧ bs_sent (w_st w') = o :: bs_sent (w_st w).

Lemma sends_mono (P P' : OutRequest → Prop) w0 w w' :
  bs_sent (w_st w) = bs_sent (w_st w0) → (∀ o, P o → P' o) → sends P w w' → sends P' w0 w'.
Proof using Type. unfold sends. intros -> HP [E|(o & Ho & E)]; [by left|right; eauto]. Qed.

Definition sent_same w w' : Prop := bs_sent (w_st w') = bs_sent (w_st w).

#[local] Instance sent_same_frame : GatewayFrame sent_same.
Proof using Type.
  split.
  - unfold sent_same. split; [by intros ?|intros ???; congruence].
  - by intros w w' (_ & _ & E & _).
  - intros state w. by destruct (wp_Claim state w) as (_ & E & _).
Qed.

Lemma sends_nothing (m : Eff BWorld (option panic * ResponseWriter)) P w :
  steps sent_same m → wp m (λ _ w', sends P w w') w.
Proof using Type. intros Hm. left. apply Hm. Qed.

Lemma wp_reverse_proxy director eh rw r w :
  wp (reverse_proxy director eh rw r) (λ _ w', sends (λ o, o = sent_request director r) w w') w.
Proof using Type.
  unfold reverse_proxy. cbv zeta. destruct (negb _); [by left|].
  apply wp_bind. unfold clientDo. apply wp_bind, wp_mod_st. unfold wp at 1. simpl fst. simpl snd.
  apply wp_ret. right. eauto.
Qed.

(** The requests sent on behalf of [r], which came in at [w]. *)
Definition sent_to_static (r : Request) w (o : OutRequest) : Prop :=
  guard_passed deps r w ∧ csrf_passed deps r w ∧
  ∃ r', forwarded deps r r' w ∧ o = sent_request (target_director target) r'.

(** What the API gets of [r]: the bearer token [r] brought, or an access token
    of a session [r]'s cookie stands for. *)
Definition with_bearer (r r' : Request) w : Prop :=
  if has_bearer r then r' = r
  else ∃ tok, r' = with_header "Authorization" ("Bearer " +:+ tok) r ∧
    ((∃ s, request_session (Sessions deps) (w_st w) r s ∧ token_of deps s tok) ∨
     ∃ s, standing deps r w s ∧ tok = ss_AccessToken s).

Definition sent_to_api (r : Request) w (o : OutRequest) : Prop :=
  is_api deps r = true ∧ csrf_passed deps r w ∧
  ∃ r', with_bearer r r' w ∧ o = sent_request (api_director proxy) (forwarded_for r r').

Definition sent_for_avatar (r : Request) w (o : OutRequest) : Prop :=
  guard_passed deps r w ∧ csrf_passed deps r w ∧ ∃ s, standing deps r w s ∧ picture_request s o.

Lemma forwarded_path r r' w : forwarded deps r r' w →
  r_path r' = r_path r ∧ r_method r' = r_method r ∧ or_url (out_request r') = or_url (out_request r).
Proof using Type.
  unfold forwarded. destruct (_ && _); [|by intros ->]. by intros (s & tok & _ & _ & ->).
Qed.

Lemma forwarded_session r r' w σ s : forwarded deps r r' w →
  request_session (Sessions deps) σ r' s → request_session (Sessions deps) σ r s.
Proof using Type.
  unfold forwarded. destruct (_ && _); [|by intros ->]. by intros (s' & tok & _ & _ & ->).
Qed.

Lemma with_header_twice k v v' r : with_header k v (with_header k v' r) = with_header k v r.
Proof using Type. unfold with_header. simpl. by rewrite insert_insert_eq. Qed.

(** [r] came in at [w0] as [r0]. *)
Lemma wp_APIProxy rw r0 r w0 w :
  ap_sessions proxy = Sessions deps → is_api deps r0 = true → forwarded deps r0 r w0 →
  (∀ s, request_session (Sessions deps) (w_st w) r0 s → standing deps r0 w0 s) →
  wp (APIProxy_ServeHTTP proxy rw r) (λ _ w', sends (λ o,
    ∃ r', with_bearer r0 r' w0 ∧ o = sent_request (api_director proxy) (forwarded_for r0 r')) w w') w.
Proof using HS.
  intros Hm Ha Hfwd Hst. unfold APIProxy_ServeHTTP. cbv zeta. rewrite Hm.
  pose proof (λ s, forwarded_session r0 r w0 (w_st w) s Hfwd) as Hown.
  unfold forwarded in Hfwd. rewrite Ha in Hfwd. unfold with_bearer.
  destruct (has_bearer r0) eqn:Hb; simpl in Hfwd.
  - subst r. rewrite Hb. eapply wp_mono; [apply wp_reverse_proxy|]. intros ? w'.
    apply sends_mono; [done|]. intros o ->. by exists r0.
  - destruct Hfwd as (s & tok & Hs & Htok & ->). destruct (has_bearer (with_header _ _ _)).
    { eapply wp_mono; [apply wp_reverse_proxy|]. intros ? w'. apply sends_mono; [done|].
      intros o ->. eexists. split; [|done]. exists tok. split; [done|]. left. by exists s. }
    apply wp_bind, (wp_Get_guard deps). intros got w1 (_ & _ & E1 & _) _ Hgot.
    destruct got as [[s1|]|]; [|by left..]. specialize (Hown s1 (Hgot s1 eq_refl)).
    destruct (decide _) as [|Hne]; [by left|].
    eapply wp_mono; [apply wp_reverse_proxy|]. intros ? w'. apply sends_mono; [done|].
    intros o ->. rewrite with_header_twice. eexists. split; [|done]. exists (ss_AccessToken s1).
    split; [done|]. right. exists s1. split; [by apply Hst|done].
Qed.

(** What [Recovery] makes of the outcome of the handler it wraps. *)
Definition recovered (out : option panic * ResponseWriter) : option panic * ResponseWriter :=
  match out with
  | (Some OtherPanic, rw) =>
      (None, Write (json_error_text "internal server error")
               (WriteHeader 500 (SetHeader "Content-Type" "application/json" rw)))
  | _ => out
  end.

Lemma wp_Recovery h rw r Q w :
  wp (h rw r) (λ out w', Q (recovered out) w') w → wp (Recovery h rw r) Q w.
Proof using Type.
  intros Hh. unfold Recovery. apply wp_bind. eapply wp_mono; [exact Hh|].
  by intros [[[]|] rw'] w' HQ.
Qed.

Lemma wp_RequestLogger h rw r Q w :
  (∀ w1, store_step w w1 → w_st w1 = w_st w →
     wp (h rw r) (λ out w', ∀ w'', store_step w' w'' → w_st w'' = w_st w' → Q out w'') w1) →
  wp (RequestLogger h rw r) Q w.
Proof using Type.
  intros Hh. unfold RequestLogger. apply wp_bind. unfold wp at 1. simpl fst. simpl snd. apply wp_bind.
  eapply wp_mono; [apply Hh; [unfold store_step; simpl; split_and!; [done..|lia]|done]|].
  intros [[p|] rw'] w' HQ; [apply wp_ret, HQ; [apply reflexivity|done]|].
  apply wp_bind. unfold wp at 1. simpl. apply wp_ret, HQ; [|done].
  unfold store_step. simpl. split_and!; [done..|lia].
Qed.

Lemma gateway_routes_ok static auth api (pt : pattern) :
  has_prefix "/" prefix = true → pt ∈ gateway_routes static auth api prefix →
  pt_subtree pt = true ∨ pt_segments pt ≠ [].
Proof using Type.
  intros Hpre Hpt. unfold gateway_routes, RegisterRoutes, auth_routes, api_routes in Hpt.
  assert (segments prefix ≠ []) as Hne.
  { apply has_prefix_spec in Hpre as [q ->]. change (unescape_segment <$> split_on "/" q ≠ []).
    intros E%fmap_nil_inv. by eapply split_on_nonempty. }
  apply elem_of_cons in Hpt as [->|Hpt]; [by right|].
  rewrite !elem_of_app in Hpt. destruct Hpt as [Hpt|[Hpt|Hpt]].
  - destruct auth; repeat (apply elem_of_cons in Hpt as [->|Hpt]; [by right|]); by apply elem_of_nil in Hpt.
  - destruct api; repeat (apply elem_of_cons in Hpt as [->|Hpt]; [by (left + right)|]);
      by apply elem_of_nil in Hpt.
  - destruct static; [|by apply elem_of_nil in Hpt]. apply list_elem_of_singleton in Hpt as ->. by left.
Qed.

(** A handler of the mux sends at most one justified request. *)
Lemma wp_routes r0 w0 rw r w :
  ap_sessions proxy = Sessions deps → has_prefix "/" prefix = true →
  contains_char "%" prefix = false → (r_method r0 = "CONNECT" → target_ok r0) →
  guard_passed deps r0 w0 → csrf_passed deps r0 w0 → forwarded deps r0 r w0 →
  (∀ s, request_session (Sessions deps) (w_st w) r0 s → standing deps r0 w0 s) →
  wp (mux_ServeHTTP (gateway_routes (Some (StaticAssetsProxy_ServeHTTP target)) (Some deps)
                       (Some (APIProxy_ServeHTTP proxy)) prefix) rw r)
     (λ _ w', sends (λ o, sent_to_static r0 w0 o ∨ sent_to_api r0 w0 o ∨ sent_for_avatar r0 w0 o) w w') w.
Proof using HS.
  intros Hm Hpre Hpct Hconnect Hguard Hcsrf Hfwd Hst.
  destruct (forwarded_path _ _ _ Hfwd) as (Epath & Emethod & Eurl).
  apply wp_mux; [unfold target_ok; by rewrite Eurl, Emethod|intros pt Hpt; by eapply gateway_routes_ok|by left|].
  intros pt Hpt Hrooted Hmatch. rewrite Eurl in Hmatch, Hrooted.
  unfold gateway_routes, RegisterRoutes in Hpt.
  apply elem_of_cons in Hpt as [->|Hpt]; [by left|].
  apply elem_of_app in Hpt as [Hpt|Hpt].
  - unfold auth_routes in Hpt.
    repeat (apply elem_of_cons in Hpt as [->|Hpt]; [simpl pt_handler|]); [..|by apply elem_of_nil in Hpt].
    + apply sends_nothing, (steps_Login deps sent_same).
    + apply sends_nothing, (steps_Callback deps sent_same).
    + apply sends_nothing, (steps_Logout deps sent_same).
    + apply sends_nothing, (steps_Me deps sent_same).
    + eapply wp_mono; [apply wp_Avatar|]. intros ? w' [E|(s & o & Hs & Ho & E)]; [by left|right].
      exists o. split; [|done]. right. right. do 2 (split; [done|]). exists s. split; [|done].
      by eapply Hst, forwarded_session.
  - apply elem_of_app in Hpt as [Hpt|Hpt].
    + assert (is_api deps r0 = true) as Hapi.
      { by eapply (api_match prefix (or_url (out_request r0))). }
      assert (pt_handler pt = APIProxy_ServeHTTP proxy) as ->.
      { apply elem_of_cons in Hpt as [->|Hpt]; [done|]. by apply list_elem_of_singleton in Hpt as ->. }
      eapply wp_mono; [by eapply wp_APIProxy|]. intros ? w'. apply sends_mono; [done|].
      intros o Ho. right. by left.
    + apply list_elem_of_singleton in Hpt as ->. simpl pt_handler. unfold StaticAssetsProxy_ServeHTTP.
      eapply wp_mono; [apply wp_reverse_proxy|]. intros ? w'. apply sends_mono; [done|].
      intros o ->. left. do 2 (split; [done|]). by exists r.
Qed.

(** Whose behalf a request is sent on is a matter of the state alone. *)
Lemma justified_at r w w1 o :
  w_st w1 = w_st w →
  sent_to_static r w1 o ∨ sent_to_api r w1 o ∨ sent_for_avatar r w1 o →
  sent_to_static r w o ∨ sent_to_api r w o ∨ sent_for_avatar r w o.
Proof using Type.
  intros E1. unfold sent_to_static, sent_to_api, sent_for_avatar, with_bearer, guard_passed,
    csrf_passed, forwarded, standing. by rewrite E1.
Qed.

(** C9: Every request the gateway sends is accounted for.  Serving [r] sends at
    most one request to the servers behind the gateway, and it is one of three.
    To the static server: then [r] passed the guard (an API path, a bypassed
    path, or a session), and what is sent is the request [TokenForwarder] passed
    on.  To the API: then [r]'s path is below the API prefix, a state-changing
    [r] brought its session's CSRF token, and what is sent carries the bearer
    token [r] brought, or else, in its place, an access token of the session that
    [r]'s own cookie stands for in the state [r] came in at: the session's own,
    or the one its refresh token was exchanged for just then (where that one is
    blank, the one of the session the cookie stands for after the rotation that
    stored it).  For the avatar: a GET of the picture which the ID token of the
    session of [r]'s cookie names, with that session's access token and nothing
    else.  (The API prefix is one the router can register, and has no escapes
    in it.) *)
Theorem gateway_sends r w :
  ap_sessions proxy = Sessions deps → prefix_ok prefix = true →
  contains_char "%" prefix = false → (r_method r = "CONNECT" → target_ok r) →
  wp (gateway new_writer r) (λ _ w', sends (λ o,
    sent_to_static r w o ∨ sent_to_api r w o ∨ sent_for_avatar r w o) w w') w.
Proof using HS.
  intros Hm Hok Hpct Hconnect. apply andb_prop in Hok as [[Hpre _]%andb_prop _].
  unfold gateway. apply wp_RequestLogger. intros w1 S1 E1.
  apply (wp_stack deps).
  - intros rw r' w2 S2 _ Hguard Hcsrf Hfwd Hst. apply wp_Recovery.
    eapply wp_mono; [by eapply wp_routes|]. intros ? w3 Hsends w4 _ E4.
    unfold sends in *. rewrite E4. revert Hsends. destruct S2 as (_ & _ & -> & _). rewrite E1.
    intros [E|(o & Ho & E)]; [by left|right]. exists o. split; [|done].
    by eapply justified_at.
  - intros rw out w2 (_ & _ & E2 & _) _ _ w3 _ E3. left. by rewrite E3, E2, E1.
Qed.

Lemma baseline_harmless k v :
  k ∈ ["Content-Type"; "Location"; "Cache-Control"; "Allow"] ∨ (k, v) = ("X-Content-Type-Options", "nosniff") →
  harmless (baseline deps) k v.
Proof using Type.
  intros Hk b Hb. unfold baseline in Hb.
  destruct Hk as [Hk|[= -> ->]];
    repeat (apply elem_of_cons in Hb as [E|Hb]; [simplify_eq; set_solver|]); by apply elem_of_nil in Hb.
Qed.

(** A handler whose answers carry the baseline when its writer does. *)
Definition keeps h : Prop :=
  ∀ rw r w, secured (baseline deps) rw → wp (h rw r) (λ out _, secured (baseline deps) out.2) w.

Lemma wp_any {A} (m : Eff BWorld A) (Q : A → BWorld → Prop) w : (∀ x w', Q x w') → wp m Q w.
Proof using Type. intros HQ. apply HQ. Qed.

Lemma secured_writeError code msg rw :
  secured (baseline deps) rw → secured (baseline deps) (writeError code msg rw).
Proof using Type.
  intros Hrw. apply secured_Write, secured_WriteHeader, secured_SetHeader; [|done].
  apply baseline_harmless. left. set_solver.
Qed.

Lemma secured_Redirect p code rw :
  secured (baseline deps) rw → secured (baseline deps) (Redirect p code rw).
Proof using Type.
  intros Hrw. apply secured_WriteHeader, secured_SetHeader; [|done].
  apply baseline_harmless. left. set_solver.
Qed.

Lemma secured_http_Error msg code rw :
  secured (baseline deps) rw → secured (baseline deps) (http_Error msg code rw).
Proof using Type.
  intros Hrw. apply secured_Write, secured_WriteHeader, secured_SetHeader, secured_SetHeader; [..|done].
  - apply baseline_harmless. by right.
  - apply baseline_harmless. left. set_solver.
Qed.

(** The structural proof that a handler keeps the baseline. *)
Ltac keep_step :=
  cbv zeta;
  lazymatch goal with
  | |- wp (_ ≫= _) _ _ => apply wp_bind, wp_any; intros ? ?
  | |- wp (match _ with _ => _ end) _ _ => case_match
  | |- wp (done _) _ _ => apply wp_ret; simpl snd
  | |- wp (mret _) _ _ => apply wp_ret; simpl snd
  | |- wp (unauthorized _) _ _ => apply wp_ret; simpl snd
  | |- wp (server_error _) _ _ => apply wp_ret; simpl snd
  | |- secured _ (match _ with _ => _ end) => case_match
  | |- secured _ (writeError _ _ _) => apply secured_writeError
  | |- secured _ (Redirect _ _ _) => apply secured_Redirect
  | |- secured _ (http_Error _ _ _) => apply secured_http_Error
  | |- secured _ (EncodeJSON _ _) => apply secured_Write
  | |- secured _ (Write _ _) => apply secured_Write
  | |- secured _ (WriteHeader _ _) => apply secured_WriteHeader
  | |- secured _ (SetCookie _ _) => apply secured_SetCookie
  | |- secured _ (copy_header _ _) => apply secured_copy_header
  | |- secured _ (pass_header _ _ _) => apply secured_pass_header; [intros ?|]
  | |- secured _ (SetHeader _ _ _) => apply secured_SetHeader
  | |- harmless _ _ _ => apply baseline_harmless; left; set_solver
  | |- secured _ _ => assumption
  end.
Ltac keep_steps := repeat keep_step.

Lemma keeps_Login : keeps (Login deps).
Proof using Type. intros rw r w Hrw. unfold Login. keep_steps. Qed.
Lemma keeps_Callback : keeps (Callback deps).
Proof using Type. intros rw r w Hrw. unfold Callback. keep_steps. Qed.
Lemma keeps_Logout : keeps (Logout deps).
Proof using Type. intros rw r w Hrw. unfold Logout. keep_steps. Qed.
Lemma keeps_Me : keeps (Me deps).
Proof using Type. intros rw r w Hrw. unfold Me. keep_steps. Qed.
Lemma keeps_Avatar : keeps (Avatar deps).
Proof using Type. intros rw r w Hrw. unfold Avatar. keep_steps. Qed.

Lemma keeps_reverse_proxy director eh :
  (∀ rw, secured (baseline deps) rw → secured (baseline deps) (eh rw)) →
  keeps (reverse_proxy director eh).
Proof using Type.
  intros Heh rw r w Hrw. unfold reverse_proxy. cbv zeta. case_match; [by apply wp_ret, Heh|].
  apply wp_bind, wp_any. intros [pre resp] w'. apply wp_ret. cbn [fst snd].
  apply (secured_foldl_got1xx _ pre) in Hrw.
  repeat case_match; cbn [fst snd]; try (by apply Heh); keep_steps.
Qed.

Lemma keeps_StaticAssetsProxy : keeps (StaticAssetsProxy_ServeHTTP target).
Proof using Type. apply keeps_reverse_proxy. intros. by apply secured_http_Error. Qed.

Lemma keeps_APIProxy : keeps (APIProxy_ServeHTTP proxy).
Proof using Type.
  intros rw r w Hrw. unfold APIProxy_ServeHTTP. cbv zeta.
  assert (∀ r' w', wp (reverse_proxy (api_director proxy) (writeError 502 "bad gateway") rw r')
    (λ out _, secured (baseline deps) out.2) w') as Hserve.
  { intros r' w'. apply keeps_reverse_proxy; [|done]. intros. by apply secured_writeError. }
  case_match; [apply Hserve|]. apply wp_bind, wp_any. intros got w'.
  repeat case_match; try apply Hserve; keep_steps.
Qed.

Lemma keeps_mux pts : (∀ pt, pt ∈ pts → keeps (pt_handler pt)) → keeps (mux_ServeHTTP pts).
Proof using Type.
  intros Hpts rw r w Hrw. unfold mux_ServeHTTP, path_redirect. cbv zeta.
  destruct (_ && _ && _ && _); [keep_steps|]. destruct (decide _); [keep_steps|].
  destruct (mux_match pts (r_method r) _) as [pt|] eqn:E.
  - apply find_some in E as [Hin%list_elem_of_In _]. by apply Hpts.
  - case_match; keep_steps.
Qed.

Lemma keeps_gateway_routes (pt : pattern) :
  pt ∈ gateway_routes (Some (StaticAssetsProxy_ServeHTTP target)) (Some deps)
         (Some (APIProxy_ServeHTTP proxy)) prefix → keeps (pt_handler pt).
Proof using Type.
  intros Hpt. unfold gateway_routes, RegisterRoutes, auth_routes, api_routes in Hpt. cbn [app] in Hpt.
  repeat (apply elem_of_cons in Hpt as [->|Hpt]; [simpl pt_handler|]); [..|by apply elem_of_nil in Hpt].
  - intros rw r w Hrw. unfold healthz. keep_steps.
  - apply keeps_Login.
  - apply keeps_Callback.
  - apply keeps_Logout.
  - apply keeps_Me.
  - apply keeps_Avatar.
  - apply keeps_APIProxy.
  - apply keeps_APIProxy.
  - apply keeps_StaticAssetsProxy.
Qed.

(** C26: The first response the gateway sends to a request carries the baseline
    security headers - transport security, no sniffing, no framing, the
    configured content security policy, the referrer policy - as the first value
    of their fields, whichever handler, proxy, refusal, redirect, upstream answer
    or recovered panic it comes from.  The first response is the answer itself
    unless a proxied server sent informational responses (1xx) before its own;
    then it is the first of these, and of the answer nothing is said: its fields
    are the proxied server's alone. *)
Theorem gateway_answers_carry_baseline r w :
  wp (gateway new_writer r) (λ out _,
    match rw_informational out.2, rw_sent out.2 with
    | (_, header, _) :: _, _ => carries (baseline deps) header
    | [], Some (_, header, _) => carries (baseline deps) header
    | [], None => carries (baseline deps) (rw_header out.2)
    end) w.
Proof using HS.
  change (wp (gateway new_writer r) (λ out _, secured (baseline deps) out.2) w). unfold gateway. apply wp_RequestLogger. intros w1 S1 E1. apply (wp_stack deps).
  - intros rw r' w2 _ Hrw _ _ _ _. apply wp_Recovery.
    eapply wp_mono; [apply keeps_mux; [apply keeps_gateway_routes|exact Hrw]|].
    intros [[[]|] rw'] w3 Hout ? _ _; simpl in *; try done. keep_steps.
  - intros rw out w2 _ Hrw [_ Hout] ? _ _.
    destruct Hout as [->|(code & msg & rw' & _ & Hrw' & ->)]; [keep_steps|].
    apply secured_writeError. by destruct Hrw' as [->|[c ->]].
Qed.

(** *** The gateway's moves *)

Section frame.
Context (R : BWorld → BWorld → Prop) `{HF : !GatewayFrame R}
  (Hsent : ∀ o, steps R (mod_st (log_sent o))) (Hm : ap_sessions proxy = Sessions deps).
Set Default Proof Using "HS HF Hsent Hm".
Abbreviation moves h := (∀ rw r, steps R (h rw r)).

(** A middleware moves as what it wraps does. *)
Ltac move_step :=
  cbv zeta;
  lazymatch goal with
  | |- steps _ (_ ≫= _) => apply (steps_bind R); [| intros ?]
  | |- steps _ (mret _) => apply (steps_ret R)
  | |- steps _ (done _) => apply (steps_ret R)
  | |- steps _ (unauthorized _) => apply (steps_ret R)
  | |- steps _ (server_error _) => apply (steps_ret R)
  | |- steps _ (match _ with _ => _ end) => case_match
  | |- steps _ tNow => apply (steps_store deps R); intros ?; unfold store_step; split_and!; simpl; [done..|lia]
  | |- steps _ (Get (Sessions _) _) => apply (steps_Sessions_Get deps R)
  | |- steps _ (Destroy (Sessions _) _) => apply (steps_Sessions_Destroy deps R)
  | |- steps _ (refreshAccessToken _ _ _ _ _) =>
      apply (steps_store deps R), (steps_refreshAccessToken deps)
  | |- steps _ (clientDo _) => apply (steps_clientDo deps R Hsent)
  | |- steps _ _ => solve [auto]
  end.
Ltac move_steps := repeat move_step.

Lemma moves_reverse_proxy director eh : moves (reverse_proxy director eh).
Proof. intros rw r. unfold reverse_proxy. move_steps. Qed.

Lemma moves_APIProxy : moves (APIProxy_ServeHTTP proxy).
Proof.
  intros rw r. pose proof moves_reverse_proxy as Hproxy.
  unfold APIProxy_ServeHTTP. rewrite Hm. move_steps.
Qed.

Lemma moves_routes (pt : pattern) :
  pt ∈ gateway_routes (Some (StaticAssetsProxy_ServeHTTP target)) (Some deps)
         (Some (APIProxy_ServeHTTP proxy)) prefix → moves (pt_handler pt).
Proof.
  intros Hpt. unfold gateway_routes, RegisterRoutes, auth_routes, api_routes in Hpt. cbn [app] in Hpt.
  repeat (apply elem_of_cons in Hpt as [->|Hpt]; [simpl pt_handler; intros rw r|]);
    [..|by apply elem_of_nil in Hpt].
  - unfold healthz. move_steps.
  - apply (steps_Login deps R).
  - apply (steps_Callback deps R).
  - apply (steps_Logout deps R).
  - apply (steps_Me deps R).
  - by apply (steps_Avatar deps R).
  - apply moves_APIProxy.
  - apply moves_APIProxy.
  - apply moves_reverse_proxy.
Qed.

Lemma moves_mux pts : (∀ pt : pattern, pt ∈ pts → moves (pt_handler pt)) → moves (mux_ServeHTTP pts).
Proof.
  intros Hpts rw r. unfold mux_ServeHTTP. cbv zeta.
  destruct (_ && _ && _ && _); [move_steps|]. destruct (decide _); [move_steps|].
  destruct (mux_match pts (r_method r) _) as [pt|] eqn:E.
  - apply find_some in E as [Hin%list_elem_of_In _]. by apply Hpts.
  - case_match; move_steps.
Qed.

Lemma moves_gateway : moves gateway.
Proof.
  intros rw r. unfold gateway, RequestLogger. move_step; [move_steps|].
  apply (steps_bind R); [|intros [p rw']; move_steps].
  unfold BuildMiddlewareStack, SecurityHeaders, AuthGuard, CSRFMiddleware, TokenForwarder.
  assert (moves (Recovery (mux_ServeHTTP (gateway_routes (Some (StaticAssetsProxy_ServeHTTP target))
    (Some deps) (Some (APIProxy_ServeHTTP proxy)) prefix)))) as Hinner.
  { intros rw' r'. unfold Recovery. apply (steps_bind R); [apply moves_mux, moves_routes|].
    intros [p rw'']. move_steps. }
  generalize dependent (Recovery (mux_ServeHTTP (gateway_routes (Some (StaticAssetsProxy_ServeHTTP target))
    (Some deps) (Some (APIProxy_ServeHTTP proxy)) prefix))). intros h Hinner. move_steps.
Qed.
End frame.

(** *** A login state serves one login *)

(** Requests served one after the other. *)
Definition serve_all (rs : list Request) w : BWorld := foldl (λ w r, (gateway new_writer r w).2) w rs.

Context `{HT : !RuntimeLaws}.

#[local] Instance claims_step_frame : GatewayFrame claims_step.
Proof using HT. split; [apply _|apply claims_step_store|apply steps_Claim]. Qed.

Lemma claims_step_serve_all rs w :
  ap_sessions proxy = Sessions deps → claims_step w (serve_all rs w).
Proof using HS HT.
  intros Hm. revert w. induction rs as [|r rs IH]; intros w; [apply reflexivity|].
  etrans; [|apply IH]. apply (moves_gateway claims_step); [|done].
  intros o w'. by apply claims_step_same.
Qed.

(** A login that completes has claimed its state first. *)
Lemma wp_Callback_claims r w :
  wp (Callback deps new_writer r) (λ out w', status_of out.2 = Some 303 →
    ∃ state, callback_state r = Some state ∧ (Claim state w).1 = true ∧
             claims_step (Claim state w).2 w') w.
Proof using HS HT.
  unfold Callback. destruct (callback_state r) as [state|]; [|done].
  destruct (callback_verifier r) as [v|]; [|done]. cbv zeta. destruct (decide _); [done|].
  apply wp_bind. unfold wp at 1. destruct (Claim state w) as [ok w1] eqn:E. simpl fst. simpl snd.
  destruct ok; simpl; [|done].
  match goal with |- wp ?m _ _ => assert (steps claims_step m) as Hm end.
  { unfold readClaims, unauthorized, server_error.
    repeat (cbv zeta; lazymatch goal with
      | |- steps _ (_ ≫= _) => apply (steps_bind claims_step); [| intros ?]
      | |- steps _ (mret _) => apply (steps_ret claims_step)
      | |- steps _ (done _) => apply (steps_ret claims_step)
      | |- steps _ (match _ with _ => _ end) => case_match
      | |- steps _ (call _) => apply (steps_call deps claims_step)
      | |- steps _ generateVerifier => apply (steps_generateVerifier deps claims_step)
      | |- steps _ (Create _ _) => apply (steps_Sessions_Create deps claims_step)
      end). }
  intros _. exists state. rewrite E. split; [done|]. split; [done|]. apply Hm.
Qed.

(** C19: A login state completes one login.  If two callbacks with the same state
    both complete (303), whatever requests the gateway served in between, then
    at least five minutes of the gateway's clock lie between the second and the
    first; within that time a replayed callback is refused. *)
Theorem login_state_single_use r1 r2 rs w :
  ap_sessions proxy = Sessions deps → callback_state r1 = callback_state r2 →
  let w1 := (Callback deps new_writer r1 w).2 in
  let w2 := serve_all rs w1 in
  status_of (Callback deps new_writer r1 w).1.2 = Some 303 →
  status_of (Callback deps new_writer r2 w2).1.2 = Some 303 →
  now_of w + 5 * minute <= now_of w2.
Proof using HS HT.
  intros Hm Hsame w1 w2 H1 H2.
  destruct (wp_Callback_claims r1 w H1) as (state & E1 & C1 & S1).
  destruct (wp_Callback_claims r2 w2 H2) as (state2 & E2 & C2 & _).
  rewrite Hsame, E2 in E1. injection E1 as ->.
  apply (claimed_twice state w w2); [done| |done]. etrans; [exact S1|]. by apply claims_step_serve_all.
Qed.
End gateway.
Set Default Proof Using "Type".


(** ** A concrete gateway *)

#[local] Existing Instance table_bff.
#[local] Instance table_gateway : GatewayLib := {|
  oauth2_GenerateVerifier := λ n, "verifier" +:+ tally n;
  http_Do := λ _ o,
    (if decide (u_path (or_url o) = "/v1/hints") then [(103, {[ "Link" := ["</app.css>; rel=preload"] ]})]
     else [],
     Some {| up_status := 200; up_header := {[ "Content-Type" := ["text/plain"] ]}; up_body := "hello";
             up_complete := true |})
|}.

Definition claims_example : UserClaims :=
  {| uc_Sub := "alice"; uc_Name := "Alice"; uc_Email := ""; uc_Picture := "https://img.example/alice.svg" |}.

Definition token_example : Token :=
  {| tk_AccessToken := "at"; tk_RefreshToken := "rt"; tk_Expiry := 1000 * second; tk_id_token := Some "h.p.s" |}.

Definition deps_example `{HR : Runtime} : Dependencies := {|
  Sessions := manager_example MemoryStore;
  AuthCodeURL := λ state _, "https://idp.example/authorize?state=" +:+ state;
  ExchangeCode := λ _ code _, if decide (code = "good") then Some token_example else None;
  VerifyIDToken := Some (λ _ raw, if decide (raw = "h.p.s") then Some claims_example else None);
  RefreshTokens := None;
  EndSessionEndpoint := "https://idp.example/endsession";
  ContentSecurityPolicy := "default-src 'self'";
  InsecureCookies := false;
  APIPathPrefix := "/api";
  AuthBypassPaths := ["/auth/"; "/assets/"; "/login"]
|}.

Definition base_url (host path : string) : URL :=
  {| u_scheme := "http"; u_opaque := ""; u_user := None; u_host := host; u_path := path;
     u_rawpath := ""; u_omithost := false; u_forcequery := false; u_rawquery := ""; u_fragment := "";
     u_rawfragment := "" |}.

Definition proxy_example `{HR : Runtime} : APIProxy :=
  {| ap_target := base_url "api.internal" ""; ap_pathPrefix := "/api"; ap_upstreamPathPrefix := "/v1";
     ap_sessions := manager_example MemoryStore |}.

(** A session is open under the token "abc". *)
Definition open_world : BWorld :=
  initial_world (up_items (<["abc" := {| mi_session := session_example; mi_expires := hour |}]>) start_state).

Definition raw_request (method path rawpath : string) (cookies : list (string * string)) : Request :=
  {| r_method := method; r_path := path; r_rawpath := rawpath; r_rawquery := ""; r_host := "app";
     r_remote := "10.0.0.1:4000"; r_form := ∅; r_header := {[ "X-Csrf-Token" := ["csrf"] ]};
     r_cookies := cookies; r_body := "" |}.

Definition sent_paths `{HR : Runtime} (r : Request) : list (string * string * option (list string)) :=
  (λ o, (or_host o, EscapedPath (or_url o), or_header o !! "Authorization")) <$>
  bs_sent (w_st (gateway deps_example (base_url "static.internal" "") proxy_example new_writer r open_world).2).

(** What follows the API prefix may climb out of the upstream prefix when its
    dots are escaped: the router matches the escaped path, the director cleans
    the unescaped one. *)
Example upstream_prefix_escape :
  sent_paths (HR := table_runtime no_tables)
    (raw_request "GET" "/api/../admin" "/api/%2e%2e/admin" [("session", "abc")])
  = [("api.internal", "/admin", Some ["Bearer at"])].
Proof. vm_compute. reflexivity. Qed.

(** An escaped slash makes the forwarder see an API path and the router none:
    the session's access token goes to the static server. *)
Example bearer_reaches_static_server :
  sent_paths (HR := table_runtime no_tables)
    (raw_request "GET" "/api/x" "/api%2Fx" [("session", "abc")])
  = [("static.internal", "/api%2Fx", Some ["Bearer at"])].
Proof. vm_compute. reflexivity. Qed.

(** A bypassed prefix followed by escaped dots passes the guard with no session. *)
Example guard_bypassed_by_dots :
  sent_paths (HR := table_runtime no_tables)
    (raw_request "GET" "/assets/../secret" "/assets/%2e%2e/secret" [])
  = [("static.internal", "/assets/%2e%2e/secret", None)].
Proof. vm_compute. reflexivity. Qed.

(** Early hints from the API server leave the answer with that server's fields
    alone: the five security headers went out with the hints. *)
Example hints_take_the_baseline :
  let R := table_runtime no_tables in
  let out := (gateway deps_example (base_url "static.internal" "") proxy_example new_writer
                (raw_request "GET" "/api/hints" "" [("session", "abc")]) open_world).1.2 in
  rw_sent out = Some (200, {[ "Content-Type" := ["text/plain"] ]}, []) ∧
  (λ line, (line.1.1, line.1.2 !! "X-Frame-Options")) <$> rw_informational out = [(103, Some ["DENY"])].
Proof. vm_compute. split; reflexivity. Qed.

(** ** The hypotheses can hold *)

(** A request to the API as [TokenForwarder] hands it on. *)
Definition hints_request : Request :=
  with_header "Authorization" "Bearer at" (raw_request "GET" "/api/hints" "" [("session", "abc")]).

Lemma informational_takes_fields_witness :
  let R := table_runtime no_tables in
  let o := sent_request (api_director proxy_example) (forwarded_for hints_request hints_request) in
  let link := {[ "Link" := ["</app.css>; rel=preload"] ]} : gmap string (list string) in
  let peer := {[ "Content-Type" := ["text/plain"] ]} : gmap string (list string) in
  let rw := SetHeader "X-Frame-Options" "DENY" new_writer in
  wp (APIProxy_ServeHTTP proxy_example rw hints_request) (λ out _,
    (∃ more, rw_informational out.2 =
       rw_informational rw ++ (103, rw_header (copy_header link rw), rw_cookies rw) :: more) ∧
    rw_sent out.2 = Some (200, removeHopByHopHeaders peer, [])) open_world.
Proof.
  intros R o link peer rw.
  apply (informational_takes_fields (APIProxy_ServeHTTP proxy_example) rw hints_request o open_world
           103 link [] {| up_status := 200; up_header := peer; up_body := "hello"; up_complete := true |}).
  - right. exists proxy_example. split; [reflexivity|]. split; [vm_compute; reflexivity|reflexivity].
  - reflexivity.
  - vm_compute. reflexivity.
  - vm_compute. reflexivity.
  - constructor; [simpl; lia|constructor].
  - simpl. lia.
Defined.

Lemma gateway_sends_witness :
  let R := table_runtime no_tables in
  let r := raw_request "POST" "/api/users" "" [("session", "abc")] in
  let static := base_url "static.internal" "" in
  sent_paths r = [("api.internal", "/v1/users", Some ["Bearer at"])] ∧
  wp (gateway deps_example static proxy_example new_writer r)
     (λ _ w', sends (λ o, sent_to_static deps_example static r open_world o ∨
        sent_to_api deps_example proxy_example r open_world o ∨
        sent_for_avatar deps_example r open_world o) open_world w') open_world.
Proof.
  intros R r static. split; [by vm_compute|].
  by apply (gateway_sends deps_example static proxy_example r open_world).
Defined.

Definition callback_example : Request :=
  {| r_method := "GET"; r_path := "/auth/callback"; r_rawpath := ""; r_rawquery := "state=st&code=good";
     r_host := "app"; r_remote := "10.0.0.1:4000"; r_form := ∅; r_header := ∅;
     r_cookies := [("oidc_state", "st"); ("oidc_verifier", "v")]; r_body := "" |}.

(** Enough requests in between for five minutes of the example's clock. *)
Definition five_minutes : list Request :=
  replicate 200 (raw_request "GET" "/healthz" "" [("session", "abc")]).

Lemma login_state_single_use_witness :
  let R := table_runtime no_tables in let T := table_laws no_tables in
  let static := base_url "static.internal" "" in
  let out1 := Callback deps_example new_writer callback_example open_world in
  let w2 := serve_all deps_example static proxy_example five_minutes out1.2 in
  status_of out1.1.2 = Some 303 ∧
  status_of (Callback deps_example new_writer callback_example out1.2).1.2 = Some 401 ∧
  now_of open_world + 5 * minute <= now_of w2.
Proof.
  intros R T static out1 w2. split; [by vm_compute|]. split; [by vm_compute|].
  apply (login_state_single_use deps_example static proxy_example callback_example callback_example
           five_minutes open_world); [done|done|by vm_compute|by vm_compute].
Defined.

Lemma api_director_confined_witness :
  let R := table_runtime no_tables in
  let r := raw_request "GET" "/api/users/7/" "" [] in
  let o := api_director proxy_example (out_request r) in
  u_path (or_url o) = "/v1/users/7" ∧
  u_scheme (or_url o) = "http" ∧ u_host (or_url o) = "api.internal" ∧
  or_host o = "api.internal" ∧ or_method o = "GET" ∧
  (u_path (or_url o) = "/v1" ∨ ∃ t, u_path (or_url o) = "/v1" +:+ "/" +:+ t).
Proof.
  intros R r o. split; [by vm_compute|].
  apply (api_director_confined proxy_example r); [done..| |by vm_compute|].
  - exists ["v1"]. split; [done|]. by repeat constructor.
  - by repeat constructor.
Defined.


Lemma Logout_ends_session_witness :
  let R := table_runtime no_tables in
  let r := raw_request "POST" "/auth/logout" "" [("session", "abc")] in
  (Get (Sessions deps_example) r open_world).1 = Some (Some session_example) ∧
  status_of (Logout deps_example new_writer r open_world).1.2 = Some 200 ∧
  wp (Logout deps_example new_writer r) (λ out w',
    refused [500] out ∨
    ∃ target, out.1 = None ∧ status_of out.2 = Some 200 ∧
      rw_cookies out.2 = [ set_cookie (Sessions deps_example) EmptyString (-1);
                           auth_cookie deps_example csrfCookieName EmptyString false (-1) ] ∧
      (∀ s, (Get (Sessions deps_example) r open_world).1 = Some (Some s) →
         request_session (Sessions deps_example) (w_st open_world) r s) ∧
      logout_target deps_example (Get (Sessions deps_example) r open_world).1 target ∧
      rw_body out.2 = json_text (JObj [("redirectTo", JStr target)]) +:+ newline ∧
      ∀ s, ¬ request_session (Sessions deps_example) (w_st w') r s) open_world.
Proof.
  intros R r. split; [by vm_compute|]. split; [by vm_compute|].
  apply (Logout_ends_session deps_example r open_world). intros v [= <-]. by vm_compute.
Defined.
