(* ===== verification/BffConfig.v ===== *)
(** * Configuration and start-up of the gateway

    [bff/internal/config], [handler/oidc.go], [handler/oidc_runtime.go] and
    [cmd/bff/main.go]: reading and checking the environment, building the OpenID
    Connect functions with retries, choosing the session store, and assembling the
    server.  The OAuth and OpenID Connect libraries are arguments. *)

From S2P Require Import Prelude GoStrings GoNet GoURL GoBase64 Runtime RuntimeExample GoJson.
From S2P Require Import GoPath BffSession BffManager BffHandler BffMiddleware BffServer.
From S2P Require Import BffGateway.
From Stdlib Require Import Ascii.
From stdpp Require Import options.
Local Open Scope Z_scope.

(** ** Configuration *)

Record BFFConfig := {
  OIDCIssuerURL : string;
  OIDCClientID : string;
  OIDCClientSecret : string;
  OIDCScopes : list string;
  BFFExternalURL : string;
  SessionSecret : string;
  SessionCookieName : string;
  SessionStorageType : string;
  RedisURL : string;
  APIBaseURL : string;
  cfg_APIPathPrefix : string;
  APIUpstreamPathPrefix : string;
  StaticAssetsBaseURL : string;
  cfg_ContentSecurityPolicy : string;
  cfg_InsecureCookies : bool;
  cfg_AuthBypassPaths : list string
}.

Definition DefaultContentSecurityPolicy : string := "default-src 'self'; script-src 'self'".

Section config.
Context `{HR : Runtime} (env : string → string).

Definition defaultString (key value : string) : string :=
  let raw := trim_space (env key) in if decide (raw = EmptyString) then value else raw.

(** [inr] is the error. *)
Definition parseBoolDefault (key : string) (fallback : bool) : bool + string :=
  let raw := trim_space (env key) in
  if decide (raw = EmptyString) then inl fallback
  else match parse_bool raw with
       | Some v => inl v
       | None => inr (key +:+ " must be a boolean")
       end.

Definition parseScopes (raw : string) : list string :=
  let raw := trim_space raw in
  if decide (raw = EmptyString) then ["openid"; "profile"; "email"; "offline_access"]
  else List.filter (λ s, negb (bool_decide (s = EmptyString))) (fields raw).

Definition normalizePathPrefix (p : string) : string :=
  let p := trim_right_char "/" p in
  if has_prefix "/" p then p else "/" +:+ p.

Definition parseAuthBypassPaths (raw : string) : list string :=
  let raw := trim_space raw in
  if decide (raw = EmptyString) then ["/auth/"; "/assets/"; "/login"; "/healthz"; "/favicon.ico"]
  else trim_suffix "*" <$> List.filter (λ p, negb (bool_decide (p = EmptyString))) (fields raw).

(** The errors of [Validate], in order; none means the configuration is valid. *)
Definition required (v name : string) : list string :=
  if decide (v = EmptyString) then [name +:+ " is required"] else [].

Definition storage_errors (c : BFFConfig) : list string :=
  if decide (SessionStorageType c = "memory" ∨ SessionStorageType c = "cookie") then []
  else if decide (SessionStorageType c = "redis") then
    if decide (RedisURL c = EmptyString)
    then ["REDIS_URL is required when SESSION_STORAGE_TYPE=redis"] else []
  else ["SESSION_STORAGE_TYPE must be one of: memory, redis, cookie (got " +:+
        go_quote (SessionStorageType c) +:+ ")"].

Definition Validate (c : BFFConfig) : list string :=
  required (OIDCIssuerURL c) "OIDC_ISSUER_URL" ++
  required (OIDCClientID c) "OIDC_CLIENT_ID" ++
  required (OIDCClientSecret c) "OIDC_CLIENT_SECRET" ++
  required (BFFExternalURL c) "BFF_EXTERNAL_URL" ++
  (if decide (Z.of_nat (String.length (SessionSecret c)) < 32)
   then ["SESSION_SECRET must be at least 32 bytes"] else []) ++
  storage_errors c ++
  required (APIBaseURL c) "API_BASE_URL" ++
  required (StaticAssetsBaseURL c) "STATIC_ASSETS_BASE_URL".

Definition read_config (insecureCookies : bool) : BFFConfig :=
  let apiPathPrefix := normalizePathPrefix (defaultString "API_PATH_PREFIX" "/api") in
  let raw := trim_space (env "API_UPSTREAM_PATH_PREFIX") in
  {| OIDCIssuerURL := trim_space (env "OIDC_ISSUER_URL");
     OIDCClientID := trim_space (env "OIDC_CLIENT_ID");
     OIDCClientSecret := trim_space (env "OIDC_CLIENT_SECRET");
     OIDCScopes := parseScopes (env "OIDC_SCOPES");
     BFFExternalURL := trim_space (env "BFF_EXTERNAL_URL");
     SessionSecret := env "SESSION_SECRET";
     SessionCookieName := defaultString "SESSION_COOKIE_NAME" "session";
     SessionStorageType := defaultString "SESSION_STORAGE_TYPE" "memory";
     RedisURL := trim_space (env "REDIS_URL");
     APIBaseURL := trim_space (env "API_BASE_URL");
     cfg_APIPathPrefix := apiPathPrefix;
     APIUpstreamPathPrefix :=
       if decide (raw ≠ EmptyString) then normalizePathPrefix raw else apiPathPrefix;
     StaticAssetsBaseURL := trim_space (env "STATIC_ASSETS_BASE_URL");
     cfg_ContentSecurityPolicy := defaultString "CONTENT_SECURITY_POLICY" DefaultContentSecurityPolicy;
     cfg_InsecureCookies := insecureCookies;
     cfg_AuthBypassPaths := parseAuthBypassPaths (env "AUTH_BYPASS_PATHS") |}.

Definition LoadBFF : BFFConfig + list string :=
  match parseBoolDefault "INSECURE_COOKIES" false with
  | inr e => inr [e]
  | inl insecureCookies =>
      let cfg := read_config insecureCookies in
      match Validate cfg with [] => inl cfg | errs => inr errs end
  end.

(** The port of [LoadServer]; its [Validate] refuses a blank one. *)
Definition LoadServer : option string :=
  let port := defaultString "PORT" "8080" in
  if decide (trim_space port = EmptyString) then None else Some port.
End config.

(** ** OpenID Connect *)

Record oauth2_Config (Endpoint : Type) := {
  oc_ClientID : string;
  oc_ClientSecret : string;
  oc_Endpoint : Endpoint;
  oc_RedirectURL : string;
  oc_Scopes : list string
}.
Arguments oc_ClientID {Endpoint}.

(** The libraries: discovery, the authorization address with an S256 challenge
    of a verifier, the two token requests, the verification of an ID token for a
    client (its claims), and the parsing of a Redis address. *)
Class OIDCLib := {
  Provider : Type;
  Endpoint : Type;
  oidc_NewProvider : nat → string → option Provider;
  provider_Endpoint : Provider → Endpoint;
  provider_end_session : Provider → option string;
  oauth2_AuthCodeURL : oauth2_Config Endpoint → string → string → string;
  oauth2_Exchange : nat → oauth2_Config Endpoint → string → string → option Token;
  oauth2_Refresh : nat → oauth2_Config Endpoint → string → option Token;
  verifier_Verify : nat → Provider → string → string → option json;
  redis_ParseURL : string → bool
}.

Record OIDCDependencies := {
  od_AuthCodeURL : string → string → string;
  od_ExchangeCode : nat → string → string → option Token;
  od_VerifyIDToken : nat → string → option UserClaims;
  od_RefreshTokens : nat → string → option Token;
  od_EndSessionEndpoint : string
}.

Section startup.
Context `{HR : Runtime, HB : BffRuntime, HG : GatewayLib, HO : OIDCLib}.

(** [OAuthClient]: a configuration, or none. *)
Definition client_AuthCodeURL (c : option (oauth2_Config Endpoint)) (state verifier : string) : string :=
  match c with None => "/login" | Some c => oauth2_AuthCodeURL c state verifier end.
Definition client_ExchangeCode (c : option (oauth2_Config Endpoint)) (n : nat) (code verifier : string)
    : option Token := c ← c; oauth2_Exchange n c code verifier.
Definition client_RefreshTokens (c : option (oauth2_Config Endpoint)) (n : nat) (refreshToken : string)
    : option Token := c ← c; oauth2_Refresh n c refreshToken.

Definition claims_of (j : json) : option UserClaims :=
  match j with JObj ms => decode_claims ms | JNull => decode_claims [] | _ => None end.

Definition oauth_config (cfg : BFFConfig) (p : Provider) : oauth2_Config Endpoint :=
  {| oc_ClientID := OIDCClientID cfg; oc_ClientSecret := OIDCClientSecret cfg;
     oc_Endpoint := provider_Endpoint p; oc_RedirectURL := BFFExternalURL cfg +:+ "/auth/callback";
     oc_Scopes := OIDCScopes cfg |}.

(** What [BuildOIDCDependencies] makes of a discovered provider. *)
Definition oidc_dependencies (cfg : BFFConfig) (p : Provider) : OIDCDependencies :=
  let client := Some (oauth_config cfg p) in
  {| od_AuthCodeURL := client_AuthCodeURL client;
     od_ExchangeCode := client_ExchangeCode client;
     od_RefreshTokens := client_RefreshTokens client;
     od_VerifyIDToken := λ n raw, verifier_Verify n p (OIDCClientID cfg) raw ≫= claims_of;
     od_EndSessionEndpoint :=
       BuildEndSessionURL (default EmptyString (provider_end_session p))
         (BFFExternalURL cfg +:+ "/login") EmptyString |}.

Definition BuildOIDCDependencies (cfg : BFFConfig) : Eff BWorld (option OIDCDependencies) :=
  p ← call (λ n, oidc_NewProvider n (OIDCIssuerURL cfg));
  mret (oidc_dependencies cfg <$> p).

Definition maxAttempts : nat := 30.

(** [time.Sleep]: the clock goes on. *)
Definition sleep : Eff BWorld unit := tNow;; mret tt.

(** The attempts left, the last one not followed by a pause. *)
Fixpoint retry (attempts : nat) (cfg : BFFConfig) : Eff BWorld (option OIDCDependencies) :=
  match attempts with
  | O => mret None
  | S more =>
      deps ← BuildOIDCDependencies cfg;
      match deps with
      | Some deps => mret (Some deps)
      | None => (if decide (more = O) then mret tt else sleep);; retry more cfg
      end
  end.

Definition BuildOIDCDependenciesWithRetry : BFFConfig → Eff BWorld (option OIDCDependencies) :=
  retry maxAttempts.

(** ** Assembly *)

(** [None]: the Redis address does not parse. *)
Definition newSessionStore (cfg : BFFConfig) : option Store :=
  if decide (SessionStorageType cfg = "redis") then
    if redis_ParseURL (RedisURL cfg) then Some (NewRedisStore (SessionCookieName cfg)) else None
  else if decide (SessionStorageType cfg = "cookie") then Some (NewCookieStore (SessionSecret cfg))
  else Some MemoryStore.

Definition NewManager (store : Store) (cookieName : string) (insecureCookie : bool) : Manager :=
  {| m_store := store; m_cookieName := cookieName; m_insecureCookie := insecureCookie |}.

(** [handler.New]: an empty API prefix becomes the default. *)
Definition New (deps : Dependencies) : Dependencies :=
  {| Sessions := Sessions deps; AuthCodeURL := AuthCodeURL deps; ExchangeCode := ExchangeCode deps;
     VerifyIDToken := VerifyIDToken deps; RefreshTokens := RefreshTokens deps;
     EndSessionEndpoint := EndSessionEndpoint deps;
     ContentSecurityPolicy := ContentSecurityPolicy deps; InsecureCookies := InsecureCookies deps;
     APIPathPrefix := if decide (APIPathPrefix deps = EmptyString) then "/api" else APIPathPrefix deps;
     AuthBypassPaths := AuthBypassPaths deps |}.

Definition handler_dependencies (cfg : BFFConfig) (m : Manager) (od : OIDCDependencies) : Dependencies :=
  {| Sessions := m; AuthCodeURL := od_AuthCodeURL od; ExchangeCode := od_ExchangeCode od;
     VerifyIDToken := Some (od_VerifyIDToken od); RefreshTokens := Some (od_RefreshTokens od);
     EndSessionEndpoint := od_EndSessionEndpoint od;
     ContentSecurityPolicy := cfg_ContentSecurityPolicy cfg; InsecureCookies := cfg_InsecureCookies cfg;
     APIPathPrefix := cfg_APIPathPrefix cfg; AuthBypassPaths := cfg_AuthBypassPaths cfg |}.

(** [run] up to [ListenAndServe]: the address and the handler to serve. *)
Definition run (env : string → string) : Eff BWorld (option (string * HandlerFunc)) :=
  match LoadBFF env, LoadServer env with
  | inl cfg, Some port =>
      match newSessionStore cfg with
      | None => mret None
      | Some store =>
          oidcDeps ← BuildOIDCDependenciesWithRetry cfg;
          mret (od ← oidcDeps;
                let m := NewManager store (SessionCookieName cfg) (cfg_InsecureCookies cfg) in
                let auth := New (handler_dependencies cfg m od) in
                apiProxy ← NewAPIProxy (Some m) (APIBaseURL cfg) (cfg_APIPathPrefix cfg)
                             (APIUpstreamPathPrefix cfg);
                static ← NewStaticAssetsProxy (StaticAssetsBaseURL cfg);
                h ← NewBFF (Some (StaticAssetsProxy_ServeHTTP static)) (Some auth)
                      (Some (APIProxy_ServeHTTP apiProxy)) (cfg_APIPathPrefix cfg);
                Some (":" +:+ port, h))
      end
  | _, _ => mret None
  end.
End startup.

(** ** What the configuration guarantees *)

Section config_facts.
Context `{HR : Runtime}.

Lemma required_nil v name : required v name = [] ↔ v ≠ EmptyString.
Proof. unfold required. by destruct (decide _). Qed.

Lemma trim_left_char_head c s : has_prefix (String c EmptyString) (trim_left_char c s) = false.
Proof.
  induction s as [|a s IH]; [done|]. cbn [trim_left_char]. destruct (decide (a = c)) as [->|Hne]; [done|].
  cbn [has_prefix]. rewrite bool_decide_eq_false_2; [done|]. by intros ->.
Qed.

Lemma trim_right_char_end c s : has_suffix (String c EmptyString) (trim_right_char c s) = false.
Proof.
  unfold has_suffix, trim_right_char. rewrite srev_involutive. apply trim_left_char_head.
Qed.

(** A normalised prefix starts with a slash, and ends with one only when it is
    nothing else. *)
Lemma normalizePathPrefix_ok p :
  has_prefix "/" (normalizePathPrefix p) = true ∧
  (normalizePathPrefix p = "/" ∨ has_suffix "/" (normalizePathPrefix p) = false).
Proof.
  unfold normalizePathPrefix. cbv zeta. pose proof (trim_right_char_end "/" p) as Hend.
  set (q := trim_right_char "/" p) in *.
  destruct (has_prefix "/" q) eqn:E; [split; [done|by right]|].
  split; [apply has_prefix_spec; by exists q|].
  destruct q as [|c q'] eqn:Eq; [by left|right]. rewrite <-Eq in *.
  destruct (has_suffix "/" ("/" +:+ q)) eqn:Es; [|done].
  apply has_suffix_spec in Es as [r Hr]. destruct r as [|x r].
  - rewrite sapp_nil_l, Eq in Hr. done.
  - rewrite sapp_cons in Hr. injection Hr as _ Hr.
    assert (has_suffix "/" q = true) by (apply has_suffix_spec; by exists r). congruence.
Qed.

(** A configuration the gateway can run with. *)
Definition config_ok (c : BFFConfig) : Prop :=
  OIDCIssuerURL c ≠ EmptyString ∧ OIDCClientID c ≠ EmptyString ∧ OIDCClientSecret c ≠ EmptyString ∧
  BFFExternalURL c ≠ EmptyString ∧ 32 <= Z.of_nat (String.length (SessionSecret c)) ∧
  (SessionStorageType c = "memory" ∨ SessionStorageType c = "cookie" ∨
   SessionStorageType c = "redis" ∧ RedisURL c ≠ EmptyString) ∧
  APIBaseURL c ≠ EmptyString ∧ StaticAssetsBaseURL c ≠ EmptyString.

Lemma Validate_nil c : Validate c = [] ↔ config_ok c.
Proof.
  unfold Validate, config_ok. rewrite !app_nil, !required_nil.
  assert ((if decide (Z.of_nat (String.length (SessionSecret c)) < 32)
           then ["SESSION_SECRET must be at least 32 bytes"] else []) = [] ↔
          32 <= Z.of_nat (String.length (SessionSecret c))) as ->.
  { destruct (decide _); split; (done || lia). }
  assert (storage_errors c = [] ↔ (SessionStorageType c = "memory" ∨ SessionStorageType c = "cookie" ∨
    SessionStorageType c = "redis" ∧ RedisURL c ≠ EmptyString)) as ->; [|tauto].
  unfold storage_errors. destruct (decide (_ ∨ _)) as [Hs|Hs]; [tauto|].
  destruct (decide (SessionStorageType c = "redis")); [|split; [done|tauto]].
  destruct (decide (RedisURL c = EmptyString)); split; (done || tauto).
Qed.

(** C32: The gateway starts only with a configuration it can run with, and
    whenever the environment gives one.  [LoadBFF] returns a configuration
    exactly when the boolean setting parses and the configuration read has an
    issuer, a client and its secret, an external address, a session secret of at
    least 32 bytes, a known session store (with its address for Redis), an API
    and a static server; and in what it returns the two path prefixes start with
    a slash and end with none (or are the slash alone). *)
Theorem LoadBFF_exact env :
  (∀ cfg, LoadBFF env = inl cfg ↔
     ∃ insecure, parseBoolDefault env "INSECURE_COOKIES" false = inl insecure ∧
                 cfg = read_config env insecure ∧ config_ok cfg) ∧
  (∀ cfg, LoadBFF env = inl cfg → ∀ p, p = cfg_APIPathPrefix cfg ∨ p = APIUpstreamPathPrefix cfg →
     has_prefix "/" p = true ∧ (p = "/" ∨ has_suffix "/" p = false)).
Proof.
  assert (∀ cfg, LoadBFF env = inl cfg ↔
     ∃ insecure, parseBoolDefault env "INSECURE_COOKIES" false = inl insecure ∧
                 cfg = read_config env insecure ∧ config_ok cfg) as Hload.
  { intros cfg. unfold LoadBFF.
    destruct (parseBoolDefault _ _ _) as [insecure|e]; [|split; [done|by intros (? & ? & _)]]. cbv zeta.
    pose proof (Validate_nil (read_config env insecure)) as Hv.
    destruct (Validate (read_config env insecure)) as [|e errs].
    - split; [intros [= <-]; exists insecure; tauto|]. by intros (? & [= <-] & -> & _).
    - split; [done|]. intros (? & [= <-] & -> & Hok). by apply Hv in Hok. }
  split; [exact Hload|]. intros cfg Hcfg p Hp. apply Hload in Hcfg as (insecure & _ & -> & _).
  destruct Hp as [-> | ->]; simpl.
  - apply normalizePathPrefix_ok.
  - destruct (decide _); apply normalizePathPrefix_ok.
Qed.
End config_facts.

(** ** Discovery with retries, and the assembled gateway *)

Section startup_facts.
Context `{HR : Runtime, HB : BffRuntime, HG : GatewayLib, HO : OIDCLib}.
Implicit Types (w : BWorld).

Lemma New_id deps : APIPathPrefix deps ≠ EmptyString → New deps = deps.
Proof. intros Hne. destruct deps. unfold New. cbn in *. by rewrite decide_False. Qed.

Abbreviation discovery cfg n := (oidc_NewProvider n (OIDCIssuerURL cfg)).

(** The first of the exchanges [n], [n+1], ... that finds the provider. *)
Definition first_success (cfg : BFFConfig) (n attempts k : nat) (p : Provider) : Prop :=
  (k < attempts)%nat ∧ discovery cfg (n + k)%nat = Some p ∧
  ∀ j, (j < k)%nat → discovery cfg (n + j)%nat = None.

(** At most [attempts] attempts, the first success ends them. *)
Lemma wp_retry attempts cfg w :
  wp (retry attempts cfg) (λ res w', w_st w' = w_st w ∧
    match res with
    | Some od => ∃ k p, first_success cfg (w_net w) attempts k p ∧ od = oidc_dependencies cfg p ∧
                        w_net w' = (w_net w + k + 1)%nat ∧ w_clock w' = (w_clock w + k)%nat
    | None => (∀ j, (j < attempts)%nat → discovery cfg (w_net w + j)%nat = None) ∧
              w_net w' = (w_net w + attempts)%nat ∧ w_clock w' = (w_clock w + pred attempts)%nat
    end) w.
Proof.
  revert w. induction attempts as [|more IH]; intros w; cbn [retry].
  { apply wp_ret. split; [done|]. split; [lia|]. simpl. lia. }
  apply wp_bind. unfold BuildOIDCDependencies. apply wp_bind. unfold wp at 1. simpl fst. simpl snd.
  destruct (discovery cfg (w_net w)) as [p|] eqn:Hp; apply wp_ret; cbn [fmap option_fmap option_map].
  - apply wp_ret. split; [done|]. exists O, p. simpl. split_and!; [|done|lia..].
    split; [lia|]. split; [by rewrite Nat.add_0_r|lia].
  - apply wp_bind.
    set (w1 := mkWorld (w_st w) (w_clock w + (if decide (more = O) then 0 else 1))%nat (w_uuid w)
                 (w_rand w) (w_range w) (S (w_net w)) (w_dials w)).
    match goal with |- wp ?m ?Q ?w0 => assert (m w0 = (tt, w1)) as Hpause end.
    { unfold w1. destruct (decide (more = O)).
      - unfold mret, eff_ret. do 2 f_equal. simpl. by rewrite Nat.add_0_r.
      - unfold sleep, mbind, eff_bind. simpl. do 2 f_equal. lia. }
    unfold wp at 1. rewrite Hpause. simpl fst. simpl snd.
    assert (∀ j, discovery cfg (w_net w + S j)%nat = discovery cfg (w_net w1 + j)%nat) as Hshift.
    { intros j. simpl. by rewrite Nat.add_succ_r. }
    eapply wp_mono; [apply IH|]. intros [od|] w2 [E Hres]; (split; [done|]).
    + destruct Hres as (k & q & (Hk & Hq & Hnone) & -> & En & Ec). exists (S k), q.
      rewrite En, Ec. unfold first_success. rewrite Hshift. simpl.
      split_and!; [lia|done| |done|lia|destruct (decide (more = O)); lia].
      intros [|j] Hj; [by rewrite Nat.add_0_r|]. rewrite Hshift. apply Hnone. lia.
    + destruct Hres as (Hnone & En & Ec). rewrite En, Ec. simpl.
      split_and!; [|lia|destruct (decide (more = O)); lia].
      intros [|j] Hj; [by rewrite Nat.add_0_r|]. rewrite Hshift. apply Hnone. lia.
Qed.

(** C33: Start-up waits for the provider, for a bounded time.
    [BuildOIDCDependenciesWithRetry] ends after at most 30 discoveries: with the
    functions of the first provider found, after one pause per failure before
    it; or with an error exactly when all 30 failed, after 29 pauses. *)
Theorem BuildOIDCDependenciesWithRetry_bounded cfg w :
  wp (BuildOIDCDependenciesWithRetry cfg) (λ res w', w_st w' = w_st w ∧
    match res with
    | Some od => ∃ k p, first_success cfg (w_net w) 30 k p ∧ od = oidc_dependencies cfg p ∧
                        w_net w' = (w_net w + k + 1)%nat ∧ w_clock w' = (w_clock w + k)%nat
    | None => (∀ j, (j < 30)%nat → discovery cfg (w_net w + j)%nat = None) ∧
              w_net w' = (w_net w + 30)%nat ∧ w_clock w' = (w_clock w + 29)%nat
    end) w.
Proof. apply (wp_retry 30). Qed.

Lemma proxy_target_inv u t : proxy_target u = Some t → url_Parse u = Some t.
Proof.
  unfold proxy_target. destruct (decide _); [done|].
  destruct (url_Parse u); cbn [mbind option_bind]; [|done]. by destruct (decide _).
Qed.

Lemma NewAPIProxy_inv m base pre up proxy :
  NewAPIProxy (Some m) base pre up = Some proxy →
  url_Parse base = Some (ap_target proxy) ∧ ap_pathPrefix proxy = pre ∧
  ap_upstreamPathPrefix proxy = up ∧ ap_sessions proxy = m.
Proof.
  unfold NewAPIProxy. destruct (decide _); [done|]. cbn [mbind option_bind].
  destruct (proxy_target base) as [t|] eqn:Ht; [|done]. intros [= <-].
  by apply proxy_target_inv in Ht.
Qed.

(** C31: What [run] serves is the gateway of the theorems above.  If start-up
    succeeds, the environment's configuration was accepted and the handler it
    serves is [gateway] of: handlers and an API proxy that share one session
    manager, over the store the configuration names, and one API prefix that the
    router accepts; an ID-token verifier that checks tokens for the configured
    client at a provider discovered at the configured issuer; cookies marked
    secure unless insecure ones were configured; and proxies to the configured
    servers. *)
Theorem run_serves env w :
  wp (run env) (λ res _, ∀ addr h, res = Some (addr, h) →
    ∃ cfg store p n deps proxy target,
      LoadBFF env = inl cfg ∧ newSessionStore cfg = Some store ∧ discovery cfg n = Some p ∧
      h = gateway deps target proxy ∧
      Sessions deps = NewManager store (SessionCookieName cfg) (cfg_InsecureCookies cfg) ∧
      VerifyIDToken deps = Some (λ n raw, verifier_Verify n p (OIDCClientID cfg) raw ≫= claims_of) ∧
      InsecureCookies deps = cfg_InsecureCookies cfg ∧
      APIPathPrefix deps = cfg_APIPathPrefix cfg ∧ prefix_ok (APIPathPrefix deps) = true ∧
      ap_sessions proxy = Sessions deps ∧ ap_pathPrefix proxy = APIPathPrefix deps ∧
      ap_upstreamPathPrefix proxy = APIUpstreamPathPrefix cfg ∧
      url_Parse (APIBaseURL cfg) = Some (ap_target proxy) ∧
      url_Parse (StaticAssetsBaseURL cfg) = Some target) w.
Proof.
  unfold run. destruct (LoadBFF env) as [cfg|errs] eqn:Hload; [|done].
  destruct (LoadServer env) as [port|]; [|done].
  destruct (newSessionStore cfg) as [store|] eqn:Hstore; [|done].
  apply wp_bind. eapply wp_mono; [apply (wp_retry 30)|]. intros [od|] w1 [_ Hres]; apply wp_ret; [|done].
  destruct Hres as (k & p & (_ & Hp & _) & -> & _). cbn [mbind option_bind]. cbv zeta.
  intros addr h Hh.
  destruct (NewAPIProxy _ _ _ _) as [proxy|] eqn:Hproxy; [|done]. cbn [mbind option_bind] in Hh.
  destruct (NewStaticAssetsProxy _) as [target|] eqn:Htarget; [|done]. cbn [mbind option_bind] in Hh.
  destruct (prefix_ok (cfg_APIPathPrefix cfg)) eqn:Hok; [|unfold NewBFF in Hh; by rewrite Hok in Hh].
  assert (cfg_APIPathPrefix cfg ≠ EmptyString) as Hne by (intros E; by rewrite E in Hok).
  set (m := NewManager store (SessionCookieName cfg) (cfg_InsecureCookies cfg)) in *.
  set (deps := handler_dependencies cfg m (oidc_dependencies cfg p)) in *.
  rewrite New_id in Hh by done.
  assert (NewBFF (Some (StaticAssetsProxy_ServeHTTP target)) (Some deps)
    (Some (APIProxy_ServeHTTP proxy)) (cfg_APIPathPrefix cfg) = Some (gateway deps target proxy)) as Egw
    by exact (NewBFF_gateway deps target proxy Hok).
  rewrite Egw in Hh. injection Hh as _ <-. clear Egw.
  apply NewAPIProxy_inv in Hproxy as (Htgt & Hpre & Hup & Hsess).
  exists cfg, store, p, (w_net w + k)%nat, deps, proxy, target.
  split; [reflexivity|]. split; [exact Hstore|]. split; [exact Hp|]. split; [reflexivity|].
  do 4 (split; [reflexivity|]). split; [exact Hok|]. split; [exact Hsess|]. split; [exact Hpre|].
  split; [exact Hup|]. split; [exact Htgt|]. by apply proxy_target_inv.
Qed.
End startup_facts.

(** ** A concrete start-up *)

#[local] Existing Instance table_bff.
#[local] Existing Instance table_gateway.

(** A provider that answers from the third discovery on. *)
#[local] Instance table_oidc : OIDCLib := {|
  Provider := unit;
  Endpoint := unit;
  oidc_NewProvider := λ n _, if (n <? 2)%nat then None else Some tt;
  provider_Endpoint := λ _, tt;
  provider_end_session := λ _, Some "https://idp.example/endsession";
  oauth2_AuthCodeURL := λ c state _, "https://idp.example/authorize?state=" +:+ state;
  oauth2_Exchange := λ _ _ code _, if decide (code = "good") then Some token_example else None;
  oauth2_Refresh := λ _ _ _, None;
  verifier_Verify := λ _ _ _ raw, text_object raw;
  redis_ParseURL := λ _, true
|}.

Definition env_example : string → string := λ k,
  default EmptyString (assoc
    [ ("OIDC_ISSUER_URL", "https://idp.example"); ("OIDC_CLIENT_ID", "app");
      ("OIDC_CLIENT_SECRET", "s3cret"); ("BFF_EXTERNAL_URL", "https://app.example");
      ("SESSION_SECRET", "0123456789abcdef0123456789abcdef"); ("API_BASE_URL", "http://api.internal");
      ("API_PATH_PREFIX", "/api/"); ("STATIC_ASSETS_BASE_URL", "http://static.internal") ] k).

Lemma run_serves_witness :
  let R := table_runtime no_tables in
  fst <$> (run env_example start_world).1 = Some ":8080" ∧
  w_clock (run env_example start_world).2 = 2%nat ∧
  wp (run env_example) (λ res _, ∀ addr h, res = Some (addr, h) →
      ∃ cfg store p n deps proxy target,
        LoadBFF env_example = inl cfg ∧ newSessionStore cfg = Some store ∧
        oidc_NewProvider n (OIDCIssuerURL cfg) = Some p ∧
        h = gateway deps target proxy ∧
        Sessions deps = NewManager store (SessionCookieName cfg) (cfg_InsecureCookies cfg) ∧
        VerifyIDToken deps = Some (λ n raw, verifier_Verify n p (OIDCClientID cfg) raw ≫= claims_of) ∧
        InsecureCookies deps = cfg_InsecureCookies cfg ∧
        APIPathPrefix deps = cfg_APIPathPrefix cfg ∧ prefix_ok (APIPathPrefix deps) = true ∧
        ap_sessions proxy = Sessions deps ∧ ap_pathPrefix proxy = APIPathPrefix deps ∧
        ap_upstreamPathPrefix proxy = APIUpstreamPathPrefix cfg ∧
        url_Parse (APIBaseURL cfg) = Some (ap_target proxy) ∧
        url_Parse (StaticAssetsBaseURL cfg) = Some target) start_world.
Proof.
  intros R. split; [by vm_compute|]. split; [by vm_compute|].
  exact (run_serves env_example start_world).
Defined.

(** The root as the API prefix makes the router panic at start-up: the catch-all
    pattern would be registered twice. *)
Example root_prefix_panics :
  let R := table_runtime no_tables in
  normalizePathPrefix "/" = "/" ∧
  (run (λ k, if decide (k = "API_PATH_PREFIX") then "/" else env_example k) start_world).1 = None.
Proof. vm_compute. done. Qed.
